(* ===== verification/_CoqProject ===== *)
-Q . S2P
Prelude.v
ByteMem.v
Printf.v
Log.v
LinkedList.v
LinkedListRep.v
Queues.v
Pthread.v
PthreadSpec.v
PthreadInv.v
PthreadMutex.v
PthreadThms.v
PthreadWindows.v
PthreadLive.v
Block.v
Sfs.v
SfsBuf.v
SfsSpec.v
SfsInv.v
SfsNav.v
SfsOps.v
SfsInit.v
SfsLookup.v
SfsCreate.v
SfsNames.v
SfsFuse.v
SfsThms.v
SfsSession.v
Vm.v
VmSpec.v
VmElems.v
VmSwap.v
VmPages.v
VmPageOps.v
VmLoad.v
VmPlaces.v
VmFree.v
VmInit.v
VmArena.v
VmVictim.v
VmMalloc.v
VmProtect.v
VmThms.v
VmGrow.v
VmSwapFile.v
VmEvict.v
VmPaging.v
VmThreads.v
VmPrint.v
