(* ===== verification/Prelude.v ===== *)
(** * A verification library for the OSDesign repository

    The repository holds three programs of an operating systems course: a
    user-level thread library that replaces pthreads (src/my_pthread.c with its
    queues in src/LinkedList.c), a memory manager that replaces malloc and pages
    the memory of threads (src/vm.c, src/vm.h), and a FUSE file system on a disk
    image (src/filesystem/src/sfs.c on block.c).  The thread library allocates
    its structs, stacks and queue headers from the memory manager and calls it
    at every context switch; LinkedList.c takes its nodes, and the header that
    orderByOldest works with, from malloc of the C library, since it does not
    include vm.h.  The memory manager reads the running thread's id.  The file
    system is a program of its own.

    ** Files

    - Prelude: outcomes of C code (a value, a fault, exit, or out of fuel), the
      state monad [prog] over them, triples for partial correctness, machine
      integers, tactics.  ByteMem: memory as a map from addresses to bytes with
      little-endian loads and stores, memcpy, and what they leave alone.
      Printf: the conversions of printf that the sources use, a reader for the
      same formats, and the round trip between the two.
    - Log (Module Log: log.c over the text of the log file, and what a reader
      of the log gets back).
    - LinkedList (Module LinkedList: LinkedList.c as pointer code on a heap of
      nodes, handle cells and list headers; Module Queue: the abstract queues),
      LinkedListRep (representation of queues in the heap), Queues (each
      operation of LinkedList.c implements its abstract one; a [Class] with the
      laws that the thread library uses, and its instance).
    - Pthread (Module Pthread: my_pthread.c as a machine with the saved contexts
      of the threads, a timer and a log of the calls into vm.c; every function
      is one definition, split where a timer interrupt may fall, and [step]
      relates states), PthreadSpec (what each function does to abstract
      queues), PthreadInv (the invariant that no thread is lost), PthreadMutex
      (mutual exclusion), PthreadThms (behaviour of each operation),
      PthreadWindows (interrupts inside testAndSet and before the context switch
      of join), PthreadLive (which waiting threads get the processor).
    - Block (Module Block: block.c with pread and pwrite; [BlockOps] and
      [BlockLaws], the interface the file system is proved against, with the
      disk as instance), Sfs (Module Sfs: sfs.c on 512-byte buffers with the
      layout of its structs), SfsBuf (reading back what was written in a
      buffer), SfsSpec (disks as views of their blocks), SfsInv (the
      consistency of a file system), SfsNav (navPath against a recursive
      definition), SfsOps, SfsInit, SfsLookup, SfsCreate (the operations on
      views), SfsNames (names of entries, what a creation keeps, the listing of
      directories), SfsFuse (Module Fuse: the table of callbacks, sessions of
      requests, main), SfsThms (theorems on operations), SfsSession (theorems on
      sessions, listings and the command line).
    - Vm (Module Vm: vm.c on a byte memory, SpaceNodes at the offsets of the
      x86-64 ABI, the sizes of vm.h as a record with the instance [vm_h]),
      VmSpec (memory accesses that cannot fault, loops along lists of nodes),
      VmElems (the elements of a page, restorePointers), VmSwap (swapPages on
      bytes), VmPages (the page table and its view as a list of pages),
      VmPageOps (swapPages and findPage on that list), VmLoad (loadProcessPages
      on that list), VmPlaces (where the pages of a process are), VmFree
      (getFreePage), VmInit (init), VmArena (allocation and freeing of
      elements), VmVictim (the choice of a page to evict), VmMalloc (requests of
      threads), VmProtect (access to frames), VmThms (theorems), VmGrow (a
      process that needs a second page), VmSwapFile (the table of pages in the
      swap file), VmEvict (moving a page to the swap file),
      VmPaging (theorems on the SIGSEGV handler and on eviction), VmPrint (Module
      VmPrint: the functions that print memory, and their output).
    - VmThreads (Module Threads: what a context switch asks of the memory
      manager, accesses of threads with their page faults, and the abstract
      machine in which every thread has its own memory, which these implement).

    ** What is shown

    - Threads: in every execution, under every interleaving of timer interrupts
      at the places where signals are not blocked, the unfinished threads are
      exactly the running one and those in the run queue, the wait queues of the
      mutexes and the join queues, each in one place, as long as no join or exit
      gives up for want of another thread to switch to; when no interrupt falls
      inside testAndSet at most one thread holds a mutex.  With at most 150
      threads in the run queue, timer interrupts bring every one of them to the
      processor within a stated number of interrupts, through the reorderings by
      age, as long as no charge reaches 2^31; with yields in place of interrupts
      a thread that was charged more than the others can wait for ever.  The
      value a thread ends with is what every later join delivers.
      The functional behaviour of create, exit, join, lock, unlock and of a
      timer tick.  Where this fails: testAndSet is not atomic, an interrupt
      just before a context switch in join saves a context in the wrong struct
      and hangs the program, and join and lock with an empty run queue.
    - Queues: the pointer code implements insertion by key, sorting by age and
      first-in first-out on lists.  orderByOldest uses the header it gets from
      malloc without writing to it first: what a fresh header holds is a field of
      the heap ([fresh]), and the theorems about reordering assume that it is
      zeroed ([ok_fresh], in the representation of queues).
    - File system: formatting gives, and every creation keeps, a consistent
      disk (no block used twice, no entry that names a free inode); creation
      adds the name, and "." and ".." where the directory gets a new block, and
      no other lookup changes; navPath computes the recursive resolution;
      allocation is first-fit.  Through any session of requests the disk stays
      consistent and nothing in it is lost, and mounting it again changes
      nothing; requests that create nothing return and change nothing; listing
      a directory gives the names of its used entries in order, which are exactly
      those that can be looked up; main passes
      its arguments on.  Where this fails: directories with a full
      block, missing intermediate components, long names.
    - Memory manager: init builds a well-formed page table, OS area and shared
      area from any contents; swapPages, findPage, getFreePage and
      loadProcessPages are operations on the list of pages that keep the table
      well-formed and lose no page.  The contents of a page are the bytes of its
      frame outside the link fields of the elements that a walk by the sizes
      finds from its first byte; moving a page relinks these.  In a page that
      starts with data of the page before ([dataStartsAnotherPage]) the walk
      reads data, and the link fields it finds are data that moving the page
      overwrites (VmThms.swap_overwrites_data): what is said about contents below
      leaves these bytes out.  A
      process whose pages are in place but for the first and the last has all
      its pages in consecutive frames after loading; relinking a page
      terminates whatever it holds; malloc returns the free room of the first
      page of the running thread when the request fits there, wherever that page
      was; OS blocks do not
      overlap; memoryProtect protects exactly the frames of a process; the
      page chosen for eviction, and that it is in the swap file with its
      contents afterwards; the SIGSEGV handler brings the pages of the running
      thread to their frames; a request that does not fit in the only page of a
      thread gives it a second page behind the first.  Threads with the same
      number of pages, one or two, that use the same addresses have memories of
      their own, through any sequence of context switches and page faults, but for
      the link and size fields just named.
      What printMemory and printOSMemory print is a function of the pages and
      elements.  Where this fails: three or more pages out of place, threads
      with different numbers of pages, the room of nodes that createSpace and
      removeSpace miscount, pages that were evicted, a search that runs over the
      front of the table.
    - Log: a reader with the same formats gets the fields back from the text
      that log.c writes, within the ranges of the conversions; pointers are cut
      to 32 bits.

    ** Conventions

    Loops whose bound the code does not state take fuel and give [Timeout]
    when it runs out; the theorems about them give a result for every fuel
    above a stated bound: the number of nodes of a list, of pages of the table
    (1438 with the sizes of vm.h) or of bytes of a page, since each round
    consumes one of them.  The fuel of navPath is the length of the path and
    that of the searches in the maps of the file system the number of their
    blocks, which the code bounds in the same way.  An access outside the
    objects the program owns, and a NULL dereference, is [Fault].

    What the sources read without having written it is a parameter: the
    contents of uninitialised buffers and structs ([junk]), the index updateDir
    starts from, the headers orderByOldest gets from malloc, user, group and
    time.  malloc and myallocate are taken to succeed in the thread library.  Memory the thread library gets from the memory manager is zero, as
    it is in a fresh process; that vm.c does not clear it is stated there.
    Context switches, signals and the timer are modelled by what the code uses
    of them.  posix_memalign and the mapping of pages are modelled by the
    address they return and the set of pages without access; time passes in
    events of its own, and never backwards; the accesses of
    vm.c itself are not trapped.  The swap file is read and written whole.

    ** Not modelled

    fuse.h and config.h (third-party and generated; only struct fuse_context is
    used), the calls of sfs.c into log.c, which write text that nothing reads,
    and the tests and benchmarks, which are clients of the libraries.  The
    system calls and libfuse are parameters. *)

From stdpp Require Export base tactics list gmap numbers option fin_maps sorting.

#[export] Set Warnings "-clear-no-such-hyp".
#[global] Open Scope Z_scope.

Declare Scope os_scope.
Delimit Scope os_scope with os.
#[global] Open Scope os_scope.

Create HintDb os discriminated.
Create HintDb osrw.

(** ** Outcomes of C code

    A C function called in a state either returns a value and a new state,
    or leaves the defined behaviour of the language (a NULL dereference, a
    stray pointer), or calls [exit], or is still running when the fuel of a
    loop is used up. *)

Inductive outcome (A : Type) : Type :=
| Ret (a : A)
| Fault
| Halt (code : Z)
| Timeout.

Arguments Ret {A} a.
Arguments Fault {A}.
Arguments Halt {A} code.
Arguments Timeout {A}.

(** State-passing computations with these outcomes. *)
Definition prog (S A : Type) : Type := S -> outcome (A * S).

Definition p_ret {S A} (a : A) : prog S A := fun s => Ret (a, s).

Definition p_bind {S A B} (k : A -> prog S B) (m : prog S A) : prog S B :=
  fun s =>
    match m s with
    | Ret (a, s') => k a s'
    | Fault => Fault
    | Halt c => Halt c
    | Timeout => Timeout
    end.

#[export] Instance prog_ret S : MRet (prog S) := @p_ret S.
#[export] Instance prog_bind S : MBind (prog S) := @p_bind S.

Definition p_fault {S A} : prog S A := fun _ => Fault.
Definition p_halt {S A} (c : Z) : prog S A := fun _ => Halt c.
Definition p_timeout {S A} : prog S A := fun _ => Timeout.
Definition p_get {S} : prog S S := fun s => Ret (s, s).
Definition p_gets {S A} (f : S -> A) : prog S A := fun s => Ret (f s, s).
Definition p_modify {S} (f : S -> S) : prog S unit := fun s => Ret (tt, f s).

Section Bind.
Context {S A B : Type}.
Implicit Types (m : prog S A) (k : A -> prog S B).

Lemma bind_Ret m k s a s' :
  m s = Ret (a, s') -> (m ≫= k) s = k a s'.
Proof. unfold mbind, prog_bind, p_bind. by intros ->. Qed.

Lemma bind_Fault m k s : m s = Fault -> (m ≫= k) s = Fault.
Proof. unfold mbind, prog_bind, p_bind. by intros ->. Qed.

Lemma bind_Halt m k s c : m s = Halt c -> (m ≫= k) s = Halt c.
Proof. unfold mbind, prog_bind, p_bind. by intros ->. Qed.

Lemma bind_Timeout m k s : m s = Timeout -> (m ≫= k) s = Timeout.
Proof. unfold mbind, prog_bind, p_bind. by intros ->. Qed.

(** A bind returns exactly when its two halves do. *)
Lemma bind_inv m k s b s' :
  (m ≫= k) s = Ret (b, s') ->
  exists a s1, m s = Ret (a, s1) /\ k a s1 = Ret (b, s').
Proof.
  unfold mbind, prog_bind, p_bind.
  destruct (m s) as [[a s1]| | |] eqn:E; naive_solver.
Qed.
End Bind.

(** ** Hoare triples *)

(** Every run of [m] from a state in [P] that returns ends in [Q]. *)
Definition hoare {S A} (P : S -> Prop) (m : prog S A) (Q : A -> S -> Prop) : Prop :=
  forall s a s', P s -> m s = Ret (a, s') -> Q a s'.

Section Hoare.
Context {S : Type}.

Lemma hoare_ret {A} (a : A) (P : S -> Prop) : hoare P (mret a) (fun b s => b = a /\ P s).
Proof. by intros s b s' HP [= <- <-]. Qed.

Lemma hoare_bind {A B} (m : prog S A) (k : A -> prog S B) P R Q :
  hoare P m R -> (forall a, hoare (R a) (k a) Q) -> hoare P (m ≫= k) Q.
Proof. intros Hm Hk s b s' HP (a & s1 & E1 & E2)%bind_inv. eapply Hk; [by eapply Hm|done]. Qed.

Lemma hoare_conseq {A} (m : prog S A) (P P' : S -> Prop) (Q Q' : A -> S -> Prop) :
  hoare P' m Q' -> (forall s, P s -> P' s) -> (forall a s, Q' a s -> Q a s) -> hoare P m Q.
Proof. intros Hm HP HQ s a s' ??. eapply HQ, Hm; eauto. Qed.

Lemma hoare_get (P : S -> Prop) : hoare P p_get (fun a s => a = s /\ P s).
Proof. by intros s a s' HP [= <- <-]. Qed.

Lemma hoare_modify f (P : S -> Prop) (Q : unit -> S -> Prop) :
  (forall s, P s -> Q tt (f s)) -> hoare P (p_modify f) Q.
Proof. intros Hf s a s' HP [= <- <-]. auto. Qed.

Lemma hoare_fault {A} (P : S -> Prop) (Q : A -> S -> Prop) : hoare P p_fault Q.
Proof. by intros s a s'. Qed.

Lemma hoare_halt {A} c (P : S -> Prop) (Q : A -> S -> Prop) : hoare P (p_halt c) Q.
Proof. by intros s a s'. Qed.

Lemma hoare_timeout {A} (P : S -> Prop) (Q : A -> S -> Prop) : hoare P p_timeout Q.
Proof. by intros s a s'. Qed.

(** A pure fact of the precondition becomes a hypothesis. *)
Lemma hoare_pure {A} (phi : Prop) (P : S -> Prop) (m : prog S A) Q :
  (phi -> hoare P m Q) -> hoare (fun s => phi /\ P s) m Q.
Proof. intros Hm s a s' [??]. by apply Hm. Qed.
End Hoare.

#[export] Hint Resolve hoare_fault hoare_halt hoare_timeout : os.

(** ** Machine integers *)

(** Reduction to an unsigned, respectively a two's complement, integer of
    [w] bits. *)
Definition wrapu (w z : Z) : Z := z `mod` 2 ^ w.
Definition wraps (w z : Z) : Z := (z + 2 ^ (w - 1)) `mod` 2 ^ w - 2 ^ (w - 1).

Lemma wrapu_small w z : 0 <= z < 2 ^ w -> wrapu w z = z.
Proof. intros. unfold wrapu. by apply Z.mod_small. Qed.

Lemma wrapu_range w z : 0 <= w -> 0 <= wrapu w z < 2 ^ w.
Proof. intros. unfold wrapu. apply Z.mod_pos_bound. lia. Qed.

Lemma wraps_small w z :
  0 < w -> - 2 ^ (w - 1) <= z < 2 ^ (w - 1) -> wraps w z = z.
Proof.
  intros Hw [Hl Hu]. unfold wraps.
  assert (2 ^ w = 2 * 2 ^ (w - 1)) as E.
  { rewrite <- Z.pow_succ_r by lia. f_equal. lia. }
  rewrite Z.mod_small; lia.
Qed.

Lemma wraps_range w z :
  0 < w -> - 2 ^ (w - 1) <= wraps w z < 2 ^ (w - 1).
Proof.
  intros Hw. unfold wraps.
  assert (2 ^ w = 2 * 2 ^ (w - 1)) as E.
  { rewrite <- Z.pow_succ_r by lia. f_equal. lia. }
  pose proof (Z.mod_pos_bound (z + 2 ^ (w - 1)) (2 ^ w)). lia.
Qed.

Lemma wraps_mod w z : 0 < w -> wraps w (z `mod` 2 ^ w) = wraps w z.
Proof.
  intros Hw. unfold wraps. f_equal.
  by rewrite Zplus_mod_idemp_l.
Qed.

#[export] Hint Resolve wrapu_range wraps_range : os.

(** ** Tactics *)

(** Split the conjunctions and existentials of the context. *)
Ltac destr_ands :=
  repeat match goal with
  | H : _ /\ _ |- _ => destruct H
  | H : exists _, _ |- _ => destruct H
  end.

(** Take the bind at the head of an execution hypothesis apart. *)
Ltac step_inv H :=
  let a := fresh "a" in let s := fresh "s" in
  let E := fresh "E" in
  apply bind_inv in H as (a & s & E & H).

(** Run the head of the bind in the goal with a known execution. *)
Tactic Notation "step_by" uconstr(L) := erewrite bind_Ret; [|eapply L].
