(* ===== verification/ByteMem.v ===== *)
(** * Byte-addressed memory

    Memory is a finite map from addresses to bytes; the integers and structs
    of the C code are read and written through little-endian loads and stores
    of 1, 4 or 8 bytes, and [memcpy] copies bytes.  Every claim about structs
    that overlap, are copied with the page that holds them or are read at the
    wrong place is therefore a claim about the bytes themselves. *)

From S2P Require Import Prelude.

Abbreviation bytes := (gmap Z Z).

(** A byte that was never written reads as zero; a theorem that must not rely
    on that quantifies over the initial contents. *)
Definition rd8 (m : bytes) (a : Z) : Z := default 0 (m !! a) `mod` 256.

Fixpoint ld (n : nat) (m : bytes) (a : Z) : Z :=
  match n with
  | O => 0
  | S n' => rd8 m a + 256 * ld n' m (a + 1)
  end.

Fixpoint st (n : nat) (m : bytes) (a v : Z) : bytes :=
  match n with
  | O => m
  | S n' => st n' (<[a := v `mod` 256]> m) (a + 1) (v / 256)
  end.

(** [blit n m d m' s]: copy the [n] bytes at [s] of [m'] to [d] in [m]. *)
Fixpoint blit (n : nat) (m : bytes) (d : Z) (m' : bytes) (s : Z) : bytes :=
  match n with
  | O => m
  | S n' => blit n' (<[d := rd8 m' s]> m) (d + 1) m' (s + 1)
  end.

Definition memcpy (m : bytes) (d s n : Z) : bytes := blit (Z.to_nat n) m d m s.

Fixpoint fill (n : nat) (m : bytes) (a v : Z) : bytes :=
  match n with
  | O => m
  | S n' => fill n' (<[a := v `mod` 256]> m) (a + 1) v
  end.

(** Write a list of bytes. *)
Fixpoint st_list (m : bytes) (a : Z) (l : list Z) : bytes :=
  match l with
  | [] => m
  | v :: l' => st_list (<[a := v `mod` 256]> m) (a + 1) l'
  end.

(** ** Single bytes *)

Lemma rd8_range m a : 0 <= rd8 m a < 256.
Proof. apply Z.mod_pos_bound. lia. Qed.
#[export] Hint Resolve rd8_range : os.

Lemma rd8_insert m a v b :
  rd8 (<[a := v `mod` 256]> m) b = if decide (a = b) then v `mod` 256 else rd8 m b.
Proof.
  unfold rd8. case_decide as E.
  - subst. rewrite lookup_insert_eq. simpl. by rewrite Z.mod_mod.
  - by rewrite lookup_insert_ne.
Qed.

Lemma rd8_st n m a v b :
  rd8 (st n m a v) b =
    if decide (a <= b < a + Z.of_nat n) then (v / 256 ^ (b - a)) `mod` 256 else rd8 m b.
Proof.
  revert m a v. induction n as [|n IH]; intros m a v; cbn [st].
  { case_decide; [lia|done]. }
  rewrite IH, rd8_insert.
  destruct (decide (a = b)) as [->|Hne].
  - rewrite decide_False by lia. rewrite decide_True by lia.
    by rewrite Z.sub_diag, Z.pow_0_r, Z.div_1_r.
  - destruct (decide (a + 1 <= b < a + 1 + Z.of_nat n)).
    + rewrite decide_True by lia. rewrite Z.div_div by lia. f_equal. f_equal.
      rewrite <- Z.pow_succ_r by lia. f_equal. lia.
    + by rewrite decide_False by lia.
Qed.

Lemma rd8_blit n m d m' s b :
  rd8 (blit n m d m' s) b =
    if decide (d <= b < d + Z.of_nat n) then rd8 m' (s + (b - d)) else rd8 m b.
Proof.
  revert m d s. induction n as [|n IH]; intros m d s; cbn [blit].
  { case_decide; [lia|done]. }
  rewrite IH.
  assert (rd8 (<[d := rd8 m' s]> m) b = if decide (d = b) then rd8 m' s else rd8 m b) as E.
  { rewrite <- (Z.mod_small (rd8 m' s) 256) at 1 by auto with os.
    rewrite rd8_insert. case_decide; [|done]. apply Z.mod_small; auto with os. }
  rewrite E.
  destruct (decide (d = b)) as [->|Hne].
  - rewrite decide_False by lia. rewrite decide_True by lia. f_equal. lia.
  - destruct (decide (d + 1 <= b < d + 1 + Z.of_nat n)).
    + rewrite decide_True by lia. f_equal. lia.
    + by rewrite decide_False by lia.
Qed.

Lemma rd8_memcpy m d s n b :
  0 <= n ->
  rd8 (memcpy m d s n) b = if decide (d <= b < d + n) then rd8 m (s + (b - d)) else rd8 m b.
Proof. intros. unfold memcpy. rewrite rd8_blit, Z2Nat.id by lia. done. Qed.

Lemma rd8_fill n m a v b :
  rd8 (fill n m a v) b =
    if decide (a <= b < a + Z.of_nat n) then v `mod` 256 else rd8 m b.
Proof.
  revert m a. induction n as [|n IH]; intros m a; cbn [fill].
  { case_decide; [lia|done]. }
  rewrite IH, rd8_insert.
  repeat case_decide; try lia; done.
Qed.

Lemma rd8_st_list m a l b :
  rd8 (st_list m a l) b =
    if decide (a <= b < a + Z.of_nat (length l))
    then default 0 (l !! Z.to_nat (b - a)) `mod` 256 else rd8 m b.
Proof.
  revert m a. induction l as [|v l IH]; intros m a; cbn [st_list length].
  { case_decide; [lia|done]. }
  rewrite IH, rd8_insert.
  destruct (decide (a = b)) as [->|Hne].
  - rewrite decide_False by lia. rewrite decide_True by lia.
    by rewrite Z.sub_diag.
  - destruct (decide (a + 1 <= b < a + 1 + Z.of_nat (length l))).
    + rewrite decide_True by lia.
      replace (Z.to_nat (b - a)) with (S (Z.to_nat (b - (a + 1)))) by lia. done.
    + by rewrite decide_False by lia.
Qed.

(** ** Loads *)

Lemma ld_range n m a : 0 <= ld n m a < 256 ^ Z.of_nat n.
Proof.
  revert a. induction n as [|n IH]; intros a; cbn [ld]; [done|].
  rewrite Nat2Z.inj_succ, Z.pow_succ_r by lia.
  specialize (IH (a + 1)). pose proof (rd8_range m a). nia.
Qed.

Lemma ld_ext n m m' a a' :
  (forall i, 0 <= i < Z.of_nat n -> rd8 m (a + i) = rd8 m' (a' + i)) ->
  ld n m a = ld n m' a'.
Proof.
  revert a a'. induction n as [|n IH]; intros a a' H; cbn [ld]; [done|].
  f_equal.
  - specialize (H 0). rewrite !Z.add_0_r in H. apply H. lia.
  - f_equal. apply IH. intros i Hi.
    rewrite <- !Z.add_assoc. apply (H (1 + i)). lia.
Qed.

Lemma ld_bytes n m a v :
  (forall i, 0 <= i < Z.of_nat n -> rd8 m (a + i) = (v / 256 ^ i) `mod` 256) ->
  ld n m a = v `mod` 256 ^ Z.of_nat n.
Proof.
  revert a v. induction n as [|n IH]; intros a v H; cbn [ld].
  { by rewrite Z.pow_0_r, Z.mod_1_r. }
  rewrite (IH (a + 1) (v / 256)).
  2:{ intros i Hi. rewrite <- Z.add_assoc, (H (1 + i)) by lia.
      rewrite Z.div_div by lia. rewrite Z.pow_add_r by lia. done. }
  rewrite <- (Z.add_0_r a) at 1. rewrite (H 0) by lia.
  rewrite Z.pow_0_r, Z.div_1_r, Nat2Z.inj_succ, Z.pow_succ_r by lia.
  rewrite Z.rem_mul_r by lia. done.
Qed.

Lemma ld_st_same n m a v : ld n (st n m a v) a = v `mod` 256 ^ Z.of_nat n.
Proof.
  apply ld_bytes. intros i Hi. rewrite rd8_st, decide_True by lia.
  do 2 f_equal. f_equal. lia.
Qed.

Lemma ld_st_disj n k m a b v :
  (b + Z.of_nat k <= a \/ a + Z.of_nat n <= b) ->
  ld k (st n m a v) b = ld k m b.
Proof. intros H. apply ld_ext. intros i Hi. by rewrite rd8_st, decide_False by lia. Qed.

Lemma ld_blit_in n k m d m' s b :
  d <= b -> b + Z.of_nat k <= d + Z.of_nat n ->
  ld k (blit n m d m' s) b = ld k m' (s + (b - d)).
Proof.
  intros ??. apply ld_ext. intros i Hi. rewrite rd8_blit, decide_True by lia.
  f_equal. lia.
Qed.

Lemma ld_blit_disj n k m d m' s b :
  (b + Z.of_nat k <= d \/ d + Z.of_nat n <= b) ->
  ld k (blit n m d m' s) b = ld k m b.
Proof. intros. apply ld_ext. intros i Hi. by rewrite rd8_blit, decide_False by lia. Qed.

Lemma ld_fill_disj n k m a v b :
  (b + Z.of_nat k <= a \/ a + Z.of_nat n <= b) ->
  ld k (fill n m a v) b = ld k m b.
Proof. intros. apply ld_ext. intros i Hi. by rewrite rd8_fill, decide_False by lia. Qed.

Lemma ld_st_list_disj k m a l b :
  (b + Z.of_nat k <= a \/ a + Z.of_nat (length l) <= b) ->
  ld k (st_list m a l) b = ld k m b.
Proof. intros. apply ld_ext. intros i Hi. by rewrite rd8_st_list, decide_False by lia. Qed.

(** The byte ranges two memories agree on. *)
Definition agree_on (lo hi : Z) (m m' : bytes) : Prop :=
  forall a, lo <= a < hi -> rd8 m a = rd8 m' a.

Lemma ld_agree n m m' a lo hi :
  agree_on lo hi m m' -> lo <= a -> a + Z.of_nat n <= hi -> ld n m a = ld n m' a.
Proof. intros H ??. apply ld_ext. intros i Hi. apply H. lia. Qed.

(** Memories that agree outside [lo, hi). *)
Definition frame (lo hi : Z) (m m' : bytes) : Prop :=
  forall a, ~ (lo <= a < hi) -> rd8 m a = rd8 m' a.

Lemma frame_refl lo hi m : frame lo hi m m.
Proof. done. Qed.

Lemma frame_trans lo hi m1 m2 m3 :
  frame lo hi m1 m2 -> frame lo hi m2 m3 -> frame lo hi m1 m3.
Proof. intros H1 H2 a Ha. rewrite H1 by done. by apply H2. Qed.

Lemma frame_weaken lo hi lo' hi' m m' :
  frame lo hi m m' -> lo' <= lo -> hi <= hi' -> frame lo' hi' m m'.
Proof. intros H ?? a Ha. apply H. lia. Qed.

Lemma frame_st n m a v lo hi :
  lo <= a -> a + Z.of_nat n <= hi -> frame lo hi m (st n m a v).
Proof. intros ?? b Hb. by rewrite rd8_st, decide_False by lia. Qed.

Lemma frame_blit n m d m' s lo hi :
  lo <= d -> d + Z.of_nat n <= hi -> frame lo hi m (blit n m d m' s).
Proof. intros ?? b Hb. by rewrite rd8_blit, decide_False by lia. Qed.

Lemma frame_ld lo hi m m' n a :
  frame lo hi m m' -> (a + Z.of_nat n <= lo \/ hi <= a) -> ld n m' a = ld n m a.
Proof. intros H Ha. apply ld_ext. intros i Hi. symmetry. apply H. lia. Qed.

#[export] Hint Resolve frame_refl : os.

#[global] Arguments ld : simpl never.
#[global] Arguments st : simpl never.
#[global] Arguments blit : simpl never.
#[global] Arguments fill : simpl never.
#[global] Arguments st_list : simpl never.
