(* ===== verification/Printf.v ===== *)
(** * Formatted output: the part of printf the sources use

    A format is interpreted against the eight-byte slots in which the x86-64
    calling convention passes variable arguments: [%d], [%x] and [%o] look at
    the low 32 bits of a slot ([%i] is [%d]), with [l] or [ll] at all 64, as [%p]
    does, and [%s] expects a string.  [scan] is the reader for the same formats. *)

From Stdlib Require Import Ascii.
From stdpp Require Import strings.
From S2P Require Import Prelude.
#[local] Open Scope Z_scope.

Module Printf.

(** ** Digits *)

Definition digit (n : Z) : ascii := ascii_of_N (Z.to_N (if n <? 10 then 48 + n else 87 + n)).

Definition digit_value (base : Z) (c : ascii) : option Z :=
  let n := Z.of_N (N_of_ascii c) in
  let v := if (48 <=? n) && (n <=? 57) then n - 48
           else if (97 <=? n) && (n <=? 102) then n - 87 else base in
  if v <? base then Some v else None.

(** The digits of [n], put in front of [rest]. *)
Fixpoint digits (fuel : nat) (base n : Z) (rest : string) : string :=
  match fuel with
  | O => rest
  | S f =>
      let rest' := String (digit (n `mod` base)) rest in
      if n <? base then rest' else digits f base (n / base) rest'
  end.

(** 64 digits are enough for a 64-bit number in every base. *)
Definition number (base n : Z) : string := digits 64 base n EmptyString.

(** ** Conversions *)

Inductive kind := Dec | Hex | Oct | Ptr | Str.

(** A conversion as far as it has been read: the [0] flag, the width and the
    number of [l]s. *)
Record spec := mkSpec { zero : bool; width : nat; longs : nat }.

Definition start : spec := mkSpec false 0 0.

(** An argument: an eight-byte slot, or a pointer to a string. *)
Inductive arg := Slot (v : Z) | Text (s : string).

Definition bits (d : spec) : Z := if (longs d =? 0)%nat then 32 else 64.

Definition base_of (k : kind) : Z := match k with Hex | Ptr => 16 | Oct => 8 | _ => 10 end.

(** The number a conversion takes from a slot. *)
Definition taken_value (k : kind) (d : spec) (v : Z) : Z :=
  match k with Dec => wraps (bits d) v | Ptr => wrapu 64 v | _ => wrapu (bits d) v end.

Fixpoint repeat_char (n : nat) (c : ascii) : string :=
  match n with O => EmptyString | S n' => String c (repeat_char n' c) end.

Definition pad (d : spec) (sign body : string) : string :=
  let n := (width d - (String.length sign + String.length body))%nat in
  if zero d then sign +:+ repeat_char n "0" +:+ body else repeat_char n " " +:+ sign +:+ body.

Definition convert (k : kind) (d : spec) (a : arg) : option string :=
  match k, a with
  | Str, Text s => Some (pad (mkSpec false (width d) 0) EmptyString s)
  | Str, Slot _ | _, Text _ => None
  | Ptr, Slot v =>
      let n := taken_value k d v in
      Some (pad (mkSpec false (width d) 0) EmptyString (if n =? 0 then "(nil)" else "0x" +:+ number 16 n))
  | _, Slot v =>
      let n := taken_value k d v in
      Some (pad d (if n <? 0 then "-" else EmptyString) (number (base_of k) (Z.abs n)))
  end.

(** One more character of a conversion. *)
Inductive progress := More (d : spec) | Complete (k : kind) | Percent | Bad.

Definition advance (d : spec) (c : ascii) : progress :=
  if decide (c = "d"%char) then Complete Dec
  else if decide (c = "i"%char) then Complete Dec
  else if decide (c = "x"%char) then Complete Hex
  else if decide (c = "o"%char) then Complete Oct
  else if decide (c = "p"%char) then Complete Ptr
  else if decide (c = "s"%char) then Complete Str
  else if decide (c = "%"%char) then Percent
  else if decide (c = "l"%char) then More (mkSpec (zero d) (width d) (S (longs d)))
  else if bool_decide (c = "0"%char) && (width d =? 0)%nat then More (mkSpec true 0 (longs d))
  else
    match digit_value 10 c with
    | Some v => More (mkSpec (zero d) (10 * width d + Z.to_nat v) (longs d))
    | None => Bad
    end.

(** ** vfprintf

    [None] when the behaviour is undefined: an argument is missing or of the
    wrong kind, or the conversion is not one of these. *)
Fixpoint vfprintf (mode : option spec) (fmt : string) (ap : list arg) : option string :=
  match fmt, mode with
  | EmptyString, None => Some EmptyString
  | EmptyString, Some _ => None
  | String c fmt', None =>
      if decide (c = "%"%char) then vfprintf (Some start) fmt' ap
      else String c <$> vfprintf None fmt' ap
  | String c fmt', Some d =>
      match advance d c with
      | More d' => vfprintf (Some d') fmt' ap
      | Percent => String "%" <$> vfprintf None fmt' ap
      | Bad => None
      | Complete k =>
          match ap with
          | [] => None
          | a :: ap' =>
              s ← convert k d a;
              r ← vfprintf None fmt' ap';
              Some (s +:+ r)
          end
      end
  end.

Definition sprintf (fmt : string) (ap : list arg) : option string := vfprintf None fmt ap.

(** Output to a stream whose contents are the state. *)
Definition fprintf (format : string) (ap : list arg) : prog string unit := fun out =>
  match sprintf format ap with
  | Some s => Ret (tt, out +:+ s)
  | None => Fault
  end.

(** ** Reading back *)

(** The longest run of digits at the front, as a number, and the rest. *)
Fixpoint scan_digits (base acc : Z) (s : string) : Z * string :=
  match s with
  | String c s' =>
      match digit_value base c with
      | Some v => scan_digits base (base * acc + v) s'
      | None => (acc, s)
      end
  | EmptyString => (acc, s)
  end.

Fixpoint skip_spaces (s : string) : string :=
  match s with
  | String c s' => if decide (c = " "%char) then skip_spaces s' else s
  | EmptyString => EmptyString
  end.

Definition scan_number (base : Z) (s : string) : Z * string :=
  match skip_spaces s with
  | String c s' =>
      if decide (c = "-"%char) then let (n, r) := scan_digits base 0 s' in (- n, r)
      else scan_digits base 0 (String c s')
  | EmptyString => (0, EmptyString)
  end.

(** The numbers of a text that was printed with [fmt]. *)
Fixpoint scan (mode : option spec) (fmt s : string) : option (list Z) :=
  match fmt, mode with
  | EmptyString, None => if decide (s = EmptyString) then Some [] else None
  | EmptyString, Some _ => None
  | String c fmt', None =>
      if decide (c = "%"%char) then scan (Some start) fmt' s
      else
        match s with
        | String c' s' => if decide (c = c') then scan None fmt' s' else None
        | EmptyString => None
        end
  | String c fmt', Some d =>
      match advance d c with
      | More d' => scan (Some d') fmt' s
      | Complete (Ptr | Str) | Percent | Bad => None
      | Complete k =>
          let (n, s') := scan_number (base_of k) s in
          r ← scan None fmt' s'; Some (n :: r)
      end
  end.

(** Every number is followed by a character that is no digit of its base, and
    there are no strings or pointers. *)
Fixpoint readable (mode : option spec) (fmt : string) : bool :=
  match fmt, mode with
  | EmptyString, None => true
  | EmptyString, Some _ => false
  | String c fmt', None =>
      if decide (c = "%"%char) then readable (Some start) fmt' else readable None fmt'
  | String c fmt', Some d =>
      match advance d c with
      | More d' => readable (Some d') fmt'
      | Complete (Ptr | Str) | Percent | Bad => false
      | Complete k =>
          match fmt' with
          | String c' _ =>
              bool_decide (c' <> "%"%char) && bool_decide (digit_value (base_of k) c' = None) &&
              readable None fmt'
          | EmptyString => false
          end
      end
  end.

(** The numbers the conversions of [fmt] take from the slots. *)
Fixpoint values (mode : option spec) (fmt : string) (vs : list Z) : list Z :=
  match fmt, mode with
  | EmptyString, _ => []
  | String c fmt', None =>
      if decide (c = "%"%char) then values (Some start) fmt' vs else values None fmt' vs
  | String c fmt', Some d =>
      match advance d c with
      | More d' => values (Some d') fmt' vs
      | Complete k =>
          match vs with
          | v :: vs' => taken_value k d v :: values None fmt' vs'
          | [] => []
          end
      | Percent | Bad => values None fmt' vs
      end
  end.

(** The number of arguments [fmt] asks for. *)
Fixpoint arity (mode : option spec) (fmt : string) : nat :=
  match fmt, mode with
  | EmptyString, _ => O
  | String c fmt', None =>
      if decide (c = "%"%char) then arity (Some start) fmt' else arity None fmt'
  | String c fmt', Some d =>
      match advance d c with
      | More d' => arity (Some d') fmt'
      | Complete _ => S (arity None fmt')
      | Percent | Bad => arity None fmt'
      end
  end.

End Printf.

Import Printf.

#[local] Arguments String.append !_ _ / : simpl nomatch.

(** ** Digits are read back *)

Lemma digit_value_digit base n : 0 <= n < base -> base <= 16 -> digit_value base (digit n) = Some n.
Proof.
  intros Hn Hb. unfold digit_value, digit. destruct (Z.ltb_spec n 10).
  - rewrite N_ascii_embedding by lia. rewrite Z2N.id by lia.
    destruct (Z.leb_spec 48 (48 + n)); [|lia]. destruct (Z.leb_spec (48 + n) 57); [|lia]. cbn.
    destruct (Z.ltb_spec (48 + n - 48) base); [|lia]. f_equal. lia.
  - rewrite N_ascii_embedding by lia. rewrite Z2N.id by lia.
    destruct (Z.leb_spec (87 + n) 57); [lia|]. rewrite andb_false_r.
    destruct (Z.leb_spec 97 (87 + n)); [|lia]. destruct (Z.leb_spec (87 + n) 102); [|lia]. cbn.
    destruct (Z.ltb_spec (87 + n - 87) base); [|lia]. f_equal. lia.
Qed.

Lemma digits_head fuel base n rest :
  2 <= base <= 16 -> 0 <= n ->
  exists c s, digits (S fuel) base n rest = String c s /\ is_Some (digit_value base c).
Proof.
  intros Hb. revert n rest. induction fuel as [|f IH]; intros n rest Hn; cbn [digits];
    pose proof (Z.mod_pos_bound n base).
  - destruct (n <? base); eexists _, _; (split; [done|]); rewrite digit_value_digit by lia; done.
  - destruct (n <? base).
    + eexists _, _. split; [done|]. by rewrite digit_value_digit by lia.
    + apply IH. apply Z.div_pos; lia.
Qed.

Lemma scan_digits_digits fuel base n rest :
  2 <= base <= 16 -> 0 <= n < base ^ Z.of_nat fuel -> (0 < fuel)%nat ->
  scan_digits base 0 (digits fuel base n rest) = scan_digits base n rest.
Proof.
  intros Hb. revert n rest. induction fuel as [|f IH]; intros n rest Hn Hf; [lia|]. cbn [digits].
  pose proof (Z.mod_pos_bound n base). pose proof (Z.div_mod n base).
  destruct (Z.ltb_spec n base).
  - cbn [scan_digits]. rewrite digit_value_digit by lia. rewrite Z.mod_small by lia. f_equal. lia.
  - rewrite Nat2Z.inj_succ, Z.pow_succ_r in Hn by lia.
    assert (n / base < base ^ Z.of_nat f) by (apply Z.div_lt_upper_bound; lia).
    destruct f as [|f]; [simpl in *; lia|].
    rewrite IH; [|split; [apply Z.div_pos; lia|done]|lia].
    cbn [scan_digits]. rewrite digit_value_digit by lia. f_equal. lia.
Qed.

(** The text [rest] does not go on with a digit. *)
Definition stops (base : Z) (rest : string) : Prop :=
  match rest with String c _ => digit_value base c = None | EmptyString => True end.

Lemma scan_digits_stop base n rest : stops base rest -> scan_digits base n rest = (n, rest).
Proof. destruct rest as [|c rest]; simpl; [done|]. by intros ->. Qed.

Lemma string_app_assoc (s t u : string) : (s +:+ t) +:+ u = s +:+ (t +:+ u).
Proof. induction s as [|c s IH]; simpl; congruence. Qed.

Lemma digits_app fuel base n rest t :
  digits fuel base n rest +:+ t = digits fuel base n (rest +:+ t).
Proof.
  revert n rest. induction fuel as [|f IH]; intros n rest; cbn [digits]; [done|].
  destruct (n <? base); [done|]. by rewrite IH.
Qed.

Lemma scan_zeros base m s :
  2 <= base <= 16 -> scan_digits base 0 (repeat_char m "0" +:+ s) = scan_digits base 0 s.
Proof.
  intros Hb. induction m as [|m IH]; [done|]. cbn [repeat_char String.append scan_digits].
  change "0"%char with (digit 0). rewrite digit_value_digit by lia.
  replace (base * 0 + 0) with 0 by lia. done.
Qed.

Lemma skip_repeat m s : skip_spaces (repeat_char m " " +:+ s) = skip_spaces s.
Proof. induction m as [|m IH]; [done|]. cbn. done. Qed.

(** A digit is neither a space nor a sign. *)
Lemma digit_not_sign base c :
  is_Some (digit_value base c) -> base <= 16 -> c <> " "%char /\ c <> "-"%char.
Proof.
  intros [v Hv] Hb. split; intros ->; unfold digit_value in Hv; simpl in Hv;
    rewrite Z.ltb_irrefl in Hv; done.
Qed.

(** The digits of a number, with zeros in front of them. *)
Lemma scan_body base m n rest :
  2 <= base <= 16 -> 0 <= n < 2 ^ 64 -> stops base rest ->
  scan_digits base 0 (repeat_char m "0" +:+ number base n +:+ rest) = (n, rest).
Proof.
  intros Hb Hn Hs. rewrite scan_zeros by done. unfold number. rewrite digits_app.
  rewrite scan_digits_digits; [by apply scan_digits_stop|done| |lia].
  split; [lia|]. pose proof (Z.pow_le_mono_l 2 base 64). change (Z.of_nat 64) with 64. lia.
Qed.

Lemma body_head base m n rest :
  2 <= base <= 16 -> 0 <= n ->
  exists c s, repeat_char m "0" +:+ number base n +:+ rest = String c s /\
    c <> " "%char /\ c <> "-"%char.
Proof.
  intros Hb Hn. destruct m as [|m]; [|by eexists _, _]. cbn [repeat_char String.append].
  destruct (digits_head 63 base n EmptyString Hb Hn) as (c & s & E & Hc).
  unfold number. rewrite E. cbn [String.append]. eexists _, _. split; [done|].
  apply (digit_not_sign base); [done|lia].
Qed.

Lemma scan_unsigned base m n rest :
  2 <= base <= 16 -> 0 <= n < 2 ^ 64 -> stops base rest ->
  scan_number base (repeat_char m "0" +:+ number base n +:+ rest) = (n, rest).
Proof.
  intros Hb Hn Hs. unfold scan_number.
  pose proof (scan_body base m n rest Hb Hn Hs) as E.
  destruct (body_head base m n rest Hb ltac:(lia)) as (c & s & Ec & Hsp & Hmi). rewrite Ec in *.
  cbn [skip_spaces]. rewrite decide_False by done. by rewrite decide_False by done.
Qed.

Lemma scan_signed base m n rest :
  2 <= base <= 16 -> 0 <= n < 2 ^ 64 -> stops base rest ->
  scan_number base (String "-" (repeat_char m "0" +:+ number base n +:+ rest)) = (- n, rest).
Proof.
  intros Hb Hn Hs. unfold scan_number. cbn [skip_spaces]. rewrite decide_False by done.
  rewrite decide_True by done. by rewrite scan_body.
Qed.

Lemma skip_scan base m s : scan_number base (repeat_char m " " +:+ s) = scan_number base s.
Proof. unfold scan_number. by rewrite skip_repeat. Qed.

(** A printed number is read back. *)
Lemma scan_pad base d n rest :
  2 <= base <= 16 -> - 2 ^ 64 < n < 2 ^ 64 -> stops base rest ->
  scan_number base (pad d (if n <? 0 then "-" else EmptyString) (number base (Z.abs n)) +:+ rest)
    = (n, rest).
Proof.
  intros Hb Hn Hs. unfold pad. set (m := (width d - _)%nat). destruct (zero d).
  - rewrite !string_app_assoc. destruct (Z.ltb_spec n 0); cbn [String.append].
    + rewrite scan_signed by (done || lia). f_equal. lia.
    + rewrite scan_unsigned by (done || lia). f_equal. lia.
  - rewrite !string_app_assoc, skip_scan. destruct (Z.ltb_spec n 0); cbn [String.append].
    + etrans; [apply (scan_signed base 0); done || lia|]. f_equal. lia.
    + etrans; [apply (scan_unsigned base 0); done || lia|]. f_equal. lia.
Qed.

Lemma taken_value_bound k d v : - 2 ^ 64 < taken_value k d v < 2 ^ 64.
Proof.
  unfold taken_value, bits. destruct k, (longs d =? 0)%nat;
    try (pose proof (wraps_range 32 v); lia); try (pose proof (wraps_range 64 v); lia);
    try (pose proof (wrapu_range 32 v); lia); pose proof (wrapu_range 64 v); lia.
Qed.

(** ** A whole format *)

Lemma base_of_bounds k : 2 <= base_of k <= 16.
Proof. destruct k; simpl; lia. Qed.

(** Printing a readable format with enough slots succeeds, and [scan] finds
    the numbers again. *)
Lemma scan_vfprintf fmt mode vs :
  readable mode fmt = true -> length vs = arity mode fmt ->
  exists s, vfprintf mode fmt (Slot <$> vs) = Some s /\ scan mode fmt s = Some (values mode fmt vs).
Proof.
  revert mode vs. induction fmt as [|c fmt IH]; intros mode vs Hr Hl; cbn in *.
  { destruct mode; [done|]. by exists EmptyString. }
  destruct mode as [d|].
  2:{ case_decide; [by apply IH|]. destruct (IH None vs Hr Hl) as (s & -> & Es).
      exists (String c s). split; [done|]. by rewrite decide_True. }
  destruct (advance d c) as [d'|k| |] eqn:Ea; [by apply IH| |done|done].
  assert (exists c' f', fmt = String c' f' /\ c' <> "%"%char /\ digit_value (base_of k) c' = None /\
    readable None fmt = true /\ k <> Str /\ k <> Ptr) as (c' & f' & Ef & Hc' & Hd & Hr' & Hk & Hk').
  { destruct k; try done; destruct fmt as [|c' f']; try done;
      apply andb_prop in Hr as [[?%bool_decide_eq_true ?%bool_decide_eq_true]%andb_prop Hr];
      by eexists _, _. }
  destruct vs as [|v vs]; [done|]. injection Hl as Hl.
  destruct (IH None vs Hr' Hl) as (s & Ep & Es).
  assert (exists s', s = String c' s') as [s' ->].
  { rewrite Ef in Ep. cbn in Ep. rewrite decide_False in Ep by done.
    destruct (vfprintf None f' (Slot <$> vs)); [|done]. injection Ep as <-. eauto. }
  pose proof (taken_value_bound k d v) as Hb.
  pose proof (scan_pad (base_of k) d (taken_value k d v) (String c' s') (base_of_bounds k) Hb Hd) as E.
  rewrite fmap_cons, Ep. destruct k; try done; cbn [convert mbind option_bind];
    (eexists; split; [done|]); cbn [base_of] in *; rewrite E; by rewrite Es.
Qed.

(** Formats are printed one after the other. *)
Lemma vfprintf_app f1 f2 mode a1 a2 s1 s2 :
  vfprintf mode f1 a1 = Some s1 -> length a1 = arity mode f1 -> vfprintf None f2 a2 = Some s2 ->
  vfprintf mode (f1 +:+ f2) (a1 ++ a2) = Some (s1 +:+ s2).
Proof.
  revert mode a1 s1. induction f1 as [|c f1 IH]; intros mode a1 s1 H1 Hl H2; cbn in *.
  { destruct mode; [done|]. injection H1 as <-. by destruct a1. }
  destruct mode as [d|].
  - destruct (advance d c) as [d'|k| |]; [by apply IH| |..].
    + destruct a1 as [|a a1]; [done|]. injection Hl as Hl. cbn.
      destruct (convert k d a) as [s|]; [|done]. cbn in *.
      destruct (vfprintf None f1 a1) as [r|] eqn:E; [|done]. injection H1 as <-.
      rewrite (IH None a1 r E Hl H2). cbn. by rewrite string_app_assoc.
    + destruct (vfprintf None f1 a1) as [r|] eqn:E; [|done]. injection H1 as <-.
      by rewrite (IH None a1 r E Hl H2).
    + done.
  - case_decide; [by apply IH|].
    destruct (vfprintf None f1 a1) as [r|] eqn:E; [|done]. injection H1 as <-.
    by rewrite (IH None a1 r E Hl H2).
Qed.
