(* ===== verification/Log.v ===== *)
(** * The log: log.c

    The text of the log file, what [log_msg] appends to it, and the functions
    that write out the fields of the structs of FUSE and of the system.  The
    fields are modelled by their values; [#field] of the macro [log_struct] is
    the name of the field, [#format] the text of the format. *)

From Stdlib Require Import Ascii.
From stdpp Require Import strings.
From S2P Require Import Prelude Printf.
Import Printf.

Module Log.

(** The contents of the log file. *)
Abbreviation logtext := string.

Definition NL : string := String (ascii_of_nat 10) EmptyString.
Definition EXIT_FAILURE : Z := 1.

(** [struct sfs_state] of params.h *)
Record sfs_state := mkState { logfile : Z; diskfile : string }.

(** [perror]; [strerror] is the system's text for the error. *)
Definition perror (strerror s : string) : prog string unit :=
  p_modify (fun err => err +:+ s +:+ ": " +:+ strerror +:+ NL).

(** [fopen] is what the system returns for the log file; the state is what
    was written to stderr. *)
Definition log_open (strerror : string) (fopen : option Z) : prog string Z :=
  match fopen with
  | Some f => mret f
  | None => perror strerror "logfile";; p_halt EXIT_FAILURE
  end.

Definition log_msg (format : string) (ap : list arg) : prog logtext unit := fprintf format ap.

(** The macro [log_struct(st, field, format, typecast)]. *)
Definition log_struct (field format : string) (v : arg) : prog logtext unit :=
  log_msg ("    " +:+ field +:+ " = " +:+ format +:+ NL) [v].

(** ** The structs *)

(** [private_data] is a pointer, [pointee] the struct it points to. *)
Record fuse_context := mkContext {
  fuse : Z; uid : Z; gid : Z; pid : Z; private_data : Z; pointee : sfs_state; umask : Z
}.

Record fuse_conn_info := mkConn {
  proto_major : Z; proto_minor : Z; async_read : Z;
  max_write : Z; max_readahead : Z; capable : Z; want : Z
}.

Record fuse_file_info := mkFi {
  flags : Z; fh_old : Z; writepage : Z; direct_io : Z; keep_cache : Z; fh : Z; lock_owner : Z
}.

Record struct_stat := mkStat {
  st_dev : Z; st_ino : Z; st_mode : Z; st_nlink : Z; st_uid : Z; st_gid : Z;
  st_rdev : Z; st_size : Z; st_blksize : Z; st_blocks : Z;
  st_atime : Z; st_mtime : Z; st_ctime : Z
}.

Record struct_statvfs := mkStatvfs {
  f_bsize : Z; f_frsize : Z; f_blocks : Z; f_bfree : Z; f_bavail : Z; f_files : Z;
  f_ffree : Z; f_favail : Z; f_fsid : Z; f_flag : Z; f_namemax : Z
}.

Record utimbuf := mkUtim {
  actime : Z; modtime : Z
}.

(** ** The dumps *)

Definition log_fuse_context (context : fuse_context) : prog logtext unit :=
  log_msg ("    context:" +:+ NL) [];;
  log_struct "fuse" "%08x" (Slot (fuse context));;
  log_struct "uid" "%d" (Slot (uid context));;
  log_struct "gid" "%d" (Slot (gid context));;
  log_struct "pid" "%d" (Slot (pid context));;
  log_struct "private_data" "%08x" (Slot (private_data context));;
  log_struct "logfile" "%08x" (Slot (logfile (pointee context)));;
  log_struct "diskfile" "%s" (Text (diskfile (pointee context)));;
  log_struct "umask" "%05o" (Slot (umask context)).

Definition log_conn (conn : fuse_conn_info) : prog logtext unit :=
  log_msg ("    conn:" +:+ NL) [];;
  log_struct "proto_major" "%d" (Slot (proto_major conn));;
  log_struct "proto_minor" "%d" (Slot (proto_minor conn));;
  log_struct "async_read" "%d" (Slot (async_read conn));;
  log_struct "max_write" "%d" (Slot (max_write conn));;
  log_struct "max_readahead" "%d" (Slot (max_readahead conn));;
  log_struct "capable" "%08x" (Slot (capable conn));;
  log_struct "want" "%08x" (Slot (want conn)).

Definition log_fi (fi : fuse_file_info) : prog logtext unit :=
  log_msg ("    fi:" +:+ NL) [];;
  log_struct "flags" "0x%08x" (Slot (flags fi));;
  log_struct "fh_old" "0x%08lx" (Slot (fh_old fi));;
  log_struct "writepage" "%d" (Slot (writepage fi));;
  log_struct "direct_io" "%d" (Slot (direct_io fi));;
  log_struct "keep_cache" "%d" (Slot (keep_cache fi));;
  log_struct "fh" "0x%016llx" (Slot (fh fi));;
  log_struct "lock_owner" "0x%016llx" (Slot (lock_owner fi)).

Definition log_stat (si : struct_stat) : prog logtext unit :=
  log_msg ("    si:" +:+ NL) [];;
  log_struct "st_dev" "%lld" (Slot (st_dev si));;
  log_struct "st_ino" "%lld" (Slot (st_ino si));;
  log_struct "st_mode" "0%o" (Slot (st_mode si));;
  log_struct "st_nlink" "%d" (Slot (st_nlink si));;
  log_struct "st_uid" "%d" (Slot (st_uid si));;
  log_struct "st_gid" "%d" (Slot (st_gid si));;
  log_struct "st_rdev" "%lld" (Slot (st_rdev si));;
  log_struct "st_size" "%lld" (Slot (st_size si));;
  log_struct "st_blksize" "%ld" (Slot (st_blksize si));;
  log_struct "st_blocks" "%lld" (Slot (st_blocks si));;
  log_struct "st_atime" "0x%08lx" (Slot (st_atime si));;
  log_struct "st_mtime" "0x%08lx" (Slot (st_mtime si));;
  log_struct "st_ctime" "0x%08lx" (Slot (st_ctime si)).

Definition log_statvfs (sv : struct_statvfs) : prog logtext unit :=
  log_msg ("    sv:" +:+ NL) [];;
  log_struct "f_bsize" "%ld" (Slot (f_bsize sv));;
  log_struct "f_frsize" "%ld" (Slot (f_frsize sv));;
  log_struct "f_blocks" "%lld" (Slot (f_blocks sv));;
  log_struct "f_bfree" "%lld" (Slot (f_bfree sv));;
  log_struct "f_bavail" "%lld" (Slot (f_bavail sv));;
  log_struct "f_files" "%lld" (Slot (f_files sv));;
  log_struct "f_ffree" "%lld" (Slot (f_ffree sv));;
  log_struct "f_favail" "%lld" (Slot (f_favail sv));;
  log_struct "f_fsid" "%ld" (Slot (f_fsid sv));;
  log_struct "f_flag" "0x%08lx" (Slot (f_flag sv));;
  log_struct "f_namemax" "%ld" (Slot (f_namemax sv)).

Definition log_utime (buf : utimbuf) : prog logtext unit :=
  log_msg ("    buf:" +:+ NL) [];;
  log_struct "actime" "0x%08lx" (Slot (actime buf));;
  log_struct "modtime" "0x%08lx" (Slot (modtime buf)).

End Log.

Import Log.

(** ** Reading the log back *)

(** [m] appends the numbers [vs] in the format [fmt]. *)
Definition prints (m : prog logtext unit) (fmt : string) (vs : list Z) : Prop :=
  forall out, exists s, m out = Ret (tt, out +:+ s) /\ sprintf fmt (Slot <$> vs) = Some s.

Lemma prints_msg fmt vs :
  readable None fmt = true -> length vs = arity None fmt -> prints (log_msg fmt (Slot <$> vs)) fmt vs.
Proof.
  intros Hr Hl out. destruct (scan_vfprintf fmt None vs Hr Hl) as (s & E & _). exists s.
  split; [|done]. unfold log_msg, fprintf, sprintf. by rewrite E.
Qed.

Lemma prints_seq fmt vs k fmt' vs' :
  readable None fmt = true -> length vs = arity None fmt -> prints k fmt' vs' ->
  prints (log_msg fmt (Slot <$> vs);; k) (fmt +:+ fmt') (vs ++ vs').
Proof.
  intros Hr Hl Hk out. destruct (prints_msg fmt vs Hr Hl out) as (s & E & Es).
  destruct (Hk (out +:+ s)) as (s' & E' & Es'). exists (s +:+ s'). split.
  - rewrite (bind_Ret _ _ _ _ _ E), E'. by rewrite string_app_assoc.
  - rewrite fmap_app. apply vfprintf_app; [done| |done]. by rewrite length_fmap.
Qed.

(** What was printed can be read. *)
Lemma prints_scan m fmt vs out :
  prints m fmt vs -> readable None fmt = true -> length vs = arity None fmt ->
  exists s, m out = Ret (tt, out +:+ s) /\ scan None fmt s = Some (values None fmt vs).
Proof.
  intros Hp Hr Hl. destruct (Hp out) as (s & E & Es). exists s. split; [done|].
  destruct (scan_vfprintf fmt None vs Hr Hl) as (s' & Es' & Hs). unfold sprintf in Es. congruence.
Qed.

(** The format of a dump: its title and a line for every field. *)
Definition line (field format : string) : string := "    " +:+ field +:+ " = " +:+ format +:+ NL.

Fixpoint dump_format (fields : list (string * string)) : string :=
  match fields with
  | [] => EmptyString
  | [(f, fmt)] => line f fmt
  | (f, fmt) :: fields' => line f fmt +:+ dump_format fields'
  end.

Definition titled (title : string) (fields : list (string * string)) : string :=
  title +:+ NL +:+ dump_format fields.

Lemma prints_title title k fmt vs :
  readable None (title +:+ NL) = true -> arity None (title +:+ NL) = 0%nat -> prints k fmt vs ->
  prints (log_msg (title +:+ NL) [];; k) (title +:+ NL +:+ fmt) vs.
Proof.
  intros Hr Ha Hk. rewrite <- string_app_assoc. by apply (prints_seq (title +:+ NL) [] k fmt vs).
Qed.

Lemma prints_field f fmt v k fmt' vs :
  readable None (line f fmt) = true -> arity None (line f fmt) = 1%nat -> prints k fmt' vs ->
  prints (log_struct f fmt (Slot v);; k) (line f fmt +:+ fmt') (v :: vs).
Proof. intros Hr Ha Hk. by apply (prints_seq (line f fmt) [v] k fmt' vs). Qed.

Lemma prints_last f fmt v :
  readable None (line f fmt) = true -> arity None (line f fmt) = 1%nat ->
  prints (log_struct f fmt (Slot v)) (line f fmt) [v].
Proof. intros Hr Ha. by apply (prints_msg (line f fmt) [v]). Qed.

(** Print a dump line by line. *)
Ltac dump :=
  cbn [dump_format];
  match goal with
  | |- prints (log_msg _ _ ≫= _) (titled _ _) _ => apply prints_title; [vm_compute; reflexivity..|dump]
  | |- prints (log_struct _ _ _ ≫= _) _ _ => apply prints_field; [vm_compute; reflexivity..|dump]
  | |- prints (log_struct _ _ _) _ _ => apply prints_last; vm_compute; reflexivity
  end.

Definition conn_format : string := titled "    conn:" [
  ("proto_major", "%d"); ("proto_minor", "%d"); ("async_read", "%d"); ("max_write", "%d");
  ("max_readahead", "%d"); ("capable", "%08x"); ("want", "%08x")].

Definition fi_format : string := titled "    fi:" [
  ("flags", "0x%08x"); ("fh_old", "0x%08lx"); ("writepage", "%d"); ("direct_io", "%d");
  ("keep_cache", "%d"); ("fh", "0x%016llx"); ("lock_owner", "0x%016llx")].

Definition stat_format : string := titled "    si:" [
  ("st_dev", "%lld"); ("st_ino", "%lld"); ("st_mode", "0%o"); ("st_nlink", "%d");
  ("st_uid", "%d"); ("st_gid", "%d"); ("st_rdev", "%lld"); ("st_size", "%lld");
  ("st_blksize", "%ld"); ("st_blocks", "%lld"); ("st_atime", "0x%08lx"); ("st_mtime", "0x%08lx");
  ("st_ctime", "0x%08lx")].

Definition statvfs_format : string := titled "    sv:" [
  ("f_bsize", "%ld"); ("f_frsize", "%ld"); ("f_blocks", "%lld"); ("f_bfree", "%lld");
  ("f_bavail", "%lld"); ("f_files", "%lld"); ("f_ffree", "%lld"); ("f_favail", "%lld");
  ("f_fsid", "%ld"); ("f_flag", "0x%08lx"); ("f_namemax", "%ld")].

Definition utime_format : string := titled "    buf:" [
  ("actime", "0x%08lx"); ("modtime", "0x%08lx")].

(** A reader of the log finds the numbers [vs] in what [m] appends. *)
Definition reads (m : prog logtext unit) (fmt : string) (vs : list Z) : Prop :=
  forall out, exists s, m out = Ret (tt, out +:+ s) /\ scan None fmt s = Some vs.

Lemma prints_reads m fmt vs vs' :
  prints m fmt vs -> readable None fmt = true -> length vs = arity None fmt ->
  values None fmt vs = vs' -> reads m fmt vs'.
Proof. intros Hp Hr Hl <- out. by apply prints_scan. Qed.

(** Print the dump, then compare what the conversions take with the fields. *)
Ltac reads_dump format :=
  eapply prints_reads;
    [unfold format; dump|vm_compute; reflexivity|vm_compute; reflexivity|cbv -[wraps wrapu]; reflexivity].

Lemma log_conn_reads conn : reads (log_conn conn) conn_format [
  wraps 32 (proto_major conn); wraps 32 (proto_minor conn); wraps 32 (async_read conn);
  wraps 32 (max_write conn); wraps 32 (max_readahead conn); wrapu 32 (capable conn);
  wrapu 32 (want conn)].
Proof. unfold log_conn. reads_dump conn_format. Qed.

Lemma log_fi_reads fi : reads (log_fi fi) fi_format [
  wrapu 32 (flags fi); wrapu 64 (fh_old fi); wraps 32 (writepage fi); wraps 32 (direct_io fi);
  wraps 32 (keep_cache fi); wrapu 64 (fh fi); wrapu 64 (lock_owner fi)].
Proof. unfold log_fi. reads_dump fi_format. Qed.

Lemma log_stat_reads si : reads (log_stat si) stat_format [
  wraps 64 (st_dev si); wraps 64 (st_ino si); wrapu 32 (st_mode si); wraps 32 (st_nlink si);
  wraps 32 (st_uid si); wraps 32 (st_gid si); wraps 64 (st_rdev si); wraps 64 (st_size si);
  wraps 64 (st_blksize si); wraps 64 (st_blocks si); wrapu 64 (st_atime si);
  wrapu 64 (st_mtime si); wrapu 64 (st_ctime si)].
Proof. unfold log_stat. reads_dump stat_format. Qed.

Lemma log_statvfs_reads sv : reads (log_statvfs sv) statvfs_format [
  wraps 64 (f_bsize sv); wraps 64 (f_frsize sv); wraps 64 (f_blocks sv); wraps 64 (f_bfree sv);
  wraps 64 (f_bavail sv); wraps 64 (f_files sv); wraps 64 (f_ffree sv); wraps 64 (f_favail sv);
  wraps 64 (f_fsid sv); wrapu 64 (f_flag sv); wraps 64 (f_namemax sv)].
Proof. unfold log_statvfs. reads_dump statvfs_format. Qed.

Lemma log_utime_reads buf : reads (log_utime buf) utime_format [
  wrapu 64 (actime buf); wrapu 64 (modtime buf)].
Proof. unfold log_utime. reads_dump utime_format. Qed.

(** ** Theorems *)

(** A [struct stat] whose fields have the values of their types and whose link
    count, user and group are below 2^31. *)
Record stat_ok (si : struct_stat) : Prop := {
  ok_signed : Forall (fun v => - 2 ^ 63 <= v < 2 ^ 63)
    [st_dev si; st_ino si; st_rdev si; st_size si; st_blksize si; st_blocks si];
  ok_mode : 0 <= st_mode si < 2 ^ 32;
  ok_small : Forall (fun v => 0 <= v < 2 ^ 31) [st_nlink si; st_uid si; st_gid si];
  ok_times : Forall (fun v => 0 <= v < 2 ^ 63) [st_atime si; st_mtime si; st_ctime si]
}.

Lemma s64_small v : - 2 ^ 63 <= v < 2 ^ 63 -> wraps 64 v = v.
Proof. intros. by apply wraps_small. Qed.

Lemma s32_small v : 0 <= v < 2 ^ 31 -> wraps 32 v = v.
Proof. intros. apply wraps_small; [done|]. change (32 - 1) with 31. lia. Qed.

(** C32: what [log_stat] writes loses nothing: a reader of the log gets back
    the fields of every [struct stat] whose link count, user and group are
    below 2^31 (they are printed as signed 32-bit numbers), whose times are not
    negative (they are printed as unsigned numbers) and whose device and inode
    numbers are below 2^63 (they are printed as signed ones). *)
Theorem log_stat_round_trip si :
  stat_ok si ->
  reads (log_stat si) stat_format
    [st_dev si; st_ino si; st_mode si; st_nlink si; st_uid si; st_gid si; st_rdev si; st_size si;
     st_blksize si; st_blocks si; st_atime si; st_mtime si; st_ctime si].
Proof.
  intros [Hs Hm Hu Ht]. pose proof (log_stat_reads si) as Hr.
  rewrite !Forall_cons in Hs. rewrite !Forall_cons in Hu. rewrite !Forall_cons in Ht.
  destr_ands. by rewrite !s64_small, !s32_small, !wrapu_small in Hr by lia.
Qed.

Definition stat_example : struct_stat :=
  mkStat 2049 17 33188 1 1000 1000 0 512 4096 8 1500000000 1500000000 1500000001.

Lemma log_stat_round_trip_witness :
  reads (log_stat stat_example) stat_format
    [2049; 17; 33188; 1; 1000; 1000; 0; 512; 4096; 8; 1500000000; 1500000000; 1500000001].
Proof.
  apply (log_stat_round_trip stat_example).
  split; simpl; try (repeat constructor; lia); lia.
Defined.

Lemma vfprintf_hex a :
  vfprintf None ("%08x" +:+ NL) [a] =
    (s ← convert Hex (mkSpec true 8 0) a; Some (s +:+ NL)).
Proof. reflexivity. Qed.

(** Conversions without [l] look at the low half of a slot only. *)
Lemma hex_low f v v' :
  readable None ("    " +:+ f +:+ " = ") = true -> arity None ("    " +:+ f +:+ " = ") = 0%nat ->
  v `mod` 2 ^ 32 = v' `mod` 2 ^ 32 ->
  log_struct f "%08x" (Slot v) = log_struct f "%08x" (Slot v').
Proof.
  intros Hr Ha E. unfold log_struct, log_msg, fprintf, sprintf.
  destruct (scan_vfprintf _ None [] Hr (eq_sym Ha)) as (s & Es & _).
  assert (forall w, vfprintf None ("    " +:+ f +:+ " = " +:+ "%08x" +:+ NL) [Slot w] =
    Some (s +:+ (pad (mkSpec true 8 0) EmptyString (number 16 (wrapu 32 w)) +:+ NL))) as Ew.
  { intros w. pose proof (vfprintf_app ("    " +:+ f +:+ " = ") ("%08x" +:+ NL) None [] [Slot w] s
      (pad (mkSpec true 8 0) EmptyString (number 16 (wrapu 32 w)) +:+ NL)) as Hv.
    rewrite !string_app_assoc in Hv. apply Hv; [done|done|].
    pose proof (wrapu_range 32 w). rewrite vfprintf_hex.
    cbn [convert mbind option_bind taken_value bits longs base_of Nat.eqb].
    destruct (Z.ltb_spec (wrapu 32 w) 0); [lia|]. by rewrite Z.abs_eq by lia. }
  rewrite !Ew. unfold wrapu. by rewrite E.
Qed.

(** Only the low 32 bits of the three pointers are logged: contexts
    that differ in the high halves of their addresses have the same dump. *)
Theorem log_context_low_bits c fuse' private_data' logfile' :
  fuse c `mod` 2 ^ 32 = fuse' `mod` 2 ^ 32 ->
  private_data c `mod` 2 ^ 32 = private_data' `mod` 2 ^ 32 ->
  logfile (pointee c) `mod` 2 ^ 32 = logfile' `mod` 2 ^ 32 ->
  log_fuse_context c =
    log_fuse_context (mkContext fuse' (uid c) (gid c) (pid c) private_data'
      (mkState logfile' (diskfile (pointee c))) (umask c)).
Proof.
  intros Ef Ep El. unfold log_fuse_context. cbn.
  by rewrite (hex_low "fuse" _ _ eq_refl eq_refl Ef), (hex_low "private_data" _ _ eq_refl eq_refl Ep),
    (hex_low "logfile" _ _ eq_refl eq_refl El).
Qed.

(** [log_open] either returns the stream the system gives or ends the process
    after a message; it never returns an invalid stream. *)
Lemma log_open_returns strerror fopen err f err' :
  log_open strerror fopen err = Ret (f, err') -> fopen = Some f /\ err' = err.
Proof. unfold log_open. destruct fopen; [|done]. by intros [= <- <-]. Qed.
