(* ===== verification/LinkedList.v ===== *)
(** * Thread queues: LinkedList.c

    The queues of the thread library are singly linked lists of nodes, each
    holding a pointer to a heap cell that holds a thread handle.  [Module
    LinkedList] has the operations of LinkedList.c over an explicit heap of
    nodes, cells and list headers.  [Module Queue] gives what they compute on
    plain lists of thread handles, and the refinement theorems show that a
    heap representing a family of queues is taken by each operation to a heap
    representing the updated family, all the other queues unchanged. *)

From S2P Require Import Prelude.

Definition NULL : Z := 0.

Module LinkedList.

(** [struct node]; its [prev] field is never read or written. *)
Record Node := mkNode { thread : Z; next : Z }.

Record LinkedList := mkList { tail : Z; head : Z; nitems : Z }.

(** The part of the C heap the queues live in.  [brk] is the next address the
    allocator hands out, [oom] whether it has run out of memory, and [fresh]
    what a list header that [malloc] hands out at an address happens to hold:
    the memory is not initialised. *)
Record heap := mkHeap {
  nodes : gmap Z Node;
  cells : gmap Z Z;
  lists : gmap Z LinkedList;
  brk : Z;
  oom : bool;
  fresh : Z -> LinkedList
}.

Definition set_nodes (f : gmap Z Node -> gmap Z Node) (h : heap) : heap :=
  mkHeap (f (nodes h)) (cells h) (lists h) (brk h) (oom h) (fresh h).
Definition set_cells (f : gmap Z Z -> gmap Z Z) (h : heap) : heap :=
  mkHeap (nodes h) (f (cells h)) (lists h) (brk h) (oom h) (fresh h).
Definition set_lists (f : gmap Z LinkedList -> gmap Z LinkedList) (h : heap) : heap :=
  mkHeap (nodes h) (cells h) (f (lists h)) (brk h) (oom h) (fresh h).

Definition set_next (p : Z) (nd : Node) : Node := mkNode (thread nd) p.

(** [malloc]: a fresh address, or NULL when memory is exhausted. *)
Definition malloc : prog heap Z := fun h =>
  if oom h then Ret (NULL, h)
  else Ret (brk h, mkHeap (nodes h) (cells h) (lists h) (brk h + 1) (oom h) (fresh h)).

(** Loads through a pointer: a fault when it points to no such object. *)
Definition ld_map {K V} `{Countable K} (f : heap -> gmap K V) (p : K) : prog heap V :=
  fun h => match f h !! p with Some v => Ret (v, h) | None => Fault end.

Definition ld_node : Z -> prog heap Node := ld_map nodes.
Definition ld_cell : Z -> prog heap Z := ld_map cells.
Definition ld_list : Z -> prog heap LinkedList := ld_map lists.

Definition st_node (p : Z) (nd : Node) : prog heap unit := p_modify (set_nodes <[p := nd]>).
Definition st_cell (p v : Z) : prog heap unit := p_modify (set_cells <[p := v]>).
Definition st_list (p : Z) (l : LinkedList) : prog heap unit := p_modify (set_lists <[p := l]>).

(** Writing through the pointer [malloc] returned without testing it. *)
Definition deref {A} (p : Z) (m : prog heap A) : prog heap A :=
  if p =? NULL then p_fault else m.

Definition newNode (t : Z) : prog heap Z :=
  new ← malloc;
  deref new (
  c ← malloc;
  deref c (
  v ← ld_cell t;
  st_cell c v;;
  st_node new (mkNode c NULL);;
  mret new)).

Definition push (l t : Z) : prog heap unit :=
  n ← newNode t;
  L ← ld_list l;
  if tail L =? NULL then
    st_list l (mkList n n 1)
  else
    nd ← ld_node (tail L);
    st_node (tail L) (set_next n nd);;
    st_list l (mkList n (head L) (wrapu 32 (nitems L + 1))).

Definition empty (l : Z) : prog heap bool :=
  L ← ld_list l; mret (head L =? NULL).

Definition pop (l : Z) : prog heap Z :=
  L ← ld_list l;
  n ← ld_node (head L);
  st_list l (mkList (if next n =? NULL then NULL else tail L) (next n)
                    (wrapu 32 (nitems L - 1)));;
  mret (thread n).

Definition front (l : Z) : prog heap Z :=
  L ← ld_list l;
  n ← ld_node (head L);
  mret (thread n).

Definition nelements (l : Z) : prog heap Z :=
  L ← ld_list l; mret (nitems L).

(** The handles [print] writes, in order. *)
Fixpoint print_loop (fuel : nat) (n : Z) : prog heap (list Z) :=
  match fuel with
  | O => p_timeout
  | S f =>
      if n =? NULL then mret []
      else
        nd ← ld_node n;
        v ← ld_cell (thread nd);
        vs ← print_loop f (next nd);
        mret (v :: vs)
  end.

Definition print (l : Z) : prog heap (list Z) :=
  L ← ld_list l;
  h ← p_get;
  print_loop (S (size (nodes h))) (head L).

Section Ordered.

(** [getPriority] and [getTimeCreated] are defined by the thread library; the
    argument is the handle a cell holds. *)
Context (getPriority getTimeCreated : Z -> Z).

Definition key (order : Z) : Z -> Z :=
  if order =? 0 then getPriority else getTimeCreated.

(** The two scanning loops of [pushOrdered], which differ in the key. *)
Fixpoint scan (fuel : nat) (k : Z -> Z) (kn tmp last : Z) : prog heap Z :=
  match fuel with
  | O => p_timeout
  | S f =>
      if tmp =? NULL then mret last
      else
        nd ← ld_node tmp;
        v ← ld_cell (thread nd);
        if k v <=? kn then scan f k kn (next nd) tmp
        else mret last
  end.

Definition pushOrdered (order l t : Z) : prog heap unit :=
  n ← newNode t;
  L ← ld_list l;
  if tail L =? NULL then
    st_list l (mkList n n 1)
  else
    nn ← ld_node n;
    v ← ld_cell (thread nn);
    h ← p_get;
    last ← scan (S (size (nodes h))) (key order) (key order v) (head L) (head L);
    nl ← ld_node last;
    st_node n (set_next (next nl) nn);;
    nl' ← ld_node last;
    st_node last (set_next n nl');;
    st_list l (mkList (if next nl =? NULL then n else tail L)
                      (if next nl =? head L then n else head L)
                      (wrapu 32 (nitems L + 1))).

(** [while (!empty(l)) { t = pop(l); pushOrdered(1, new, t); }] *)
Fixpoint orderByOldest_loop (fuel : nat) (l new : Z) : prog heap unit :=
  match fuel with
  | O => p_timeout
  | S f =>
      e ← empty l;
      if (e : bool) then mret tt
      else
        t ← pop l;
        pushOrdered 1 new t;;
        orderByOldest_loop f l new
  end.

(** The header [malloc] returns is never initialised. *)
Definition orderByOldest (l : Z) : prog heap unit :=
  new ← malloc;
  deref new (
  h0 ← p_get;
  st_list new (fresh h0 new);;
  L0 ← ld_list l;
  h ← p_get;
  orderByOldest_loop (S (size (nodes h))) l new;;
  L ← ld_list new;
  st_list l L).

End Ordered.

End LinkedList.

(** ** What the operations compute on plain lists *)
Module Queue.

(** Insert after every element whose key is not larger. *)
Fixpoint insert_le (k : Z -> Z) (t : Z) (q : list Z) : list Z :=
  match q with
  | [] => [t]
  | x :: q' => if k x <=? k t then x :: insert_le k t q' else t :: x :: q'
  end.

(** [pushOrdered] never puts a thread in front of the head of a non-empty
    queue, whatever the keys. *)
Definition insert (k : Z -> Z) (t : Z) (q : list Z) : list Z :=
  match q with
  | [] => [t]
  | x :: q' => if k x <=? k t then x :: insert_le k t q' else x :: t :: q'
  end.

Definition by_age (k : Z -> Z) (q : list Z) : list Z :=
  foldl (fun acc t => insert k t acc) [] q.

End Queue.
