(* ===== verification/LinkedListRep.v ===== *)
(** * Thread queues: representation and refinement

    The representation of a family of queues by a heap, and the proof that
    the operations of LinkedList.c implement the plain-list operations of
    [Queue] on one queue of the family and leave the others alone. *)

From S2P Require Import Prelude LinkedList.
Import LinkedList.

(** [lseg h p ns q e]: following [next] from [p] visits the nodes [ns], whose
    cells hold the handles [q], and ends at [e]. *)
Fixpoint lseg (h : heap) (p : Z) (ns q : list Z) (e : Z) : Prop :=
  match ns, q with
  | [], [] => p = e
  | n :: ns', t :: q' =>
      p = n /\ n <> NULL /\
      exists nd, nodes h !! n = Some nd /\ cells h !! thread nd = Some t /\
                 lseg h (next nd) ns' q' e
  | _, _ => False
  end.

Definition header (ns : list Z) : LinkedList :=
  mkList (default NULL (last ns)) (default NULL (list.head ns)) (wrapu 32 (Z.of_nat (length ns))).

(** One queue: its header, its nodes and the handles they hold. *)
Record rep (h : heap) (l : Z) (ns q : list Z) : Prop := {
  rep_header : lists h !! l = Some (header ns);
  rep_seg : lseg h (default NULL (list.head ns)) ns q NULL;
  rep_nodup : NoDup ns
}.

(** Everything allocated lies below [brk], memory has not run out, and the
    memory [malloc] hands out for list headers happens to be zero. *)
Record heap_ok (h : heap) : Prop := {
  ok_nodes : forall n, is_Some (nodes h !! n) -> 0 < n < brk h;
  ok_cells : forall c, is_Some (cells h !! c) -> c < brk h;
  ok_lists : forall l, is_Some (lists h !! l) -> 0 < l < brk h;
  ok_brk : 0 < brk h;
  ok_oom : oom h = false;
  ok_threads : forall n nd, nodes h !! n = Some nd -> 0 < thread nd;
  ok_fresh : forall a, fresh h a = header []
}.

(** A family of queues [Q], with the nodes [NS] of each. *)
Record heap_rep (h : heap) (NS Q : gmap Z (list Z)) : Prop := {
  hr_ok : heap_ok h;
  hr_rep : forall l q, Q !! l = Some q -> exists ns, NS !! l = Some ns /\ rep h l ns q;
  hr_dom : forall l, is_Some (NS !! l) -> is_Some (Q !! l);
  hr_disj : forall l1 l2 ns1 ns2 n, l1 <> l2 ->
    NS !! l1 = Some ns1 -> NS !! l2 = Some ns2 -> n ∈ ns1 -> n ∈ ns2 -> False
}.

Definition queues (h : heap) (Q : gmap Z (list Z)) : Prop := exists NS, heap_rep h NS Q.

(** ** Segments *)

(** A heap determines its segments and queues. *)
Lemma lseg_unique h p ns1 q1 ns2 q2 :
  lseg h p ns1 q1 NULL -> lseg h p ns2 q2 NULL -> q1 = q2.
Proof.
  revert p q1 ns2 q2. induction ns1 as [|n1 ns1 IH]; intros p [|t1 q1] [|n2 ns2] [|t2 q2]; simpl; try done.
  - intros -> (E & Hn & _). by subst.
  - intros (-> & Hn & _) E. by subst.
  - intros (-> & _ & nd & E1 & Ec1 & Hs1) (-> & _ & nd' & E2 & Ec2 & Hs2). simplify_eq.
    f_equal. by eapply IH.
Qed.

Lemma lseg_length h p ns q e : lseg h p ns q e -> length ns = length q.
Proof.
  revert p q. induction ns as [|n ns IH]; intros p [|t q]; simpl; try done.
  intros (_ & _ & nd & _ & _ & H). f_equal. eauto.
Qed.

Lemma lseg_app h p ns1 q1 ns2 q2 e :
  length ns1 = length q1 ->
  lseg h p (ns1 ++ ns2) (q1 ++ q2) e <-> exists m, lseg h p ns1 q1 m /\ lseg h m ns2 q2 e.
Proof.
  revert p q1. induction ns1 as [|n ns1 IH]; intros p [|t q1]; simpl; try done.
  - intros _. split; [eauto|]. by intros (? & -> & ?).
  - intros [= Hl]. setoid_rewrite (IH _ _ Hl). split.
    + intros (-> & ? & nd & ? & ? & m & ? & ?). eauto 10.
    + intros (m & (-> & ? & nd & ? & ? & ?) & ?). eauto 10.
Qed.

(** A segment only depends on its own nodes and on the cells. *)
Lemma lseg_frame h h' p ns q e :
  lseg h p ns q e ->
  (forall n, n ∈ ns -> nodes h' !! n = nodes h !! n) ->
  cells h ⊆ cells h' ->
  lseg h' p ns q e.
Proof.
  revert p q. induction ns as [|n ns IH]; intros p [|t q]; simpl; try done.
  intros (-> & Hn & nd & E & Ec & Hs) HN HC. split_and!; [done..|].
  exists nd. split_and!.
  - rewrite HN; [done|set_solver].
  - by eapply lookup_weaken.
  - eapply IH; [done| |done]. intros; apply HN; set_solver.
Qed.

Lemma lseg_nodes h p ns q e n : lseg h p ns q e -> n ∈ ns -> is_Some (nodes h !! n).
Proof.
  revert p q. induction ns as [|m ns IH]; intros p [|t q]; simpl; try done.
  - by intros _ ?%not_elem_of_nil.
  - intros (-> & Hn & nd & E & Ec & Hs) [->|Hin]%elem_of_cons; eauto.
Qed.

(** A node list without repetitions is at most as long as the heap. *)
Lemma nodes_size h ns :
  NoDup ns -> (forall n, n ∈ ns -> is_Some (nodes h !! n)) ->
  (length ns <= size (nodes h))%nat.
Proof.
  intros Hnd Hin. rewrite <- size_dom, <- (size_list_to_set (C := gset Z) ns) by done.
  apply subseteq_size. intros n. rewrite elem_of_list_to_set, elem_of_dom. auto.
Qed.

Lemma nodes_size_lseg h p ns q e :
  lseg h p ns q e -> NoDup ns -> (length ns <= size (nodes h))%nat.
Proof. intros H ?. apply nodes_size; [done|]. intros. by eapply lseg_nodes. Qed.

(** Linking a new node behind the node [a] of a list. *)
Lemma lseg_insert_after h h' p pre qpre a ta post qpost nda n c t :
  length pre = length qpre ->
  lseg h p (pre ++ a :: post) (qpre ++ ta :: qpost) NULL ->
  NoDup (pre ++ a :: post) -> n ∉ pre ++ a :: post -> n <> NULL ->
  nodes h !! a = Some nda ->
  nodes h' = <[a := set_next n nda]> (<[n := mkNode c (next nda)]> (nodes h)) ->
  cells h ⊆ cells h' -> cells h' !! c = Some t ->
  lseg h' p (pre ++ a :: n :: post) (qpre ++ ta :: t :: qpost) NULL.
Proof.
  intros Hl Hs Hnd Hn Hn0 Ea EN HC Ec.
  apply lseg_app in Hs as (m & Hpre & Hm & Ha0 & nda' & E & Eta & Hpost); [|done].
  simplify_eq. apply lseg_app; [done|]. exists a.
  apply NoDup_app in Hnd as (Hnd1 & Hnd2 & Hnd3).
  apply NoDup_cons in Hnd3 as [Hap _]. split.
  - eapply lseg_frame; [done| |done]. intros x Hx. rewrite EN.
    rewrite !lookup_insert_ne; set_solver.
  - split_and!; [done..|]. eexists. rewrite EN, lookup_insert_eq. split_and!; [done| |].
    { simpl. by eapply lookup_weaken. }
    simpl. split_and!; [done..|]. eexists.
    rewrite EN, lookup_insert_ne, lookup_insert_eq by set_solver. split_and!; [done..|].
    simpl. eapply lseg_frame; [done| |done]. intros x Hx. rewrite EN.
    rewrite !lookup_insert_ne; set_solver.
Qed.

(** ** Headers *)

Lemma header_tail_null ns q h p :
  lseg h p ns q NULL -> tail (header ns) = NULL <-> ns = [].
Proof.
  intros Hs. split; [|by intros ->]. destruct ns as [|n ns] using rev_ind; [done|].
  clear IHns. simpl. rewrite last_snoc. simpl. intros ->.
  assert (length (ns ++ [NULL]) = length q) as E by (by eapply lseg_length).
  rewrite length_app in E; simpl in E.
  destruct q as [|t q _] using rev_ind; [simpl in E; lia|].
  rewrite length_app in E; simpl in E.
  apply lseg_app in Hs as (m & _ & Hs); [|lia]. by destruct Hs as (_ & [] & _).
Qed.

Lemma wrapu_succ w x : 0 <= w -> wrapu w (wrapu w x + 1) = wrapu w (x + 1).
Proof. intros. unfold wrapu. by rewrite Zplus_mod_idemp_l. Qed.

Lemma wrapu_pred w x : 0 <= w -> wrapu w (wrapu w x - 1) = wrapu w (x - 1).
Proof. intros. unfold wrapu. by rewrite Zminus_mod_idemp_l. Qed.

(** ** Updating one queue of the family *)

Lemma heap_rep_update h h' NS Q l ns q :
  heap_rep h NS Q ->
  heap_ok h' -> brk h <= brk h' ->
  lists h' = <[l := header ns]> (lists h) ->
  cells h ⊆ cells h' ->
  (forall n, n < brk h -> n ∉ default [] (NS !! l) -> nodes h' !! n = nodes h !! n) ->
  lseg h' (default NULL (list.head ns)) ns q NULL -> NoDup ns ->
  (forall n, n ∈ ns -> n ∈ default [] (NS !! l) \/ brk h <= n) ->
  heap_rep h' (<[l := ns]> NS) (<[l := q]> Q).
Proof.
  intros [Hok Hrep Hdom Hdisj] Hok' Hbrk EL HC HN Hs Hnd Hin.
  assert (Hfresh : forall l' ns' q' n, Q !! l' = Some q' -> NS !! l' = Some ns' ->
            n ∈ ns' -> n < brk h).
  { intros l' ns' q' n HQ HNS Hn. destruct (Hrep _ _ HQ) as (ns2 & E & [_ Hs' _]).
    simplify_eq. eapply (ok_nodes _ Hok). by eapply lseg_nodes. }
  split; [done| | |].
  - intros l' q'. destruct (decide (l = l')) as [<-|Hne].
    + rewrite lookup_insert_eq. intros [= <-]. exists ns. rewrite lookup_insert_eq.
      split; [done|]. split; [|done|done]. rewrite EL. by rewrite lookup_insert_eq.
    + rewrite !lookup_insert_ne by done. intros HQ.
      destruct (Hrep _ _ HQ) as (ns' & E & [Hh Hs' Hnd']). exists ns'. split; [done|].
      split; [by rewrite EL, lookup_insert_ne| |done].
      eapply lseg_frame; [done| |done]. intros n Hn. apply HN; [by eapply Hfresh|].
      destruct (NS !! l) as [nsl|] eqn:El; simpl; [|set_solver].
      intros Hnl. eapply (Hdisj l l'); eauto.
  - intros l'. destruct (decide (l = l')) as [<-|Hne].
    + rewrite !lookup_insert_eq. eauto.
    + rewrite !lookup_insert_ne by done. auto.
  - assert (Hx : forall l' ns' n, l <> l' -> NS !! l' = Some ns' -> n ∈ ns -> n ∈ ns' -> False).
    { intros l' ns' n Hne E H1 H2. destruct (Hdom l') as [q' HQ]; [eauto|].
      pose proof (Hfresh _ _ _ _ HQ E H2). destruct (Hin _ H1) as [H3|H3]; [|lia].
      destruct (NS !! l) as [nsl|] eqn:El; simpl in H3; [|set_solver].
      eapply (Hdisj l l'); eauto. }
    intros l1 l2 ns1 ns2 n Hne.
    destruct (decide (l = l1)) as [<-|]; [|destruct (decide (l = l2)) as [<-|]].
    + rewrite lookup_insert_eq, lookup_insert_ne by done. intros [= <-]. eauto.
    + rewrite lookup_insert_ne, lookup_insert_eq by done. intros ? [= <-] ??. eauto.
    + rewrite !lookup_insert_ne by done. eauto.
Qed.

(** ** Allocation of a node *)

Definition with_new (h : heap) (v : Z) : heap :=
  mkHeap (<[brk h := mkNode (brk h + 1) NULL]> (nodes h)) (<[brk h + 1 := v]> (cells h))
         (lists h) (brk h + 2) (oom h) (fresh h).

Lemma newNode_run h t v :
  heap_ok h -> cells h !! t = Some v -> newNode t h = Ret (brk h, with_new h v).
Proof.
  intros [Hn Hc Hl Hb Ho _] Et. unfold newNode, malloc, deref.
  unfold mbind, prog_bind, p_bind. rewrite Ho. cbn.
  destruct (Z.eqb_spec (brk h) NULL); [unfold NULL in *; lia|]. rewrite ?Ho. cbn.
  destruct (Z.eqb_spec (brk h + 1) NULL); [unfold NULL in *; lia|].
  unfold ld_cell, ld_map. cbn. rewrite Et. cbn.
  unfold set_nodes, set_cells, with_new. cbn. by rewrite ?Ho, <- Z.add_assoc.
Qed.

(** [malloc] failing makes the unchecked writes of [newNode] fault. *)
Lemma newNode_oom h t : oom h = true -> newNode t h = Fault.
Proof. intros E. unfold newNode, malloc, mbind, prog_bind, p_bind. by rewrite E. Qed.

Lemma with_new_cells h v : heap_ok h -> cells h ⊆ cells (with_new h v).
Proof.
  intros Hok. simpl. apply insert_subseteq.
  destruct (cells h !! (brk h + 1)) eqn:E; [|done].
  pose proof (ok_cells _ Hok (brk h + 1) ltac:(eauto)). lia.
Qed.

Lemma with_new_ok h v : heap_ok h -> heap_ok (with_new h v).
Proof.
  intros [Hn Hc Hl Hb Ho Ht]. split; simpl; try done; try lia.
  - intros n. destruct (decide (brk h = n)) as [<-|]; [lia|].
    rewrite lookup_insert_ne by done. intros ?%Hn. lia.
  - intros c. destruct (decide (brk h + 1 = c)) as [<-|]; [lia|].
    rewrite lookup_insert_ne by done. intros ?%Hc. lia.
  - intros l ?%Hl. lia.
  - intros n nd. destruct (decide (brk h = n)) as [<-|].
    + rewrite lookup_insert_eq. intros [= <-]. simpl. lia.
    + rewrite lookup_insert_ne by done. apply Ht.
Qed.

(** The heap after a new node was linked behind [a] in queue [l]. *)
Definition linked (h : heap) (l v a : Z) (nda : Node) (ns : list Z) : heap :=
  let h1 := with_new h v in
  mkHeap (<[a := set_next (brk h) nda]>
           (<[brk h := mkNode (brk h + 1) (next nda)]> (nodes h1)))
         (cells h1) (<[l := header ns]> (lists h)) (brk h1) (oom h1) (fresh h1).

Lemma linked_ok h l v a nda ns :
  heap_ok h -> is_Some (lists h !! l) -> nodes h !! a = Some nda ->
  heap_ok (linked h l v a nda ns).
Proof.
  intros Hok Hl Ea. pose proof (ok_nodes _ Hok a ltac:(eauto)) as Ha.
  pose proof (ok_threads _ Hok _ _ Ea) as Htp. pose proof (with_new_ok h v Hok) as [Hn' Hc' Hl' Hb' Ho' Ht' Hf'].
  split; simpl in *; try done.
  - intros n. destruct (decide (a = n)) as [<-|]; [lia|].
    rewrite lookup_insert_ne by done. destruct (decide (brk h = n)) as [<-|].
    + pose proof (ok_brk _ Hok). lia.
    + rewrite lookup_insert_ne by done. intros H. by apply Hn'.
  - intros l'. destruct (decide (l = l')) as [<-|].
    + intros _. pose proof (ok_lists _ Hok _ Hl). lia.
    + rewrite lookup_insert_ne by done. apply Hl'.
  - intros n nd. destruct (decide (a = n)) as [<-|].
    + rewrite lookup_insert_eq. by intros [= <-].
    + rewrite lookup_insert_ne by done. destruct (decide (brk h = n)) as [<-|].
      * rewrite lookup_insert_eq. intros [= <-]. simpl. pose proof (ok_brk _ Hok). lia.
      * rewrite lookup_insert_ne by done. apply Ht'.
Qed.

Lemma linked_rep h NS Q l v pre a post qpre ta qpost nda :
  heap_rep h NS Q ->
  Q !! l = Some (qpre ++ ta :: qpost) -> NS !! l = Some (pre ++ a :: post) ->
  rep h l (pre ++ a :: post) (qpre ++ ta :: qpost) ->
  length pre = length qpre -> nodes h !! a = Some nda ->
  heap_rep (linked h l v a nda (pre ++ a :: brk h :: post))
           (<[l := pre ++ a :: brk h :: post]> NS)
           (<[l := qpre ++ ta :: v :: qpost]> Q).
Proof.
  intros HR HQ HNS [Hh Hs Hnd] Hlen Ea.
  pose proof (hr_ok _ _ _ HR) as Hok.
  assert (Hlt : forall n, n ∈ pre ++ a :: post -> 0 < n < brk h).
  { intros n Hn. apply (ok_nodes _ Hok). by eapply lseg_nodes. }
  assert (0 < a < brk h) as Ha by (apply Hlt; set_solver).
  assert (brk h ∉ pre ++ a :: post) as Hfr by (intros H%Hlt; lia).
  eapply heap_rep_update; [done|apply linked_ok; eauto|simpl; lia|done|
    by apply with_new_cells| | | |].
  - intros n Hn. rewrite HNS. simpl. intros Hn'.
    rewrite !lookup_insert_ne; [done|lia|lia|set_solver].
  - replace (default NULL (list.head (pre ++ a :: brk h :: post)))
      with (default NULL (list.head (pre ++ a :: post))) by (by destruct pre).
    eapply lseg_insert_after with (c := brk h + 1); try done.
    + pose proof (ok_brk _ Hok). unfold NULL. lia.
    + simpl. by rewrite insert_insert_eq.
    + by apply with_new_cells.
    + simpl. by rewrite lookup_insert_eq.
  - clear -Hnd Hfr.
    apply NoDup_app in Hnd as (H1 & H2 & H3). apply NoDup_cons in H3 as [H3 H4].
    apply NoDup_app. split_and!; [done|set_solver|].
    apply NoDup_cons. split; [set_solver|]. apply NoDup_cons. split; [set_solver|done].
  - intros n. rewrite HNS. simpl. set_solver by lia.
Qed.

(** ** The scanning loop *)

(** How many leading elements of [q] have a key not above [kn]. *)
Fixpoint count_le (k : Z -> Z) (kn : Z) (q : list Z) : nat :=
  match q with
  | [] => 0
  | x :: q' => if k x <=? kn then S (count_le k kn q') else 0
  end.

Lemma count_le_length k kn q : (count_le k kn q <= length q)%nat.
Proof. induction q as [|x q IH]; simpl; [lia|]. case_match; lia. Qed.

Lemma insert_le_split k t q :
  Queue.insert_le k t q = take (count_le k (k t) q) q ++ t :: drop (count_le k (k t) q) q.
Proof.
  induction q as [|x q IH]; simpl; [done|].
  case_match; simpl; [by rewrite IH|done].
Qed.

(** [pushOrdered] inserts behind at least the head. *)
Lemma pushOrdered_split k t x q :
  Queue.insert k t (x :: q) =
    take (S (pred (count_le k (k t) (x :: q)))) (x :: q) ++
    t :: drop (S (pred (count_le k (k t) (x :: q)))) (x :: q).
Proof.
  simpl. case_match; simpl; [by rewrite insert_le_split|].
  by rewrite ?take_0, ?drop_0.
Qed.

Lemma scan_run k kn h fuel p ns q lst :
  lseg h p ns q NULL -> (length ns < fuel)%nat ->
  scan fuel k kn p lst h = Ret (default lst (last (take (count_le k kn q) ns)), h).
Proof.
  revert p ns q lst. induction fuel as [|f IH]; intros p ns q lst Hs Hf; [lia|].
  simpl. destruct ns as [|n ns], q as [|t q]; simpl in Hs; try done.
  - by subst.
  - destruct Hs as (-> & Hn & nd & E & Ec & Hs).
    destruct (Z.eqb_spec n NULL); [done|].
    unfold ld_node, ld_cell, ld_map, mbind, prog_bind, p_bind. rewrite E. simpl. rewrite Ec.
    case_match; [|done]. simpl in Hf. rewrite IH with (ns := ns) (q := q) by (done || lia).
    rewrite firstn_cons, last_cons. by destruct (last _).
Qed.

(** Where the scan that starts at the head stops: at the node of the last
    element it may pass, and at the head when it may pass none. *)
Lemma scan_stop (c : nat) n (ns : list Z) :
  (c <= S (length ns))%nat ->
  exists a post, n :: ns = take (pred c) (n :: ns) ++ a :: post /\
    default n (last (take c (n :: ns))) = a /\ post = drop (S (pred c)) (n :: ns).
Proof.
  intros Hc. destruct c as [|c]; [by exists n, ns|]. simpl pred.
  destruct (lookup_lt_is_Some_2 (n :: ns) c) as [a Ha]; [simpl; lia|].
  exists a, (drop (S c) (n :: ns)). split_and!; [by rewrite take_drop_middle| |done].
  by rewrite (take_S_r _ _ a), last_snoc.
Qed.

Lemma header_snoc_tail pre a n post :
  default NULL (last (pre ++ a :: n :: post)) =
    if bool_decide (post = []) then n else default NULL (last (pre ++ a :: post)).
Proof.
  rewrite !last_app. destruct post as [|b post]; simpl; [done|].
  done.
Qed.

(** The next pointer of a node of a list. *)
Lemma lseg_next h p pre a post qpre ta qpost nda :
  length pre = length qpre ->
  lseg h p (pre ++ a :: post) (qpre ++ ta :: qpost) NULL -> nodes h !! a = Some nda ->
  next nda = default NULL (list.head post).
Proof.
  intros Hl Hs Ea. apply lseg_app in Hs as (m & _ & Hm & _ & nd & E & _ & Hs); [|done].
  simplify_eq. destruct post, qpost; simpl in *; naive_solver.
Qed.

(** ** The operations refine the plain-list operations *)

Section Refinement.
Implicit Types (h : heap) (Q : gmap Z (list Z)).

(** A queue of the family, with its nodes. *)
Lemma queue_rep h NS Q l q :
  heap_rep h NS Q -> Q !! l = Some q ->
  exists ns, NS !! l = Some ns /\ rep h l ns q /\ lists h !! l = Some (header ns).
Proof. intros HR HQ. destruct (hr_rep _ _ _ HR _ _ HQ) as (ns & ? & Hr). exists ns. by destruct Hr. Qed.

(** The first insertion into an empty queue. *)
Lemma link_first h NS Q l v :
  heap_rep h NS Q -> Q !! l = Some [] -> NS !! l = Some [] -> is_Some (lists h !! l) ->
  heap_rep (set_lists <[l := mkList (brk h) (brk h) 1]> (with_new h v))
           (<[l := [brk h]]> NS) (<[l := [v]]> Q).
Proof.
  intros HR HQ HNS Hl. pose proof (hr_ok _ _ _ HR) as Hok.
  pose proof (with_new_ok h v Hok) as [H1 H2 H3 H4 H5 H6 H7].
  pose proof (ok_brk _ Hok).
  eapply heap_rep_update; [done| |simpl; lia|done|by apply with_new_cells| | | |].
  - split; simpl in *; try done. intros l'. destruct (decide (l = l')) as [<-|].
    + intros _. pose proof (ok_lists _ Hok _ Hl). lia.
    + rewrite lookup_insert_ne by done. apply H3.
  - intros n Hn _. simpl. rewrite lookup_insert_ne by lia. done.
  - simpl. split_and!; [done|unfold NULL; lia|]. eexists.
    rewrite lookup_insert_eq. split_and!; [done| |done]. simpl. by rewrite lookup_insert_eq.
  - apply NoDup_singleton.
  - intros n ->%list_elem_of_singleton. lia.
Qed.

(** After a new node was allocated, the old queue is still there. *)
Lemma with_new_seg h v p ns q :
  heap_ok h -> lseg h p ns q NULL -> lseg (with_new h v) p ns q NULL.
Proof.
  intros Hok Hs. eapply lseg_frame; [done| |by apply with_new_cells].
  intros n Hn. simpl. rewrite lookup_insert_ne; [done|].
  pose proof (ok_nodes _ Hok n ltac:(by eapply lseg_nodes)). lia.
Qed.

(** The header after a node was linked behind [a]. *)
Lemma header_linked pre a n post :
  header (pre ++ a :: n :: post) =
    mkList (if bool_decide (post = []) then n else tail (header (pre ++ a :: post)))
           (head (header (pre ++ a :: post)))
           (wrapu 32 (nitems (header (pre ++ a :: post)) + 1)).
Proof.
  unfold header. cbn [tail head nitems]. rewrite header_snoc_tail. f_equal.
  - by destruct pre.
  - rewrite wrapu_succ by lia. f_equal. rewrite !length_app. simpl. lia.
Qed.

Lemma push_rep h NS Q l t v q :
  heap_rep h NS Q -> Q !! l = Some q -> cells h !! t = Some v ->
  exists h' NS', push l t h = Ret (tt, h') /\ heap_rep h' NS' (<[l := q ++ [v]]> Q) /\
    cells h ⊆ cells h'.
Proof.
  intros HR HQ Et. pose proof (hr_ok _ _ _ HR) as Hok.
  destruct (queue_rep _ _ _ _ _ HR HQ) as (ns & HNS & Hr & Hh).
  unfold push. erewrite bind_Ret by (by apply newNode_run).
  erewrite bind_Ret by (unfold ld_list, ld_map; simpl; by rewrite Hh).
  destruct (Z.eqb_spec (tail (header ns)) NULL) as [E|E].
  - apply (header_tail_null _ _ _ _ (rep_seg _ _ _ _ Hr)) in E as ->.
    assert (q = []) as -> by (destruct q; [done|by destruct (rep_seg _ _ _ _ Hr)]).
    eexists _, _. split_and!; [done|by apply link_first|by apply with_new_cells].
  - assert (ns <> []) as Hne by (intros ->; by apply E).
    destruct ns as [|a pre _] using rev_ind; [done|].
    pose proof (lseg_length _ _ _ _ _ (rep_seg _ _ _ _ Hr)) as Hlen.
    rewrite length_app in Hlen. simpl in Hlen.
    destruct q as [|ta qpre _] using rev_ind; [simpl in Hlen; lia|].
    rewrite length_app in Hlen. simpl in Hlen. assert (length pre = length qpre) by lia.
    destruct (lseg_nodes _ _ _ _ _ a (rep_seg _ _ _ _ Hr)) as [nda Ea]; [set_solver|].
    pose proof (lseg_next _ _ _ _ _ _ _ _ _ ltac:(done) (rep_seg _ _ _ _ Hr) Ea) as En.
    pose proof (ok_nodes _ Hok a ltac:(eauto)).
    assert (tail (header (pre ++ [a])) = a) as -> by (simpl; by rewrite last_snoc).
    erewrite bind_Ret.
    2:{ unfold ld_node, ld_map. simpl. rewrite lookup_insert_ne by lia. by rewrite Ea. }
    erewrite bind_Ret by done.
    eexists (linked h l v a nda (pre ++ [a; brk h])), _. split_and!.
    + unfold linked, st_list, p_modify, set_lists, set_nodes. cbn. do 3 f_equal.
      * by rewrite insert_insert_eq, En.
      * by rewrite header_linked.
    + rewrite <- app_assoc. by eapply linked_rep.
    + by apply with_new_cells.
Qed.

(** [pop] hands out the cell of the first node. *)
Lemma pop_rep h NS Q l t q :
  heap_rep h NS Q -> Q !! l = Some (t :: q) ->
  exists c h' NS', pop l h = Ret (c, h') /\ heap_rep h' NS' (<[l := q]> Q) /\
    cells h' !! c = Some t /\ cells h' = cells h.
Proof.
  intros HR HQ. pose proof (hr_ok _ _ _ HR) as Hok.
  destruct (queue_rep _ _ _ _ _ HR HQ) as (ns & HNS & [_ Hs Hnd] & Hh).
  destruct ns as [|n ns]; [done|]. simpl in Hs.
  destruct Hs as (_ & Hn & nd & E & Ec & Hs).
  unfold pop. erewrite bind_Ret by (unfold ld_list, ld_map; by rewrite Hh).
  erewrite bind_Ret by (unfold ld_node, ld_map; simpl; by rewrite E).
  erewrite bind_Ret by done.
  assert (next nd = default NULL (list.head ns)) as En.
  { destruct ns, q; simpl in Hs; naive_solver. }
  assert (mkList (if next nd =? NULL then NULL else tail (header (n :: ns))) (next nd)
            (wrapu 32 (nitems (header (n :: ns)) - 1)) = header ns) as EH.
  { unfold header. cbn [tail nitems]. rewrite wrapu_pred, En by lia. simpl length.
    f_equal; [|f_equal; lia].
    destruct ns as [|m ns], q; simpl in Hs; try done. cbn [list.head]. change (default NULL (Some m)) with m.
    destruct Hs as (_ & Hm & _). destruct (Z.eqb_spec m NULL); [done|].
    by rewrite last_cons_cons. }
  eexists _, _, _. rewrite EH. split_and!; [done| |done|done].
  eapply heap_rep_update with (ns := ns); [done| |done|done|done|done| | |].
  - destruct Hok as [H1 H2 H3 H4 H5 H6 H7]. split; simpl; try done.
    intros l'. destruct (decide (l = l')) as [<-|]; [eauto|].
    rewrite lookup_insert_ne by done. auto.
  - rewrite <- En. eapply lseg_frame; eauto.
  - by apply NoDup_cons in Hnd as [_ ?].
  - intros x Hx. rewrite HNS. simpl. set_solver.
Qed.

(** [pop] and [front] of an empty queue dereference NULL. *)
Lemma pop_empty h NS Q l :
  heap_rep h NS Q -> Q !! l = Some [] -> pop l h = Fault.
Proof.
  intros HR HQ. destruct (queue_rep _ _ _ _ _ HR HQ) as (ns & HNS & [_ Hs Hnd] & Hh).
  destruct ns; [|done]. unfold pop.
  erewrite bind_Ret by (unfold ld_list, ld_map; by rewrite Hh).
  apply bind_Fault. unfold ld_node, ld_map. simpl.
  destruct (nodes h !! NULL) eqn:E; [|done].
  pose proof (ok_nodes _ (hr_ok _ _ _ HR) NULL ltac:(eauto)). unfold NULL in *. lia.
Qed.

Lemma empty_rep h NS Q l q :
  heap_rep h NS Q -> Q !! l = Some q ->
  empty l h = Ret (bool_decide (q = []), h).
Proof.
  intros HR HQ. destruct (queue_rep _ _ _ _ _ HR HQ) as (ns & HNS & [_ Hs Hnd] & Hh).
  unfold empty. erewrite bind_Ret by (unfold ld_list, ld_map; by rewrite Hh).
  unfold mret, prog_ret, p_ret. do 2 f_equal. simpl.
  destruct ns as [|n ns], q as [|t q]; simpl in Hs; try done. simpl.
  destruct (Z.eqb_spec n NULL); naive_solver.
Qed.

Lemma nelements_rep h NS Q l q :
  heap_rep h NS Q -> Q !! l = Some q ->
  nelements l h = Ret (wrapu 32 (Z.of_nat (length q)), h).
Proof.
  intros HR HQ. destruct (queue_rep _ _ _ _ _ HR HQ) as (ns & HNS & [_ Hs Hnd] & Hh).
  unfold nelements. erewrite bind_Ret by (unfold ld_list, ld_map; by rewrite Hh).
  simpl. by rewrite (lseg_length _ _ _ _ _ Hs).
Qed.

Lemma print_loop_run h fuel p ns q :
  lseg h p ns q NULL -> (length ns < fuel)%nat -> print_loop fuel p h = Ret (q, h).
Proof.
  revert p ns q. induction fuel as [|f IH]; intros p ns q Hs Hf; [lia|].
  simpl. destruct ns as [|n ns], q as [|t q]; simpl in Hs; try done.
  - by subst.
  - destruct Hs as (-> & Hn & nd & E & Ec & Hs). destruct (Z.eqb_spec n NULL); [done|].
    erewrite bind_Ret by (unfold ld_node, ld_map; by rewrite E).
    erewrite bind_Ret by (unfold ld_cell, ld_map; by rewrite Ec).
    simpl in Hf. erewrite bind_Ret; [|apply (IH _ ns q); [done|lia]]. done.
Qed.

(** The last four assignments of [pushOrdered]. *)
Lemma link_behind h NS Q l v pre a post qpre ta qpost :
  heap_rep h NS Q -> Q !! l = Some (qpre ++ ta :: qpost) ->
  NS !! l = Some (pre ++ a :: post) ->
  rep h l (pre ++ a :: post) (qpre ++ ta :: qpost) -> length pre = length qpre ->
  exists h' NS',
    (nl ← ld_node a;
     st_node (brk h) (set_next (next nl) (mkNode (brk h + 1) NULL));;
     nl' ← ld_node a;
     st_node a (set_next (brk h) nl');;
     st_list l (mkList (if next nl =? NULL then brk h else tail (header (pre ++ a :: post)))
       (if next nl =? head (header (pre ++ a :: post)) then brk h
        else head (header (pre ++ a :: post)))
       (wrapu 32 (nitems (header (pre ++ a :: post)) + 1)))) (with_new h v) = Ret (tt, h') /\
    heap_rep h' NS' (<[l := qpre ++ ta :: v :: qpost]> Q) /\ cells h ⊆ cells h'.
Proof.
  intros HR HQ HNS Hr Hlen. pose proof (hr_ok _ _ _ HR) as Hok.
  pose proof (rep_seg _ _ _ _ Hr) as Hs. pose proof (rep_nodup _ _ _ _ Hr) as Hnd.
  destruct (lseg_nodes _ _ _ _ _ a Hs) as [nda Ea]; [set_solver|].
  pose proof (lseg_next _ _ _ _ _ _ _ _ _ Hlen Hs Ea) as En.
  pose proof (ok_nodes _ Hok a ltac:(eauto)) as Ha.
  assert (Hpos : forall n, n ∈ pre ++ a :: post -> n <> NULL).
  { intros n Hn. pose proof (ok_nodes _ Hok n (lseg_nodes _ _ _ _ _ _ Hs Hn)).
    unfold NULL. lia. }
  eexists (linked h l v a nda (pre ++ a :: brk h :: post)), _. split_and!;
    [|by eapply linked_rep|by apply with_new_cells].
  unfold ld_node, ld_map, st_node, st_list, p_modify, mbind, prog_bind, p_bind.
  simpl. rewrite lookup_insert_ne, Ea by lia. simpl.
  rewrite !lookup_insert_ne, Ea by lia. simpl.
  unfold linked, set_lists, set_nodes. cbn. do 4 f_equal.
  rewrite header_linked, En. f_equal.
  - destruct post as [|b post]; [done|]. simpl.
    destruct (Z.eqb_spec b NULL); [exfalso; eapply (Hpos b); [set_solver|done]|done].
  - destruct (Z.eqb_spec (default NULL (list.head post))
      (default NULL (list.head (pre ++ a :: post)))) as [E|E]; [|done].
    exfalso. destruct post as [|b post].
    + eapply (Hpos (default NULL (list.head (pre ++ [a])))); [|done].
      destruct pre; simpl; set_solver.
    + clear -E Hnd. destruct pre as [|y pre]; simpl in *; subst.
      * apply NoDup_cons in Hnd as [Hnd _]. set_solver.
      * apply NoDup_cons in Hnd as [Hnd _]. set_solver.
Qed.

Lemma pushOrdered_rep gp gt h NS Q order l t v q :
  heap_rep h NS Q -> Q !! l = Some q -> cells h !! t = Some v ->
  exists h' NS', pushOrdered gp gt order l t h = Ret (tt, h') /\
    heap_rep h' NS' (<[l := Queue.insert (key gp gt order) v q]> Q) /\
    cells h ⊆ cells h'.
Proof.
  intros HR HQ Et. pose proof (hr_ok _ _ _ HR) as Hok.
  destruct (queue_rep _ _ _ _ _ HR HQ) as (ns & HNS & Hr & Hh).
  unfold pushOrdered. erewrite bind_Ret by (by apply newNode_run).
  erewrite bind_Ret by (unfold ld_list, ld_map; simpl; by rewrite Hh).
  destruct (Z.eqb_spec (tail (header ns)) NULL) as [E|E].
  { apply (header_tail_null _ _ _ _ (rep_seg _ _ _ _ Hr)) in E as ->.
    assert (q = []) as -> by (destruct q; [done|by destruct (rep_seg _ _ _ _ Hr)]).
    eexists _, _. split_and!; [done|by apply link_first|by apply with_new_cells]. }
  pose proof (rep_seg _ _ _ _ Hr) as Hs.
  destruct ns as [|n ns]; [done|]. destruct q as [|x q]; [done|].
  pose proof (lseg_length _ _ _ _ _ Hs) as Hlen.
  erewrite bind_Ret by (unfold ld_node, ld_map; simpl; by rewrite lookup_insert_eq).
  erewrite bind_Ret by (unfold ld_cell, ld_map; simpl; by rewrite lookup_insert_eq).
  erewrite bind_Ret by done.
  set (kk := key gp gt order). set (c := count_le kk (kk v) (x :: q)).
  pose proof (count_le_length kk (kk v) (x :: q)) as Hc. fold c in Hc.
  erewrite bind_Ret.
  2:{ eapply scan_run; [by apply with_new_seg|].
      apply Nat.lt_succ_r. eapply nodes_size_lseg; [by apply with_new_seg|].
      exact (rep_nodup _ _ _ _ Hr). }
  fold c. change (head (header (n :: ns))) with n.
  destruct (scan_stop c n ns) as (a & post & Ens & Ea & Epost); [simpl in *; lia|].
  rewrite Ea, pushOrdered_split. fold kk c.
  destruct (lookup_lt_is_Some_2 (x :: q) (pred c)) as [ta Hta]; [simpl in *; lia|].
  rewrite (take_S_r _ _ ta), <- app_assoc by done. cbn [app].
  pose proof (take_drop_middle _ _ _ Hta) as Eq.
  set (pre := take (pred c) (n :: ns)) in *. set (qpre := take (pred c) (x :: q)) in *.
  set (qpost := drop (S (pred c)) (x :: q)) in *.
  assert (length pre = length qpre) as Hlp
    by (unfold pre, qpre; rewrite !length_take; simpl in *; lia).
  clearbody pre qpre qpost. rewrite Ens in *. rewrite <- Eq in *. clear Epost Ea Hta.
  assert (n = head (header (pre ++ a :: post))) as Eh by (by rewrite <- Ens).
  clear Ens. subst n. eapply link_behind; eauto.
Qed.

(** The loop of [orderByOldest] moves the queue [l] element by element into
    the queue [new]. *)
Lemma orderByOldest_loop_rep gp gt fuel h NS Q l new q acc :
  l <> new -> (length q < fuel)%nat ->
  heap_rep h NS Q -> Q !! l = Some q -> Q !! new = Some acc ->
  exists h' NS', orderByOldest_loop gp gt fuel l new h = Ret (tt, h') /\
    heap_rep h' NS'
      (<[new := foldl (fun a t => Queue.insert gt t a) acc q]> (<[l := []]> Q)) /\
    cells h ⊆ cells h'.
Proof.
  intros Hne. revert h NS Q q acc. induction fuel as [|f IH]; intros h NS Q q acc Hf HR HQ HA;
    [lia|]. cbn [orderByOldest_loop].
  erewrite bind_Ret by (by eapply empty_rep).
  destruct q as [|t q].
  { rewrite bool_decide_eq_true_2 by done. exists h, NS. split_and!; [done| |done].
    simpl. by rewrite (insert_id Q l), insert_id. }
  rewrite bool_decide_eq_false_2 by done.
  destruct (pop_rep _ _ _ _ _ _ HR HQ) as (c & h1 & NS1 & E1 & HR1 & Ec & EC1).
  erewrite bind_Ret by done.
  destruct (pushOrdered_rep gp gt h1 NS1 _ 1 new c t acc HR1) as (h2 & NS2 & E2 & HR2 & HC2);
    [by rewrite lookup_insert_ne|done|].
  erewrite bind_Ret by done. simpl in Hf.
  destruct (IH h2 NS2 _ q (Queue.insert gt t acc) ltac:(lia) HR2)
    as (h3 & NS3 & E3 & HR3 & HC3).
  { by rewrite lookup_insert_ne, lookup_insert_eq. }
  { by rewrite lookup_insert_eq. }
  exists h3, NS3. split_and!; [done| |rewrite EC1 in HC2; by etrans].
  rewrite (insert_insert_ne _ l new), !insert_insert_eq in HR3 by done.
  done.
Qed.

(** A header that happens to be zeroed is an empty queue of its own. *)
Lemma new_queue_rep h NS Q :
  heap_rep h NS Q ->
  heap_rep (mkHeap (nodes h) (cells h) (<[brk h := header []]> (lists h)) (brk h + 1) (oom h) (fresh h))
           (<[brk h := []]> NS) (<[brk h := []]> Q) /\ Q !! brk h = None.
Proof.
  intros HR. pose proof (hr_ok _ _ _ HR) as Hok.
  assert (Q !! brk h = None) as Hfr.
  { destruct (Q !! brk h) as [q|] eqn:E; [|done].
    destruct (queue_rep _ _ _ _ _ HR E) as (ns & _ & _ & Hh).
    pose proof (ok_lists _ Hok (brk h) ltac:(eauto)). lia. }
  split; [|done]. eapply heap_rep_update; [done| |simpl; lia|done|done|done|done| |].
  - destruct Hok as [H1 H2 H3 H4 H5 H6 H7]. split; simpl; try done; try lia.
    + intros n ?%H1. lia.
    + intros c ?%H2. lia.
    + intros l'. destruct (decide (brk h = l')) as [<-|]; [lia|].
      rewrite lookup_insert_ne by done. intros ?%H3. lia.
  - by apply NoDup_nil.
  - by intros n ?%not_elem_of_nil.
Qed.
(** Copying the header of [new] over the header of [l] moves its queue. *)
Lemma heap_rep_move h NS Q l new ns q :
  l <> new -> heap_rep h NS Q -> is_Some (Q !! l) ->
  Q !! new = Some q -> NS !! new = Some ns ->
  heap_rep (set_lists <[l := header ns]> h) (<[l := ns]> (delete new NS))
           (<[l := q]> (delete new Q)).
Proof.
  intros Hne [Hok Hrep Hdom Hdisj] Hl HQ HNS.
  assert (heap_rep h (delete new NS) (delete new Q)) as HR'.
  { split; [done| | |].
    - intros l' q' [Hn' HQ']%lookup_delete_Some. rewrite lookup_delete_ne by done. auto.
    - intros l'. rewrite !lookup_delete_is_Some. naive_solver.
    - intros l1 l2 ns1 ns2 n Hn [_ H1]%lookup_delete_Some [_ H2]%lookup_delete_Some.
      eauto. }
  destruct (Hrep _ _ HQ) as (ns' & E & [Hh Hs Hnd]). simplify_eq.
  destruct Hl as [ql Hl]. destruct (Hrep _ _ Hl) as (nsl & El & [Hhl _ _]).
  split; [| | |].
  - destruct Hok as [H1 H2 H3 H4 H5 H6 H7]. split; simpl; try done.
    intros l'. destruct (decide (l = l')) as [<-|]; [eauto|].
    rewrite lookup_insert_ne by done. auto.
  - intros l' q'. destruct (decide (l = l')) as [<-|].
    + rewrite !lookup_insert_eq. intros [= <-]. exists ns. split; [done|].
      split; [simpl; by rewrite lookup_insert_eq|by eapply lseg_frame|done].
    + rewrite !lookup_insert_ne by done. intros HQ'.
      destruct (hr_rep _ _ _ HR' _ _ HQ') as (ns' & E' & [Hh' Hs' Hnd']).
      exists ns'. split; [done|].
      split; [simpl; by rewrite lookup_insert_ne|by eapply lseg_frame|done].
  - intros l'. destruct (decide (l = l')) as [<-|]; [rewrite !lookup_insert_eq; eauto|].
    rewrite !lookup_insert_ne by done. apply (hr_dom _ _ _ HR').
  - assert (Hx : forall l' ns' n, l <> l' -> delete new NS !! l' = Some ns' ->
              n ∈ ns -> n ∈ ns' -> False).
    { intros l' ns' n _ [Hn' E']%lookup_delete_Some. eauto. }
    intros l1 l2 ns1 ns2 n Hn.
    destruct (decide (l = l1)) as [<-|]; [|destruct (decide (l = l2)) as [<-|]].
    + rewrite lookup_insert_eq, lookup_insert_ne by done. intros [= <-]. eauto.
    + rewrite lookup_insert_ne, lookup_insert_eq by done. intros ? [= <-] ??. eauto.
    + rewrite !lookup_insert_ne by done. intros H1 H2.
      apply (hr_disj _ _ _ HR' l1 l2 ns1 ns2 n Hn H1 H2).
Qed.

Lemma orderByOldest_rep gp gt h NS Q l q :
  heap_rep h NS Q -> Q !! l = Some q ->
  exists h' NS', orderByOldest gp gt l h = Ret (tt, h') /\
    heap_rep h' NS' (<[l := Queue.by_age gt q]> Q) /\ cells h ⊆ cells h'.
Proof.
  intros HR HQ. destruct (new_queue_rep _ _ _ HR) as [HR1 Hfr].
  pose proof (hr_ok _ _ _ HR) as Hok.
  assert (l <> brk h) as Hne by (intros ->; congruence).
  destruct (queue_rep _ _ _ _ _ HR HQ) as (ns & HNS & Hr & Hh).
  unfold orderByOldest, malloc, deref. unfold mbind at 1, prog_bind at 1, p_bind at 1.
  rewrite (ok_oom _ Hok). destruct (Z.eqb_spec (brk h) NULL) as [E|_].
  { pose proof (ok_brk _ Hok). unfold NULL in *. lia. }
  erewrite bind_Ret by done. cbn [fresh]. rewrite (ok_fresh _ Hok).
  erewrite bind_Ret by done.
  erewrite bind_Ret by (unfold ld_list, ld_map; simpl; by rewrite lookup_insert_ne, Hh).
  erewrite bind_Ret by done.
  rewrite (ok_oom _ Hok) in HR1.
  edestruct (fun Hf => orderByOldest_loop_rep gp gt (S (size (nodes h))) _ _ _ l (brk h) q []
    Hne Hf HR1) as (h2 & NS2 & E2 & HR2 & HC2).
  { apply Nat.lt_succ_r. rewrite <- (lseg_length _ _ _ _ _ (rep_seg _ _ _ _ Hr)).
    eapply nodes_size_lseg; [apply Hr|apply Hr]. }
  { by rewrite lookup_insert_ne. }
  { by rewrite lookup_insert_eq. }
  unfold set_lists. cbn. erewrite bind_Ret by done.
  destruct (queue_rep _ _ _ (brk h) _ HR2 (lookup_insert_eq _ _ _)) as (ns2 & HNS2 & Hr2 & Hh2).
  erewrite bind_Ret by (unfold ld_list, ld_map; by rewrite Hh2).
  eexists _, _. split_and!; [done| |done].
  eapply heap_rep_move in HR2; [|done| |by apply lookup_insert_eq|done].
  2:{ rewrite lookup_insert_ne, lookup_insert_eq by done. eauto. }
  rewrite delete_insert_eq, delete_insert_ne, insert_insert_eq, delete_insert_eq in HR2 by done.
  rewrite (delete_id Q) in HR2 by done. exact HR2.
Qed.

(** Writing an argument cell below the heap does not touch the queues. *)
Lemma st_cell_rep h NS Q p v :
  p <= 0 -> heap_rep h NS Q -> heap_rep (set_cells <[p := v]> h) NS Q.
Proof.
  intros Hp [Hok Hrep Hdom Hdisj]. split; [| |done|done].
  - destruct Hok as [H1 H2 H3 H4 H5 H6 H7]. split; simpl; try done.
    intros c. destruct (decide (p = c)) as [<-|]; [lia|].
    rewrite lookup_insert_ne by done. auto.
  - intros l q HQ. destruct (Hrep _ _ HQ) as (ns & E & [Hh Hs Hnd]).
    exists ns. split; [done|]. split; [done| |done]. clear -Hs Hok Hp.
    revert Hs. generalize (default NULL (list.head ns)) as p0. revert q.
    induction ns as [|n ns IH]; intros [|t q] p0; simpl; try done.
    intros (-> & Hn & nd & E & Ec & Hs). split_and!; [done..|]. exists nd.
    split_and!; [done| |by apply IH]. pose proof (ok_threads _ Hok _ _ E).
    rewrite lookup_insert_ne by lia. done.
Qed.
End Refinement.
