(* ===== verification/Queues.v ===== *)
(** * The queue interface

    What the thread library relies on when it calls LinkedList.c, as a class
    of operations and a class of laws over the plain-list semantics, and the
    instance that discharges the laws for the pointer implementation.  The
    properties of the queue discipline itself are proved here too. *)

From S2P Require Import Prelude LinkedList LinkedListRep.

(** The operations the thread library uses, on the handles stored in the
    cells: [q_pop l] is [*pop(l)], [q_push l v] is [push(l, &v)], and
    [q_alloc] reserves a header in zeroed memory. *)
Class QueueOps (H : Type) := {
  q_empty : Z -> prog H bool;
  q_pop : Z -> prog H Z;
  q_push : Z -> Z -> prog H unit;
  q_pushOrdered : (Z -> Z) -> (Z -> Z) -> Z -> Z -> Z -> prog H unit;
  q_orderByOldest : (Z -> Z) -> (Z -> Z) -> Z -> prog H unit;
  q_alloc : prog H Z
}.

Class QueueLaws (H : Type) `{QueueOps H} := {
  q_abs : H -> gmap Z (list Z) -> Prop;
  q_empty_law h Q l q : q_abs h Q -> Q !! l = Some q ->
    q_empty l h = Ret (bool_decide (q = []), h);
  q_pop_law h Q l t q : q_abs h Q -> Q !! l = Some (t :: q) ->
    exists h', q_pop l h = Ret (t, h') /\ q_abs h' (<[l := q]> Q);
  q_pop_fault h Q l : q_abs h Q -> Q !! l = Some [] -> q_pop l h = Fault;
  q_push_law h Q l v q : q_abs h Q -> Q !! l = Some q ->
    exists h', q_push l v h = Ret (tt, h') /\ q_abs h' (<[l := q ++ [v]]> Q);
  q_pushOrdered_law gp gt order h Q l v q : q_abs h Q -> Q !! l = Some q ->
    exists h', q_pushOrdered gp gt order l v h = Ret (tt, h') /\
      q_abs h' (<[l := Queue.insert (LinkedList.key gp gt order) v q]> Q);
  q_orderByOldest_law gp gt h Q l q : q_abs h Q -> Q !! l = Some q ->
    exists h', q_orderByOldest gp gt l h = Ret (tt, h') /\
      q_abs h' (<[l := Queue.by_age gt q]> Q);
  q_null_fault h Q : q_abs h Q -> q_empty NULL h = Fault;
  q_pushOrdered_null_fault gp gt order h Q v :
    q_abs h Q -> q_pushOrdered gp gt order NULL v h = Fault;
  q_alloc_law h Q : q_abs h Q ->
    exists l h', q_alloc h = Ret (l, h') /\ Q !! l = None /\ 0 < l /\ q_abs h' (<[l := []]> Q);
  q_abs_unique h Q Q' l q q' :
    q_abs h Q -> q_abs h Q' -> Q !! l = Some q -> Q' !! l = Some q' -> q = q'
}.

Arguments QueueLaws H {_}.

(** ** The pointer implementation *)

(** The cell an argument is passed in ([running] or the caller's handle). *)
Definition arg_cell : Z := -1.

#[export] Instance LinkedList_ops : QueueOps LinkedList.heap := {
  q_empty := LinkedList.empty;
  q_pop l := c ← LinkedList.pop l; LinkedList.ld_cell c;
  q_push l v := LinkedList.st_cell arg_cell v;; LinkedList.push l arg_cell;
  q_pushOrdered gp gt order l v :=
    LinkedList.st_cell arg_cell v;; LinkedList.pushOrdered gp gt order l arg_cell;
  q_orderByOldest gp gt l := LinkedList.orderByOldest gp gt l;
  q_alloc :=
    l ← LinkedList.malloc;
    LinkedList.deref l (LinkedList.st_list l (header []);; mret l)
}.

#[export] Instance LinkedList_laws : QueueLaws LinkedList.heap.
Proof.
  refine {| q_abs := queues |}.
  - intros h Q l q [NS HR] HQ. by eapply empty_rep.
  - intros h Q l t q [NS HR] HQ.
    destruct (pop_rep _ _ _ _ _ _ HR HQ) as (c & h' & NS' & E & HR' & Ec & _).
    exists h'. split; [|by exists NS']. simpl. erewrite bind_Ret by done.
    unfold LinkedList.ld_cell, LinkedList.ld_map. by rewrite Ec.
  - intros h Q l [NS HR] HQ. simpl. apply bind_Fault. by eapply pop_empty.
  - intros h Q l v q [NS HR] HQ. apply (st_cell_rep _ _ _ arg_cell v) in HR; [|done].
    destruct (push_rep _ _ _ l arg_cell v q HR) as (h' & NS' & E & HR' & _); [done| |].
    { simpl. by rewrite lookup_insert_eq. }
    exists h'. split; [done|by exists NS'].
  - intros gp gt order h Q l v q [NS HR] HQ.
    apply (st_cell_rep _ _ _ arg_cell v) in HR; [|done].
    destruct (pushOrdered_rep gp gt _ _ _ order l arg_cell v q HR)
      as (h' & NS' & E & HR' & _); [done| |].
    { simpl. by rewrite lookup_insert_eq. }
    exists h'. split; [done|by exists NS'].
  - intros gp gt h Q l q [NS HR] HQ.
    destruct (orderByOldest_rep gp gt _ _ _ _ _ HR HQ) as (h' & NS' & E & HR' & _).
    exists h'. split; [done|by exists NS'].
  - intros h Q [NS HR]. simpl. apply bind_Fault.
    unfold LinkedList.ld_list, LinkedList.ld_map.
    destruct (LinkedList.lists h !! NULL) eqn:E; [|done].
    pose proof (ok_lists _ (hr_ok _ _ _ HR) NULL ltac:(eauto)). unfold NULL in *. lia.
  - intros gp gt order h Q v [NS HR].
    apply (st_cell_rep _ _ _ arg_cell v) in HR; [|done].
    pose proof (hr_ok _ _ _ HR) as Hok. cbn [q_pushOrdered LinkedList_ops].
    erewrite bind_Ret by done. unfold LinkedList.pushOrdered.
    erewrite bind_Ret.
    2:{ apply newNode_run; [exact Hok|]. simpl. by rewrite lookup_insert_eq. }
    apply bind_Fault. unfold LinkedList.ld_list, LinkedList.ld_map. cbn -[lookup].
    destruct (LinkedList.lists h !! NULL) eqn:E; [|done].
    pose proof (ok_lists _ Hok NULL ltac:(eauto)). unfold NULL in *. lia.
  - intros h Q [NS HR]. destruct (new_queue_rep _ _ _ HR) as [HR' Hfr].
    pose proof (hr_ok _ _ _ HR) as Hok. pose proof (ok_brk _ Hok).
    exists (LinkedList.brk h). eexists. split_and!; [|done|done|eexists; exact HR'].
    cbn [q_alloc LinkedList_ops]. unfold LinkedList.malloc, LinkedList.deref.
    unfold mbind, prog_bind, p_bind. rewrite (ok_oom _ Hok).
    destruct (Z.eqb_spec (LinkedList.brk h) NULL) as [E|_]; [unfold NULL in E; lia|].
    simpl. unfold LinkedList.set_lists. simpl. done.
  - intros h Q Q' l q q' [NS HR] [NS' HR'] HQ HQ'.
    destruct (hr_rep _ _ _ HR _ _ HQ) as (ns & _ & [Eh Hs _]).
    destruct (hr_rep _ _ _ HR' _ _ HQ') as (ns' & _ & [Eh' Hs' _]).
    rewrite Eh in Eh'. injection Eh' as _ Ehd _. rewrite <- Ehd in Hs'. by eapply lseg_unique.
Defined.

(** ** The plain-list implementation

    The specification itself is an implementation: a map of queues and the
    next free header address. *)

Definition plain : Type := gmap Z (list Z) * Z.

Definition plain_upd {A} (l : Z) (f : list Z -> option (A * list Z)) : prog plain A :=
  fun '(Q, n) =>
    match Q !! l ≫= f with
    | Some (a, q) => Ret (a, (<[l := q]> Q, n))
    | None => Fault
    end.

#[export] Instance plain_ops : QueueOps plain := {
  q_empty l := plain_upd l (fun q => Some (bool_decide (q = []), q));
  q_pop l := plain_upd l (fun q => match q with t :: q' => Some (t, q') | [] => None end);
  q_push l v := plain_upd l (fun q => Some (tt, q ++ [v]));
  q_pushOrdered gp gt order l v :=
    plain_upd l (fun q => Some (tt, Queue.insert (LinkedList.key gp gt order) v q));
  q_orderByOldest gp gt l := plain_upd l (fun q => Some (tt, Queue.by_age gt q));
  q_alloc := fun '(Q, n) => Ret (n, (<[n := []]> Q, n + 1))
}.

Definition plain_abs (h : plain) (Q : gmap Z (list Z)) : Prop :=
  h.1 = Q /\ 0 < h.2 /\ map_Forall (fun l _ => 0 < l < h.2) h.1.

Lemma plain_upd_Ret {A} l f (a : A) q q' (h : plain) Q :
  plain_abs h Q -> Q !! l = Some q -> f q = Some (a, q') ->
  exists h', plain_upd l f h = Ret (a, h') /\ plain_abs h' (<[l := q']> Q).
Proof.
  destruct h as [Q0 n]. intros (<- & Hn & Hf) E Ef. simpl in *. rewrite E. simpl. rewrite Ef.
  eexists. split; [done|]. split_and!; [done|done|]. simpl.
  apply map_Forall_insert_2; [by eapply Hf|done].
Qed.

#[export] Instance plain_laws : QueueLaws plain.
Proof.
  refine {| q_abs := plain_abs |}.
  - intros [Q0 n] Q l q (<- & ? & ?) E. simpl in *. rewrite E. simpl. by rewrite insert_id.
  - intros h Q l t q HA E. by eapply (plain_upd_Ret l).
  - intros [Q0 n] Q l (<- & ? & ?) E. simpl in *. by rewrite E.
  - intros h Q l v q HA E. by eapply (plain_upd_Ret l).
  - intros gp gt order h Q l v q HA E. by eapply (plain_upd_Ret l).
  - intros gp gt h Q l q HA E. by eapply (plain_upd_Ret l).
  - intros [Q0 n] Q (<- & ? & Hf). simpl in *. destruct (Q0 !! NULL) eqn:E; [|done].
    specialize (Hf _ _ E). simpl in Hf. unfold NULL in Hf. lia.
  - intros gp gt order [Q0 n] Q v (<- & ? & Hf). simpl in *. destruct (Q0 !! NULL) eqn:E; [|done].
    specialize (Hf _ _ E). simpl in Hf. unfold NULL in Hf. lia.
  - intros [Q0 n] Q (<- & Hn & Hf). simpl in *. eexists n, _. split_and!; [done| |done|].
    + destruct (Q0 !! n) eqn:E; [|done]. specialize (Hf _ _ E). simpl in Hf. lia.
    + split_and!; [done|simpl; lia|]. simpl. apply map_Forall_insert_2; [lia|].
      eapply map_Forall_impl; [done|]. simpl. intros. lia.
  - intros h Q Q' l q q' (<- & _) (<- & _) E E'. by simplify_eq.
Defined.

(** ** The queue discipline *)

Section Discipline.
Context (k : Z -> Z).

Definition key_le (x y : Z) : Prop := k x <= k y.

Lemma insert_le_perm t q : Queue.insert_le k t q ≡ₚ t :: q.
Proof.
  induction q as [|x q IH]; simpl; [done|].
  case_match; [|done]. rewrite IH. apply Permutation_swap.
Qed.

Lemma pushOrdered_perm t q : Queue.insert k t q ≡ₚ t :: q.
Proof.
  destruct q as [|x q]; simpl; [done|].
  case_match; [rewrite insert_le_perm|]; apply Permutation_swap.
Qed.

Lemma insert_le_sorted t q :
  StronglySorted key_le q -> StronglySorted key_le (Queue.insert_le k t q).
Proof.
  induction 1 as [|x q Hs IH Hx]; simpl; [by repeat constructor|].
  destruct (Z.leb_spec (k x) (k t)) as [Hle|Hgt].
  - constructor; [done|]. rewrite insert_le_perm. constructor; done.
  - constructor; [by constructor|]. constructor; [unfold key_le; lia|].
    eapply Forall_impl; [done|]. unfold key_le. intros. lia.
Qed.

Lemma foldl_pushOrdered_perm q acc :
  foldl (fun a t => Queue.insert k t a) acc q ≡ₚ acc ++ q.
Proof.
  revert acc. induction q as [|x q IH]; intros acc; simpl; [by rewrite app_nil_r|].
  rewrite IH, pushOrdered_perm. apply Permutation_middle.
Qed.

Lemma pushOrdered_head x q t : list.head (Queue.insert k t (x :: q)) = Some x.
Proof. simpl. by case_match. Qed.

Lemma foldl_pushOrdered_head q x acc :
  list.head (foldl (fun a t => Queue.insert k t a) (x :: acc) q) = Some x.
Proof.
  revert acc. induction q as [|y q IH]; intros acc; simpl; [done|].
  case_match; apply IH.
Qed.

Lemma insert_sorted t q :
  StronglySorted key_le q -> (forall x, list.head q = Some x -> k x <= k t) ->
  StronglySorted key_le (Queue.insert k t q).
Proof.
  intros Hs Hh. destruct q as [|x q]; [by repeat constructor|].
  specialize (Hh x eq_refl). simpl. destruct (Z.leb_spec (k x) (k t)); [|lia].
  apply (insert_le_sorted t (x :: q)) in Hs. simpl in Hs.
  destruct (Z.leb_spec (k x) (k t)); [done|lia].
Qed.

(** With the oldest thread first, insertion by age sorts. *)
Lemma by_age_sorted q :
  (forall x y, list.head q = Some x -> y ∈ q -> k x <= k y) -> StronglySorted key_le (Queue.by_age k q).
Proof.
  unfold Queue.by_age. destruct q as [|x q]; [constructor|]. intros Hx. cbn [foldl Queue.insert].
  assert (forall y, y ∈ q -> k x <= k y) as Hq by (intros y Hy; apply Hx; [done|set_solver]). clear Hx.
  assert (exists acc, StronglySorted key_le (x :: acc) /\ [x] = x :: acc) as (acc & Hs & ->)
    by (exists []; split; [by repeat constructor|done]).
  revert acc Hs. induction q as [|t q IH]; intros acc Hs; cbn [foldl]; [done|].
  assert (StronglySorted key_le (Queue.insert k t (x :: acc))) as Hs'.
  { apply insert_sorted; [done|]. intros ? [= <-]. apply Hq. set_solver. }
  pose proof (pushOrdered_head x acc t) as Eh. destruct (Queue.insert k t (x :: acc)) as [|x' acc']; [done|].
  injection Eh as ->. apply IH; [|done]. intros y Hy. apply Hq. set_solver.
Qed.
End Discipline.

Lemma insert_ext k k' t q : (forall x, k x = k' x) -> Queue.insert k t q = Queue.insert k' t q.
Proof.
  intros Hk. assert (forall q, Queue.insert_le k t q = Queue.insert_le k' t q) as Hle.
  { intros q'. induction q' as [|x q' IH]; simpl; [done|]. by rewrite !Hk, IH. }
  destruct q as [|x q]; simpl; [done|]. by rewrite !Hk, Hle.
Qed.

Lemma foldl_insert_ext k k' q acc :
  (forall x, k x = k' x) ->
  foldl (fun a t => Queue.insert k t a) acc q = foldl (fun a t => Queue.insert k' t a) acc q.
Proof.
  intros Hk. revert acc. induction q as [|x q IH]; intros acc; simpl; [done|].
  by rewrite (insert_ext _ _ _ _ Hk), IH.
Qed.

Lemma by_age_ext k k' q : (forall x, k x = k' x) -> Queue.by_age k q = Queue.by_age k' q.
Proof. apply foldl_insert_ext. Qed.

(** ** Running the operations *)

(** Heaps without queues, by what [malloc] finds in the headers it hands out;
    the one where that is zero; and a heap with one empty queue at address 1 and
    the handle 7 in the argument cell. *)
Definition zeroed : Z -> LinkedList.LinkedList := fun _ => LinkedList.mkList NULL NULL 0.
Definition heap_of (fr : Z -> LinkedList.LinkedList) : LinkedList.heap :=
  LinkedList.mkHeap ∅ ∅ ∅ 1 false fr.
Definition heap0 : LinkedList.heap := heap_of zeroed.
Definition heap1 : LinkedList.heap :=
  LinkedList.mkHeap ∅ {[arg_cell := 7]} {[1 := header []]} 2 false zeroed.

Lemma heap_of_queues fr : (forall a, fr a = LinkedList.mkList NULL NULL 0) -> queues (heap_of fr) ∅.
Proof.
  intros Hfr.
  exists ∅. split; [split| | |]; simpl; try done; try (intros ?; rewrite lookup_empty; by intros []).
Qed.

Lemma heap0_queues : queues heap0 ∅.
Proof. by apply heap_of_queues. Qed.

Lemma heap1_queues : queues heap1 {[1 := []]}.
Proof.
  destruct heap0_queues as [NS HR]. destruct (new_queue_rep _ _ _ HR) as [HR1 _].
  apply (st_cell_rep _ _ _ arg_cell 7) in HR1; [|done]. eexists. exact HR1.
Qed.

(** [push] in a loop, and [pop] [n] times. *)
Fixpoint push_all {H} `{QueueOps H} (l : Z) (vs : list Z) : prog H unit :=
  match vs with
  | [] => mret tt
  | v :: vs' => q_push l v;; push_all l vs'
  end.

Fixpoint drain {H} `{QueueOps H} (n : nat) (l : Z) : prog H (list Z) :=
  match n with
  | O => mret []
  | S n' => v ← q_pop l; vs ← drain n' l; mret (v :: vs)
  end.

Section Runs.
Context {H : Type} `{QueueLaws H}.

Lemma push_all_run l vs h Q q :
  q_abs h Q -> Q !! l = Some q ->
  exists h', push_all l vs h = Ret (tt, h') /\ q_abs h' (<[l := q ++ vs]> Q).
Proof.
  revert h Q q. induction vs as [|v vs IH]; intros h Q q Ha HQ; simpl.
  - exists h. rewrite app_nil_r, insert_id by done. done.
  - destruct (q_push_law h Q l v q Ha HQ) as (h1 & E1 & A1).
    erewrite bind_Ret by done.
    destruct (IH h1 _ (q ++ [v]) A1) as (h2 & E2 & A2); [by rewrite lookup_insert_eq|].
    exists h2. split; [done|]. by rewrite insert_insert_eq, <- app_assoc in A2.
Qed.

Lemma drain_run l vs q h Q :
  q_abs h Q -> Q !! l = Some (vs ++ q) ->
  exists h', drain (length vs) l h = Ret (vs, h') /\ q_abs h' (<[l := q]> Q).
Proof.
  revert h Q. induction vs as [|v vs IH]; intros h Q Ha HQ; simpl.
  - exists h. by rewrite insert_id.
  - destruct (q_pop_law h Q l v (vs ++ q) Ha HQ) as (h1 & E1 & A1).
    erewrite bind_Ret by done.
    destruct (IH h1 _ A1) as (h2 & E2 & A2); [by rewrite lookup_insert_eq|].
    erewrite bind_Ret by done. exists h2. split; [done|]. by rewrite insert_insert_eq in A2.
Qed.
End Runs.

(** ** Theorems *)

(** C14: [pushOrdered] on a heap that represents a family of queues returns,
    and the resulting heap represents the same family except that the handle
    was inserted into the one queue [l], behind every element of the scanned
    prefix and never before the head. *)
Theorem pushOrdered_refines gp gt order h Q l t v q :
  queues h Q -> Q !! l = Some q -> LinkedList.cells h !! t = Some v ->
  exists h', LinkedList.pushOrdered gp gt order l t h = Ret (tt, h') /\
    queues h' (<[l := Queue.insert (LinkedList.key gp gt order) v q]> Q).
Proof.
  intros [NS HR] HQ Et.
  destruct (pushOrdered_rep gp gt h NS Q order l t v q HR HQ Et) as (h' & NS' & E & HR' & _).
  exists h'. split; [done|by exists NS'].
Qed.

Lemma pushOrdered_refines_witness :
  exists h', LinkedList.pushOrdered id id 0 1 arg_cell heap1 = Ret (tt, h') /\
    queues h' (<[1 := [7]]> {[1 := []]}).
Proof.
  apply (pushOrdered_refines id id 0 heap1 {[1 := []]} 1 arg_cell 7 []).
  - exact heap1_queues.
  - reflexivity.
  - reflexivity.
Defined.

(** C15: [orderByOldest], when the header [malloc] returns happens to be zeroed,
    returns and leaves the queue with its threads inserted one by one in the
    order of their creation times, never in front of the first; the other
    queues are unchanged.  When the first thread is the oldest the result is
    sorted by creation time. *)
Theorem orderByOldest_refines gp gt h Q l q :
  queues h Q -> Q !! l = Some q ->
  exists h', LinkedList.orderByOldest gp gt l h = Ret (tt, h') /\
    queues h' (<[l := Queue.by_age gt q]> Q) /\
    Queue.by_age gt q ≡ₚ q /\ list.head (Queue.by_age gt q) = list.head q /\
    ((forall x y, list.head q = Some x -> y ∈ q -> gt x <= gt y) ->
     StronglySorted (key_le gt) (Queue.by_age gt q)).
Proof.
  intros [NS HR] HQ.
  destruct (orderByOldest_rep gp gt h NS Q l q HR HQ) as (h' & NS' & E & HR' & _).
  exists h'. split_and!; [done|by exists NS'| | |apply by_age_sorted].
  - unfold Queue.by_age. by rewrite foldl_pushOrdered_perm.
  - destruct q as [|x q]; [done|]. apply foldl_pushOrdered_head.
Qed.

(** Three threads, pushed on the queue 1. *)
Definition heap3 : LinkedList.heap :=
  match push_all 1 [3; 9; 5] heap1 with Ret (_, h) => h | _ => heap1 end.

Lemma heap3_queues : queues heap3 {[1 := [3; 9; 5]]}.
Proof.
  destruct (@push_all_run _ _ LinkedList_laws 1 [3; 9; 5] heap1 {[1 := []]} [] heap1_queues eq_refl)
    as (h' & E & HA).
  assert (heap3 = h') as ->.
  { unfold heap3. by rewrite E. }
  by rewrite insert_singleton_eq in HA.
Qed.

Lemma orderByOldest_refines_witness :
  exists h', LinkedList.orderByOldest id id 1 heap3 = Ret (tt, h') /\
    queues h' (<[1 := [3; 5; 9]]> {[1 := [3; 9; 5]]}) /\
    StronglySorted (key_le id) [3; 5; 9].
Proof.
  destruct (orderByOldest_refines id id heap3 {[1 := [3; 9; 5]]} 1 [3; 9; 5])
    as (h' & E & HA & _ & _ & Hs).
  - exact heap3_queues.
  - reflexivity.
  - exists h'. split; [exact E|]. split; [exact HA|]. apply Hs.
    intros x y [= <-] Hy. revert y Hy. apply Forall_forall. repeat constructor; vm_compute; discriminate.
Defined.

(** First in, first out: handles pushed on an empty queue come out of the
    same number of [pop]s in the order they went in, and leave the queue
    empty. *)
Theorem push_pop_fifo vs h Q l :
  queues h Q -> Q !! l = Some [] ->
  exists h1 h2, push_all l vs h = Ret (tt, h1) /\ drain (length vs) l h1 = Ret (vs, h2) /\
    queues h2 Q.
Proof.
  intros HA HQ.
  destruct (@push_all_run _ _ LinkedList_laws l vs h Q [] HA HQ) as (h1 & E1 & A1).
  destruct (@drain_run _ _ LinkedList_laws l vs [] h1 _ A1) as (h2 & E2 & A2).
  { by rewrite lookup_insert_eq, app_nil_r. }
  exists h1, h2. split_and!; [done..|]. by rewrite insert_insert_eq, insert_id in A2.
Qed.

Lemma push_pop_fifo_witness :
  exists h1 h2, push_all 1 [5; 3; 9] heap1 = Ret (tt, h1) /\
    drain 3 1 h1 = Ret ([5; 3; 9], h2) /\ queues h2 {[1 := []]}.
Proof.
  apply (push_pop_fifo [5; 3; 9] heap1 {[1 := []]} 1).
  - exact heap1_queues.
  - reflexivity.
Defined.

(** In a queue sorted by key, an ordered insertion of a thread whose key
    is not below the head's keeps the queue sorted and adds exactly that
    thread. *)
Theorem pushOrdered_sorted k t q :
  StronglySorted (key_le k) q ->
  (forall x, list.head q = Some x -> k x <= k t) ->
  StronglySorted (key_le k) (Queue.insert k t q) /\ Queue.insert k t q ≡ₚ t :: q.
Proof.
  intros Hs Hh. split; [by apply insert_sorted|apply pushOrdered_perm].
Qed.

Lemma pushOrdered_sorted_witness :
  StronglySorted (key_le id) (Queue.insert id 4 [1; 3; 6]) /\
  Queue.insert id 4 [1; 3; 6] ≡ₚ [4; 1; 3; 6].
Proof.
  apply (pushOrdered_sorted id 4 [1; 3; 6]).
  - repeat constructor; vm_compute; discriminate.
  - intros x [= <-]. vm_compute. discriminate.
Defined.

(** a thread with a smaller key than the head of a non-empty queue is put
    behind the head, so the queue is then not sorted: the branch that should
    make it the new head is never taken. *)
Theorem pushOrdered_never_first k t x q :
  k t < k x ->
  list.head (Queue.insert k t (x :: q)) = Some x /\
  ~ StronglySorted (key_le k) (Queue.insert k t (x :: q)).
Proof.
  intros Hlt. split; [apply pushOrdered_head|]. simpl.
  destruct (Z.leb_spec (k x) (k t)); [lia|]. intros Hs.
  inversion Hs as [|? ? _ Hf]; subst. inversion Hf as [|? ? Hk _]; subst.
  unfold key_le in Hk. lia.
Qed.

Lemma pushOrdered_never_first_witness :
  list.head (Queue.insert id 2 [5; 6]) = Some 5 /\
  ~ StronglySorted (key_le id) (Queue.insert id 2 [5; 6]).
Proof. apply (pushOrdered_never_first id 2 5 [6]). reflexivity. Defined.
