(* ===== verification/Pthread.v ===== *)
(** * User-level threads: my_pthread.c

    The thread library over the queue interface of [Queues].  A machine state
    holds the thread and mutex structs, the queues and the execution context
    of the processor; [context] fields hold the contexts saved by
    [swapcontext].  Each function of my_pthread.c is a definition; a function
    that gives up the processor ends with the context switch, and what it
    does when it is resumed is the meaning of the context it saved.  Code that
    runs with SIGPROF blocked is one step; where the C code has it unblocked,
    the step ends and a timer interrupt may come in between. *)

From S2P Require Import Prelude LinkedList Queues.

Module Pthread.

Definition QUANTUM : Z := 25000.

(** Where an execution context stands.  [Entry] is the start of [threadRun],
    [User] is application code; the others are places inside the library
    where signals are unblocked. *)
Inductive ctx :=
| Unset
| Entry
| User
| LockRead (m : Z)                 (* testAndSet: before the state is read *)
| LockWrite (m s : Z)              (* testAndSet: [s] read, 1 not yet written *)
| LockBlock (m : Z)                (* testAndSet returned 1, signals not yet blocked *)
| LockSwap (m old : Z)             (* before the swapcontext of mutex_lock *)
| JoinSwap (t : Z) (vp : bool) (old : Z)  (* before the swapcontext of join *)
| JoinTail (t : Z) (vp : bool)     (* after it *)
| ExitSwap.                        (* before the setcontext of threadExit *)

#[export] Instance ctx_eq_dec : EqDecision ctx.
Proof. solve_decision. Defined.

(** [struct sthread].  [res] is the value its [res] pointer points to, [None]
    for the NULL a zeroed struct holds.  [threadExit] makes it point to its own
    parameter, which stays on the stack of the thread that exited. *)
Record sthread := mkThread {
  id : Z;
  priority : Z;
  born : Z;
  context : ctx;
  function : Z;
  arg : Z;
  res : option Z;
  finished : Z;
  waitJoin : Z
}.

Record lock := mkLock { state : Z; wait : Z }.

(** What the library allocates in OS memory. *)
Inductive osobj :=
| OLinkedList
| OThread
| OStack
| OLock
| OCounter
| OHandle
| OSigaction
| OTimer.

(** The calls into the memory manager (vm.c), in order. *)
Inductive vmcall :=
| OsAlloc (what : osobj)
| OsFree (p : Z)                   (* mydeallocate(p, ..., OSREQ) *)
| ThreadFree (p : Z)               (* free(p), which is mydeallocate(p, ..., THREADREQ) *)
| ReservePage (pid : Z)
| UpdateReference
| MemoryProtect (pid : Z).

Record os (H : Type) := mkOs {
  hp : H;                          (* the queues *)
  threads : gmap Z sthread;
  mutexes : gmap Z lock;
  run : Z;                         (* [run], the run queue *)
  running : Z;                     (* [*running] *)
  mainThread : Z;
  nextId : Z;
  nSchedulings : Z;
  timer : Z;                       (* [timer->it_value.tv_usec] *)
  cpu : ctx;                       (* the context being executed *)
  clock : Z;                       (* [time(NULL)] *)
  naddr : Z;                       (* the next address of OS memory *)
  joined : list (Z * Z);           (* the values [join] delivered *)
  vmlog : list vmcall
}.

Arguments mkOs {H}.
Arguments hp {H}. Arguments threads {H}. Arguments mutexes {H}. Arguments run {H}.
Arguments running {H}. Arguments mainThread {H}. Arguments nextId {H}.
Arguments nSchedulings {H}. Arguments timer {H}. Arguments cpu {H}. Arguments clock {H}.
Arguments naddr {H}. Arguments joined {H}. Arguments vmlog {H}.

Section Machine.
Context {H : Type} `{QueueOps H}.

Abbreviation M := (prog (os H)).

Definition set_hp (x : H) (s : os H) : os H :=
  mkOs x (threads s) (mutexes s) (run s) (running s) (mainThread s) (nextId s)
    (nSchedulings s) (timer s) (cpu s) (clock s) (naddr s) (joined s) (vmlog s).
Definition set_threads (x : gmap Z sthread) (s : os H) : os H :=
  mkOs (hp s) x (mutexes s) (run s) (running s) (mainThread s) (nextId s)
    (nSchedulings s) (timer s) (cpu s) (clock s) (naddr s) (joined s) (vmlog s).
Definition set_mutexes (x : gmap Z lock) (s : os H) : os H :=
  mkOs (hp s) (threads s) x (run s) (running s) (mainThread s) (nextId s)
    (nSchedulings s) (timer s) (cpu s) (clock s) (naddr s) (joined s) (vmlog s).
Definition set_run (x : Z) (s : os H) : os H :=
  mkOs (hp s) (threads s) (mutexes s) x (running s) (mainThread s) (nextId s)
    (nSchedulings s) (timer s) (cpu s) (clock s) (naddr s) (joined s) (vmlog s).
Definition set_running (x : Z) (s : os H) : os H :=
  mkOs (hp s) (threads s) (mutexes s) (run s) x (mainThread s) (nextId s)
    (nSchedulings s) (timer s) (cpu s) (clock s) (naddr s) (joined s) (vmlog s).
Definition set_mainThread (x : Z) (s : os H) : os H :=
  mkOs (hp s) (threads s) (mutexes s) (run s) (running s) x (nextId s)
    (nSchedulings s) (timer s) (cpu s) (clock s) (naddr s) (joined s) (vmlog s).
Definition set_nextId (x : Z) (s : os H) : os H :=
  mkOs (hp s) (threads s) (mutexes s) (run s) (running s) (mainThread s) x
    (nSchedulings s) (timer s) (cpu s) (clock s) (naddr s) (joined s) (vmlog s).
Definition set_nSchedulings (x : Z) (s : os H) : os H :=
  mkOs (hp s) (threads s) (mutexes s) (run s) (running s) (mainThread s) (nextId s)
    x (timer s) (cpu s) (clock s) (naddr s) (joined s) (vmlog s).
Definition set_timer (x : Z) (s : os H) : os H :=
  mkOs (hp s) (threads s) (mutexes s) (run s) (running s) (mainThread s) (nextId s)
    (nSchedulings s) x (cpu s) (clock s) (naddr s) (joined s) (vmlog s).
Definition set_cpu (x : ctx) (s : os H) : os H :=
  mkOs (hp s) (threads s) (mutexes s) (run s) (running s) (mainThread s) (nextId s)
    (nSchedulings s) (timer s) x (clock s) (naddr s) (joined s) (vmlog s).
Definition set_time (x : Z) (s : os H) : os H :=
  mkOs (hp s) (threads s) (mutexes s) (run s) (running s) (mainThread s) (nextId s)
    (nSchedulings s) (timer s) (cpu s) x (naddr s) (joined s) (vmlog s).
Definition set_naddr (x : Z) (s : os H) : os H :=
  mkOs (hp s) (threads s) (mutexes s) (run s) (running s) (mainThread s) (nextId s)
    (nSchedulings s) (timer s) (cpu s) (clock s) x (joined s) (vmlog s).
Definition add_joined (x : Z * Z) (s : os H) : os H :=
  mkOs (hp s) (threads s) (mutexes s) (run s) (running s) (mainThread s) (nextId s)
    (nSchedulings s) (timer s) (cpu s) (clock s) (naddr s) (joined s ++ [x]) (vmlog s).
Definition add_vmlog (x : vmcall) (s : os H) : os H :=
  mkOs (hp s) (threads s) (mutexes s) (run s) (running s) (mainThread s) (nextId s)
    (nSchedulings s) (timer s) (cpu s) (clock s) (naddr s) (joined s) (vmlog s ++ [x]).

(** ** Access to the structs *)

(** A queue operation runs on the queue heap. *)
Definition lift {A} (m : prog H A) : M A := fun s =>
  match m (hp s) with
  | Ret (a, h) => Ret (a, set_hp h s)
  | Fault => Fault
  | Halt c => Halt c
  | Timeout => Timeout
  end.

Definition ld_thread (t : Z) : M sthread := fun s =>
  match threads s !! t with Some th => Ret (th, s) | None => Fault end.
Definition st_thread (t : Z) (th : sthread) : M unit :=
  p_modify (fun s => set_threads (<[t := th]> (threads s)) s).
Definition ld_lock (m : Z) : M lock := fun s =>
  match mutexes s !! m with Some l => Ret (l, s) | None => Fault end.
Definition st_lock (m : Z) (l : lock) : M unit :=
  p_modify (fun s => set_mutexes (<[m := l]> (mutexes s)) s).

Definition upd_context (c : ctx) (th : sthread) : sthread :=
  mkThread (id th) (priority th) (born th) c (function th) (arg th) (res th) (finished th) (waitJoin th).
Definition upd_priority (p : Z) (th : sthread) : sthread :=
  mkThread (id th) p (born th) (context th) (function th) (arg th) (res th) (finished th) (waitJoin th).
Definition upd_finished (th : sthread) : sthread :=
  mkThread (id th) (priority th) (born th) (context th) (function th) (arg th) (res th) 1 (waitJoin th).
Definition upd_res (v : Z) (th : sthread) : sthread :=
  mkThread (id th) (priority th) (born th) (context th) (function th) (arg th) (Some v) (finished th) (waitJoin th).

(** [getPriority] and [getTimeCreated], on the struct a handle points to; a
    handle in a queue always points to one. *)
Definition getPriority (s : os H) (t : Z) : Z :=
  match threads s !! t with Some th => wraps 32 (priority th) | None => 0 end.
Definition getTimeCreated (s : os H) (t : Z) : Z :=
  match threads s !! t with Some th => wrapu 32 (born th) | None => 0 end.

Definition pushOrdered (order l v : Z) : M unit :=
  s ← p_get; lift (q_pushOrdered (getPriority s) (getTimeCreated s) order l v).

(** [myallocate(sizeof(...), ..., OSREQ)]: a fresh address of zeroed OS
    memory. *)
Definition os_alloc (what : osobj) : M Z :=
  s ← p_get;
  p_modify (add_vmlog (OsAlloc what));;
  p_modify (set_naddr (naddr s + 1));;
  mret (naddr s).

(** [myallocate(sizeof(LinkedList), ..., OSREQ)] *)
Definition os_alloc_list : M Z :=
  p_modify (add_vmlog (OsAlloc OLinkedList));;
  lift q_alloc.

(** ** my_pthread.c *)

Definition VIRTUAL_MEMORY : bool := true.

Definition virtualMemory : M unit :=
  p_modify (add_vmlog UpdateReference);;
  if VIRTUAL_MEMORY then
    s ← p_get;
    th ← ld_thread (running s);
    p_modify (add_vmlog (MemoryProtect (id th)))
  else mret tt.

(** [setcontext] to the saved context of [*running] *)
Definition setcontext : M unit :=
  s ← p_get;
  th ← ld_thread (running s);
  p_modify (set_cpu (context th)).

(** [while (!empty(w)) pushOrdered(0, run, pop(w));] *)
Fixpoint wake_all (fuel : nat) (w : Z) : M unit :=
  match fuel with
  | O => p_timeout
  | S f =>
      e ← lift (q_empty w);
      if (e : bool) then mret tt
      else
        t ← lift (q_pop w);
        s ← p_get;
        pushOrdered 0 (run s) t;;
        wake_all f w
  end.

(** [threadExit]; the flag says whether signals are blocked around it, which
    they are when [threadRun] calls it.  [v] is its argument, a pointer that may
    be NULL.  The result is whether it returned to its caller because no other
    thread can run. *)
Definition threadExit (v : Z) (blocked : bool) : M bool :=
  s0 ← p_get;
  th ← ld_thread (running s0);
  st_thread (running s0) (upd_finished th);;
  (if negb (v =? NULL) then th' ← ld_thread (running s0); st_thread (running s0) (upd_res v th')
   else mret tt);;
  wake_all (S (size (threads s0))) (waitJoin th);;
  e ← lift (q_empty (run s0));
  if (e : bool) then mret true
  else
    virtualMemory;;
    next ← lift (q_pop (run s0));
    p_modify (set_running next);;
    p_modify (set_timer QUANTUM);;
    (if blocked then setcontext else p_modify (set_cpu ExitSwap));;
    mret false.

(** The end of [threadRun], when the thread function returned [r]: NULL, or
    a pointer to a value, which may be NULL again.  When [threadExit] returns, the thread's context
    has no successor ([uc_link] is 0) and the process ends. *)
Definition threadRun_end (r : option Z) : M unit :=
  back ← threadExit (default NULL r) true;
  if (back : bool) then p_halt 0 else mret tt.

Definition scheduler : M unit :=
  p_modify (set_timer QUANTUM);;
  s0 ← p_get;
  p_modify (set_nSchedulings (wrapu 32 (nSchedulings s0 + 1)));;
  s1 ← p_get;
  (if nSchedulings s1 >? 150 then
     lift (q_orderByOldest (getPriority s1) (getTimeCreated s1) (run s1));;
     p_modify (set_nSchedulings 0)
   else mret tt);;
  th ← ld_thread (running s1);
  st_thread (running s1) (upd_priority (wrapu 32 (priority th + 1)) th);;
  e ← lift (q_empty (run s1));
  if (e : bool) then setcontext
  else
    virtualMemory;;
    nextThread ← lift (q_pop (run s1));
    pushOrdered 0 (run s1) (running s1);;
    p_modify (set_running nextThread);;
    setcontext.

(** [interrupt]: save the executing context in [*running], run the scheduler
    on its own stack. *)
Definition interrupt : M unit :=
  s ← p_get;
  th ← ld_thread (running s);
  st_thread (running s) (upd_context (cpu s) th);;
  scheduler.

Definition setMyScheduler : M unit :=
  p_modify (set_nSchedulings 0);;
  os_alloc OSigaction;;
  os_alloc OTimer;;
  p_modify (set_timer QUANTUM).

(** [gc] is whether [getcontext] succeeded; the memory of the struct is
    zeroed. *)
Definition createNewThread (gc : bool) (fn a : Z) : M (Z * Z) :=
  t ← os_alloc OThread;
  w ← os_alloc_list;
  s ← p_get;
  p_modify (set_nextId (wrapu 32 (nextId s + 1)));;
  st_thread t (mkThread (wraps 32 (nextId s)) 0 (clock s) Unset fn a None 0 w);;
  p_modify (add_vmlog (ReservePage (wraps 32 (nextId s))));;
  if gc then
    os_alloc OStack;;
    th ← ld_thread t;
    st_thread t (upd_context Entry th);;
    mret (0, t)
  else mret (1, t).

Definition initOS : M unit :=
  r ← os_alloc_list;
  p_modify (set_run r);;
  os_alloc OCounter;;
  p_modify (set_nextId 1);;
  m ← os_alloc OThread;
  p_modify (set_mainThread m);;
  s ← p_get;
  st_thread m (mkThread (wraps 32 (nextId s)) 0 (clock s) Unset 0 0 None 0 NULL);;
  p_modify (add_vmlog (ReservePage (nextId s)));;
  p_modify (set_nextId (wrapu 32 (nextId s + 1)));;
  os_alloc OHandle;;
  p_modify (set_running m);;
  os_alloc OCounter;;
  p_modify (set_nSchedulings 0);;
  setMyScheduler.

(** The result is the handle stored through [thread] and the return value;
    [null] says that [thread] is NULL. *)
Definition my_pthread_create (null gc : bool) (fn a : Z) : M (option Z * Z) :=
  if null then mret (None, 1)
  else
    s0 ← p_get;
    (if run s0 =? NULL then initOS else mret tt);;
    r ← createNewThread gc fn a;
    s ← p_get;
    pushOrdered 0 (run s) (snd r);;
    mret (Some (snd r), 0).

Definition my_pthread_yield : M unit :=
  s ← p_get;
  th ← ld_thread (running s);
  (if priority th >? 0 then st_thread (running s) (upd_priority (priority th - 1) th)
   else mret tt);;
  interrupt.

Definition my_pthread_exit (v : Z) : M unit :=
  threadExit v false;; mret tt.

(** What [join] does once the thread may continue. *)
Definition join_tail (t : Z) (vp : bool) : M unit :=
  th ← ld_thread t;
  s ← p_get;
  (if vp then
     match res th with
     | Some v => p_modify (add_joined (running s, v))
     | None => p_fault
     end
   else mret tt);;
  p_modify (set_cpu User).

Definition my_pthread_join (t : Z) (vp : bool) : M unit :=
  th ← ld_thread t;
  if finished th =? 0 then
    s ← p_get;
    pushOrdered 0 (waitJoin th) (running s);;
    e ← lift (q_empty (run s));
    if (e : bool) then
      p_modify (add_vmlog (OsFree (run s)));;
      p_modify (add_vmlog (OsFree (mainThread s)));;
      p_modify (add_vmlog (OsFree (running s)));;
      join_tail t vp
    else
      virtualMemory;;
      next ← lift (q_pop (run s));
      p_modify (set_running next);;
      p_modify (set_cpu (JoinSwap t vp (running s)))
  else join_tail t vp.

Definition my_pthread_mutex_init : M Z :=
  m ← os_alloc OLock;
  w ← os_alloc_list;
  st_lock m (mkLock 0 w);;
  mret m.

(** [testAndSet] is two memory accesses with signals unblocked. *)
Definition testAndSet_read (m : Z) : M unit :=
  l ← ld_lock m;
  p_modify (set_cpu (LockWrite m (state l))).

Definition testAndSet_write (m s : Z) : M unit :=
  l ← ld_lock m;
  st_lock m (mkLock 1 (wait l));;
  p_modify (set_cpu (if s =? 1 then LockBlock m else User)).

Definition my_pthread_mutex_lock (m : Z) : M unit :=
  _ ← ld_lock m;
  p_modify (set_cpu (LockRead m)).

(** The body of the loop of [my_pthread_mutex_lock]. *)
Definition lock_block (m : Z) : M unit :=
  l ← ld_lock m;
  if state l =? 1 then
    virtualMemory;;
    s ← p_get;
    lift (q_push (wait l) (running s));;
    p_modify (set_timer QUANTUM);;
    next ← lift (q_pop (run s));
    p_modify (set_running next);;
    p_modify (set_cpu (LockSwap m (running s)))
  else p_modify (set_cpu (LockRead m)).

(** [swapcontext] from the context of [old] to that of [*running] *)
Definition swapcontext (old : Z) (c : ctx) : M unit :=
  th ← ld_thread old;
  st_thread old (upd_context c th);;
  setcontext.

Definition my_pthread_mutex_unlock (m : Z) : M Z :=
  l ← ld_lock m;
  e ← lift (q_empty (wait l));
  (if (e : bool) then mret tt
   else
     t ← lift (q_pop (wait l));
     s ← p_get;
     pushOrdered 0 (run s) t);;
  st_lock m (mkLock 0 (wait l));;
  mret 0.

Definition my_pthread_mutex_destroy (m : Z) : M Z :=
  l ← ld_lock m;
  s ← p_get;
  wake_all (S (size (threads s))) (wait l);;
  st_lock m (mkLock 0 (wait l));;
  p_modify (add_vmlog (ThreadFree (wait l)));;
  p_modify (add_vmlog (ThreadFree m));;
  s' ← p_get;
  p_modify (set_mutexes (delete m (mutexes s')));;
  mret 0.

(** ** The machine *)

(** One step of library code at a place where signals are unblocked. *)
Definition advance : M unit :=
  s ← p_get;
  match cpu s with
  | Entry => p_modify (set_cpu User)
  | LockRead m => testAndSet_read m
  | LockWrite m v => testAndSet_write m v
  | LockBlock m => lock_block m
  | LockSwap m old => swapcontext old (LockRead m)
  | JoinSwap t vp old => swapcontext old (JoinTail t vp)
  | JoinTail t vp => join_tail t vp
  | ExitSwap => setcontext
  | User | Unset => p_fault
  end.

(** What can happen: a timer interrupt, the passing of time, a step of the
    library code being executed, or, in application code, a call or the end of the thread
    function. *)
Inductive event :=
| Tick
| Clock (now : Z)
| Advance
| Create (gc : bool) (fn a : Z)
| Yield
| Exit (v : Z)
| Join (t : Z) (vp : bool)
| Init
| Lock (m : Z)
| Unlock (m : Z)
| Destroy (m : Z)
| Return (r : option Z).

Definition enabled (e : event) (s : os H) : bool :=
  match e with
  | Tick => true
  | Clock now => clock s <=? now
  | Advance => bool_decide (cpu s <> User)
  | _ => bool_decide (cpu s = User)
  end.

Definition exec (e : event) : M unit :=
  match e with
  | Tick => interrupt
  | Clock now => p_modify (set_time now)
  | Advance => advance
  | Create gc fn a => my_pthread_create false gc fn a;; mret tt
  | Yield => my_pthread_yield
  | Exit v => my_pthread_exit v
  | Join t vp => my_pthread_join t vp
  | Init => my_pthread_mutex_init;; mret tt
  | Lock m => my_pthread_mutex_lock m
  | Unlock m => my_pthread_mutex_unlock m;; mret tt
  | Destroy m => my_pthread_mutex_destroy m;; mret tt
  | Return r => threadRun_end r
  end.

Definition step (e : event) (s s' : os H) : Prop :=
  enabled e s = true /\ exec e s = Ret (tt, s').

(** Finite executions. *)
Inductive steps : os H -> list event -> os H -> Prop :=
| steps_nil s : steps s [] s
| steps_cons s e s1 es s2 : step e s s1 -> steps s1 es s2 -> steps s (e :: es) s2.

(** The same, computed. *)
Fixpoint run_events (es : list event) (s : os H) : option (os H) :=
  match es with
  | [] => Some s
  | e :: es' =>
      if enabled e s then
        match exec e s with
        | Ret (_, s') => run_events es' s'
        | _ => None
        end
      else None
  end.

End Machine.

Arguments step {H _}.
Arguments steps {H _}.

(** The machine at the start of the program, before any call. *)
Definition boot {H} (h : H) : os H :=
  mkOs h ∅ ∅ NULL NULL NULL 0 0 0 User 0 1 [] [].

End Pthread.
