(* ===== verification/PthreadSpec.v ===== *)
(** * User-level threads: functional behaviour

    What each operation of my_pthread.c does, proved against the laws of the
    queue interface. *)

From S2P Require Import Prelude LinkedList LinkedListRep Queues Pthread.
Import Pthread.

Section Spec.
Context {H : Type} `{QueueLaws H}.
Implicit Types (s : os H) (Q : gmap Z (list Z)).

(** ** Running the pieces *)

Lemma lift_Ret {A} (m : prog H A) s a h :
  m (hp s) = Ret (a, h) -> lift m s = Ret (a, set_hp h s).
Proof. unfold lift. by intros ->. Qed.

Lemma lift_Fault {A} (m : prog H A) s : m (hp s) = Fault -> lift m s = Fault.
Proof. unfold lift. by intros ->. Qed.

Lemma ld_thread_Ret s t th : threads s !! t = Some th -> ld_thread t s = Ret (th, s).
Proof. unfold ld_thread. by intros ->. Qed.

Lemma ld_lock_Ret s m l : mutexes s !! m = Some l -> ld_lock m s = Ret (l, s).
Proof. unfold ld_lock. by intros ->. Qed.

Lemma pushOrdered_Ret s Q l v q :
  q_abs (hp s) Q -> Q !! l = Some q ->
  exists h, pushOrdered 0 l v s = Ret (tt, set_hp h s) /\
    q_abs h (<[l := Queue.insert (getPriority s) v q]> Q).
Proof.
  intros HA HQ. unfold pushOrdered. erewrite bind_Ret by done.
  destruct (q_pushOrdered_law (getPriority s) (getTimeCreated s) 0 (hp s) Q l v q HA HQ)
    as (h & E & HA').
  exists h. split; [by apply lift_Ret|done].
Qed.

Lemma virtualMemory_Ret s th :
  threads s !! running s = Some th ->
  virtualMemory s = Ret (tt, add_vmlog (MemoryProtect (id th)) (add_vmlog UpdateReference s)).
Proof.
  intros E. unfold virtualMemory. erewrite bind_Ret by done. cbn [VIRTUAL_MEMORY].
  erewrite bind_Ret by done. by erewrite bind_Ret by (apply ld_thread_Ret, E).
Qed.

Lemma setcontext_Ret s th :
  threads s !! running s = Some th -> setcontext s = Ret (tt, set_cpu (context th) s).
Proof.
  intros E. unfold setcontext. erewrite bind_Ret by done.
  by erewrite bind_Ret by (apply ld_thread_Ret, E).
Qed.

Lemma q_empty_cons h Q l t q : q_abs h Q -> Q !! l = Some (t :: q) -> q_empty l h = Ret (false, h).
Proof. intros HA HQ. by rewrite (q_empty_law _ _ _ _ HA HQ). Qed.

Lemma q_empty_nil h Q l : q_abs h Q -> Q !! l = Some [] -> q_empty l h = Ret (true, h).
Proof. intros HA HQ. by rewrite (q_empty_law _ _ _ _ HA HQ). Qed.

(** Perform the head of the computation in the goal. *)
Ltac mstep :=
  first
    [ erewrite bind_Ret by reflexivity
    | erewrite bind_Ret by (apply ld_thread_Ret; simpl; eassumption)
    | erewrite bind_Ret by (apply ld_lock_Ret; simpl; eassumption)
    | erewrite bind_Ret by (apply lift_Ret; simpl; eassumption)
    | erewrite bind_Ret by (apply virtualMemory_Ret; simpl; eassumption) ].

(** ** The scheduler *)

(** The reordering step of the scheduler: every 151st run, on the ages
    [k]. *)
Definition reordered (k : Z -> Z) (n : Z) (q : list Z) : list Z :=
  if n >? 150 then Queue.by_age k q else q.

Lemma reordered_cons k n t q : exists q', reordered k n (t :: q) = t :: q' /\ q' ≡ₚ q.
Proof.
  unfold reordered. destruct (n >? 150); [|by exists q].
  assert (list.head (Queue.by_age k (t :: q)) = Some t) as Eh by apply foldl_pushOrdered_head.
  assert (Queue.by_age k (t :: q) ≡ₚ t :: q) as Hp
    by (unfold Queue.by_age; by rewrite foldl_pushOrdered_perm).
  destruct (Queue.by_age _ _) as [|x q']; [done|]. simplify_eq/=.
  exists q'. split; [done|]. by apply Permutation_cons_inv in Hp.
Qed.

Lemma reordered_ext k k' n q : (forall x, k x = k' x) -> reordered k n q = reordered k' n q.
Proof. intros Hk. unfold reordered. case_match; [|done]. by apply by_age_ext. Qed.

Lemma reorder_Ret s Q q :
  q_abs (hp s) Q -> Q !! run s = Some q ->
  exists h, (if nSchedulings s >? 150 then
     lift (q_orderByOldest (getPriority s) (getTimeCreated s) (run s));;
     p_modify (set_nSchedulings 0)
   else mret tt) s =
     Ret (tt, set_nSchedulings (if nSchedulings s >? 150 then 0 else nSchedulings s)
                (set_hp h s)) /\
   q_abs h (<[run s := reordered (getTimeCreated s) (nSchedulings s) q]> Q).
Proof.
  intros HA HQ. unfold reordered. destruct (nSchedulings s >? 150).
  - destruct (q_orderByOldest_law (getPriority s) (getTimeCreated s) _ _ _ _ HA HQ)
      as (h & E & HA').
    exists h. split; [|done]. by erewrite bind_Ret by (apply lift_Ret; done).
  - exists (hp s). split; [by destruct s|]. by rewrite insert_id.
Qed.

(** What [interrupt] leaves, exactly: the head of the reordered run queue
    runs, and the interrupted thread is inserted among the others by its new
    priority. *)
Lemma interrupt_exact s Q t q th tht :
  q_abs (hp s) Q -> Q !! run s = Some (t :: q) ->
  threads s !! running s = Some th -> threads s !! t = Some tht -> t <> running s ->
  exists s', interrupt s = Ret (tt, s') /\
    running s' = t /\ cpu s' = context tht /\
    q_abs (hp s') (<[run s := Queue.insert (getPriority s') (running s)
      (tail (reordered (getTimeCreated s) (wrapu 32 (nSchedulings s + 1)) (t :: q)))]> Q) /\
    nSchedulings s' = (if wrapu 32 (nSchedulings s + 1) >? 150 then 0
                       else wrapu 32 (nSchedulings s + 1)) /\
    threads s' = <[running s := upd_priority (wrapu 32 (priority th + 1))
                                  (upd_context (cpu s) th)]> (threads s) /\
    run s' = run s /\ mutexes s' = mutexes s /\ naddr s' = naddr s /\
    mainThread s' = mainThread s /\
    vmlog s' = vmlog s ++ [UpdateReference; MemoryProtect (id th)].
Proof.
  intros HA HQ Er Et Hne. unfold interrupt. do 2 mstep. mstep. unfold scheduler. do 4 mstep.
  set (s1 := set_nSchedulings _ _).
  destruct (reorder_Ret s1 Q (t :: q)) as (h1 & E1 & HA1); [done..|].
  rewrite (reordered_ext _ (getTimeCreated s)) in HA1.
  2:{ intros x. unfold getTimeCreated. simpl. destruct (decide (running s = x)) as [<-|].
      - by rewrite lookup_insert_eq, Er.
      - by rewrite lookup_insert_ne. }
  erewrite bind_Ret by (apply E1). clear E1. set (s2 := set_nSchedulings _ _).
  destruct (reordered_cons (getTimeCreated s) (nSchedulings s1) t q) as (q1 & Eq1 & _).
  rewrite Eq1 in HA1.
  erewrite bind_Ret by (apply ld_thread_Ret; simpl; by rewrite lookup_insert_eq).
  mstep. set (s3 := set_threads _ s2).
  erewrite bind_Ret by (apply lift_Ret; eapply q_empty_cons; [apply HA1|apply lookup_insert_eq]).
  cbn match.
  erewrite bind_Ret by (apply virtualMemory_Ret; simpl; by rewrite lookup_insert_eq).
  destruct (q_pop_law _ _ (run s) t q1 HA1) as (h4 & E4 & HA4); [by rewrite lookup_insert_eq|].
  erewrite bind_Ret by (apply lift_Ret, E4). rewrite insert_insert_eq in HA4.
  set (s4 := set_hp h4 _).
  destruct (pushOrdered_Ret s4 _ (run s) (running s) q1 HA4) as (h5 & E5 & HA5);
    [by rewrite lookup_insert_eq|].
  erewrite bind_Ret by (apply E5). rewrite insert_insert_eq in HA5. mstep.
  rewrite (setcontext_Ret _ tht).
  2:{ simpl. by rewrite !lookup_insert_ne. }
  eexists. split_and!; [reflexivity|done|done| |done| |done..|].
  - change (wrapu 32 (nSchedulings s + 1)) with (nSchedulings s1). rewrite Eq1. exact HA5.
  - simpl. by rewrite insert_insert_eq.
  - simpl. by rewrite <- app_assoc.
Qed.

Lemma interrupt_Ret s Q t q th tht :
  q_abs (hp s) Q -> Q !! run s = Some (t :: q) ->
  threads s !! running s = Some th -> threads s !! t = Some tht -> t <> running s ->
  exists s' q', interrupt s = Ret (tt, s') /\
    running s' = t /\ cpu s' = context tht /\
    q' ≡ₚ running s :: q /\ q_abs (hp s') (<[run s := q']> Q) /\
    threads s' = <[running s := upd_priority (wrapu 32 (priority th + 1))
                                  (upd_context (cpu s) th)]> (threads s) /\
    run s' = run s /\ mutexes s' = mutexes s /\ naddr s' = naddr s /\
    mainThread s' = mainThread s /\
    vmlog s' = vmlog s ++ [UpdateReference; MemoryProtect (id th)].
Proof.
  intros HA HQ Er Et Hne.
  destruct (interrupt_exact s Q t q th tht) as (s' & E & ER & EC & HA' & _ & Hrest); [done..|].
  destr_ands. destruct (reordered_cons (getTimeCreated s) (wrapu 32 (nSchedulings s + 1)) t q)
    as (q1 & Eq1 & Hp1). rewrite Eq1 in HA'.
  exists s', (Queue.insert (getPriority s') (running s) q1). split_and!; try done.
  by rewrite pushOrdered_perm, Hp1.
Qed.

(** With nothing else to run, the interrupted thread goes on. *)
Lemma interrupt_alone_Ret s Q th :
  q_abs (hp s) Q -> Q !! run s = Some [] -> threads s !! running s = Some th ->
  exists s', interrupt s = Ret (tt, s') /\ running s' = running s /\ cpu s' = cpu s /\
    q_abs (hp s') Q /\
    threads s' = <[running s := upd_priority (wrapu 32 (priority th + 1))
                                  (upd_context (cpu s) th)]> (threads s) /\
    run s' = run s /\ mutexes s' = mutexes s /\ naddr s' = naddr s /\
    mainThread s' = mainThread s /\ vmlog s' = vmlog s.
Proof.
  intros HA HQ Er. unfold interrupt. do 2 mstep. mstep. unfold scheduler. do 4 mstep.
  set (s1 := set_nSchedulings _ _).
  assert (exists h n, (if nSchedulings s1 >? 150 then
     lift (q_orderByOldest (getPriority s1) (getTimeCreated s1) (run s1));;
     p_modify (set_nSchedulings 0)
   else mret tt) s1 = Ret (tt, set_nSchedulings n (set_hp h s1)) /\ q_abs h Q)
    as (h1 & n1 & E1 & HA1).
  { destruct (nSchedulings s1 >? 150).
    - destruct (q_orderByOldest_law (getPriority s1) (getTimeCreated s1) _ _ _ _ HA HQ)
        as (h & E & HA'). exists h, 0. rewrite insert_id in HA' by done. split; [|done].
      erewrite bind_Ret by (apply lift_Ret; done). done.
    - by exists (hp s1), (nSchedulings s1). }
  erewrite bind_Ret by (apply E1). clear E1.
  erewrite bind_Ret by (apply ld_thread_Ret; simpl; by rewrite lookup_insert_eq). mstep.
  erewrite bind_Ret by (apply lift_Ret; eapply q_empty_nil; [apply HA1|exact HQ]). cbn match.
  erewrite setcontext_Ret by (simpl; by rewrite lookup_insert_eq).
  eexists. split_and!; [reflexivity|done|done|exact HA1| |done..].
  simpl. by rewrite insert_insert_eq.
Qed.

(** ** Waking threads *)

(** A queue of distinct threads is no longer than the thread table. *)
Lemma queue_length (T : gmap Z sthread) ws :
  NoDup ws -> (forall t, t ∈ ws -> is_Some (T !! t)) -> (length ws < S (size T))%nat.
Proof.
  intros Hnd Hin. apply Nat.lt_succ_r.
  rewrite <- size_dom, <- (size_list_to_set (C := gset Z) ws) by done.
  apply subseteq_size. intros n. rewrite elem_of_list_to_set, elem_of_dom. auto.
Qed.

(** The threads [ws], inserted one after the other. *)
Definition woken (k : Z -> Z) (ws q : list Z) : list Z := foldl (fun a t => Queue.insert k t a) q ws.

Lemma woken_perm k ws q : woken k ws q ≡ₚ ws ++ q.
Proof. unfold woken. by rewrite foldl_pushOrdered_perm, Permutation_app_comm. Qed.

Lemma woken_head k ws x q : list.head (woken k ws (x :: q)) = Some x.
Proof. apply foldl_pushOrdered_head. Qed.

(** The first thread of the run queue stays first; in an empty queue the first
    thread woken is. *)
Lemma woken_first k ws q : list.head (woken k ws q) = list.head (q ++ ws).
Proof.
  destruct q as [|x q]; [|apply woken_head]. destruct ws as [|w ws]; [done|].
  apply (foldl_pushOrdered_head k ws w []).
Qed.

Lemma wake_all_Ret fuel w s Q ws q :
  (length ws < fuel)%nat -> w <> run s ->
  q_abs (hp s) Q -> Q !! w = Some ws -> Q !! run s = Some q ->
  exists h, wake_all fuel w s = Ret (tt, set_hp h s) /\
    q_abs h (<[run s := woken (getPriority s) ws q]> (<[w := []]> Q)).
Proof.
  revert s Q ws q. induction fuel as [|f IH]; intros s Q ws q Hf Hne HA HW HR; [lia|].
  cbn [wake_all]. destruct ws as [|t ws].
  { erewrite bind_Ret by (apply lift_Ret; by eapply q_empty_nil). cbn match.
    exists (hp s). split; [by destruct s|]. by rewrite (insert_id Q w), insert_id. }
  erewrite bind_Ret by (apply lift_Ret; by eapply q_empty_cons). cbn match.
  destruct (q_pop_law _ _ _ _ _ HA HW) as (h1 & E1 & HA1).
  erewrite bind_Ret by (apply lift_Ret, E1). erewrite bind_Ret by done.
  set (s1 := set_hp h1 _).
  destruct (pushOrdered_Ret s1 _ (run s) t q HA1) as (h2 & E2 & HA2);
    [by rewrite lookup_insert_ne|].
  erewrite bind_Ret by (apply E2). simpl in Hf.
  destruct (IH (set_hp h2 s1) _ ws (Queue.insert (getPriority s1) t q) ltac:(lia) Hne HA2)
    as (h3 & E3 & HA3).
  { by rewrite lookup_insert_ne, lookup_insert_eq. }
  { by rewrite lookup_insert_eq. }
  exists h3. split; [done|].
  rewrite (insert_insert_ne _ w), !insert_insert_eq in HA3 by done. exact HA3.
Qed.

(** The first assignments of [threadExit]. *)
Definition exited (v : Z) (th : sthread) : sthread :=
  if v =? NULL then upd_finished th else upd_res v (upd_finished th).

Lemma exited_fields v th :
  waitJoin (exited v th) = waitJoin th /\ finished (exited v th) = 1 /\ id (exited v th) = id th.
Proof. unfold exited. by case_match. Qed.

Lemma exited_res v th : v <> NULL -> res (exited v th) = Some v.
Proof. intros Hv. unfold exited. by destruct (Z.eqb_spec v NULL). Qed.

Lemma threadExit_prefix v blocked s th :
  threads s !! running s = Some th ->
  threadExit v blocked s =
    (wake_all (S (size (threads s))) (waitJoin th);;
     e ← lift (q_empty (run s));
     if (e : bool) then mret true
     else
       virtualMemory;;
       next ← lift (q_pop (run s));
       p_modify (set_running next);;
       p_modify (set_timer QUANTUM);;
       (if blocked then setcontext else p_modify (set_cpu ExitSwap));;
       mret false) (set_threads (<[running s := exited v th]> (threads s)) s).
Proof.
  intros E. unfold threadExit, exited. do 3 mstep. destruct (v =? NULL); [by mstep|]. cbn [negb].
  unfold mbind at 1, prog_bind at 1, p_bind at 1.
  erewrite bind_Ret by (apply ld_thread_Ret; simpl; by rewrite lookup_insert_eq).
  unfold st_thread, p_modify. cbn beta iota. simpl threads. by rewrite insert_insert_eq.
Qed.

(** An exit that finds another thread to run. *)
Lemma threadExit_Ret v blocked s Q th ws q :
  q_abs (hp s) Q -> threads s !! running s = Some th ->
  Q !! waitJoin th = Some ws -> Q !! run s = Some q -> waitJoin th <> run s ->
  NoDup ws -> (forall t, t ∈ ws ++ q -> is_Some (threads s !! t)) ->
  running s ∉ ws ++ q -> ws ++ q <> [] ->
  exists s' t q' tht, threadExit v blocked s = Ret (false, s') /\
    woken (getPriority s) ws q = t :: q' /\
    running s' = t /\ threads s !! t = Some tht /\
    cpu s' = (if blocked then context tht else ExitSwap) /\
    threads s' = <[running s := exited v th]> (threads s) /\
    q_abs (hp s') (<[run s := q']> (<[waitJoin th := []]> Q)) /\
    run s' = run s /\ mutexes s' = mutexes s /\ naddr s' = naddr s /\
    mainThread s' = mainThread s /\
    vmlog s' = vmlog s ++ [UpdateReference; MemoryProtect (id th)].
Proof.
  intros HA E HW HR Hne Hnd Hin Hout Hnn. rewrite (threadExit_prefix _ _ _ _ E).
  set (s1 := set_threads _ s).
  destruct (wake_all_Ret (S (size (threads s))) (waitJoin th) s1 Q ws q)
    as (h2 & E2 & HA2); try done.
  { apply queue_length; [done|]. intros; apply Hin; set_solver. }
  erewrite bind_Ret by apply E2.
  assert (forall x, getPriority s1 x = getPriority s x) as Hk.
  { intros x. unfold getPriority. simpl. destruct (decide (running s = x)) as [<-|].
    - rewrite lookup_insert_eq, E. unfold exited. by case_match.
    - by rewrite lookup_insert_ne. }
  assert (woken (getPriority s1) ws q = woken (getPriority s) ws q) as Ewk by (by apply foldl_insert_ext).
  rewrite Ewk in HA2. pose proof (woken_perm (getPriority s) ws q) as Hp2.
  destruct (woken (getPriority s) ws q) as [|t q2].
  { symmetry in Hp2. by apply Permutation_nil_r in Hp2. }
  erewrite bind_Ret by (apply lift_Ret; eapply q_empty_cons; [apply HA2|apply lookup_insert_eq]).
  cbn match.
  assert (t ∈ ws ++ q) as Ht by (rewrite <- Hp2; set_solver).
  destruct (Hin t Ht) as [tht Et].
  destruct (exited_fields v th) as (_ & _ & Eid).
  erewrite bind_Ret by (apply virtualMemory_Ret; simpl; by rewrite lookup_insert_eq).
  destruct (q_pop_law _ _ (run s) t q2 HA2) as (h3 & E3 & HA3); [by rewrite lookup_insert_eq|].
  erewrite bind_Ret by (apply lift_Ret, E3). rewrite insert_insert_eq in HA3. do 2 mstep.
  destruct blocked.
  - erewrite bind_Ret.
    2:{ apply (setcontext_Ret _ tht). simpl. rewrite lookup_insert_ne; [done|set_solver]. }
    eexists _, t, q2, tht. split_and!; [reflexivity|done|done|done|done|done|exact HA3|
      done..|]. simpl. by rewrite Eid, <- app_assoc.
  - mstep. eexists _, t, q2, tht. split_and!; [reflexivity|done|done|done|done|done|
      exact HA3|done..|]. simpl. by rewrite Eid, <- app_assoc.
Qed.

(** ** Mutexes *)

Lemma unlock_Ret s Q m l ws q :
  q_abs (hp s) Q -> mutexes s !! m = Some l -> Q !! wait l = Some ws -> Q !! run s = Some q ->
  wait l <> run s ->
  exists h q', my_pthread_mutex_unlock m s =
      Ret (0, set_mutexes (<[m := mkLock 0 (wait l)]> (mutexes s)) (set_hp h s)) /\
    q' ≡ₚ take 1 ws ++ q /\ (forall x, list.head q = Some x -> list.head q' = Some x) /\
    q_abs h (<[run s := q']> (<[wait l := drop 1 ws]> Q)).
Proof.
  intros HA E HW HR Hne. unfold my_pthread_mutex_unlock. mstep.
  destruct ws as [|t ws].
  - erewrite bind_Ret by (apply lift_Ret; by eapply q_empty_nil). cbn match. mstep. mstep.
    exists (hp s), q. split_and!; [done|done|done|]. simpl.
    by rewrite (insert_id Q (wait l)), insert_id.
  - erewrite bind_Ret by (apply lift_Ret; by eapply q_empty_cons). cbn match.
    destruct (q_pop_law _ _ _ _ _ HA HW) as (h1 & E1 & HA1).
    unfold mbind at 1, prog_bind at 1, p_bind at 1.
    erewrite bind_Ret by (apply lift_Ret, E1). erewrite bind_Ret by done.
    set (s1 := set_hp h1 _).
    destruct (pushOrdered_Ret s1 _ (run s) t q HA1) as (h2 & E2 & HA2);
      [by rewrite lookup_insert_ne|].
    change (run s) with (run s1) in E2. rewrite E2. mstep. exists h2, (Queue.insert (getPriority s1) t q). split_and!.
    + done.
    + apply pushOrdered_perm.
    + intros x Hx. destruct q as [|y q]; [done|]. simplify_eq/=. by case_match.
    + done.
Qed.

(** Blocking on a locked mutex. *)
Lemma lock_block_Ret s Q m l ws t q th :
  q_abs (hp s) Q -> mutexes s !! m = Some l -> state l = 1 ->
  Q !! wait l = Some ws -> Q !! run s = Some (t :: q) -> wait l <> run s ->
  threads s !! running s = Some th ->
  exists s', lock_block m s = Ret (tt, s') /\
    running s' = t /\ cpu s' = LockSwap m (running s) /\
    q_abs (hp s') (<[run s := q]> (<[wait l := ws ++ [running s]]> Q)) /\
    threads s' = threads s /\ mutexes s' = mutexes s /\ run s' = run s /\
    naddr s' = naddr s /\ mainThread s' = mainThread s /\
    vmlog s' = vmlog s ++ [UpdateReference; MemoryProtect (id th)].
Proof.
  intros HA E E1 HW HR Hne Er. unfold lock_block. mstep. rewrite E1. change (1 =? 1) with true. cbn match.
  mstep. mstep.
  destruct (q_push_law (hp s) Q (wait l) (running s) ws HA HW) as (h1 & EP & HA1).
  erewrite bind_Ret by (apply lift_Ret; simpl; exact EP). mstep.
  destruct (q_pop_law _ _ (run s) t q HA1) as (h2 & EO & HA2); [by rewrite lookup_insert_ne|].
  erewrite bind_Ret by (apply lift_Ret; simpl; exact EO). mstep.
  eexists. split_and!; [reflexivity|done|done|exact HA2|done..|].
  simpl. by rewrite <- app_assoc.
Qed.

(** With nothing else to run, blocking dereferences the NULL head of the run
    queue. *)
Lemma lock_block_fault s Q m l ws th :
  q_abs (hp s) Q -> mutexes s !! m = Some l -> state l = 1 ->
  Q !! wait l = Some ws -> Q !! run s = Some [] -> wait l <> run s ->
  threads s !! running s = Some th ->
  lock_block m s = Fault.
Proof.
  intros HA E E1 HW HR Hne Er. unfold lock_block. mstep. rewrite E1. change (1 =? 1) with true. cbn match.
  mstep. mstep.
  destruct (q_push_law (hp s) Q (wait l) (running s) ws HA HW) as (h1 & EP & HA1).
  erewrite bind_Ret by (apply lift_Ret; simpl; exact EP). mstep.
  apply bind_Fault, lift_Fault. eapply q_pop_fault; [exact HA1|].
  simpl. by rewrite lookup_insert_ne.
Qed.

(** ** Joining *)

Lemma join_block_Ret s Q t vp th tht ws n q :
  q_abs (hp s) Q -> threads s !! t = Some tht -> finished tht = 0 ->
  threads s !! running s = Some th ->
  Q !! waitJoin tht = Some ws -> Q !! run s = Some (n :: q) -> waitJoin tht <> run s ->
  exists s' ws', my_pthread_join t vp s = Ret (tt, s') /\
    running s' = n /\ cpu s' = JoinSwap t vp (running s) /\
    ws' ≡ₚ running s :: ws /\
    q_abs (hp s') (<[run s := q]> (<[waitJoin tht := ws']> Q)) /\
    threads s' = threads s /\ mutexes s' = mutexes s /\ run s' = run s /\
    naddr s' = naddr s /\ mainThread s' = mainThread s /\
    vmlog s' = vmlog s ++ [UpdateReference; MemoryProtect (id th)].
Proof.
  intros HA Et Ef Er HW HR Hne. unfold my_pthread_join. mstep. rewrite Ef. change (0 =? 0) with true.
  cbn match. mstep.
  destruct (pushOrdered_Ret s Q (waitJoin tht) (running s) ws HA HW) as (h1 & EP & HA1).
  erewrite bind_Ret by apply EP.
  assert (<[waitJoin tht := Queue.insert (getPriority s) (running s) ws]> Q !! run s
            = Some (n :: q)) as HR1 by (by rewrite lookup_insert_ne).
  erewrite bind_Ret by (apply lift_Ret; by eapply q_empty_cons). cbn match. mstep.
  destruct (q_pop_law _ _ _ _ _ HA1 HR1) as (h2 & EO & HA2).
  erewrite bind_Ret by (apply lift_Ret; simpl; exact EO). mstep.
  eexists _, _. split_and!; [reflexivity|done|done| |exact HA2|done..|].
  - apply pushOrdered_perm.
  - simpl. by rewrite <- app_assoc.
Qed.

(** ** Creation *)

Lemma os_alloc_Ret what s :
  os_alloc what s = Ret (naddr s, set_naddr (naddr s + 1) (add_vmlog (OsAlloc what) s)).
Proof. reflexivity. Qed.

Lemma os_alloc_list_Ret s Q :
  q_abs (hp s) Q ->
  exists w h, os_alloc_list s = Ret (w, set_hp h (add_vmlog (OsAlloc OLinkedList) s)) /\
    Q !! w = None /\ 0 < w /\ q_abs h (<[w := []]> Q).
Proof.
  intros HA. destruct (q_alloc_law _ _ HA) as (w & h & E & ? & ? & ?). exists w, h.
  split_and!; try done. unfold os_alloc_list. erewrite bind_Ret by done.
  by apply lift_Ret.
Qed.

Lemma createNewThread_Ret gc fn a s Q :
  q_abs (hp s) Q ->
  exists s' w, createNewThread gc fn a s = Ret ((if gc then 0 else 1, naddr s), s') /\
    Q !! w = None /\ 0 < w /\ q_abs (hp s') (<[w := []]> Q) /\
    threads s' = <[naddr s := mkThread (wraps 32 (nextId s)) 0 (clock s)
                     (if gc then Entry else Unset) fn a None 0 w]> (threads s) /\
    nextId s' = wrapu 32 (nextId s + 1) /\
    run s' = run s /\ running s' = running s /\ mutexes s' = mutexes s /\
    naddr s < naddr s' /\ cpu s' = cpu s.
Proof.
  intros HA. unfold createNewThread. erewrite bind_Ret by apply os_alloc_Ret.
  set (s1 := set_naddr _ _).
  destruct (os_alloc_list_Ret s1 Q HA) as (w & h & E1 & Hw & Hpos & HA1).
  erewrite bind_Ret by apply E1. do 4 mstep. destruct gc.
  - erewrite bind_Ret by apply os_alloc_Ret.
    erewrite bind_Ret by (apply ld_thread_Ret; simpl; by rewrite lookup_insert_eq). mstep.
    eexists _, w. split_and!; [reflexivity|done|done|exact HA1| |done|done|done|done| |done].
    + simpl. by rewrite insert_insert_eq.
    + simpl. lia.
  - eexists _, w. split_and!; [reflexivity|done|done|exact HA1|done..| |done]. simpl. lia.
Qed.

Lemma create_Ret gc fn a s Q q :
  q_abs (hp s) Q -> Q !! run s = Some q -> run s <> NULL ->
  exists s' w q', my_pthread_create false gc fn a s = Ret ((Some (naddr s), 0), s') /\
    Q !! w = None /\ 0 < w /\ q' ≡ₚ naddr s :: q /\
    (forall x, list.head q = Some x -> list.head q' = Some x) /\
    q_abs (hp s') (<[run s := q']> (<[w := []]> Q)) /\
    threads s' = <[naddr s := mkThread (wraps 32 (nextId s)) 0 (clock s)
                     (if gc then Entry else Unset) fn a None 0 w]> (threads s) /\
    nextId s' = wrapu 32 (nextId s + 1) /\
    run s' = run s /\ running s' = running s /\ mutexes s' = mutexes s /\
    naddr s < naddr s' /\ cpu s' = cpu s.
Proof.
  intros HA HQ Hrun. unfold my_pthread_create. mstep.
  destruct (Z.eqb_spec (run s) NULL); [done|]. mstep.
  destruct (createNewThread_Ret gc fn a s Q HA)
    as (s1 & w & E1 & Hw & Hpos & HA1 & ET & EI & ER & ERr & EM & EN & EC).
  erewrite bind_Ret by apply E1. mstep. cbn [snd]. rewrite ER.
  assert (w <> run s) as Hne by (intros ->; congruence).
  destruct (pushOrdered_Ret s1 _ (run s) (naddr s) q HA1) as (h2 & E2 & HA2);
    [by rewrite lookup_insert_ne|].
  erewrite bind_Ret by apply E2.
  eexists _, w, _. split_and!; [reflexivity|done|done| | |exact HA2|done..].
  - apply pushOrdered_perm.
  - intros x Hx. destruct q as [|y q]; [done|]. simplify_eq/=. by case_match.
Qed.

(** The first call initialises the library. *)
Lemma initOS_Ret s Q :
  q_abs (hp s) Q -> threads s = ∅ ->
  exists s' r, initOS s = Ret (tt, s') /\ Q !! r = None /\ 0 < r /\
    q_abs (hp s') (<[r := []]> Q) /\ run s' = r /\ running s' = naddr s + 1 /\
    mainThread s' = naddr s + 1 /\
    threads s' = {[naddr s + 1 := mkThread 1 0 (clock s) Unset 0 0 None 0 NULL]} /\
    mutexes s' = mutexes s /\ nextId s' = 2 /\ nSchedulings s' = 0 /\
    naddr s + 1 < naddr s' /\ cpu s' = cpu s.
Proof.
  intros HA ET. unfold initOS.
  destruct (os_alloc_list_Ret s Q HA) as (r & h & E1 & Hw & Hpos & HA1).
  erewrite bind_Ret by apply E1. mstep.
  erewrite bind_Ret by apply os_alloc_Ret. mstep.
  erewrite bind_Ret by apply os_alloc_Ret. do 5 mstep.
  erewrite bind_Ret by apply os_alloc_Ret. mstep.
  erewrite bind_Ret by apply os_alloc_Ret. mstep.
  unfold setMyScheduler. mstep.
  erewrite bind_Ret by apply os_alloc_Ret. erewrite bind_Ret by apply os_alloc_Ret.
  eexists _, r. split_and!; [reflexivity|done|done|exact HA1|done..| |done|done| | |done].
  - simpl. by rewrite ET.
  - done.
  - simpl. lia.
Qed.

Lemma mutex_init_Ret s Q :
  q_abs (hp s) Q ->
  exists s' w, my_pthread_mutex_init s = Ret (naddr s, s') /\ Q !! w = None /\ 0 < w /\
    q_abs (hp s') (<[w := []]> Q) /\ mutexes s' = <[naddr s := mkLock 0 w]> (mutexes s) /\
    threads s' = threads s /\ run s' = run s /\ running s' = running s /\
    naddr s < naddr s' /\ cpu s' = cpu s.
Proof.
  intros HA. unfold my_pthread_mutex_init. erewrite bind_Ret by apply os_alloc_Ret.
  set (s1 := set_naddr _ _).
  destruct (os_alloc_list_Ret s1 Q HA) as (w & h & E1 & Hw & Hpos & HA1).
  erewrite bind_Ret by apply E1. mstep.
  eexists _, w. split_and!; [reflexivity|done|done|exact HA1|done..| |done]. simpl. lia.
Qed.

End Spec.
