(* ===== verification/PthreadInv.v ===== *)
(** * User-level threads: no thread is lost or duplicated

    Every thread that has not finished is either the running thread or in
    exactly one queue (the run queue, the wait queue of a mutex or the join
    queue of a thread), and every step of the machine preserves this. *)

From S2P Require Import Prelude LinkedList LinkedListRep Queues Pthread PthreadSpec.
Import Pthread.

(** ** The threads of a family of queues *)

Definition flat (Q : gmap Z (list Z)) : list Z := map_to_list Q ≫= snd.

Lemma flat_insert_new Q l q : Q !! l = None -> flat (<[l := q]> Q) ≡ₚ q ++ flat Q.
Proof. intros E. unfold flat. by rewrite map_to_list_insert by done. Qed.

Lemma flat_delete Q l q : Q !! l = Some q -> flat Q ≡ₚ q ++ flat (delete l Q).
Proof.
  intros E. rewrite <- (insert_id Q l q E) at 1. rewrite <- insert_delete_eq.
  apply flat_insert_new, lookup_delete_eq.
Qed.

(** Exchanging the contents of one queue. *)
Lemma flat_swap Q l q q' : Q !! l = Some q -> q ++ flat (<[l := q']> Q) ≡ₚ q' ++ flat Q.
Proof.
  intros E. rewrite (flat_delete Q l q E), <- insert_delete_eq.
  rewrite flat_insert_new by apply lookup_delete_eq. solve_Permutation.
Qed.

(** Moving one thread from the front of a queue to the processor. *)
Lemma flat_pop Q l t q : Q !! l = Some (t :: q) -> t :: flat (<[l := q]> Q) ≡ₚ flat Q.
Proof.
  intros E. pose proof (flat_swap Q l (t :: q) q E) as Hp. simpl in Hp.
  apply (Permutation_app_inv_l q). rewrite <- Hp. by rewrite <- Permutation_middle.
Qed.

Lemma flat_push Q l t q q' :
  Q !! l = Some q -> q' ≡ₚ t :: q -> flat (<[l := q']> Q) ≡ₚ t :: flat Q.
Proof.
  intros E Hq. apply (Permutation_app_inv_l q). rewrite (flat_swap Q l q q' E), Hq.
  simpl. by rewrite <- Permutation_middle.
Qed.

Lemma elem_of_flat Q t : t ∈ flat Q <-> exists l q, Q !! l = Some q /\ t ∈ q.
Proof.
  unfold flat. rewrite list_elem_of_bind. split.
  - intros ([l q] & Ht & HQ%elem_of_map_to_list). eauto.
  - intros (l & q & HQ & Ht). exists (l, q). split; [done|by apply elem_of_map_to_list].
Qed.

Lemma NoDup_flat Q l q : NoDup (flat Q) -> Q !! l = Some q -> NoDup q.
Proof. intros Hnd E. rewrite (flat_delete Q l q E) in Hnd. by apply NoDup_app in Hnd as [? _]. Qed.

Section Inv.
Context {H : Type} `{QueueLaws H}.
Implicit Types (s : os H) (Q : gmap Z (list Z)) (gone : list Z).

(** Where threads may wait: in the run queue, in the wait queue of a mutex, or
    in the join queue of a thread that has not finished. *)
Definition home (s : os H) (l : Z) : Prop :=
  l = run s \/
  (exists m lk, mutexes s !! m = Some lk /\ wait lk = l) \/
  (exists t th, threads s !! t = Some th /\ finished th = 0 /\ waitJoin th = l).

Definition homes (s : os H) (Q : gmap Z (list Z)) : Prop :=
  forall l q, Q !! l = Some q -> q <> [] -> home s l.

(** The thread exists and has not finished. *)
Definition live (s : os H) (t : Z) : Prop := exists th, threads s !! t = Some th /\ finished th = 0.

Record inv_at (s : os H) (Q : gmap Z (list Z)) : Prop := {
  i_abs : q_abs (hp s) Q;
  i_run : is_Some (Q !! run s);
  i_run_pos : 0 < run s;
  (* in one place only *)
  i_nodup : NoDup (running s :: flat Q);
  i_known : forall t, t ∈ running s :: flat Q -> live s t;
  i_homes : homes s Q;
  (* never lost *)
  i_live : forall t, live s t -> t ∈ running s :: flat Q;
  i_wait : forall m l, mutexes s !! m = Some l -> is_Some (Q !! wait l) /\ wait l <> run s;
  i_join : forall t th, threads s !! t = Some th ->
    waitJoin th = NULL \/ (is_Some (Q !! waitJoin th) /\ waitJoin th <> run s);
  i_fresh : forall t, is_Some (threads s !! t) -> 0 < t < naddr s;
  i_mutexes : forall m, is_Some (mutexes s !! m) -> m < naddr s
}.

Definition inv (s : os H) : Prop := exists Q, inv_at s Q.

(** What a step leaves of the structs of the threads that do not run. *)
Definition kept (s s' : os H) : Prop :=
  forall t th, threads s !! t = Some th -> t <> running s ->
    exists th', threads s' !! t = Some th' /\ finished th' = finished th /\ res th' = res th.

Definition after (s s' : os H) : Prop := inv s' /\ kept s s'.

(** What a step may do to the thread and mutex structs; the threads [gone]
    have finished. *)
Record shape gone (s s' : os H) : Prop := {
  sh_run : run s' = run s;
  sh_naddr : naddr s <= naddr s';
  sh_dom : forall t, is_Some (threads s' !! t) -> is_Some (threads s !! t);
  sh_known : forall t th, threads s !! t = Some th ->
    exists th', threads s' !! t = Some th' /\ waitJoin th' = waitJoin th /\
      (t ∉ gone -> finished th' = finished th) /\ (t <> running s -> res th' = res th);
  sh_mutexes : forall m l', mutexes s' !! m = Some l' ->
    exists l, mutexes s !! m = Some l /\ wait l' = wait l
}.

(** Every wait queue still belongs to its mutex. *)
Definition waits_kept (s s' : os H) : Prop :=
  forall m l, mutexes s !! m = Some l -> exists l', mutexes s' !! m = Some l' /\ wait l' = wait l.

Lemma waits_same s s' : mutexes s' = mutexes s -> waits_kept s s'.
Proof. intros E m l El. rewrite E. eauto. Qed.

Lemma homes_insert s Q l q : homes s Q -> (q = [] \/ home s l) -> homes s (<[l := q]> Q).
Proof.
  intros HQ Hl l' q'. destruct (decide (l = l')) as [<-|].
  - rewrite lookup_insert_eq. intros [= <-] ?. by destruct Hl.
  - rewrite lookup_insert_ne by done. apply HQ.
Qed.

Lemma homes_shape s s' Q : shape [] s s' -> waits_kept s s' -> homes s Q -> homes s' Q.
Proof.
  intros Hs Hw HQ l q El Hq. destruct (HQ l q El Hq) as [->|[(m & lk & Em & <-)|(t & th & Et & Ef & <-)]].
  - left. symmetry. apply Hs.
  - right. left. destruct (Hw m lk Em) as (lk' & ? & ?). by exists m, lk'.
  - right. right. destruct (sh_known _ _ _ Hs t th Et) as (th' & ? & ? & Hf & _).
    exists t, th'. rewrite Hf by set_solver. done.
Qed.

(** A step that moves threads between queues and processor keeps the
    invariant. *)
Lemma inv_move s s' Q Q' gone :
  inv_at s Q -> shape gone s s' -> q_abs (hp s') Q' ->
  (forall l, is_Some (Q !! l) -> is_Some (Q' !! l)) ->
  gone ++ running s' :: flat Q' ≡ₚ running s :: flat Q ->
  (forall t, t ∈ gone -> ~ live s' t) -> homes s' Q' ->
  inv_at s' Q'.
Proof.
  intros [Ha Hr Hp Hnd Hk Hh Hl Hw Hj Hf Hmf] [Sr Sn Sd Sk Sm] Ha' HQ Hperm Hgone Hh'.
  assert (Hin : forall t, t ∈ running s' :: flat Q' -> t ∈ running s :: flat Q).
  { intros t Ht. rewrite <- Hperm. set_solver. }
  rewrite <- Hperm in Hnd. apply NoDup_app in Hnd as (_ & Hout & Hnd).
  split; try done.
  - rewrite Sr. auto.
  - by rewrite Sr.
  - intros t Ht. destruct (Hk t (Hin t Ht)) as (th & Et & Ef).
    destruct (Sk t th Et) as (th' & Et' & _ & Hfin & _). exists th'. split; [done|].
    rewrite Hfin; [done|]. intros Hg. by apply (Hout t Hg).
  - intros t (th' & Et & Ef). destruct (Sd t ltac:(eauto)) as [th Et0].
    destruct (Sk t th Et0) as (th2 & Et2 & _ & Hfin & _). simplify_eq.
    destruct (decide (t ∈ gone)) as [Hg|Hg]; [by destruct (Hgone t Hg); eexists|].
    assert (t ∈ running s :: flat Q) as Ht by (apply Hl; exists th; split; [done|]; by rewrite <- Hfin).
    rewrite <- Hperm in Ht. by apply elem_of_app in Ht as [?|?].
  - intros m l' Em. destruct (Sm _ _ Em) as (l & Em0 & ->).
    destruct (Hw _ _ Em0) as [? ?]. rewrite Sr. auto.
  - intros t th' Et. destruct (Sd t ltac:(eauto)) as [th Et0].
    destruct (Sk t th Et0) as (th2 & Et2 & Ew & _). simplify_eq. rewrite Ew.
    destruct (Hj _ _ Et0) as [?|[? ?]]; [by left|right]. rewrite Sr. auto.
  - intros t Ht. specialize (Hf t (Sd t Ht)). lia.
  - intros m [l' Em]. destruct (Sm m l' Em) as (l & El & _). specialize (Hmf m ltac:(eauto)). lia.
Qed.

Lemma after_move s s' Q Q' gone :
  inv_at s Q -> shape gone s s' -> q_abs (hp s') Q' ->
  (forall l, is_Some (Q !! l) -> is_Some (Q' !! l)) ->
  gone ++ running s' :: flat Q' ≡ₚ running s :: flat Q ->
  (forall t, t ∈ gone -> t = running s /\ ~ live s' t) -> homes s' Q' -> after s s'.
Proof.
  intros HI Hs HA HQ Hp Hg Hh. split.
  - exists Q'. eapply inv_move; try done. intros t Ht. by apply Hg.
  - intros t th Et Hne. destruct (sh_known _ _ _ Hs t th Et) as (th' & Et' & _ & Hf & Hres).
    exists th'. rewrite Hf, Hres; [done|done|]. intros Hin. by apply Hne, Hg.
Qed.

Lemma after_keep s s' Q Q' :
  inv_at s Q -> shape [] s s' -> waits_kept s s' -> q_abs (hp s') Q' ->
  (forall l, is_Some (Q !! l) -> is_Some (Q' !! l)) ->
  running s' :: flat Q' ≡ₚ running s :: flat Q -> homes s Q' -> after s s'.
Proof.
  intros. eapply (after_move s s' Q Q' []); try done.
  - by intros t ?%not_elem_of_nil.
  - by eapply homes_shape.
Qed.

Lemma shape_upd gone s s' t th th' :
  run s' = run s -> naddr s' = naddr s -> mutexes s' = mutexes s ->
  threads s' = <[t := th']> (threads s) -> threads s !! t = Some th ->
  waitJoin th' = waitJoin th -> (t ∉ gone -> finished th' = finished th) ->
  (t <> running s -> res th' = res th) -> shape gone s s'.
Proof.
  intros Er En Em ET Et Ew Ef Es. split; [done|lia| | |].
  - intros t' [x Ex]. rewrite ET in Ex. destruct (decide (t = t')) as [<-|]; [eauto|].
    rewrite lookup_insert_ne in Ex by done. eauto.
  - intros t' x Ex. rewrite ET. destruct (decide (t = t')) as [<-|].
    + rewrite lookup_insert_eq. simplify_eq. eauto.
    + rewrite lookup_insert_ne by done. eauto.
  - rewrite Em. eauto.
Qed.

Lemma shape_mutexes s s' :
  run s' = run s -> naddr s' = naddr s -> threads s' = threads s ->
  (forall m l', mutexes s' !! m = Some l' ->
     exists l, mutexes s !! m = Some l /\ wait l' = wait l) ->
  shape [] s s'.
Proof. intros Er En ET Hm. split; [done|lia| | |done]; rewrite ET; eauto. Qed.

Lemma shape_same s s' :
  run s' = run s -> naddr s' = naddr s -> mutexes s' = mutexes s -> threads s' = threads s ->
  shape [] s s'.
Proof. intros Er En Em ET. apply shape_mutexes; try done. rewrite Em. eauto. Qed.

(** Steps that change neither queues nor structs. *)
Lemma after_same s s' Q :
  inv_at s Q -> hp s' = hp s -> running s' = running s -> run s' = run s -> naddr s' = naddr s ->
  mutexes s' = mutexes s -> threads s' = threads s -> after s s'.
Proof.
  intros HI Eh Er. intros. eapply (after_keep s s' Q Q);
    [done|by apply shape_same|by apply waits_same|rewrite Eh; apply HI|done|by rewrite Er|apply HI].
Qed.

Lemma after_trans s s1 s' : kept s s1 -> running s1 = running s -> after s1 s' -> after s s'.
Proof.
  intros Hk Er [HI Hk']. split; [done|]. intros t th Et Hne.
  destruct (Hk t th Et Hne) as (th1 & Et1 & Ef1 & Es1).
  destruct (Hk' t th1 Et1) as (th' & Et' & Ef' & Es'); [by rewrite Er|].
  exists th'. by rewrite Ef', Es'.
Qed.

(** Updating queues that exist keeps the family. *)
Lemma dom_insert_some Q l q l' :
  is_Some (Q !! l') -> is_Some (<[l := q]> Q !! l').
Proof.
  destruct (decide (l = l')) as [<-|]; [rewrite lookup_insert_eq; eauto|].
  by rewrite lookup_insert_ne.
Qed.

Lemma dom_insert_some' (T : gmap Z sthread) t th t' :
  is_Some (T !! t') -> is_Some (<[t := th]> T !! t').
Proof.
  destruct (decide (t = t')) as [<-|]; [rewrite lookup_insert_eq; eauto|].
  by rewrite lookup_insert_ne.
Qed.

(** Every queued thread is another thread than the running one. *)
Lemma inv_queued s Q l q t :
  inv_at s Q -> Q !! l = Some q -> t ∈ q -> is_Some (threads s !! t) /\ t <> running s.
Proof.
  intros HI HQ Ht. assert (t ∈ flat Q) as Hf by (apply elem_of_flat; eauto). split.
  - destruct (i_known _ _ HI t) as (th & ? & _); [set_solver|eauto].
  - intros ->. pose proof (i_nodup _ _ HI) as Hnd. by apply NoDup_cons in Hnd as [? _].
Qed.

Lemma inv_running s Q : inv_at s Q -> exists th, threads s !! running s = Some th /\ finished th = 0.
Proof. intros HI. apply (i_known _ _ HI). set_solver. Qed.

(** ** The steps *)

Lemma interrupt_inv s s' Q : inv_at s Q -> interrupt s = Ret (tt, s') -> after s s'.
Proof.
  intros HI E. destruct (inv_running s Q HI) as (th & Er & _).
  destruct (i_run _ _ HI) as [[|t q] HQ].
  - destruct (interrupt_alone_Ret s Q th (i_abs _ _ HI) HQ Er)
      as (s1 & E1 & E2 & _ & HA & ET & ER & EM & EN & _). rewrite E in E1. simplify_eq.
    eapply (after_keep s _ Q Q); [done|by eapply shape_upd|by apply waits_same|done|done|by rewrite E2|apply HI].
  - destruct (inv_queued s Q (run s) (t :: q) t HI HQ) as [[tht Et] Hne]; [set_solver|].
    destruct (interrupt_Ret s Q t q th tht (i_abs _ _ HI) HQ Er Et Hne)
      as (s1 & q' & E1 & E2 & _ & Hq & HA & ET & ER & EM & EN & _). rewrite E in E1. simplify_eq.
    eapply (after_keep s _ Q (<[run s := q']> Q));
      [done|by eapply shape_upd|by apply waits_same|done|intros; by apply dom_insert_some| |].
    + apply (Permutation_app_inv_l q). rewrite <- Permutation_middle.
      rewrite app_comm_cons, (flat_swap Q (run s) _ q' HQ), Hq. simpl. solve_Permutation.
    + apply homes_insert; [apply HI|right; by left].
Qed.

Lemma yield_inv s s' Q : inv_at s Q -> my_pthread_yield s = Ret (tt, s') -> after s s'.
Proof.
  intros HI E. destruct (inv_running s Q HI) as (th & Er & _). unfold my_pthread_yield in E.
  erewrite bind_Ret in E by done. erewrite bind_Ret in E by (by apply ld_thread_Ret).
  destruct (priority th >? 0).
  - erewrite bind_Ret in E by done. set (s1 := set_threads _ s) in E.
    assert (shape [] s s1) as Hsh by (by eapply shape_upd).
    destruct (after_keep s s1 Q Q) as [_ Hk]; try done; [by apply waits_same|apply HI..|].
    eapply (after_trans s s1); [done|done|]. eapply interrupt_inv; [|exact E].
    eapply (inv_move s s1 Q Q []); try done; [apply HI|by intros t ?%not_elem_of_nil|].
    eapply homes_shape; [done|by apply waits_same|apply HI].
  - erewrite bind_Ret in E by done. by eapply interrupt_inv.
Qed.

(** An exit that switches to another thread. *)
Lemma threadExit_inv v blocked s s' Q :
  inv_at s Q -> threadExit v blocked s = Ret (false, s') ->
  after s s' /\ exists th', threads s' !! running s = Some th' /\ finished th' = 1 /\
    (v <> NULL -> res th' = Some v).
Proof.
  intros HI E. destruct (inv_running s Q HI) as (th & Er & _).
  destruct (i_run _ _ HI) as [q HQ]. destruct (exited_fields v th) as (Ew & Ef & _).
  destruct (i_join _ _ HI _ _ Er) as [EN|[[ws HW] Hne]].
  { rewrite (threadExit_prefix _ _ _ _ Er), EN in E. exfalso. revert E.
    cbn [wake_all]. rewrite bind_Fault; [done|]. apply bind_Fault.
    apply lift_Fault. eapply q_null_fault. apply HI. }
  assert (Hin : forall t, t ∈ ws ++ q -> is_Some (threads s !! t) /\ t <> running s).
  { intros t [Ht|Ht]%elem_of_app; [eapply (inv_queued s Q _ ws)|eapply (inv_queued s Q _ q)]; eauto. }
  assert (NoDup ws) as Hnd.
  { eapply NoDup_flat; [|exact HW]. pose proof (i_nodup _ _ HI) as Hd.
    by apply NoDup_cons in Hd as [_ ?]. }
  destruct (decide (ws ++ q = [])) as [[-> ->]%app_eq_nil|Hnn].
  { exfalso. rewrite (threadExit_prefix _ _ _ _ Er) in E.
    destruct (wake_all_Ret (S (size (threads s))) (waitJoin th)
      (set_threads (<[running s := exited v th]> (threads s)) s) Q [] [])
      as (h2 & E2 & HA2); try done; [simpl; lia|apply HI|].
    simpl in HA2. rewrite (insert_id Q (waitJoin th)), (insert_id Q (run s)) in HA2 by done.
    erewrite bind_Ret in E by apply E2.
    by erewrite bind_Ret in E by (apply lift_Ret; by eapply q_empty_nil). }
  destruct (threadExit_Ret v blocked s Q th ws q (i_abs _ _ HI) Er HW HQ Hne Hnd)
    as (s1 & t & q' & tht & E1 & Hwk & E2 & Et & _ & ET & HA & ER & EM & EN & _); try done.
  { intros t Ht. by apply Hin. }
  { intros Ht. by apply Hin in Ht as [_ ?]. }
  pose proof (woken_perm (getPriority s) ws q) as Hp. rewrite Hwk in Hp.
  rewrite E in E1. simplify_eq. split.
  2:{ exists (exited v th). rewrite ET, lookup_insert_eq. split_and!; [done|done|apply exited_res]. }
  eapply (after_move s _ Q (<[run s := q']> (<[waitJoin th := []]> Q)) [running s]);
    [done| |done| | | |].
  - eapply shape_upd; try done. by intros []; set_solver.
  - intros l Hl. by do 2 apply dom_insert_some.
  - simpl. apply perm_skip.
    apply (Permutation_app_inv_l q). rewrite <- Permutation_middle.
    pose proof (flat_swap (<[waitJoin th := []]> Q) (run s) q q') as F1.
    rewrite lookup_insert_ne in F1 by done. specialize (F1 HQ).
    pose proof (flat_swap Q (waitJoin th) ws [] HW) as F2. simpl in F2.
    rewrite F1. rewrite <- F2. rewrite app_comm_cons, Hp. solve_Permutation.
  - intros t ->%list_elem_of_singleton. split; [done|]. intros (th' & Et' & Ef').
    rewrite ET, lookup_insert_eq in Et'. simplify_eq. by rewrite Ef in Ef'.
  - apply homes_insert; [|right; left; by rewrite ER].
    intros l ql. destruct (decide (waitJoin th = l)) as [<-|Hl].
    { rewrite lookup_insert_eq. by intros [= <-]. }
    rewrite lookup_insert_ne by done. intros El Hql.
    destruct (i_homes _ _ HI l ql El Hql) as [->|[(m & lk & Em & <-)|(x & xth & Ex & Exf & <-)]].
    + left. by rewrite ER.
    + right. left. exists m, lk. by rewrite EM.
    + right. right. exists x, xth. rewrite ET, lookup_insert_ne; [done|]. intros <-. congruence.
Qed.

Lemma unlock_inv m s r s' Q :
  inv_at s Q -> my_pthread_mutex_unlock m s = Ret (r, s') -> after s s'.
Proof.
  intros HI E. destruct (mutexes s !! m) as [l|] eqn:Em.
  2:{ exfalso. revert E. unfold my_pthread_mutex_unlock. rewrite bind_Fault; [done|].
      unfold ld_lock. by rewrite Em. }
  destruct (i_wait _ _ HI _ _ Em) as [[ws HW] Hne]. destruct (i_run _ _ HI) as [q HQ].
  destruct (unlock_Ret s Q m l ws q (i_abs _ _ HI) Em HW HQ Hne) as (h & q' & E1 & Hp & _ & HA).
  rewrite E1 in E. injection E as <- <-.
  eapply (after_keep s _ Q (<[run s := q']> (<[wait l := drop 1 ws]> Q))); [done| | |done| | |].
  - apply shape_mutexes; try done. simpl. intros m' l'. destruct (decide (m = m')) as [<-|].
    + rewrite lookup_insert_eq. intros [= <-]. eauto.
    + rewrite lookup_insert_ne by done. eauto.
  - intros m' l'. simpl. destruct (decide (m = m')) as [<-|].
    + rewrite lookup_insert_eq. intros. simplify_eq. eauto.
    + rewrite lookup_insert_ne by done. eauto.
  - intros l' Hl'. by do 2 apply dom_insert_some.
  - simpl. apply perm_skip. apply (Permutation_app_inv_l (q ++ ws)).
    pose proof (flat_swap (<[wait l := drop 1 ws]> Q) (run s) q q') as F1.
    rewrite lookup_insert_ne in F1 by done. specialize (F1 HQ).
    pose proof (flat_swap Q (wait l) ws (drop 1 ws) HW) as F2.
    transitivity (ws ++ (q ++ flat (<[run s := q']> (<[wait l := drop 1 ws]> Q))));
      [solve_Permutation|]. rewrite F1.
    transitivity (q' ++ (ws ++ flat (<[wait l := drop 1 ws]> Q))); [solve_Permutation|].
    rewrite F2, Hp. rewrite <- (take_drop 1 ws) at 3. solve_Permutation.
  - apply homes_insert; [apply homes_insert; [apply HI|right; right; left; eauto]|right; by left].
Qed.

Lemma destroy_inv m s r s' Q :
  inv_at s Q -> my_pthread_mutex_destroy m s = Ret (r, s') -> after s s'.
Proof.
  intros HI E. unfold my_pthread_mutex_destroy in E. step_inv E. rename a into l.
  unfold ld_lock in E0. destruct (mutexes s !! m) as [l'|] eqn:Em; [|done].
  injection E0 as -> <-. erewrite bind_Ret in E by done.
  destruct (i_wait _ _ HI _ _ Em) as [[ws HW] Hne]. destruct (i_run _ _ HI) as [q HQ].
  pose proof (i_nodup _ _ HI) as Hd. apply NoDup_cons in Hd as [_ Hd].
  destruct (wake_all_Ret (S (size (threads s))) (wait l) s Q ws q)
    as (h2 & E2 & HA2); try done; [| apply HI|].
  { apply queue_length; [by eapply NoDup_flat|]. intros t Ht.
    by eapply (inv_queued s Q (wait l) ws). }
  pose proof (woken_perm (getPriority s) ws q) as Hp2. set (q2 := woken _ _ _) in *.
  erewrite bind_Ret in E by apply E2. do 4 erewrite bind_Ret in E by done.
  injection E as <- <-.
  eapply (after_move s _ Q (<[run s := q2]> (<[wait l := []]> Q)) []); [done| |done| | |by intros t ?%not_elem_of_nil|].
  - apply shape_mutexes; try done. simpl. intros m' l' [Hm El]%lookup_delete_Some.
    rewrite lookup_insert_ne in El by done. eauto.
  - intros l' Hl'. by do 2 apply dom_insert_some.
  - simpl. apply perm_skip. apply (Permutation_app_inv_l q).
    pose proof (flat_swap (<[wait l := []]> Q) (run s) q q2) as F1.
    rewrite lookup_insert_ne in F1 by done. rewrite (F1 HQ), Hp2.
    pose proof (flat_swap Q (wait l) ws [] HW) as F2. simpl in F2.
    rewrite <- F2. solve_Permutation.
  - apply homes_insert; [|right; by left]. intros x qx. destruct (decide (wait l = x)) as [<-|Hx].
    { rewrite lookup_insert_eq. by intros [= <-]. }
    rewrite lookup_insert_ne by done. intros Ex Hqx.
    destruct (i_homes _ _ HI x qx Ex Hqx) as [->|[(m' & lk & Em' & <-)|(y & yth & Ey & Eyf & <-)]].
    + by left.
    + right. left. exists m', lk. simpl. split; [|done].
      assert (m <> m') by (intros <-; congruence). by rewrite lookup_delete_ne, lookup_insert_ne.
    + right. right. by exists y, yth.
Qed.

Lemma lock_block_inv m s s' Q :
  inv_at s Q -> lock_block m s = Ret (tt, s') -> after s s'.
Proof.
  intros HI E. destruct (mutexes s !! m) as [l|] eqn:Em.
  2:{ exfalso. revert E. unfold lock_block. rewrite bind_Fault; [done|].
      unfold ld_lock. by rewrite Em. }
  destruct (i_wait _ _ HI _ _ Em) as [[ws HW] Hne]. destruct (i_run _ _ HI) as [q HQ].
  destruct (inv_running s Q HI) as (th & Er & _).
  destruct (decide (state l = 1)) as [E1|E1].
  - destruct q as [|t q].
    { exfalso. by rewrite (lock_block_fault s Q m l ws th (i_abs _ _ HI) Em E1 HW HQ Hne Er) in E. }
    destruct (lock_block_Ret s Q m l ws t q th (i_abs _ _ HI) Em E1 HW HQ Hne Er)
      as (s1 & E2 & E3 & _ & HA & ET & EM & ER & EN & _). rewrite E in E2. simplify_eq.
    eapply (after_keep s _ Q (<[run s := q]> (<[wait l := ws ++ [running s]]> Q)));
      [done|by apply shape_same|by apply waits_same|done| | |].
    + intros l' Hl'. by do 2 apply dom_insert_some.
    + rewrite (flat_pop (<[wait l := ws ++ [running s]]> Q)) by (by rewrite lookup_insert_ne).
      apply (flat_push _ _ _ ws); [done|]. solve_Permutation.
    + apply homes_insert; [apply homes_insert; [apply HI|right; right; left; eauto]|right; by left].
  - unfold lock_block in E. erewrite bind_Ret in E by (by apply ld_lock_Ret).
    destruct (Z.eqb_spec (state l) 1); [done|]. injection E as <-. by eapply after_same.
Qed.

(** Whether a queue is empty, and whether a call gives up: a [join] that finds
    its target unfinished, or an [exit], and no other thread to switch to. *)
Definition q_is_empty (s : os H) (l : Z) : bool :=
  match q_empty l (hp s) with Ret (b, _) => b | _ => false end.

Definition gives_up (e : event) (s : os H) : bool :=
  match e with
  | Join t _ =>
      match threads s !! t with
      | Some th => (finished th =? 0) && q_is_empty s (run s)
      | None => false
      end
  | Exit _ =>
      match threads s !! running s with
      | Some th => q_is_empty s (waitJoin th) && q_is_empty s (run s)
      | None => false
      end
  | _ => false
  end.

(** An exit that does not give up switches. *)
Lemma exit_switches v s Q b s' :
  inv_at s Q -> gives_up (Exit v) s = false -> threadExit v false s = Ret (b, s') -> b = false.
Proof.
  intros HI Hg E. destruct (inv_running s Q HI) as (th & Er & _). cbn [gives_up] in Hg. rewrite Er in Hg.
  destruct (i_run _ _ HI) as [q HQ]. rewrite (threadExit_prefix _ _ _ _ Er) in E.
  set (s1 := set_threads _ s) in E. apply bind_inv in E as ([] & s2 & E2 & E).
  destruct (i_join _ _ HI _ _ Er) as [EN|[[ws HW] Hne]].
  { exfalso. revert E2. rewrite EN. cbn [wake_all]. rewrite bind_Fault; [done|].
    apply lift_Fault. eapply q_null_fault. apply HI. }
  destruct (wake_all_Ret (S (size (threads s))) (waitJoin th) s1 Q ws q) as (h2 & E2' & HA2); try done.
  { apply queue_length.
    - eapply NoDup_flat; [|exact HW]. pose proof (i_nodup _ _ HI) as Hd. by apply NoDup_cons in Hd as [_ ?].
    - intros t Ht. by eapply (inv_queued s Q _ ws). }
  { apply HI. }
  rewrite E2 in E2'. simplify_eq.
  destruct (woken (getPriority s1) ws q) as [|t q2] eqn:Ewk.
  - exfalso. pose proof (woken_perm (getPriority s1) ws q) as Hp. rewrite Ewk in Hp.
    symmetry in Hp. apply Permutation_nil_r, app_eq_nil in Hp as [-> ->]. unfold q_is_empty in Hg.
    by rewrite (q_empty_nil _ _ _ (i_abs _ _ HI) HQ), (q_empty_nil _ _ _ (i_abs _ _ HI) HW) in Hg.
  - erewrite bind_Ret in E by (apply lift_Ret; eapply q_empty_cons; [apply HA2|apply lookup_insert_eq]).
    cbn match in E. do 5 step_inv E. by injection E as <- _.
Qed.

Lemma exit_inv v s s' Q :
  inv_at s Q -> gives_up (Exit v) s = false -> my_pthread_exit v s = Ret (tt, s') ->
  after s s' /\ exists th', threads s' !! running s = Some th' /\ finished th' = 1 /\
    (v <> NULL -> res th' = Some v).
Proof.
  intros HI Hg E. unfold my_pthread_exit in E. step_inv E. injection E as <-.
  rewrite (exit_switches _ _ _ _ _ HI Hg E0) in E0. by eapply threadExit_inv.
Qed.

Lemma join_tail_inv t vp s s' Q : inv_at s Q -> join_tail t vp s = Ret (tt, s') -> after s s'.
Proof.
  intros HI E. unfold join_tail in E. step_inv E. unfold ld_thread in E0.
  destruct (threads s !! t) as [th|]; [|done]. injection E0 as -> <-.
  erewrite bind_Ret in E by done. step_inv E. injection E as <-.
  destruct vp; [destruct (res a); [|done]|]; injection E0 as _ <-; by eapply after_same.
Qed.

Lemma join_inv t vp s s' Q :
  inv_at s Q -> gives_up (Join t vp) s = false -> my_pthread_join t vp s = Ret (tt, s') -> after s s'.
Proof.
  intros HI He E. cbn [gives_up] in He. destruct (threads s !! t) as [tht|] eqn:Et.
  2:{ exfalso. revert E. unfold my_pthread_join. rewrite bind_Fault; [done|].
      unfold ld_thread. by rewrite Et. }
  destruct (Z.eqb_spec (finished tht) 0) as [Ef|Ef].
  - destruct (i_run _ _ HI) as [q HQ]. destruct (inv_running s Q HI) as (th & Er & _).
    destruct (i_join _ _ HI _ _ Et) as [EN|[[ws HW] Hne]].
    { exfalso. revert E. unfold my_pthread_join.
      erewrite bind_Ret by (by apply ld_thread_Ret). rewrite Ef. change (0 =? 0) with true.
      cbn match. erewrite bind_Ret by done. rewrite bind_Fault; [done|].
      unfold pushOrdered. erewrite bind_Ret by done. rewrite EN.
      apply lift_Fault. eapply q_pushOrdered_null_fault. apply HI. }
    destruct q as [|n q].
    { exfalso. unfold q_is_empty in He. by rewrite (q_empty_nil _ _ _ (i_abs _ _ HI) HQ) in He. }
    destruct (join_block_Ret s Q t vp th tht ws n q (i_abs _ _ HI) Et Ef Er HW HQ Hne)
      as (s1 & ws' & E1 & E2 & _ & Hp & HA & ET & EM & ER & EN & _). rewrite E in E1. simplify_eq.
    eapply (after_keep s _ Q (<[run s := q]> (<[waitJoin tht := ws']> Q)));
      [done|by apply shape_same|by apply waits_same|done| | |].
    + intros l' Hl'. by do 2 apply dom_insert_some.
    + rewrite (flat_pop (<[waitJoin tht := ws']> Q)) by (by rewrite lookup_insert_ne).
      by apply (flat_push _ _ _ ws).
    + apply homes_insert; [|right; by left]. apply homes_insert; [apply HI|]. right. right. right. eauto.
  - unfold my_pthread_join in E. erewrite bind_Ret in E by (by apply ld_thread_Ret).
    destruct (Z.eqb_spec (finished tht) 0); [done|]. by eapply join_tail_inv.
Qed.

Lemma swapcontext_inv old c s s' Q : inv_at s Q -> swapcontext old c s = Ret (tt, s') -> after s s'.
Proof.
  intros HI E. unfold swapcontext in E. step_inv E. unfold ld_thread in E0.
  destruct (threads s !! old) as [th|] eqn:Eo; [|done]. injection E0 as -> <-.
  erewrite bind_Ret in E by done. unfold setcontext in E. erewrite bind_Ret in E by done.
  step_inv E. unfold ld_thread in E0. case_match; [|done]. injection E0 as -> <-.
  injection E as <-.
  eapply (after_keep s _ Q Q); [done|by eapply shape_upd|by apply waits_same|apply HI|done|done|apply HI].
Qed.

Lemma testAndSet_write_inv m v s s' Q :
  inv_at s Q -> testAndSet_write m v s = Ret (tt, s') -> after s s'.
Proof.
  intros HI E. unfold testAndSet_write in E. step_inv E. unfold ld_lock in E0.
  destruct (mutexes s !! m) as [l|] eqn:Em; [|done]. injection E0 as -> <-.
  erewrite bind_Ret in E by done. injection E as <-.
  eapply (after_keep s _ Q Q); [done| | |apply HI|done|done|apply HI].
  - apply shape_mutexes; try done. intros m' l'. simpl. destruct (decide (m = m')) as [<-|].
    + rewrite lookup_insert_eq. intros [= <-]. eauto.
    + rewrite lookup_insert_ne by done. eauto.
  - intros m' l'. simpl. destruct (decide (m = m')) as [<-|].
    + rewrite lookup_insert_eq. intros. simplify_eq. eauto.
    + rewrite lookup_insert_ne by done. eauto.
Qed.

Lemma advance_inv s s' Q : inv_at s Q -> advance s = Ret (tt, s') -> after s s'.
Proof.
  intros HI E. unfold advance in E. erewrite bind_Ret in E by done.
  destruct (cpu s); try done.
  - injection E as <-. by eapply after_same.
  - unfold testAndSet_read in E. step_inv E. unfold ld_lock in E0. case_match; [|done].
    injection E0 as -> <-. injection E as <-. by eapply after_same.
  - by eapply testAndSet_write_inv.
  - by eapply lock_block_inv.
  - by eapply swapcontext_inv.
  - by eapply swapcontext_inv.
  - by eapply join_tail_inv.
  - unfold setcontext in E. erewrite bind_Ret in E by done. step_inv E.
    unfold ld_thread in E0. case_match; [|done]. injection E0 as -> <-. injection E as <-.
    by eapply after_same.
Qed.

(** A new queue header adds no thread. *)
Lemma inv_new_queue s s' Q w :
  inv_at s Q -> Q !! w = None -> 0 < w -> q_abs (hp s') (<[w := []]> Q) ->
  run s' = run s -> running s' = running s -> threads s' = threads s ->
  naddr s <= naddr s' -> waits_kept s s' ->
  (forall m l', mutexes s' !! m = Some l' ->
     m < naddr s' /\ (wait l' = w \/ exists l, mutexes s !! m = Some l /\ wait l' = wait l)) ->
  after s s'.
Proof.
  intros [Ha [qr Hr] Hp Hnd Hk Hh Hl Hw Hj Hf Hmf] HQ Hpos HA Er Err ET En Hwk Hm.
  split; [|intros t th Et _; exists th; by rewrite ET].
  assert (w <> run s) as Hne by (intros ->; congruence).
  assert (Hfl : flat (<[w := []]> Q) ≡ₚ flat Q) by (by rewrite flat_insert_new).
  exists (<[w := []]> Q). split; try done.
  - rewrite Er, lookup_insert_ne by done. eauto.
  - by rewrite Er.
  - by rewrite Err, Hfl.
  - intros t. unfold live. rewrite Err, Hfl, ET. apply Hk.
  - apply homes_insert; [|by left]. intros l q El Hq.
    destruct (Hh l q El Hq) as [->|[(m & lk & Em & <-)|(t & th & Et & Ef & <-)]].
    + by left.
    + right. left. destruct (Hwk m lk Em) as (lk' & ? & ?). by exists m, lk'.
    + right. right. exists t, th. by rewrite ET.
  - intros t. unfold live. rewrite Err, Hfl, ET. apply Hl.
  - intros m l' Em. rewrite Er. destruct (Hm _ _ Em) as [_ [->|(l & Em0 & ->)]].
    + rewrite lookup_insert_eq. eauto.
    + destruct (Hw _ _ Em0). split; [by apply dom_insert_some|done].
  - intros t th. rewrite ET, Er. intros Et. destruct (Hj _ _ Et) as [?|[? ?]]; [by left|right].
    split; [by apply dom_insert_some|done].
  - intros t. rewrite ET. intros Ht. specialize (Hf t Ht). lia.
  - intros m [l Em]. by apply (Hm m l).
Qed.

(** A new thread in the run queue, with its own empty join queue. *)
Lemma inv_new_thread s s' Q w t th q q' :
  inv_at s Q -> Q !! w = None -> waitJoin th = w -> finished th = 0 ->
  ~ is_Some (threads s !! t) -> 0 < t < naddr s' -> naddr s <= naddr s' ->
  threads s' = <[t := th]> (threads s) ->
  Q !! run s = Some q -> q' ≡ₚ t :: q -> q_abs (hp s') (<[run s := q']> (<[w := []]> Q)) ->
  run s' = run s -> running s' = running s -> mutexes s' = mutexes s -> after s s'.
Proof.
  intros [Ha Hr Hp Hnd Hk Hh Hl Hw Hj Hf Hmf] Hwn Hwj Hfin Hnew Hpos Hn ET HQ Hq HA Er Err Em.
  assert (w <> run s) as Hne by (intros ->; congruence).
  assert (Hperm : running s :: flat (<[run s := q']> (<[w := []]> Q)) ≡ₚ t :: running s :: flat Q).
  { rewrite (flat_push _ _ t q) by (by rewrite ?lookup_insert_ne).
    rewrite flat_insert_new by done. apply Permutation_swap. }
  assert (Hsome : forall l, is_Some (Q !! l) -> is_Some (<[run s := q']> (<[w := []]> Q) !! l)).
  { intros l Hl'. by do 2 apply dom_insert_some. }
  assert (Hother : forall x xth, threads s !! x = Some xth -> threads s' !! x = Some xth).
  { intros x xth Ex. rewrite ET, lookup_insert_ne; [done|]. intros <-. by destruct Hnew. }
  split; [|intros x xth Ex _; eauto].
  exists (<[run s := q']> (<[w := []]> Q)). split; try done.
  - rewrite Er, lookup_insert_eq. eauto.
  - by rewrite Er.
  - rewrite Err, Hperm. apply NoDup_cons. split; [|done]. intros Ht.
    destruct (Hk t Ht) as (x & Ex & _). by destruct Hnew.
  - intros x. rewrite Err, Hperm. intros [->|Hx]%elem_of_cons.
    + exists th. by rewrite ET, lookup_insert_eq.
    + destruct (Hk x Hx) as (xth & Ex & ?). exists xth. auto.
  - apply homes_insert; [apply homes_insert; [|by left]|right; by left]. intros l ql El Hql.
    destruct (Hh l ql El Hql) as [->|[(m & lk & Emk & <-)|(x & xth & Ex & Exf & <-)]].
    + by left.
    + right. left. exists m, lk. by rewrite Em.
    + right. right. exists x, xth. auto.
  - intros x (xth & Ex & Exf). rewrite Err, Hperm. rewrite ET in Ex. destruct (decide (t = x)) as [<-|].
    + set_solver.
    + rewrite lookup_insert_ne in Ex by done. apply elem_of_cons. right. apply Hl. by exists xth.
  - intros m l. rewrite Em, Er. intros El. destruct (Hw _ _ El). auto.
  - intros x xth. rewrite ET, Er. destruct (decide (t = x)) as [<-|].
    + rewrite lookup_insert_eq. intros [= <-]. right. rewrite Hwj. split; [|done].
      rewrite lookup_insert_ne, lookup_insert_eq by done. eauto.
    + rewrite lookup_insert_ne by done. intros Ex. destruct (Hj _ _ Ex) as [?|[? ?]]; auto.
  - intros x. rewrite ET. destruct (decide (t = x)) as [<-|]; [done|].
    rewrite lookup_insert_ne by done. intros Hx. specialize (Hf x Hx). lia.
  - intros m. rewrite Em. intros Hm. specialize (Hmf m Hm). lia.
Qed.

Lemma create_inv gc fn a s r s' Q :
  inv_at s Q -> my_pthread_create false gc fn a s = Ret (r, s') -> after s s'.
Proof.
  intros HI E. destruct (i_run _ _ HI) as [q HQ].
  assert (run s <> NULL) as Hrun by (pose proof (i_run_pos _ _ HI); unfold NULL; lia).
  destruct (create_Ret gc fn a s Q q (i_abs _ _ HI) HQ Hrun)
    as (s1 & w & q' & E1 & Hw & Hpos & Hp & _ & HA & ET & _ & ER & ERr & EM & EN & _).
  rewrite E in E1. simplify_eq. destruct (inv_running s Q HI) as (th & Er & _).
  pose proof (i_fresh _ _ HI _ (ex_intro _ th Er)).
  eapply (inv_new_thread s s1 Q w (naddr s)); eauto; [done|done| |lia|lia].
  intros Hx. pose proof (i_fresh _ _ HI _ Hx). lia.
Qed.

Lemma init_inv s r s' Q :
  inv_at s Q -> my_pthread_mutex_init s = Ret (r, s') -> after s s'.
Proof.
  intros HI E. destruct (mutex_init_Ret s Q (i_abs _ _ HI))
    as (s1 & w & E1 & Hw & Hpos & HA & EM & ET & ER & ERr & EN & _).
  rewrite E in E1. simplify_eq.
  eapply (inv_new_queue s); try done; [lia| |].
  - intros m l Em. exists l. split; [|done]. rewrite EM, lookup_insert_ne; [done|].
    intros <-. pose proof (i_mutexes _ _ HI (naddr s) ltac:(eauto)). lia.
  - intros m l'. rewrite EM. destruct (decide (naddr s = m)) as [<-|].
    + rewrite lookup_insert_eq. intros [= <-]. split; [lia|by left].
    + rewrite lookup_insert_ne by done. intros Em. pose proof (i_mutexes _ _ HI m ltac:(eauto)).
      split; [lia|eauto].
Qed.

(** The first [pthread_create] of a program. *)
Lemma first_create_inv gc fn a s r s' :
  q_abs (hp s) ∅ -> threads s = ∅ -> mutexes s = ∅ -> run s = NULL -> 0 < naddr s ->
  my_pthread_create false gc fn a s = Ret (r, s') -> inv s'.
Proof.
  intros HA ET EM Er Hn E. unfold my_pthread_create in E. erewrite bind_Ret in E by done.
  rewrite Er in E. change (NULL =? NULL) with true in E. cbn match in E.
  destruct (initOS_Ret s ∅ HA ET)
    as (s1 & rq & E1 & Hrq & Hpos & HA1 & ER1 & ERr1 & _ & ET1 & EM1 & _ & _ & EN1 & _).
  erewrite bind_Ret in E by apply E1.
  assert (inv_at s1 (<[rq := []]> ∅)) as HI1.
  { split; try done.
    - rewrite ER1, lookup_insert_eq. eauto.
    - by rewrite ER1.
    - rewrite flat_insert_new by done. apply NoDup_singleton.
    - intros t. rewrite flat_insert_new by done. unfold live. rewrite ERr1, ET1.
      intros ->%list_elem_of_singleton. rewrite lookup_singleton_eq. eauto.
    - apply homes_insert; [|by left]. intros l q. by rewrite lookup_empty.
    - intros t (th & Et & _). rewrite ET1 in Et. apply lookup_singleton_Some in Et as [<- _].
      rewrite ERr1. set_solver.
    - intros m l. rewrite EM1, EM. by rewrite lookup_empty.
    - intros t th. rewrite ET1. intros [<- <-]%lookup_singleton_Some. by left.
    - intros t. rewrite ET1. intros [th [<- _]%lookup_singleton_Some]. lia.
    - intros m. rewrite EM1, EM, lookup_empty. by intros []. }
  apply (create_inv gc fn a s1 r s' _ HI1). unfold my_pthread_create.
  erewrite bind_Ret by done. destruct (Z.eqb_spec (run s1) NULL) as [En|].
  { rewrite ER1 in En. unfold NULL in En. lia. }
  by erewrite bind_Ret by done.
Qed.

Lemma first_step_inv gc fn a s s' :
  q_abs (hp s) ∅ -> threads s = ∅ -> mutexes s = ∅ -> run s = NULL -> 0 < naddr s ->
  exec (Create gc fn a) s = Ret (tt, s') -> inv s'.
Proof.
  intros ????? E. cbn [exec] in E. step_inv E. injection E as <-. by eapply first_create_inv.
Qed.

Lemma exec_inv e s s' :
  inv s -> gives_up e s = false -> exec e s = Ret (tt, s') -> after s s'.
Proof.
  intros [Q HI] He E. destruct e; cbn [exec] in E.
  - by eapply interrupt_inv.
  - injection E as <-. by eapply after_same.
  - by eapply advance_inv.
  - step_inv E. injection E as <-. by eapply create_inv.
  - by eapply yield_inv.
  - by apply (exit_inv _ _ _ _ HI He E).
  - by eapply join_inv.
  - step_inv E. injection E as <-. by eapply init_inv.
  - unfold my_pthread_mutex_lock in E. step_inv E. unfold ld_lock in E0. case_match; [|done].
    injection E0 as _ <-. injection E as <-. by eapply after_same.
  - step_inv E. injection E as <-. by eapply unlock_inv.
  - step_inv E. injection E as <-. by eapply destroy_inv.
  - unfold threadRun_end in E. step_inv E. destruct a; [done|]. injection E as <-.
    by apply (threadExit_inv _ _ _ _ _ HI E0).
Qed.

(** Executions in which no call gives up. *)
Inductive good_steps : os H -> list event -> os H -> Prop :=
| good_nil s : good_steps s [] s
| good_cons s e s1 es s2 :
    step e s s1 -> gives_up e s = false -> good_steps s1 es s2 -> good_steps s (e :: es) s2.

Lemma good_steps_inv s es s' : inv s -> good_steps s es s' -> inv s'.
Proof.
  intros HI Hes. induction Hes as [|? ? ? ? ? [_ E] He _ IH]; [done|]. apply IH. by eapply exec_inv.
Qed.

(** A thread that has finished stays as it is. *)
Lemma good_steps_finished s es s' t th :
  inv s -> good_steps s es s' -> threads s !! t = Some th -> finished th = 1 ->
  exists th', threads s' !! t = Some th' /\ finished th' = 1 /\ res th' = res th.
Proof.
  intros HI Hes. revert th. induction Hes as [|s e s1 es s2 [_ E] He _ IH]; intros th Et Ef; [eauto|].
  destruct (exec_inv e s s1 HI He E) as [HI1 Hk]. destruct HI as [Q HQ].
  destruct (Hk t th Et) as (th1 & Et1 & Ef1 & Es1).
  { intros ->. destruct (inv_running s Q HQ) as (x & Ex & Exf). simplify_eq. lia. }
  destruct (IH HI1 th1 Et1) as (th' & ? & ? & ?); [by rewrite Ef1|].
  exists th'. split_and!; [done|done|congruence].
Qed.

(** The event by which a thread ends with the value [v]. *)
Definition ends (e : event) (v : Z) : Prop := e = Exit v \/ e = Return (Some v).

(** Between the end of a thread with the value [v] and a later [join]. *)
Lemma end_later e v s s1 es s2 :
  inv s -> ends e v -> step e s s1 -> gives_up e s = false -> good_steps s1 es s2 -> v <> NULL ->
  exists th', threads s2 !! running s = Some th' /\ finished th' = 1 /\ res th' = Some v.
Proof.
  intros [Q HI] He [_ E] Hg Hes Hv.
  assert (after s s1 /\ exists th', threads s1 !! running s = Some th' /\ finished th' = 1 /\
    (v <> NULL -> res th' = Some v)) as [[HI1 _] (th1 & Et & Ef & Er)].
  { destruct He as [->| ->]; cbn [exec] in E; [by eapply exit_inv|].
    unfold threadRun_end in E. step_inv E. destruct a; [done|]. injection E as <-.
    exact (threadExit_inv _ _ _ _ _ HI E0). }
  destruct (good_steps_finished s1 es s2 _ th1 HI1 Hes Et Ef) as (th' & ? & ? & ?).
  exists th'. split_and!; [done|done|]. by rewrite <- Er.
Qed.

(** Executions can be computed. *)
Fixpoint run_good (es : list event) (s : os H) : option (os H) :=
  match es with
  | [] => Some s
  | e :: es' =>
      if enabled e s && negb (gives_up e s) then
        match exec e s with Ret (_, s') => run_good es' s' | _ => None end
      else None
  end.

Lemma run_good_steps es s s' : run_good es s = Some s' -> good_steps s es s'.
Proof.
  revert s. induction es as [|e es IH]; intros s; simpl.
  - intros [= <-]. constructor.
  - destruct (enabled e s) eqn:En, (gives_up e s) eqn:Ej; simpl; try done.
    destruct (exec e s) as [[[] s1]| | |] eqn:E; try done. intros Hr.
    econstructor; [by split|done|by apply IH].
Qed.

End Inv.

(** The start of a program, with the memory [malloc] hands out for list headers
    zeroed. *)
Lemma boot_inv fr gc fn a (s1 : os LinkedList.heap) :
  (forall x, fr x = LinkedList.mkList NULL NULL 0) ->
  step (Create gc fn a) (boot (heap_of fr)) s1 -> inv s1.
Proof.
  intros Hfr [_ E]. revert E. apply (first_step_inv gc fn a (boot (heap_of fr))); [|done..].
  by apply heap_of_queues.
Qed.

(** ** Theorems *)

(** C1: in every execution that starts with the first [pthread_create], however
    it is interleaved by timer interrupts, as long as no [join] or [exit] finds
    itself without another thread to switch to, and if the list headers that
    [orderByOldest] gets from [malloc] happen to be zeroed: the threads that
    have not finished are exactly the running thread and the threads in the
    queues, none is in two places, every queue with a thread in it is the run
    queue, the wait queue of a mutex that exists or the join queue of a thread
    that has not finished, and all these queues are among those considered. *)
Theorem no_thread_lost fr gc fn a s1 es s :
  (forall x, fr x = LinkedList.mkList NULL NULL 0) ->
  step (Create gc fn a) (boot (heap_of fr)) s1 -> good_steps s1 es s ->
  exists Q, queues (hp s) Q /\ NoDup (running s :: flat Q) /\
    (forall t, live s t <-> t ∈ running s :: flat Q) /\
    (forall l q, Q !! l = Some q -> q <> [] -> home s l) /\
    is_Some (Q !! run s) /\
    (forall m lk, mutexes s !! m = Some lk -> is_Some (Q !! wait lk)) /\
    (forall t th, threads s !! t = Some th -> waitJoin th = NULL \/ is_Some (Q !! waitJoin th)).
Proof.
  intros Hfr E1 Hes. destruct (good_steps_inv s1 es s (boot_inv fr gc fn a s1 Hfr E1) Hes) as [Q HQ].
  exists Q. split_and!; [exact (i_abs _ _ HQ)|apply HQ| |apply HQ|apply HQ| |].
  - intros t. split; [apply (i_live _ _ HQ)|apply (i_known _ _ HQ)].
  - intros m lk Em. by apply (i_wait _ _ HQ m lk).
  - intros t th Et. destruct (i_join _ _ HQ t th Et) as [?|[? _]]; auto.
Qed.

(** Two threads are created, the main thread is preempted by the first, which
    returns a value to the second, and is joined by it; then the main thread
    joins the second one. *)
Definition demo_events : list event :=
  [Create true 11 0; Tick; Advance; Return (Some 5); Advance; Join 7 true; Yield;
   Join 9 false; Advance; Return None; Advance].

Definition demo1 : os LinkedList.heap :=
  match exec (Create true 10 0) (boot heap0) with Ret (_, s) => s | _ => boot heap0 end.
Definition demo2 : os LinkedList.heap := default (boot heap0) (run_good demo_events demo1).

Lemma no_thread_lost_witness :
  joined demo2 = [(9, 5)] /\
  exists Q, queues (hp demo2) Q /\ NoDup (running demo2 :: flat Q) /\
    (forall t, live demo2 t <-> t ∈ running demo2 :: flat Q).
Proof.
  split; [vm_compute; reflexivity|].
  destruct (no_thread_lost zeroed true 10 0 demo1 demo_events demo2) as (Q & HA & Hnd & Hl & _).
  - reflexivity.
  - split; vm_compute; reflexivity.
  - apply run_good_steps. vm_compute. reflexivity.
  - exists Q. split; [exact HA|]. split; [exact Hnd|exact Hl].
Defined.

