(* ===== verification/PthreadMutex.v ===== *)
(** * Mutexes: mutual exclusion

    [my_pthread_mutex_lock] excludes as long as no timer interrupt falls
    between the two memory accesses of [testAndSet], which run with signals
    unblocked. *)

From S2P Require Import Prelude LinkedList LinkedListRep Queues Pthread PthreadSpec PthreadInv.
Import Pthread.

(** ** Who holds what *)

(** The threads between a return of [my_pthread_mutex_lock] and their next
    [my_pthread_mutex_unlock]. *)
Abbreviation holders := (list (Z * Z)).

(** A list of pairs with distinct first components. *)
Lemma NoDup_fst_functional (h : holders) m t1 t2 :
  NoDup h.*1 -> (m, t1) ∈ h -> (m, t2) ∈ h -> t1 = t2.
Proof.
  induction h as [|[m0 t0] h IH]; simpl; [set_solver|].
  intros [Hn Hnd]%NoDup_cons [E1|H1]%elem_of_cons [E2|H2]%elem_of_cons; simplify_eq; try done.
  - exfalso. apply Hn. by apply (list_elem_of_fmap_2 fst h (m0, t2)).
  - exfalso. apply Hn. by apply (list_elem_of_fmap_2 fst h (m0, t1)).
  - auto.
Qed.

Lemma NoDup_fmap_filter (P : Z * Z -> Prop) `{!forall x, Decision (P x)} (h : holders) :
  NoDup h.*1 -> NoDup (filter P h).*1.
Proof.
  induction h as [|x h IH]; [done|]. rewrite fmap_cons. intros [Hn Hnd]%NoDup_cons.
  rewrite filter_cons. case_decide; [|auto]. rewrite fmap_cons. apply NoDup_cons. split; [|auto].
  intros (y & E & [_ Hy]%list_elem_of_filter)%list_elem_of_fmap. apply Hn. rewrite E.
  by apply list_elem_of_fmap_2.
Qed.

Section Ghost.
Context {H : Type} `{QueueOps H}.
Implicit Types (s : os H) (h : holders).

Definition hold (e : event) (s : os H) (h : holders) : holders :=
  match e, cpu s with
  | Advance, LockWrite m v => if v =? 1 then h else (m, running s) :: h
  | Unlock m, _ => filter (fun p => p <> (m, running s)) h
  | _, _ => h
  end.

(** A client unlocks only a mutex it holds and destroys only one nobody
    holds. *)
Definition client_ok (e : event) (s : os H) (h : holders) : bool :=
  match e with
  | Unlock m => bool_decide ((m, running s) ∈ h)
  | Destroy m => bool_decide (m ∉ h.*1)
  | _ => true
  end.

(** No timer interrupt inside [testAndSet]. *)
Definition atomic_ok (e : event) (s : os H) : bool :=
  match e, cpu s with
  | Tick, LockWrite _ _ => false
  | _, _ => true
  end.

(** Executions of well-behaved clients, under a restriction on the timer. *)
Inductive gsteps (timer_ok : event -> os H -> bool) :
  os H -> holders -> list event -> os H -> holders -> Prop :=
| g_nil s h : gsteps timer_ok s h [] s h
| g_cons s h e s1 es s2 h2 :
    step e s s1 -> client_ok e s h = true -> timer_ok e s = true ->
    gsteps timer_ok s1 (hold e s h) es s2 h2 -> gsteps timer_ok s h (e :: es) s2 h2.

Fixpoint run_g (timer_ok : event -> os H -> bool) (es : list event) (s : os H) (h : holders)
    : option (os H * holders) :=
  match es with
  | [] => Some (s, h)
  | e :: es' =>
      if enabled e s && client_ok e s h && timer_ok e s then
        match exec e s with
        | Ret (_, s') => run_g timer_ok es' s' (hold e s h)
        | _ => None
        end
      else None
  end.

Lemma run_g_steps tk es s h s' h' :
  run_g tk es s h = Some (s', h') -> gsteps tk s h es s' h'.
Proof.
  revert s h. induction es as [|e es IH]; intros s h; simpl.
  - intros [= <- <-]. constructor.
  - destruct (enabled e s) eqn:E1, (client_ok e s h) eqn:E2, (tk e s) eqn:E3; simpl; try done.
    destruct (exec e s) as [[[] s1]| | |] eqn:E; try done. intros Hr.
    econstructor; [by split|done|done|by apply IH].
Qed.

(** ** What the operations leave alone *)

Definition in_tas (c : ctx) : Prop := exists m v, c = LockWrite m v.

(** The mutexes are [M], and no context, saved or executing, is inside
    [testAndSet]. *)
Record quiet (M : gmap Z lock) (n : Z) (s : os H) : Prop := {
  qt_mutexes : mutexes s = M;
  qt_naddr : n <= naddr s;
  qt_threads : forall t th, threads s !! t = Some th -> ~ in_tas (context th);
  qt_cpu : ~ in_tas (cpu s)
}.

Lemma quiet_ext M n s s' :
  mutexes s' = mutexes s -> naddr s <= naddr s' -> threads s' = threads s -> cpu s' = cpu s ->
  quiet M n s -> quiet M n s'.
Proof. intros E1 E2 E3 E4 [? ? ? ?]. split; rewrite ?E1, ?E3, ?E4; try done. lia. Qed.

Lemma quiet_modify M n f :
  (forall s, mutexes (f s) = mutexes s) -> (forall s, naddr s <= naddr (f s)) ->
  (forall s, threads (f s) = threads s) -> (forall s, cpu (f s) = cpu s) ->
  hoare (quiet M n) (p_modify f) (fun _ => quiet M n).
Proof. intros. apply hoare_modify. intros s. by apply quiet_ext. Qed.

Lemma quiet_lift {A} M n (m : prog H A) : hoare (quiet M n) (lift m) (fun _ => quiet M n).
Proof.
  intros s a s' HP. unfold lift. destruct (m (hp s)) as [[b h]| | |]; try done.
  intros [= <- <-]. eapply (quiet_ext M n s); simpl; done || lia.
Qed.

Lemma quiet_ld_thread M n t :
  hoare (quiet M n) (ld_thread t) (fun th s => ~ in_tas (context th) /\ quiet M n s).
Proof.
  intros s a s' HP. unfold ld_thread. destruct (threads s !! t) eqn:E; [|done].
  intros [= <- <-]. split; [|done]. by eapply (qt_threads _ _ _ HP).
Qed.

Lemma quiet_st_thread M n t th :
  ~ in_tas (context th) -> hoare (quiet M n) (st_thread t th) (fun _ => quiet M n).
Proof.
  intros Hc. apply hoare_modify. intros s [? ? Ht ?]. split; try done. simpl.
  intros t' th'. destruct (decide (t = t')) as [<-|].
  - rewrite lookup_insert_eq. by intros [= <-].
  - rewrite lookup_insert_ne by done. eauto.
Qed.

Lemma quiet_set_cpu M n c :
  ~ in_tas c -> hoare (quiet M n) (p_modify (set_cpu c)) (fun _ => quiet M n).
Proof. intros Hc. apply hoare_modify. intros s [? ? ? ?]. by split. Qed.

Lemma not_tas_eq c : (forall m v, c <> LockWrite m v) -> ~ in_tas c.
Proof. intros Hc (m & v & E). by eapply Hc. Qed.

(** ** The operations that only schedule *)

Abbreviation still M n m := (hoare (quiet M n) m (fun _ => quiet M n)).

Lemma still_bind {A B} M n (m : prog (os H) A) (k : A -> prog (os H) B) :
  still M n m -> (forall a, still M n (k a)) -> still M n (m ≫= k).
Proof. intros. by eapply hoare_bind. Qed.

Lemma still_ret {A} M n (a : A) : still M n (mret a).
Proof. eapply hoare_conseq; [apply hoare_ret|done|by intros ? ? [_ ?]]. Qed.

Lemma still_get {B} M n (k : os H -> prog (os H) B) :
  (forall s, quiet M n s -> still M n (k s)) -> still M n (p_get ≫= k).
Proof.
  intros Hk s b s' HP (a & s1 & [= <- <-] & E2)%bind_inv. by eapply (Hk s HP).
Qed.

Lemma still_ld_thread {B} M n t (k : sthread -> prog (os H) B) :
  (forall th, ~ in_tas (context th) -> still M n (k th)) -> still M n (ld_thread t ≫= k).
Proof.
  intros Hk. eapply hoare_bind; [apply quiet_ld_thread|].
  intros th. apply hoare_pure. auto.
Qed.

Lemma still_ld_lock {B} M n m (k : lock -> prog (os H) B) :
  (forall l, M !! m = Some l -> still M n (k l)) -> still M n (ld_lock m ≫= k).
Proof.
  intros Hk s b s' HP (l & s1 & E1 & E2)%bind_inv. unfold ld_lock in E1.
  destruct (mutexes s !! m) eqn:E; [|done]. injection E1 as <- <-.
  rewrite (qt_mutexes _ _ _ HP) in E. by eapply Hk.
Qed.

(** One rule per construct, chosen by the head of the computation. *)
Ltac quiet_step :=
  lazymatch goal with
  | |- hoare _ (mret _) _ => apply still_ret
  | |- hoare _ p_fault _ => apply hoare_fault
  | |- hoare _ (p_halt _) _ => apply hoare_halt
  | |- hoare _ p_timeout _ => apply hoare_timeout
  | |- hoare _ (lift _) _ => apply quiet_lift
  | |- hoare _ (p_get ≫= _) _ => apply still_get; intros ? ?
  | |- hoare _ (ld_thread _ ≫= _) _ => apply still_ld_thread; intros ? ?
  | |- hoare _ (ld_lock _ ≫= _) _ => apply still_ld_lock; intros ? ?
  | |- hoare _ (_ ≫= _) _ => apply still_bind; [|intros ?]
  | |- hoare _ (st_thread _ _) _ =>
      apply quiet_st_thread; simpl;
      first [assumption | by apply not_tas_eq | by eapply qt_cpu]
  | |- hoare _ (p_modify (set_cpu _)) _ =>
      apply quiet_set_cpu; first [assumption | by apply not_tas_eq]
  | |- hoare _ (p_modify _) _ =>
      apply quiet_modify; [reflexivity | intros; simpl; lia | reflexivity | reflexivity]
  | |- hoare _ (if ?b then _ else _) _ => destruct b
  | |- hoare _ (match ?o with Some _ => _ | None => _ end) _ => destruct o
  end.

Ltac quiet := repeat quiet_step.

Lemma still_pushOrdered M n o l v : still M n (pushOrdered o l v).
Proof. unfold pushOrdered. quiet. Qed.

Lemma still_virtualMemory M n : still M n virtualMemory.
Proof. unfold virtualMemory, VIRTUAL_MEMORY. quiet. Qed.

Lemma still_setcontext M n : still M n setcontext.
Proof. unfold setcontext. quiet. Qed.

Lemma still_wake_all M n fuel w : still M n (wake_all fuel w).
Proof.
  induction fuel as [|f IH]; cbn [wake_all]; [quiet|].
  quiet; try apply still_pushOrdered; try apply IH.
Qed.

Lemma still_os_alloc M n what : still M n (os_alloc what).
Proof.
  intros s a s' HP. rewrite os_alloc_Ret. intros [= <- <-].
  eapply (quiet_ext M n s); simpl; done || lia.
Qed.

Lemma still_os_alloc_list M n : still M n os_alloc_list.
Proof. unfold os_alloc_list. quiet. Qed.

#[local] Hint Resolve still_pushOrdered still_virtualMemory still_setcontext still_wake_all
  still_os_alloc still_os_alloc_list : os.

Lemma still_threadExit M n v b : still M n (threadExit v b).
Proof. unfold threadExit. quiet; auto with os. Qed.

Lemma still_interrupt M n : still M n interrupt.
Proof. unfold interrupt, scheduler. quiet; auto with os. Qed.

Lemma still_yield M n : still M n my_pthread_yield.
Proof. unfold my_pthread_yield. quiet; auto using still_interrupt with os. Qed.

Lemma still_create M n b gc fn a : still M n (my_pthread_create b gc fn a).
Proof.
  unfold my_pthread_create, initOS, setMyScheduler, createNewThread.
  quiet; auto with os.
Qed.

Lemma still_join_tail M n t vp : still M n (join_tail t vp).
Proof. unfold join_tail. quiet; auto with os. Qed.

Lemma still_join M n t vp : still M n (my_pthread_join t vp).
Proof. unfold my_pthread_join. quiet; auto using still_join_tail with os. Qed.

Lemma still_lock_block M n m : still M n (lock_block m).
Proof. unfold lock_block. quiet; auto with os. Qed.

Lemma still_swapcontext M n old c : ~ in_tas c -> still M n (swapcontext old c).
Proof. intros Hc. unfold swapcontext. quiet; auto with os. Qed.

(** ** The invariant *)

Record excl (s : os H) (h : holders) : Prop := {
  ex_threads : forall t th, threads s !! t = Some th -> ~ in_tas (context th);
  ex_cpu : forall m v, cpu s = LockWrite m v -> exists l, mutexes s !! m = Some l /\ state l = v;
  ex_held : forall m t, (m, t) ∈ h -> exists l, mutexes s !! m = Some l /\ state l = 1;
  ex_one : NoDup h.*1;
  ex_fresh : forall m, is_Some (mutexes s !! m) -> m < naddr s
}.

Lemma excl_quiet s h : excl s h -> ~ in_tas (cpu s) -> quiet (mutexes s) (naddr s) s.
Proof. intros [? ? ? ? ?] Hc. by split. Qed.

Lemma quiet_excl s s' h : excl s h -> quiet (mutexes s) (naddr s) s' -> excl s' h.
Proof.
  intros [H1 H2 H3 H4 H5] [E1 E2 E3 E4]. split; try done.
  - intros m v E. exfalso. apply E4. by exists m, v.
  - rewrite E1. done.
  - rewrite E1. intros m Hm. specialize (H5 m Hm). lia.
Qed.

Lemma excl_still (m : prog (os H) unit) s s' h :
  (forall M n, still M n m) -> excl s h -> ~ in_tas (cpu s) -> m s = Ret (tt, s') -> excl s' h.
Proof. intros Hm Hx Hc E. eapply quiet_excl; [done|]. eapply Hm; [|exact E]. by eapply excl_quiet. Qed.

Lemma user_not_tas s : cpu s = User -> ~ in_tas (cpu s).
Proof. intros ->. by apply not_tas_eq. Qed.

Lemma tas_read_excl m s s' h :
  excl s h -> testAndSet_read m s = Ret (tt, s') -> excl s' h.
Proof.
  intros [H1 H2 H3 H4 H5] E. unfold testAndSet_read in E. step_inv E. unfold ld_lock in E0.
  destruct (mutexes s !! m) as [l|] eqn:Em; [|done]. injection E0 as -> <-. injection E as <-.
  split; try done. simpl. intros m' v [= <- <-]. eauto.
Qed.

Lemma tas_write_excl m v s s' h :
  excl s h -> cpu s = LockWrite m v -> testAndSet_write m v s = Ret (tt, s') ->
  excl s' (if v =? 1 then h else (m, running s) :: h).
Proof.
  intros [H1 H2 H3 H4 H5] Ec E. destruct (H2 _ _ Ec) as (l & Em & Ev).
  unfold testAndSet_write in E. erewrite bind_Ret in E by (by apply ld_lock_Ret).
  erewrite bind_Ret in E by done. injection E as <-.
  assert (Hheld : forall m' l', mutexes s !! m' = Some l' -> state l' = 1 ->
    exists l'', <[m := mkLock 1 (wait l)]> (mutexes s) !! m' = Some l'' /\ state l'' = 1).
  { intros m' l' Em' Es. destruct (decide (m = m')) as [<-|].
    - rewrite lookup_insert_eq. eauto.
    - rewrite lookup_insert_ne by done. eauto. }
  split; simpl; try done.
  - intros m' v'. by destruct (v =? 1).
  - intros m' t'. destruct (Z.eqb_spec v 1) as [E1|E1].
    + intros Hin. destruct (H3 _ _ Hin) as (l' & ? & ?). eauto.
    + intros [[= -> ->]|Hin]%elem_of_cons; [rewrite lookup_insert_eq; eauto|].
      destruct (H3 _ _ Hin) as (l' & ? & ?). eauto.
  - destruct (Z.eqb_spec v 1) as [E1|E1]; [done|]. simpl. apply NoDup_cons. split; [|done].
    intros ([m0 t0] & -> & Hin)%list_elem_of_fmap. destruct (H3 _ _ Hin) as (l' & El & Es).
    simpl in *. congruence.
  - intros m' [l' El]. apply H5. destruct (decide (m = m')) as [<-|]; [eauto|].
    rewrite lookup_insert_ne in El by done. eauto.
Qed.

Lemma advance_excl s s' h :
  excl s h -> advance s = Ret (tt, s') -> excl s' (hold Advance s h).
Proof.
  intros Hx E. unfold advance in E. erewrite bind_Ret in E by done. unfold hold.
  destruct (cpu s) eqn:Ec; try done;
    try (assert (~ in_tas (cpu s)) as Hn by (rewrite Ec; by apply not_tas_eq)).
  - injection E as <-. eapply quiet_excl; [done|].
    destruct (excl_quiet s h Hx Hn) as [? ? ? ?]. split; try done. by apply not_tas_eq.
  - by eapply tas_read_excl.
  - by eapply tas_write_excl.
  - by eapply (excl_still (lock_block m)); [intros; apply still_lock_block|..].
  - eapply (excl_still (swapcontext old (LockRead m))); eauto.
    intros. by apply still_swapcontext, not_tas_eq.
  - eapply (excl_still (swapcontext old (JoinTail t vp))); eauto.
    intros. by apply still_swapcontext, not_tas_eq.
  - by eapply (excl_still (join_tail t vp)); [intros; apply still_join_tail|..].
  - by eapply (excl_still setcontext); [intros; apply still_setcontext|..].
Qed.

Lemma unlock_excl m s s' h :
  excl s h -> cpu s = User -> (m, running s) ∈ h ->
  (my_pthread_mutex_unlock m;; mret tt) s = Ret (tt, s') ->
  excl s' (filter (fun p => p <> (m, running s)) h).
Proof.
  intros Hx Hu Hin E. pose proof (excl_quiet s h Hx (user_not_tas s Hu)) as HP.
  step_inv E. injection E as <-. unfold my_pthread_mutex_unlock in E0. step_inv E0.
  unfold ld_lock in E. destruct (mutexes s !! m) as [l|] eqn:Em; [|done].
  injection E as -> <-. step_inv E0. step_inv E0. erewrite bind_Ret in E0 by done.
  injection E0 as _ <-.
  assert (quiet (mutexes s) (naddr s) s2) as [Q1 Q2 Q3 Q4].
  { assert (still (mutexes s) (naddr s)
      (if (a1 : bool) then mret tt
       else t ← lift (q_pop (wait a0)); s ← p_get; pushOrdered 0 (run s) t)) as Hst
      by (quiet; apply still_pushOrdered).
    eapply Hst; [|exact E1]. by eapply (quiet_lift _ _ _ s). }
  destruct Hx as [H1 H2 H3 H4 H5]. split; simpl; try done.
  - intros m' v' Ec. exfalso. apply Q4. by exists m', v'.
  - intros m' t' [Hne Hh]%list_elem_of_filter. rewrite Q1.
    destruct (decide (m = m')) as [<-|]; [|rewrite lookup_insert_ne by done; eauto].
    exfalso. apply Hne. f_equal.
    apply (NoDup_fst_functional h m); try done.
  - by apply NoDup_fmap_filter.
  - rewrite Q1. intros m' [l' El]. enough (m' < naddr s) by lia. apply H5.
    destruct (decide (m = m')) as [<-|]; [eauto|]. rewrite lookup_insert_ne in El by done. eauto.
Qed.

Lemma destroy_excl m s s' h :
  excl s h -> cpu s = User -> m ∉ h.*1 ->
  (my_pthread_mutex_destroy m;; mret tt) s = Ret (tt, s') -> excl s' h.
Proof.
  intros Hx Hu Hnot E. pose proof (excl_quiet s h Hx (user_not_tas s Hu)) as HP.
  step_inv E. injection E as <-. unfold my_pthread_mutex_destroy in E0. step_inv E0.
  unfold ld_lock in E. destruct (mutexes s !! m) as [l|] eqn:Em; [|done].
  injection E as -> <-. erewrite bind_Ret in E0 by done. step_inv E0.
  do 5 erewrite bind_Ret in E0 by done. injection E0 as _ <-.
  destruct (still_wake_all _ _ _ _ _ _ _ HP E) as [Q1 Q2 Q3 Q4].
  destruct Hx as [H1 H2 H3 H4 H5]. split; simpl; try done.
  - intros m' v' Ec. exfalso. apply Q4. by exists m', v'.
  - intros m' t' Hh. assert (m <> m') as Hne.
    { intros <-. apply Hnot. by apply (list_elem_of_fmap_2 fst h (m, t')). }
    rewrite lookup_delete_ne, lookup_insert_ne, Q1 by done. eauto.
  - intros m' [l' [Hne El]%lookup_delete_Some]. rewrite lookup_insert_ne, Q1 in El by done.
    specialize (H5 m' ltac:(eauto)). lia.
Qed.

Lemma init_excl s s' h :
  excl s h -> cpu s = User -> (my_pthread_mutex_init;; mret tt) s = Ret (tt, s') -> excl s' h.
Proof.
  intros Hx Hu E. pose proof (excl_quiet s h Hx (user_not_tas s Hu)) as HP.
  step_inv E. injection E as <-. unfold my_pthread_mutex_init in E0.
  rewrite (bind_Ret _ _ _ _ _ (os_alloc_Ret OLock s)) in E0. step_inv E0.
  erewrite bind_Ret in E0 by done. injection E0 as _ <-.
  assert (quiet (mutexes s) (naddr s + 1)
            (set_naddr (naddr s + 1) (add_vmlog (OsAlloc OLock) s))) as HP1
    by (destruct HP as [? ? ? ?]; by split).
  destruct (still_os_alloc_list _ _ _ _ _ HP1 E) as [Q1 Q2 Q3 Q4].
  destruct Hx as [H1 H2 H3 H4 H5]. split; simpl; try done.
  - intros m' v' Ec. exfalso. apply Q4. by exists m', v'.
  - intros m' t' Hh. destruct (H3 _ _ Hh) as (l & El & Es).
    pose proof (H5 m' ltac:(eauto)). rewrite lookup_insert_ne, Q1 by lia. eauto.
  - intros m' [l' El]. destruct (decide (naddr s = m')) as [<-|]; [lia|].
    rewrite lookup_insert_ne, Q1 in El by done. specialize (H5 m' ltac:(eauto)). lia.
Qed.

Lemma exec_excl e s s' h :
  excl s h -> step e s s' -> client_ok e s h = true -> atomic_ok e s = true ->
  excl s' (hold e s h).
Proof.
  intros Hx [En E] Hc Ha. destruct e; cbn [exec enabled client_ok atomic_ok] in *.
  - assert (hold Tick s h = h) as -> by (unfold hold; by destruct (cpu s)).
    eapply (excl_still interrupt); eauto; [intros; apply still_interrupt|].
    intros (m & v & Ec). by rewrite Ec in Ha.
  - injection E as <-. assert (hold (Clock now) s h = h) as -> by (unfold hold; by destruct (cpu s)).
    by destruct Hx.
  - by apply advance_excl.
  - apply bool_decide_eq_true_1 in En. eapply (excl_still _ s s' h); eauto using user_not_tas.
    intros. apply still_bind; [apply still_create|intros; apply still_ret].
  - apply bool_decide_eq_true_1 in En. eapply (excl_still _ s s' h); eauto using user_not_tas.
    intros; apply still_yield.
  - apply bool_decide_eq_true_1 in En. eapply (excl_still _ s s' h); eauto using user_not_tas.
    intros. apply still_bind; [apply still_threadExit|intros; apply still_ret].
  - apply bool_decide_eq_true_1 in En. eapply (excl_still _ s s' h); eauto using user_not_tas.
    intros; apply still_join.
  - apply bool_decide_eq_true_1 in En. by eapply init_excl.
  - apply bool_decide_eq_true_1 in En. eapply (excl_still _ s s' h); eauto using user_not_tas.
    intros. unfold my_pthread_mutex_lock. quiet.
  - apply bool_decide_eq_true_1 in En, Hc. by apply unlock_excl.
  - apply bool_decide_eq_true_1 in En, Hc. by eapply destroy_excl.
  - apply bool_decide_eq_true_1 in En. eapply (excl_still _ s s' h); eauto using user_not_tas.
    intros. unfold threadRun_end. quiet. apply still_threadExit.
Qed.

Lemma boot_excl (h : H) : excl (boot h) [].
Proof.
  split; simpl; try done.
  - intros m t Hin. by apply not_elem_of_nil in Hin.
  - constructor.
  - intros m. rewrite lookup_empty. by intros [].
Qed.

End Ghost.

(** ** Theorems *)

(** C2: mutual exclusion: in every execution from the start of the program in
    which clients unlock only what they hold and no timer interrupt falls
    between the read and the write of [testAndSet], at most one thread is
    between lock and unlock of each mutex, and the state of a held mutex is
    1. *)
Theorem mutual_exclusion {H} `{QueueOps H} (q0 : H) es (s : os H) h :
  gsteps atomic_ok (boot q0) [] es s h ->
  (forall m t1 t2, (m, t1) ∈ h -> (m, t2) ∈ h -> t1 = t2) /\
  (forall m t, (m, t) ∈ h -> exists l, mutexes s !! m = Some l /\ state l = 1).
Proof.
  intros Hg. pose proof (boot_excl q0) as Hx. revert Hx Hg.
  generalize (boot q0) as s0. generalize (@nil (Z * Z)) as h0. intros h0 s0 Hx Hg.
  assert (excl s h) as [_ _ H3 H4 _].
  { induction Hg as [|s0 h0 e s1 es s2 h2 Hs Hc Ha _ IH]; [done|]. apply IH.
    by eapply exec_excl. }
  split; [|done]. intros m t1 t2. by apply NoDup_fst_functional.
Qed.

(** The main thread creates a thread and a mutex, locks it and is preempted by
    the thread, which finds the mutex locked and blocks; the main thread
    unlocks and yields, and the thread gets the mutex. *)
Definition lock_events : list event :=
  [Create true 10 0; Init; Lock 9; Advance; Advance; Tick; Advance; Lock 9; Advance; Advance;
   Advance; Advance; Unlock 9; Yield; Advance; Advance].

Definition lock_end : os LinkedList.heap * holders :=
  default (boot heap0, []) (run_g atomic_ok lock_events (boot heap0) []).

Lemma mutual_exclusion_witness :
  lock_end.2 = [(9, 7)] /\
  (forall m t1 t2, (m, t1) ∈ lock_end.2 -> (m, t2) ∈ lock_end.2 -> t1 = t2) /\
  (forall m t, (m, t) ∈ lock_end.2 ->
     exists l, mutexes lock_end.1 !! m = Some l /\ state l = 1).
Proof.
  split; [vm_compute; reflexivity|].
  apply (mutual_exclusion heap0 lock_events lock_end.1 lock_end.2).
  apply run_g_steps. vm_compute. reflexivity.
Defined.
