(* ===== verification/PthreadThms.v ===== *)
(** * User-level threads: what the calls do

    The functional behaviour of the scheduler, of creation, exit and join and
    of the mutex calls, against the queue interface, with the cases in which
    the code leaves defined behaviour. *)

From S2P Require Import Prelude LinkedList LinkedListRep Queues Pthread PthreadSpec PthreadInv.
Import Pthread.

(** ** States for the examples *)

(** The machine over plain queues, at the start and after the main thread
    created one and two threads (handles 7 and 9). *)
Definition start : os plain := boot (∅, 1).
Definition run_or (es : list event) (s : os plain) : os plain := default s (run_events es s).
Definition two : os plain := run_or [Create true 10 0] start.
Definition three : os plain := run_or [Create true 10 0; Create true 11 0] start.

(** The queues of a state over plain queues. *)
Definition qs (s : os plain) : gmap Z (list Z) := (hp s).1.

Lemma qs_abs (s : os plain) :
  bool_decide (0 < (hp s).2 /\ map_Forall (fun l _ => 0 < l < (hp s).2) (hp s).1) = true ->
  q_abs (hp s) (qs s).
Proof. intros [??]%bool_decide_eq_true. by split_and!. Qed.

Ltac plain_state := apply qs_abs; vm_compute; reflexivity.

(** ** Theorems *)

Section Thms.
Context {H : Type} `{QueueLaws H}.
Implicit Types (s : os H) (Q : gmap Z (list Z)).

(** C25: a timer interrupt that finds another thread in the run queue saves
    the interrupted context, charges the interrupted thread one priority unit,
    puts it back in the run queue and continues the first thread of the queue
    where it was; the memory manager is told to protect the pages. *)
Theorem tick_switches s Q t q th tht :
  q_abs (hp s) Q -> Q !! run s = Some (t :: q) ->
  threads s !! running s = Some th -> threads s !! t = Some tht -> t <> running s ->
  exists s' q', exec Tick s = Ret (tt, s') /\
    running s' = t /\ cpu s' = context tht /\
    q' ≡ₚ running s :: q /\ q_abs (hp s') (<[run s := q']> Q) /\
    threads s' !! running s = Some (upd_priority (wrapu 32 (priority th + 1))
                                      (upd_context (cpu s) th)) /\
    (forall u, u <> running s -> threads s' !! u = threads s !! u) /\
    vmlog s' = vmlog s ++ [UpdateReference; MemoryProtect (id th)].
Proof.
  intros HA HQ Er Et Hne.
  destruct (interrupt_Ret s Q t q th tht) as (s' & q' & E & Er' & Ec & Hp & HA' & ET & Hrest);
    [done..|]. destr_ands.
  exists s', q'. rewrite ET. split_and!; try done.
  - by rewrite lookup_insert_eq.
  - intros u Hu. by rewrite lookup_insert_ne.
Qed.

(** Preemption is transparent: with two threads, two timer interrupts
    bring the first thread back, at the very place where it was interrupted,
    whatever the other thread's context was. *)
Theorem tick_tick_resumes s Q t th tht :
  q_abs (hp s) Q -> Q !! run s = Some [t] ->
  threads s !! running s = Some th -> threads s !! t = Some tht -> t <> running s ->
  exists s1 s2, exec Tick s = Ret (tt, s1) /\ exec Tick s1 = Ret (tt, s2) /\
    running s1 = t /\ running s2 = running s /\ cpu s2 = cpu s /\
    q_abs (hp s2) Q /\ mutexes s2 = mutexes s.
Proof.
  intros HA HQ Er Et Hne.
  destruct (interrupt_Ret s Q t [] th tht)
    as (s1 & q1 & E1 & Er1 & Ec1 & Hp1 & HA1 & ET1 & EQ1 & EM1 & _); [done..|].
  apply Permutation_singleton_r in Hp1 as ->.
  destruct (interrupt_Ret s1 (<[run s := [running s]]> Q) (running s) [] tht
              (upd_priority (wrapu 32 (priority th + 1)) (upd_context (cpu s) th)))
    as (s2 & q2 & E2 & Er2 & Ec2 & Hp2 & HA2 & _ & EQ2 & EM2 & _); [done|..].
  - by rewrite EQ1, lookup_insert_eq.
  - by rewrite ET1, Er1, lookup_insert_ne.
  - by rewrite ET1, lookup_insert_eq.
  - by rewrite Er1.
  - apply Permutation_singleton_r in Hp2 as ->.
    exists s1, s2. split_and!; try done; [|by rewrite EM2].
    rewrite Er1, EQ1, insert_insert_eq, insert_id in HA2; done.
Qed.

(** C27: [my_pthread_create] returns 0 and a fresh handle; the new thread has
    its own id, priority 0, the time of its creation and an empty join queue,
    is queued behind the head of the run queue, and the caller goes on. *)
Theorem create_schedules fn a s Q q :
  q_abs (hp s) Q -> Q !! run s = Some q -> run s <> NULL ->
  exists s' t w q', my_pthread_create false true fn a s = Ret ((Some t, 0), s') /\
    threads s' !! t = Some (mkThread (wraps 32 (nextId s)) 0 (clock s) Entry fn a None 0 w) /\
    Q !! w = None /\ w <> run s' /\ q' ≡ₚ t :: q /\
    (forall x, list.head q = Some x -> list.head q' = Some x) /\
    q_abs (hp s') (<[run s' := q']> (<[w := []]> Q)) /\
    nextId s' = wrapu 32 (nextId s + 1) /\ running s' = running s /\ cpu s' = cpu s.
Proof.
  intros HA HQ Hr.
  destruct (create_Ret true fn a s Q q HA HQ Hr) as (s' & w & q' & E & Hw & ? & Hp & Hh & HA' & ET
    & EI & ER & ?). destr_ands.
  exists s', (naddr s), w, q'. rewrite ET, ER, lookup_insert_eq. split_and!; try done.
  intros ->. congruence.
Qed.

(** C26: the end of a thread marks it finished, keeps its result unless that is
    NULL, empties its join queue into the run queue, by the order of insertion,
    and continues the thread that is then first: the first thread of the run
    queue, or the first joiner when the run queue was empty; the exited thread is
    in no queue of the result. *)
Theorem exit_wakes_joiners r s Q th ws q :
  q_abs (hp s) Q -> threads s !! running s = Some th ->
  Q !! waitJoin th = Some ws -> Q !! run s = Some q -> waitJoin th <> run s ->
  NoDup ws -> (forall t, t ∈ ws ++ q -> is_Some (threads s !! t)) ->
  running s ∉ ws ++ q -> ws ++ q <> [] ->
  exists s' t q' th' tht, exec (Return r) s = Ret (tt, s') /\
    threads s' !! running s = Some th' /\ finished th' = 1 /\
    res th' = (if default NULL r =? NULL then res th else r) /\
    woken (getPriority s) ws q = t :: q' /\ list.head (q ++ ws) = Some t /\
    running s' = t /\ threads s !! t = Some tht /\ cpu s' = context tht /\
    q_abs (hp s') (<[run s := q']> (<[waitJoin th := []]> Q)).
Proof.
  intros HA E HW HR Hne Hnd Hin Hout Hnn.
  destruct (threadExit_Ret (default NULL r) true s Q th ws q)
    as (s' & t & q' & tht & E1 & Hwk & Er & Et & Ec & ET & HA' & _); try done.
  pose proof (woken_first (getPriority s) ws q) as Hh. rewrite Hwk in Hh.
  exists s', t, q', (exited (default NULL r) th), tht. rewrite ET, lookup_insert_eq. split_and!; try done.
  - cbn [exec]. unfold threadRun_end. by erewrite bind_Ret by apply E1.
  - apply exited_fields.
  - unfold exited. destruct r as [r|]; simpl; [by destruct (r =? NULL)|done].
Qed.

(** [my_pthread_join] on a thread that finished with a value. *)
Lemma join_finished s t th v :
  threads s !! t = Some th -> finished th = 1 -> res th = Some v ->
  exists s', exec (Join t true) s = Ret (tt, s') /\ joined s' = joined s ++ [(running s, v)] /\
    running s' = running s /\ threads s' = threads s /\ hp s' = hp s.
Proof.
  intros Et Ef Er. cbn [exec]. unfold my_pthread_join.
  erewrite bind_Ret by (apply ld_thread_Ret, Et). rewrite Ef.
  change (1 =? 0) with false. cbn match. unfold join_tail.
  erewrite bind_Ret by (apply ld_thread_Ret, Et). erewrite bind_Ret by done.
  rewrite Er. erewrite bind_Ret by done. eexists. split_and!; reflexivity.
Qed.

(** C28: the value other than NULL a thread ends with, by [my_pthread_exit] or by
    returning, is the value [my_pthread_join] stores, for every caller and at
    every later point of an execution (in which no call gives up for want of
    another thread): no step in between changes it. *)
Theorem exit_join_value h0 gc fn a s0 es0 s e v s1 es s2 :
  q_abs h0 ∅ -> step (Create gc fn a) (boot h0) s0 -> good_steps s0 es0 s ->
  ends e v -> v <> NULL -> step e s s1 -> gives_up e s = false -> good_steps s1 es s2 ->
  cpu s2 = User ->
  exists s3, step (Join (running s) true) s2 s3 /\
    joined s3 = joined s2 ++ [(running s2, v)] /\ running s3 = running s2 /\
    threads s3 = threads s2 /\ hp s3 = hp s2.
Proof.
  intros HA0 [_ E0] Hes0 He Hv E Hg Hes Hc.
  assert (inv s) as HI.
  { eapply good_steps_inv; [|done]. by eapply (first_step_inv gc fn a (boot h0)). }
  destruct (end_later e v s s1 es s2 HI He E Hg Hes Hv) as (th & Et & Ef & Er).
  destruct (join_finished s2 (running s) th v Et Ef Er) as (s3 & E3 & Hrest).
  exists s3. split; [|done]. split; [|done]. simpl. by rewrite bool_decide_true.
Qed.

(** C29: [my_pthread_mutex_unlock] returns 0, makes the mutex free and, when
    threads wait for it, moves exactly the first of them to the run queue; it
    keeps the caller running. *)
Theorem unlock_wakes_first s Q m l ws q :
  q_abs (hp s) Q -> mutexes s !! m = Some l -> Q !! wait l = Some ws -> Q !! run s = Some q ->
  wait l <> run s ->
  exists s' q', my_pthread_mutex_unlock m s = Ret (0, s') /\
    mutexes s' = <[m := mkLock 0 (wait l)]> (mutexes s) /\
    q' ≡ₚ take 1 ws ++ q /\ (forall x, list.head q = Some x -> list.head q' = Some x) /\
    q_abs (hp s') (<[run s := q']> (<[wait l := drop 1 ws]> Q)) /\
    running s' = running s /\ cpu s' = cpu s /\ threads s' = threads s.
Proof.
  intros HA E HW HR Hne. destruct (unlock_Ret s Q m l ws q) as (h & q' & E1 & Hp & Hh & HA');
    [done..|]. eexists _, q'. split_and!; [exact E1|done..].
Qed.

(** a thread that finds the mutex locked queues up at the end of the
    mutex's waiters, leaves the run queue to its first thread, and the later
    switch saves a context that will test the mutex again. *)
Theorem lock_waits s Q m l ws t q th tht :
  q_abs (hp s) Q -> mutexes s !! m = Some l -> state l = 1 ->
  Q !! wait l = Some ws -> Q !! run s = Some (t :: q) -> wait l <> run s ->
  threads s !! running s = Some th -> threads s !! t = Some tht -> t <> running s ->
  cpu s = LockBlock m ->
  exists s1 s2, exec Advance s = Ret (tt, s1) /\ exec Advance s1 = Ret (tt, s2) /\
    running s2 = t /\ cpu s2 = context tht /\
    q_abs (hp s2) (<[run s := q]> (<[wait l := ws ++ [running s]]> Q)) /\
    threads s2 = <[running s := upd_context (LockRead m) th]> (threads s).
Proof.
  intros HA E E1 HW HR Hne Er Et Hne' Hc.
  destruct (lock_block_Ret s Q m l ws t q th)
    as (s1 & Eb & Er1 & Ec1 & HA1 & ET1 & _); [done..|].
  exists s1. cbn [exec]. unfold advance at 1. erewrite bind_Ret by done. rewrite Hc.
  unfold advance at 1. erewrite (bind_Ret p_get) by done. rewrite Ec1. unfold swapcontext.
  erewrite bind_Ret by (apply ld_thread_Ret; by rewrite ET1). erewrite bind_Ret by done.
  erewrite setcontext_Ret by (simpl; by rewrite Er1, ET1, lookup_insert_ne).
  eexists. split_and!; [done|reflexivity|done..|]. simpl. by rewrite ET1.
Qed.

(** locking a locked mutex when no other thread can run (a thread locking
    twice, say) dereferences the head of an empty run queue instead of
    reporting the deadlock. *)
Theorem lock_deadlock_faults s Q m l ws th :
  q_abs (hp s) Q -> mutexes s !! m = Some l -> state l = 1 ->
  Q !! wait l = Some ws -> Q !! run s = Some [] -> wait l <> run s ->
  threads s !! running s = Some th -> cpu s = LockBlock m ->
  exec Advance s = Fault.
Proof.
  intros HA E E1 HW HR Hne Er Hc. cbn [exec]. unfold advance. erewrite bind_Ret by done.
  rewrite Hc. by eapply lock_block_fault.
Qed.

(** [my_pthread_join] returns to its caller although the thread it waits
    for has not finished, when the run queue is empty (every other thread
    waits, for a mutex say); the library's own run queue and main thread are
    freed on the way. *)
Theorem join_returns_early s Q t th tht ws :
  q_abs (hp s) Q -> threads s !! t = Some tht -> finished tht = 0 ->
  threads s !! running s = Some th ->
  Q !! waitJoin tht = Some ws -> Q !! run s = Some [] -> waitJoin tht <> run s ->
  exists s', exec (Join t false) s = Ret (tt, s') /\ cpu s' = User /\
    running s' = running s /\ threads s' !! t = Some tht /\ finished tht = 0 /\
    vmlog s' = vmlog s ++ [OsFree (run s); OsFree (mainThread s); OsFree (running s)].
Proof.
  intros HA Et Ef Er HW HR Hne. cbn [exec]. unfold my_pthread_join.
  erewrite bind_Ret by (apply ld_thread_Ret, Et). rewrite Ef. change (0 =? 0) with true.
  cbn match. erewrite bind_Ret by done.
  destruct (pushOrdered_Ret s Q (waitJoin tht) (running s) ws HA HW) as (h1 & EP & HA1).
  erewrite bind_Ret by apply EP.
  erewrite bind_Ret by (apply lift_Ret; eapply q_empty_nil; [exact HA1|by rewrite lookup_insert_ne]).
  cbn match. do 3 erewrite bind_Ret by done. unfold join_tail.
  erewrite bind_Ret by (apply ld_thread_Ret, Et). do 2 erewrite bind_Ret by done.
  eexists. split_and!; [reflexivity|done..|]. simpl. by rewrite <- !app_assoc.
Qed.

End Thms.

(** [my_pthread_join] with a place for the result crashes on a thread
    that exited with NULL, since its [res] pointer was never set. *)
Theorem join_null_result_faults {H} `{QueueOps H} (s : os H) t th :
  threads s !! t = Some th -> finished th = 1 -> res th = None -> exec (Join t true) s = Fault.
Proof.
  intros E Ef Er. cbn [exec]. unfold my_pthread_join, join_tail.
  erewrite bind_Ret by (apply ld_thread_Ret, E). rewrite Ef. change (1 =? 0) with false.
  cbn match. erewrite bind_Ret by (apply ld_thread_Ret, E). erewrite bind_Ret by done.
  rewrite Er. by apply bind_Fault.
Qed.

(** [my_pthread_exit] from the main thread crashes: [initOS] gives the
    main thread no join queue, and [threadExit] looks into it. *)
Theorem main_exit_faults gc fn a v :
  exists s, exec (Create gc fn a) (boot heap0) = Ret (tt, s) /\ running s = mainThread s /\
    exec (Exit v) s = Fault.
Proof.
  destruct gc, v; (eexists; split; [vm_compute; reflexivity|]);
    (split; [reflexivity|vm_compute; reflexivity]).
Qed.

(** ** The theorems at work *)

Lemma tick_switches_witness :
  exists s' q', exec Tick three = Ret (tt, s') /\ running s' = 7 /\ cpu s' = Entry /\
    q' ≡ₚ [2; 9].
Proof.
  destruct (tick_switches three (qs three) 7 [9]
              (mkThread 1 0 0 Unset 0 0 None 0 0) (mkThread 2 0 0 Entry 10 0 None 0 2))
    as (s' & q' & E & Er & Ec & Hp & _).
  - plain_state.
  - vm_compute; reflexivity.
  - vm_compute; reflexivity.
  - vm_compute; reflexivity.
  - vm_compute; discriminate.
  - exists s', q'. split_and!; [exact E|exact Er|exact Ec|exact Hp].
Defined.

Lemma tick_tick_resumes_witness :
  exists s1 s2, exec Tick two = Ret (tt, s1) /\ exec Tick s1 = Ret (tt, s2) /\
    running s1 = 7 /\ running s2 = 2 /\ cpu s2 = User.
Proof.
  destruct (tick_tick_resumes two (qs two) 7
              (mkThread 1 0 0 Unset 0 0 None 0 0) (mkThread 2 0 0 Entry 10 0 None 0 2))
    as (s1 & s2 & E1 & E2 & Er1 & Er2 & Ec & _).
  - plain_state.
  - vm_compute; reflexivity.
  - vm_compute; reflexivity.
  - vm_compute; reflexivity.
  - vm_compute; discriminate.
  - exists s1, s2. split_and!; [exact E1|exact E2|exact Er1|exact Er2|exact Ec].
Defined.

Lemma create_schedules_witness :
  exists s' t, my_pthread_create false true 11 5 two = Ret ((Some t, 0), s') /\
    (exists w, threads s' !! t = Some (mkThread 3 0 0 Entry 11 5 None 0 w)) /\
    running s' = 2.
Proof.
  destruct (create_schedules 11 5 two (qs two) [7]) as (s' & t & w & q' & E & ET & Hrest).
  - plain_state.
  - vm_compute; reflexivity.
  - vm_compute; discriminate.
  - exists s', t. split_and!; [exact E|exists w; exact ET|apply Hrest].
Defined.

(** Thread 7 runs, thread 9 having joined it; the main thread is ready. *)
Definition joining : os plain := run_or [Tick; Tick; Advance; Join 7 true; Advance; Tick; Advance] three.

Lemma exit_wakes_joiners_witness :
  exists s' th', exec (Return (Some 5)) joining = Ret (tt, s') /\
    threads s' !! 7 = Some th' /\ finished th' = 1 /\ res th' = Some 5 /\ running s' = 2.
Proof.
  destruct (exit_wakes_joiners (Some 5) joining (qs joining)
              (default (mkThread 0 0 0 Unset 0 0 None 0 0) (threads joining !! 7))
              (default [] (qs joining !! 2)) (default [] (qs joining !! 1)))
    as (s' & t & q' & th' & tht & E & ET & Ef & Hr & _ & Hh & Er & _).
  - plain_state.
  - vm_compute; reflexivity.
  - vm_compute; reflexivity.
  - vm_compute; reflexivity.
  - vm_compute; discriminate.
  - apply (bool_decide_unpack _). vm_compute. exact I.
  - intros t Ht. revert t Ht. apply Forall_forall, (bool_decide_unpack _). vm_compute. exact I.
  - apply (bool_decide_unpack _). vm_compute. exact I.
  - apply (bool_decide_unpack _). vm_compute. exact I.
  - exists s', th'. split; [exact E|]. split; [exact ET|]. split; [exact Ef|]. split; [exact Hr|].
    rewrite Er. vm_compute in Hh. injection Hh as <-. reflexivity.
Defined.

(** Thread 7 returned 5 to thread 9, which goes on in its join; the main thread
    runs in between. *)
Definition joining_events : list event :=
  [Create true 11 0; Tick; Tick; Advance; Join 7 true; Advance; Tick; Advance].
Definition joining_heap : os plain := default two (run_good joining_events two).
Definition returned : os plain := run_or [Return (Some 5)] joining_heap.
Definition later : os plain := run_or [Tick; Advance; Tick] returned.

Lemma exit_join_value_witness :
  exists s3, step (Join 7 true) later s3 /\ joined s3 = [(9, 5); (2, 5)].
Proof.
  destruct (exit_join_value (∅, 1) true 10 0 two joining_events joining_heap (Return (Some 5)) 5
              returned [Tick; Advance; Tick] later) as (s3 & E & Ej & _).
  - by split_and!.
  - split; vm_compute; reflexivity.
  - apply run_good_steps. vm_compute. reflexivity.
  - by right.
  - discriminate.
  - split; vm_compute; reflexivity.
  - vm_compute. reflexivity.
  - apply run_good_steps. vm_compute. reflexivity.
  - vm_compute. reflexivity.
  - exists s3. split; [exact E|exact Ej].
Defined.

(** The main thread holds mutex 9, thread 7 is about to block on it. *)
Definition contended : os plain :=
  run_or [Init; Lock 9; Advance; Advance; Tick; Advance; Lock 9; Advance; Advance] two.

Lemma lock_waits_witness :
  exists s1 s2, exec Advance contended = Ret (tt, s1) /\ exec Advance s1 = Ret (tt, s2) /\
    running s2 = 2 /\ cpu s2 = User.
Proof.
  destruct (lock_waits contended (qs contended) 9 (mkLock 1 3) [] 2 []
              (default (mkThread 0 0 0 Unset 0 0 None 0 0) (threads contended !! 7))
              (default (mkThread 0 0 0 Unset 0 0 None 0 0) (threads contended !! 2)))
    as (s1 & s2 & E1 & E2 & Er & Ec & _).
  - plain_state.
  - vm_compute; reflexivity.
  - reflexivity.
  - vm_compute; reflexivity.
  - vm_compute; reflexivity.
  - vm_compute; discriminate.
  - vm_compute; reflexivity.
  - vm_compute; reflexivity.
  - vm_compute; discriminate.
  - vm_compute; reflexivity.
  - exists s1, s2. split_and!; [exact E1|exact E2|exact Er|].
    transitivity (context (default (mkThread 0 0 0 Unset 0 0 None 0 0) (threads contended !! 2)));
      [exact Ec|vm_compute; reflexivity].
Defined.

(** Thread 7 waits for mutex 9, the main thread runs. *)
Definition waiting : os plain := run_or [Advance; Advance] contended.

Lemma unlock_wakes_first_witness :
  exists s' q', my_pthread_mutex_unlock 9 waiting = Ret (0, s') /\ q' ≡ₚ [7] /\
    q_abs (hp s') (<[1 := q']> (<[3 := []]> (qs waiting))).
Proof.
  destruct (unlock_wakes_first waiting (qs waiting) 9 (mkLock 1 3) [7] [])
    as (s' & q' & E & _ & Hp & _ & HA & _).
  - plain_state.
  - vm_compute; reflexivity.
  - vm_compute; reflexivity.
  - vm_compute; reflexivity.
  - vm_compute; discriminate.
  - exists s', q'. split_and!; [exact E|exact Hp|exact HA].
Defined.

(** The main thread locks mutex 9 again while thread 7 waits for it. *)
Definition relocking : os plain := run_or [Lock 9; Advance; Advance] waiting.

Lemma lock_deadlock_faults_witness : exec Advance relocking = Fault.
Proof.
  apply (lock_deadlock_faults relocking (qs relocking) 9 (mkLock 1 3) [7]
           (default (mkThread 0 0 0 Unset 0 0 None 0 0) (threads relocking !! 2))).
  - plain_state.
  - vm_compute; reflexivity.
  - reflexivity.
  - vm_compute; reflexivity.
  - vm_compute; reflexivity.
  - vm_compute; discriminate.
  - vm_compute; reflexivity.
  - vm_compute; reflexivity.
Defined.

Lemma join_returns_early_witness :
  exists s', exec (Join 7 false) waiting = Ret (tt, s') /\ cpu s' = User /\ running s' = 2.
Proof.
  destruct (join_returns_early waiting (qs waiting) 7
              (default (mkThread 0 0 0 Unset 0 0 None 0 0) (threads waiting !! 2))
              (default (mkThread 0 0 0 Unset 0 0 None 0 0) (threads waiting !! 7)) [])
    as (s' & E & Ec & Er & _).
  - plain_state.
  - vm_compute; reflexivity.
  - vm_compute; reflexivity.
  - vm_compute; reflexivity.
  - vm_compute; reflexivity.
  - vm_compute; reflexivity.
  - vm_compute; discriminate.
  - exists s'. split_and!; [exact E|exact Ec|exact Er].
Defined.

Definition exited_null : os plain := run_or [Return None] joining.

Lemma join_null_result_faults_witness : exec (Join 7 true) exited_null = Fault.
Proof.
  apply (join_null_result_faults exited_null 7
           (default (mkThread 0 0 0 Unset 0 0 None 0 0) (threads exited_null !! 7)));
    vm_compute; reflexivity.
Defined.
