(* ===== verification/PthreadWindows.v ===== *)
(** * User-level threads: interrupts in two windows

    [testAndSet] reads and writes with signals unblocked, and [join] changes
    [*running] and unblocks signals before it switches contexts.  One timer
    interrupt in the first window makes two threads hold a mutex, one in the
    second hangs the program. *)

From S2P Require Import Prelude LinkedList LinkedListRep Queues Pthread PthreadSpec PthreadInv PthreadMutex PthreadThms.
Import Pthread.

Section Windows.
Context {H : Type} `{QueueLaws H}.
Implicit Types (s : os H) (Q : gmap Z (list Z)) (h : holders).

(** ** [testAndSet] *)

Lemma read_step s m l :
  cpu s = LockRead m -> mutexes s !! m = Some l -> step Advance s (set_cpu (LockWrite m (state l)) s).
Proof.
  intros Ec El. split; [simpl; by rewrite Ec|]. cbn [exec]. unfold advance. erewrite bind_Ret by done. rewrite Ec.
  unfold testAndSet_read. by erewrite bind_Ret by (by apply ld_lock_Ret).
Qed.

Lemma write_step s m l :
  cpu s = LockWrite m 0 -> mutexes s !! m = Some l ->
  step Advance s (set_cpu User (set_mutexes (<[m := mkLock 1 (wait l)]> (mutexes s)) s)).
Proof.
  intros Ec El. split; [simpl; by rewrite Ec|]. cbn [exec]. unfold advance. erewrite bind_Ret by done. rewrite Ec.
  unfold testAndSet_write. by erewrite bind_Ret by (by apply ld_lock_Ret).
Qed.

(** The switch of a timer interrupt between the running thread and the only
    ready one. *)
Lemma tick_two s Q t th tht :
  q_abs (hp s) Q -> Q !! run s = Some [t] ->
  threads s !! running s = Some th -> threads s !! t = Some tht -> t <> running s ->
  exists s' th', step Tick s s' /\ running s' = t /\ cpu s' = context tht /\
    q_abs (hp s') (<[run s := [running s]]> Q) /\ run s' = run s /\ mutexes s' = mutexes s /\
    threads s' !! running s = Some th' /\ context th' = cpu s /\ threads s' !! t = Some tht.
Proof.
  intros HA HQ Er Et Hne.
  destruct (interrupt_Ret s Q t [] th tht) as (s' & q & E & Er' & Ec' & Hp & HA' & ET & ER & EM & _); [done..|].
  apply Permutation_singleton_r in Hp as ->. exists s'. eexists. rewrite ET, lookup_insert_eq, lookup_insert_ne by done.
  by split_and!.
Qed.

(** C34: [testAndSet] is not atomic: when two threads are about to take a free
    mutex and a timer interrupt falls between the read and the write of the
    first, both get it: in the state reached, both are in application code
    between lock and unlock of the mutex, and no client did anything wrong. *)
Theorem mutex_race s Q h m l t th tht :
  q_abs (hp s) Q -> Q !! run s = Some [t] ->
  threads s !! running s = Some th -> threads s !! t = Some tht -> t <> running s ->
  mutexes s !! m = Some l -> state l = 0 -> cpu s = LockRead m -> context tht = LockRead m ->
  exists s' tht', gsteps (fun _ _ => true) s h [Advance; Tick; Advance; Advance; Tick; Advance]
      s' ((m, running s) :: (m, t) :: h) /\
    running s' = running s /\ cpu s' = User /\ threads s' !! t = Some tht' /\ context tht' = User.
Proof.
  intros HA HQ Er Et Hne Em El Ec Ect. pose proof (read_step s m l Ec Em) as S1. rewrite El in S1.
  set (s1 := set_cpu _ s) in S1.
  destruct (tick_two s1 Q t th tht HA HQ Er Et Hne) as (s2 & th2 & S2 & R2 & C2 & A2 & Q2 & M2 & T2 & X2 & U2).
  rewrite Ect in C2. assert (mutexes s2 !! m = Some l) as Em2 by (by rewrite M2). pose proof (read_step s2 m l C2 Em2) as S3. rewrite El in S3.
  set (s3 := set_cpu _ s2) in S3. pose proof (write_step s3 m l eq_refl Em2) as S4. set (s4 := set_cpu User _) in S4.
  destruct (tick_two s4 (<[run s := [running s]]> Q) (running s) tht th2) as (s5 & tht5 & S5 & R5 & C5 & _ & _ & M5 & T5 & X5 & _);
    [exact A2|cbn; by rewrite Q2, lookup_insert_eq|cbn; by rewrite R2|done|cbn; by rewrite R2|].
  assert (mutexes s5 !! m = Some (mkLock 1 (wait l))) as Em5 by (rewrite M5; apply lookup_insert_eq).
  pose proof (write_step s5 m _ (eq_trans C5 X2) Em5) as S6. set (s6 := set_cpu User _) in S6.
  exists s6, tht5. split_and!; [|done..|by rewrite <- R2|done].
  apply (g_cons _ _ _ _ s1); [done..|]. apply (g_cons _ _ _ _ s2); [done..|]. apply (g_cons _ _ _ _ s3); [done..|].
  apply (g_cons _ _ _ _ s4); [done..|]. apply (g_cons _ _ _ _ s5); [done..|]. apply (g_cons _ _ _ _ s6); [done..|].
  unfold hold. rewrite Ec, C2, C5, X2. cbn. rewrite R5, R2. constructor.
Qed.

(** ** [join] *)

(** Thread [n] goes round in the [swapcontext] with which [old] entered its
    [join]: no other thread is ready, and the context it switches to is the one
    it is in. *)
Record stuck (n t : Z) (vp : bool) (old : Z) s : Prop := {
  sk_running : running s = n;
  sk_cpu : cpu s = JoinSwap t vp old;
  sk_alone : exists Q, q_abs (hp s) Q /\ Q !! run s = Some [];
  sk_context : exists th, threads s !! n = Some th /\ context th = JoinSwap t vp old;
  sk_old : is_Some (threads s !! old)
}.

Lemma stuck_advance n t vp old s :
  old <> n -> stuck n t vp old s -> exists s', step Advance s s' /\ stuck n t vp old s'.
Proof.
  intros Hne [Er Ec (Q & HA & HQ) (th & Et & Ex) [tho Eo]].
  eexists. assert (forall s', exec Advance s = Ret (tt, s') -> step Advance s s') as Hstep
    by (intros s' E; split; [simpl; by rewrite Ec|done]).
  split.
  - apply Hstep. cbn [exec]. unfold advance. erewrite bind_Ret by done. rewrite Ec. unfold swapcontext.
    erewrite bind_Ret by (by apply ld_thread_Ret). erewrite bind_Ret by done.
    apply setcontext_Ret. cbn. rewrite Er, lookup_insert_ne by done. exact Et.
  - split; [done|done|by exists Q| |].
    + exists th. cbn. by rewrite lookup_insert_ne.
    + cbn. by rewrite lookup_insert_eq.
Qed.

Lemma stuck_tick n t vp old s :
  running s = n -> cpu s = JoinSwap t vp old -> (exists Q, q_abs (hp s) Q /\ Q !! run s = Some []) ->
  is_Some (threads s !! n) -> is_Some (threads s !! old) -> exists s', step Tick s s' /\ stuck n t vp old s'.
Proof.
  intros Er Ec (Q & HA & HQ) [th Et] [tho Eo]. rewrite <- Er in Et.
  destruct (interrupt_alone_Ret s Q th HA HQ Et) as (s' & E & Er' & Ec' & HA' & ET & EQ & _).
  exists s'. split; [by split|]. split; [congruence|congruence|by exists Q; rewrite EQ| |].
  - eexists. rewrite ET, <- Er, lookup_insert_eq. by split.
  - rewrite ET. by apply lookup_insert_is_Some'; right; exists tho.
Qed.

Lemma stuck_step n t vp old e s s' :
  old <> n -> stuck n t vp old s -> step e s s' ->
  stuck n t vp old s' /\ (e = Advance \/ e = Tick \/ exists now, e = Clock now).
Proof.
  intros Hne Hs [En E]. pose proof Hs as [Er Ec HQ (th & Et & Ex) Ho].
  destruct e; try (simpl in En; rewrite Ec in En; by apply bool_decide_eq_true in En).
  - destruct (stuck_tick n t vp old s) as (s1 & [_ E1] & Hk); [done..|]. rewrite E1 in E. injection E as <-. auto.
  - injection E as <-. split; [|eauto]. split; [done|done|done|by exists th|done].
  - destruct (stuck_advance n t vp old s) as (s1 & [_ E1] & Hk); [done..|]. rewrite E1 in E. injection E as <-. auto.
Qed.

(** C35: [join] changes [*running] and unblocks signals before its context
    switch.  When a thread joins one that has not finished, with one thread [n]
    ready, and the timer fires there, the interrupt saves the place in [join]
    as the context of [n], and the program hangs: whatever happens from then on
    (steps of the library code, timer interrupts, time passing: nothing else
    can), the processor executes that place for [n] again, which stays possible
    forever, and no thread gets back to its own code. *)
Theorem join_window_hang s Q t vp th tht thn ws n :
  q_abs (hp s) Q -> cpu s = User -> threads s !! t = Some tht -> finished tht = 0 ->
  threads s !! running s = Some th -> threads s !! n = Some thn -> n <> running s ->
  Q !! waitJoin tht = Some ws -> Q !! run s = Some [n] -> waitJoin tht <> run s ->
  exists s1, steps s [Join t vp; Tick] s1 /\
    forall es s2, steps s1 es s2 ->
      Forall (fun e => e = Advance \/ e = Tick \/ exists now, e = Clock now) es /\
      running s2 = n /\ cpu s2 = JoinSwap t vp (running s) /\ exists s3, step Advance s2 s3.
Proof.
  intros HA Eu Et Ef Er En Hne HW HR Hw.
  destruct (join_block_Ret s Q t vp th tht ws n []) as (s0 & ws' & E0 & R0 & C0 & _ & A0 & T0 & _ & Q0 & _); [done..|].
  destruct (stuck_tick n t vp (running s) s0) as (s1 & S1 & Hk); [done|done| |by rewrite T0|by rewrite T0|].
  { eexists. split; [exact A0|]. by rewrite Q0, lookup_insert_eq. }
  exists s1. split; [apply (steps_cons _ _ s0); [split; [simpl; by rewrite Eu|done]|eapply steps_cons, steps_nil; exact S1]|].
  clear S1. intros es s2 Hst. induction Hst as [s2|s2 e s3 es s4 Hs _ IH].
  - destruct (stuck_advance n t vp (running s) s2) as (s3 & S3 & _); [done..|]. destruct Hk. by eauto 6.
  - destruct (stuck_step n t vp (running s) e s2 s3) as [Hk3 He]; [done..|]. destruct (IH Hk3) as (? & ? & ? & ?). by eauto 6.
Qed.

End Windows.

(** ** The theorems at work *)

(** The main thread and thread 7 both call [my_pthread_mutex_lock] on mutex 9. *)
Definition racing : os plain := run_or [Init; Tick; Advance; Lock 9; Tick; Lock 9] two.

Lemma mutex_race_witness :
  exists s' tht', gsteps (fun _ _ => true) racing [] [Advance; Tick; Advance; Advance; Tick; Advance]
      s' [(9, 2); (9, 7)] /\
    running s' = 2 /\ cpu s' = User /\ threads s' !! 7 = Some tht' /\ context tht' = User.
Proof.
  apply (mutex_race racing (qs racing) [] 9 (mkLock 0 3) 7
           (default (mkThread 0 0 0 Unset 0 0 None 0 0) (threads racing !! 2))
           (default (mkThread 0 0 0 Unset 0 0 None 0 0) (threads racing !! 7))).
  - plain_state.
  - vm_compute; reflexivity.
  - vm_compute; reflexivity.
  - vm_compute; reflexivity.
  - vm_compute; discriminate.
  - vm_compute; reflexivity.
  - reflexivity.
  - vm_compute; reflexivity.
  - vm_compute; reflexivity.
Defined.

(** The main thread created thread 7 and joins it. *)
Lemma join_window_hang_witness :
  exists s1, steps two [Join 7 false; Tick] s1 /\
    forall es s2, steps s1 es s2 ->
      Forall (fun e => e = Advance \/ e = Tick \/ exists now, e = Clock now) es /\
      running s2 = 7 /\ cpu s2 = JoinSwap 7 false 2 /\ exists s3, step Advance s2 s3.
Proof.
  apply (join_window_hang two (qs two) 7 false
           (default (mkThread 0 0 0 Unset 0 0 None 0 0) (threads two !! 2))
           (default (mkThread 0 0 0 Unset 0 0 None 0 0) (threads two !! 7))
           (default (mkThread 0 0 0 Unset 0 0 None 0 0) (threads two !! 7)) [] 7).
  - plain_state.
  - vm_compute; reflexivity.
  - vm_compute; reflexivity.
  - vm_compute; reflexivity.
  - vm_compute; reflexivity.
  - vm_compute; reflexivity.
  - vm_compute; discriminate.
  - vm_compute; reflexivity.
  - vm_compute; reflexivity.
  - vm_compute; discriminate.
Defined.
