(* ===== verification/PthreadLive.v ===== *)
(** * User-level threads: who gets the processor

    What the run queue promises a waiting thread.  The scheduler charges a
    thread one unit for every quantum it uses and keeps the queue by that
    charge, except that an insertion never passes the head, and every 151st
    time it first reorders the queue by age.  Under timer interrupts alone
    this starves nobody as long as fewer than 151 other threads are runnable;
    threads that give up the processor with [my_pthread_yield] are not
    charged and can starve another. *)

From S2P Require Import Prelude LinkedList LinkedListRep Queues Pthread PthreadSpec PthreadInv PthreadThms.
Import Pthread.

(** ** Insertion around a waiting thread *)

Section Around.
Context (k : Z -> Z).

Lemma insert_le_around r y pre post :
  (exists pre', Queue.insert_le k r (pre ++ y :: post) = pre' ++ y :: post /\ pre' ≡ₚ r :: pre /\
     exists u, u ∈ pre ++ [y] /\ k r < k u) \/
  (exists post', Queue.insert_le k r (pre ++ y :: post) = pre ++ y :: post' /\ post' ≡ₚ r :: post).
Proof.
  induction pre as [|x pre IH]; simpl.
  - destruct (Z.leb_spec (k y) (k r)).
    + right. exists (Queue.insert_le k r post). split; [done|apply insert_le_perm].
    + left. exists [r]. split_and!; [done..|]. exists y. split; [set_solver|done].
  - destruct (Z.leb_spec (k x) (k r)).
    + destruct IH as [(pre' & -> & Hp & u & Hu & Hk)|(post' & -> & Hp)].
      * left. exists (x :: pre'). split_and!; [done| |exists u; split; [set_solver|done]].
        rewrite Hp. apply Permutation_swap.
      * right. by exists post'.
    + left. exists (r :: x :: pre). split_and!; [done..|]. exists x. split; [set_solver|done].
Qed.

(** [pushOrdered] puts a thread ahead of a waiting one only if its key is
    smaller than that of the waiting thread or of one ahead of it. *)
Lemma insert_around r y pre post :
  (exists pre', Queue.insert k r (pre ++ y :: post) = pre' ++ y :: post /\ pre' ≡ₚ r :: pre /\
     exists u, u ∈ pre ++ [y] /\ k r < k u) \/
  (exists post', Queue.insert k r (pre ++ y :: post) = pre ++ y :: post' /\ post' ≡ₚ r :: post).
Proof.
  destruct pre as [|x pre]; simpl.
  - right. destruct (k y <=? k r).
    + exists (Queue.insert_le k r post). split; [done|apply insert_le_perm].
    + by exists (r :: post).
  - destruct (Z.leb_spec (k x) (k r)).
    + destruct (insert_le_around r y pre post) as [(pre' & -> & Hp & u & Hu & Hk)|(post' & -> & Hp)].
      * left. exists (x :: pre'). split_and!; [done| |exists u; split; [set_solver|done]].
        rewrite Hp. apply Permutation_swap.
      * right. by exists post'.
    + left. exists (x :: r :: pre). split_and!; [done|apply Permutation_swap|].
      exists x. split; [set_solver|done].
Qed.

(** How far a group of threads is from the bound [K] on their charges. *)
Definition lag (K : Z) (us : list Z) : Z := foldr (fun u n => K + 1 - k u + n) 0 us.

#[global] Instance lag_perm K : Proper ((≡ₚ) ==> (=)) (lag K).
Proof. induction 1; simpl; lia. Qed.

Lemma lag_succ K us : lag (K + 1) us = lag K us + Z.of_nat (length us).
Proof. induction us as [|u us IH]; simpl; lia. Qed.

Lemma lag_nonneg K us : (forall u, u ∈ us -> k u <= K + 1) -> 0 <= lag K us.
Proof.
  induction us as [|u us IH]; intros Hu; simpl; [lia|].
  pose proof (Hu u ltac:(set_solver)). specialize (IH ltac:(set_solver)). lia.
Qed.

Lemma lag_le K us : (forall u, u ∈ us -> 0 <= k u) -> lag K us <= (K + 1) * Z.of_nat (length us).
Proof.
  induction us as [|u us IH]; intros Hu; simpl; [lia|].
  pose proof (Hu u ltac:(set_solver)). specialize (IH ltac:(set_solver)). lia.
Qed.
End Around.

Lemma lag_ext k k' K us : (forall u, u ∈ us -> k u = k' u) -> lag k K us = lag k' K us.
Proof.
  induction us as [|u us IH]; intros Hu; simpl; [done|].
  rewrite (Hu u), IH; [done|set_solver..].
Qed.

(** ** The counter of the scheduler *)

Section Counter.
Context {H : Type} `{QueueOps H}.

(** The number of schedulings since the last reordering by age. *)
Definition counted (s : os H) : Prop := 0 <= nSchedulings s <= 150.

Abbreviation keeps m := (hoare counted m (fun _ => counted)).

Lemma counted_bind {A B} (m : prog (os H) A) (k : A -> prog (os H) B) :
  keeps m -> (forall a, keeps (k a)) -> keeps (m ≫= k).
Proof. intros. by eapply hoare_bind. Qed.

Lemma counted_lift {A} (m : prog H A) : keeps (lift m).
Proof.
  intros s a s' HP. unfold lift. destruct (m (hp s)) as [[b h]| | |]; try done. by intros [= <- <-].
Qed.

Lemma counted_ld_thread t : keeps (ld_thread t).
Proof. intros s a s' HP. unfold ld_thread. case_match; [|done]. by intros [= <- <-]. Qed.

Lemma counted_ld_lock m : keeps (ld_lock m).
Proof. intros s a s' HP. unfold ld_lock. case_match; [|done]. by intros [= <- <-]. Qed.

Ltac count :=
  repeat first
    [ apply counted_bind; [|intros ?] | apply counted_lift | apply counted_ld_thread
    | apply counted_ld_lock | apply hoare_timeout | apply hoare_fault | apply hoare_halt
    | progress unfold pushOrdered, virtualMemory, setcontext, os_alloc, os_alloc_list, st_thread, st_lock
    | case_match | (apply hoare_modify; by intros ? ?)
    | (intros ? ? ? HT [= <- <-]; exact HT) ].

Lemma counted_wake_all fuel w : keeps (wake_all fuel w).
Proof. induction fuel as [|f IH]; cbn [wake_all]; count. exact IH. Qed.

Lemma counted_threadExit v b : keeps (threadExit v b).
Proof. unfold threadExit. count; apply counted_wake_all. Qed.

Lemma counted_scheduler : keeps scheduler.
Proof.
  unfold scheduler. apply counted_bind; [count|intros _].
  intros s a s' Hs E. erewrite bind_Ret in E by done. unfold counted in Hs.
  rewrite wrapu_small in E by lia. erewrite bind_Ret in E by done.
  erewrite bind_Ret in E by done. cbn [nSchedulings set_nSchedulings] in E.
  destruct (Z.gtb_spec (nSchedulings s + 1) 150).
  - apply bind_inv in E as ([] & s2 & E2 & E). apply bind_inv in E2 as ([] & s3 & E3 & [= <-]).
    revert E. match goal with |- ?m ?x = _ -> _ => apply (fun K => K : keeps m) end; [count|].
    unfold counted. simpl. lia.
  - erewrite bind_Ret in E by done. revert E.
    match goal with |- ?m ?x = _ -> _ => apply (fun K => K : keeps m) end; [count|].
    unfold counted. simpl. lia.
Qed.

Lemma counted_interrupt : keeps interrupt.
Proof.
  unfold interrupt. do 3 (apply counted_bind; [count|intros ?]). apply counted_scheduler.
Qed.

Lemma counted_create n gc fn a : keeps (my_pthread_create n gc fn a).
Proof.
  unfold my_pthread_create, initOS, setMyScheduler, createNewThread.
  count; apply hoare_modify; intros; unfold counted; simpl; lia.
Qed.

Lemma counted_exec e : keeps (exec e).
Proof.
  destruct e; cbn [exec].
  - apply counted_interrupt.
  - count.
  - unfold advance, testAndSet_read, testAndSet_write, lock_block, swapcontext, join_tail. count.
  - apply counted_bind; [apply counted_create|intros ?; count].
  - unfold my_pthread_yield. do 3 (apply counted_bind; [count|intros ?]). apply counted_interrupt.
  - unfold my_pthread_exit. apply counted_bind; [apply counted_threadExit|intros ?; count].
  - unfold my_pthread_join, join_tail. count.
  - unfold my_pthread_mutex_init. count.
  - unfold my_pthread_mutex_lock. count.
  - unfold my_pthread_mutex_unlock. count.
  - unfold my_pthread_mutex_destroy. count. apply counted_wake_all.
  - unfold threadRun_end. apply counted_bind; [apply counted_threadExit|intros []; count].
Qed.
End Counter.

(** ** Timer interrupts *)

Section Live.
Context {H : Type} `{QueueLaws H}.
Implicit Types (s : os H) (Q : gmap Z (list Z)).

(** Thread [u] has a struct, with a charge between 0 and [K]. *)
Definition charged (s : os H) (K u : Z) : Prop :=
  exists th, threads s !! u = Some th /\ 0 <= priority th <= K.

Lemma charged_rank s K u : charged s K u -> K < 2 ^ 31 -> 0 <= getPriority s u <= K.
Proof.
  intros (th & E & Hp) HK. unfold getPriority. rewrite E.
  rewrite wraps_small; simpl; lia.
Qed.

Lemma charged_mono s K K' u : charged s K u -> K <= K' -> charged s K' u.
Proof. intros (th & E & Hp) HK. exists th. split; [done|lia]. Qed.

(** [y] waits behind [pre] and before [post], in a queue whose threads are
    charged at most [K] up to [y] and [K + 1] behind it. *)
Record waits s Q y K pre post : Prop := {
  w_abs : q_abs (hp s) Q;
  w_run : Q !! run s = Some (pre ++ y :: post);
  w_nodup : NoDup (running s :: pre ++ y :: post);
  w_front u : u ∈ running s :: pre ++ [y] -> charged s K u;
  w_back u : u ∈ post -> charged s (K + 1) u;
  w_count : 0 <= nSchedulings s <= 150
}.

(** The measure: 151 times the charges the others have left below the bound,
    and the progress towards the next reordering. *)
Definition togo s K pre post : Z :=
  151 * lag (getPriority s) K (running s :: pre ++ post) +
  Z.of_nat (length (running s :: pre ++ post)) * nSchedulings s.

(** After a tick that does not run [y], everyone but the interrupted thread
    is charged as before. *)
Lemma tick_charges s s' th r K u :
  r = running s -> threads s !! r = Some th -> 0 <= priority th < 2 ^ 31 - 1 ->
  threads s' = <[r := upd_priority (wrapu 32 (priority th + 1)) (upd_context (cpu s) th)]> (threads s) ->
  (charged s K u -> u <> r -> charged s' K u) /\
  (priority th < K -> charged s' K r) /\
  (u <> r -> getPriority s' u = getPriority s u) /\
  getPriority s' r = getPriority s r + 1.
Proof.
  intros -> Er Hp ET. unfold charged, getPriority. rewrite ET. split_and!.
  - intros (th' & E & ?) Hne. exists th'. by rewrite lookup_insert_ne.
  - intros HK. rewrite lookup_insert_eq. eexists. split; [done|]. simpl.
    rewrite wrapu_small; lia.
  - intros Hne. by rewrite lookup_insert_ne.
  - rewrite lookup_insert_eq, Er. simpl. rewrite wrapu_small by lia.
    rewrite !wraps_small; simpl; lia.
Qed.

(** The queue after the insertion of the interrupted thread. *)
Lemma waits_insert s s' Q y K t th pre post :
  threads s !! running s = Some th -> 0 <= priority th <= K -> K < 2 ^ 31 - 1 ->
  threads s' = <[running s := upd_priority (wrapu 32 (priority th + 1)) (upd_context (cpu s) th)]> (threads s) ->
  running s' = t -> run s' = run s -> 0 <= nSchedulings s' <= 150 ->
  NoDup (running s :: t :: pre ++ y :: post) ->
  (forall u, u ∈ t :: pre ++ [y] -> charged s K u) ->
  (forall u, u ∈ post -> charged s (K + 1) u) ->
  q_abs (hp s') (<[run s := Queue.insert (getPriority s') (running s) (pre ++ y :: post)]> Q) ->
  exists Q' pre' post', waits s' Q' y K pre' post' /\
    running s' :: pre' ++ post' ≡ₚ t :: running s :: pre ++ post.
Proof.
  intros Er Hp HK ET ER EQ Hc Hnd Hf Hb HA. set (r := running s) in *.
  pose proof (fun K' u => tick_charges s s' th r K' u eq_refl Er ltac:(lia) ET) as Hch.
  apply NoDup_cons in Hnd as [Hr Hnd].
  assert (forall K' u, u ∈ t :: pre ++ y :: post -> charged s K' u -> charged s' K' u) as Hu.
  { intros K' u Hu Hcu. apply Hch; [done|]. by intros ->. }
  destruct (insert_around (getPriority s') r y pre post)
    as [(pre' & E & Hpm & u & Hu1 & Hlt)|(post' & E & Hpm)]; rewrite E in HA.
  - assert (priority th < K) as HrK.
    { destruct (Hch K u) as (_ & _ & Hku & Hkr). rewrite Hku, Hkr in Hlt by set_solver.
      pose proof (charged_rank s K u (Hf u ltac:(set_solver)) ltac:(lia)).
      pose proof (charged_rank s (priority th) r ltac:(exists th; split; [done|lia]) ltac:(lia)).
      assert (getPriority s r = priority th) as Ek.
      { unfold getPriority. rewrite Er. apply wraps_small; simpl; lia. } lia. }
    eexists _, pre', post. split; [|by rewrite ER, Hpm].
    split; [exact HA|by rewrite EQ, lookup_insert_eq| | |auto|done].
    + rewrite ER, Hpm. simpl. rewrite Permutation_swap. by constructor.
    + intros v. rewrite ER, Hpm. intros Hv. destruct (decide (v = r)) as [->|].
      * by apply (Hch K r).
      * apply Hu; [set_solver|apply Hf; set_solver].
    + intros v Hv. apply Hu; [set_solver|by apply Hb].
  - eexists _, pre, post'. split.
    2:{ rewrite ER, Hpm. apply Permutation_skip. symmetry. apply Permutation_middle. }
    split; [exact HA|by rewrite EQ, lookup_insert_eq| | | |done].
    + rewrite ER, Hpm, (Permutation_swap r y post), <- Permutation_middle, Permutation_swap.
      by constructor.
    + intros v. rewrite ER. intros Hv. apply Hu; [set_solver|by apply Hf].
    + intros v. rewrite Hpm. intros [->|Hv]%elem_of_cons.
      * apply (Hch (K + 1) r). lia.
      * apply Hu; [set_solver|by apply Hb].
Qed.

(** The measure after a tick, when the others are the same and the bound is
    [K], or [K + 1] after a reordering. *)
Lemma togo_tick s s' th y K pre post pre' post' t rest :
  threads s !! running s = Some th -> 0 <= priority th < 2 ^ 31 - 1 ->
  threads s' = <[running s := upd_priority (wrapu 32 (priority th + 1)) (upd_context (cpu s) th)]> (threads s) ->
  NoDup (running s :: pre ++ y :: post) -> 0 <= nSchedulings s <= 150 ->
  t :: rest ≡ₚ pre ++ post -> running s' :: pre' ++ post' ≡ₚ t :: running s :: rest ->
  let m := Z.of_nat (length (running s :: pre ++ post)) in
  (nSchedulings s' = nSchedulings s + 1 -> togo s' K pre' post' = togo s K pre post - (151 - m)) /\
  (nSchedulings s = 150 -> nSchedulings s' = 0 ->
   togo s' (K + 1) pre' post' = togo s K pre post - (151 - m)).
Proof.
  intros Er Hp ET Hnd Hc Hr Hr' m.
  pose proof (fun u => tick_charges s s' th (running s) K u eq_refl Er Hp ET) as Hch.
  rewrite Permutation_swap in Hr'. rewrite Hr in Hr'.
  assert (lag (getPriority s') K (running s' :: pre' ++ post') =
          lag (getPriority s) K (running s :: pre ++ post) - 1) as El.
  { rewrite Hr'. simpl. destruct (Hch 0) as (_ & _ & _ & ->).
    rewrite (lag_ext (getPriority s') (getPriority s)); [lia|]. intros u Hu. apply Hch.
    intros ->. apply NoDup_cons in Hnd as [[]]. set_solver. }
  assert (length (running s' :: pre' ++ post') = length (running s :: pre ++ post)) as Hl
    by (by rewrite Hr').
  unfold togo. rewrite Hl. split.
  - intros ->. rewrite El. unfold m. lia.
  - intros E ->. rewrite lag_succ, El, E, Hl. unfold m. lia.
Qed.

(** The queue the scheduler pops from, behind its head [t]. *)
Lemma waits_reordered s Q y K pre post t q k :
  waits s Q y K pre post -> pre ++ y :: post = t :: q -> t <> y ->
  let n := nSchedulings s + 1 in
  exists K' pre1 post1, tail (reordered k n (t :: q)) = pre1 ++ y :: post1 /\
    t :: pre1 ++ post1 ≡ₚ pre ++ post /\
    (forall u, u ∈ t :: pre1 ++ [y] -> charged s K' u) /\
    (forall u, u ∈ post1 -> charged s (K' + 1) u) /\
    (K' = K /\ (n >? 150) = false \/ K' = K + 1 /\ (n >? 150) = true).
Proof.
  intros [HA HQ Hnd Hf Hb Hc] Eq Hty n. destruct (n >? 150) eqn:En.
  - destruct (reordered_cons k n t q) as (q1 & Eq1 & Hp1). rewrite Eq1. simpl.
    assert (y ∈ q1) as (pre1 & post1 & ->)%list_elem_of_split.
    { rewrite Hp1. assert (y ∈ t :: q) as [?|?]%elem_of_cons; [|done..].
      rewrite <- Eq. set_solver. }
    assert (t :: pre1 ++ post1 ≡ₚ pre ++ post) as Hr.
    { apply (Permutation_cons_inv (a := y)). rewrite Permutation_swap.
      rewrite (Permutation_middle pre1), (Permutation_middle pre), Eq. by rewrite Hp1. }
    exists (K + 1), pre1, post1. split_and!; [done|done| | |by right].
    + intros u Hu. destruct (decide (u = y)) as [->|].
      { eapply charged_mono; [apply Hf; set_solver|lia]. }
      assert (u ∈ pre ++ post) as [?|?]%elem_of_app by (rewrite <- Hr; set_solver).
      * eapply charged_mono; [apply Hf; set_solver|lia].
      * by apply Hb.
    + intros u Hu. assert (u ∈ pre ++ post) as [?|?]%elem_of_app by (rewrite <- Hr; set_solver).
      * eapply charged_mono; [apply Hf; set_solver|lia].
      * eapply charged_mono; [by apply Hb|lia].
  - unfold reordered. rewrite En. destruct pre as [|x pre]; [by simplify_eq/=|].
    simplify_eq/=. exists K, pre, post. split_and!; [done|done| |done|by left].
    intros u Hu. apply Hf. set_solver.
Qed.

Lemma waits_tick s Q y K pre post :
  waits s Q y K pre post -> K < 2 ^ 31 - 2 ->
  exists s', step Tick s s' /\ threads s' !! y = threads s !! y /\
    ((running s' = y /\ exists th, threads s !! y = Some th /\ cpu s' = context th) \/
     exists Q' K' pre' post', waits s' Q' y K' pre' post' /\ K <= K' <= K + 1 /\
       length (pre' ++ post') = length (pre ++ post) /\
       togo s' K' pre' post' =
         togo s K pre post - (151 - Z.of_nat (S (length (pre ++ post))))).
Proof.
  intros [HA HQ Hnd Hf Hb Hc] HK.
  destruct (Hf (running s) ltac:(set_solver)) as (th & Er & Hp).
  destruct (Hf y ltac:(set_solver)) as (thy & Ey & _).
  assert (running s <> y) as Hry.
  { intros E. apply NoDup_cons in Hnd as [[]]. set_solver. }
  destruct (pre ++ y :: post) as [|t q] eqn:Eq; [by destruct pre|].
  assert (exists tht, threads s !! t = Some tht) as [tht Et].
  { assert (t ∈ pre ++ y :: post) as [?|[->|?]%elem_of_cons]%elem_of_app by (rewrite Eq; set_solver).
    - destruct (Hf t) as (x & ? & _); [set_solver|by exists x].
    - by exists thy.
    - destruct (Hb t) as (x & ? & _); [done|by exists x]. }
  assert (t <> running s) as Hne.
  { intros E. rewrite E in Hnd. apply NoDup_cons in Hnd as [[]]. set_solver. }
  destruct (interrupt_exact s Q t q th tht)
    as (s' & E & ER & EC & HA' & EN & ET & EQ & _); [done..|].
  assert (wrapu 32 (nSchedulings s + 1) = nSchedulings s + 1) as EW by (apply wrapu_small; lia).
  rewrite EW in *. exists s'. split; [by split|].
  assert (threads s' !! y = threads s !! y) as Ey' by (by rewrite ET, lookup_insert_ne).
  split; [done|]. destruct (decide (t = y)) as [->|Hty].
  { left. split; [done|]. exists tht. by rewrite EC. }
  right. destruct (waits_reordered s Q y K pre post t q (getTimeCreated s))
    as (K' & pre1 & post1 & Etl & Hr & Hf1 & Hb1 & Hcase); [by split; rewrite ?Eq|done..|].
  rewrite Etl in HA'.
  assert (running s :: t :: pre1 ++ y :: post1 ≡ₚ running s :: pre ++ y :: post) as Hall.
  { apply Permutation_skip. rewrite <- !Permutation_middle, Permutation_swap. by apply Permutation_skip. }
  destruct (waits_insert s s' Q y K' t th pre1 post1) as (Q' & pre' & post' & HW & Hr');
    try done; try lia.
  { rewrite EN. case_match; lia. }
  { by rewrite Hall, Eq. }
  exists Q', K', pre', post'. split_and!; [done|lia|lia| |].
  - rewrite Permutation_swap, Hr in Hr'. apply Permutation_length in Hr'. by injection Hr'.
  - destruct (togo_tick s s' th y K pre post pre' post' t (pre1 ++ post1)) as [T1 T2];
      try done; [lia|by rewrite Eq|].
    destruct Hcase as [[-> En]|[-> En]]; rewrite En in EN.
    + rewrite T1 by done. done.
    + apply Z.gtb_lt in En. rewrite T2 by lia. done.
Qed.

Lemma waits_rank s Q y K pre post u :
  waits s Q y K pre post -> K < 2 ^ 31 - 2 -> u ∈ running s :: pre ++ post ->
  0 <= getPriority s u <= K + 1.
Proof.
  intros HW HK Hu. apply charged_rank; [|lia].
  assert (u ∈ running s :: pre ++ [y] \/ u ∈ post) as [?|?] by set_solver.
  - eapply charged_mono; [by apply HW|lia].
  - by apply HW.
Qed.

Lemma togo_pos s Q y K pre post :
  waits s Q y K pre post -> K < 2 ^ 31 - 2 -> 151 <= togo s K pre post.
Proof.
  intros HW HK. pose proof (w_count _ _ _ _ _ _ HW) as Hc. unfold togo.
  pose proof (charged_rank s K (running s) (w_front _ _ _ _ _ _ HW (running s) ltac:(set_solver))
                ltac:(lia)).
  assert (0 <= lag (getPriority s) K (pre ++ post)).
  { apply lag_nonneg. intros u Hu. eapply waits_rank; [done|done|set_solver]. }
  assert (1 <= lag (getPriority s) K (running s :: pre ++ post)) by (simpl; lia). nia.
Qed.

Lemma togo_le s Q y K pre post :
  waits s Q y K pre post -> K < 2 ^ 31 - 2 -> 0 <= K ->
  togo s K pre post <= 151 * Z.of_nat (S (length (pre ++ post))) * (K + 2).
Proof.
  intros HW HK HK0. pose proof (w_count _ _ _ _ _ _ HW) as Hc. unfold togo.
  assert (lag (getPriority s) K (running s :: pre ++ post) <=
          (K + 1) * Z.of_nat (length (running s :: pre ++ post))) as Hl.
  { apply lag_le. intros u Hu. by eapply waits_rank. }
  change (length (running s :: pre ++ post)) with (S (length (pre ++ post))) in *. nia.
Qed.

(** Ticks bring a waiting thread to the processor. *)
Lemma waits_runs N s Q y K pre post :
  togo s K pre post < Z.of_nat N -> waits s Q y K pre post ->
  K < 2 ^ 31 - 2 -> K + togo s K pre post < 2 ^ 31 - 2 -> (length (pre ++ post) < 150)%nat ->
  exists n s' th, steps s (repeat Tick n) s' /\ running s' = y /\
    threads s !! y = Some th /\ cpu s' = context th /\ (0 < n)%nat /\
    Z.of_nat n * (150 - Z.of_nat (length (pre ++ post))) <= togo s K pre post.
Proof.
  revert s Q K pre post. induction N as [|N IH]; intros s Q K pre post HN HW HK HKt Hlen;
    pose proof (togo_pos s Q y K pre post HW HK) as Hpos; [lia|].
  destruct (waits_tick s Q y K pre post HW) as (s1 & E1 & Ey & [(ER & th & Et & EC)|Hgo]).
  { done. }
  - exists 1%nat, s1, th. split_and!; try done; [by econstructor; [|constructor]|lia|].
    lia.
  - destruct Hgo as (Q' & K' & pre' & post' & HW' & HK' & Hl & Eg).
    destruct (IH s1 Q' K' pre' post') as (n & s' & th & E & ER & Et & EC & Hn & Hb); try done; try lia.
    exists (S n), s', th. rewrite Hl in Hb. split_and!; try done; [by econstructor|congruence|lia|].
    rewrite Eg in Hb. lia.
Qed.

(** Every thread of a run queue of at most 150 threads is served. *)
Lemma queue_served s Q q y K :
  q_abs (hp s) Q -> Q !! run s = Some q -> y ∈ q -> NoDup (running s :: q) ->
  (length q <= 150)%nat -> 0 <= nSchedulings s <= 150 ->
  (forall u, u ∈ running s :: q -> charged s K u) ->
  K + 151 * Z.of_nat (length q) * (K + 2) < 2 ^ 31 - 2 ->
  exists n s' th, steps s (repeat Tick n) s' /\ running s' = y /\
    threads s !! y = Some th /\ cpu s' = context th /\ (0 < n)%nat /\
    Z.of_nat n * (151 - Z.of_nat (length q)) <= 151 * Z.of_nat (length q) * (K + 2).
Proof.
  intros HA HQ (pre & post & ->)%list_elem_of_split Hnd Hlen Hc Hch HK.
  assert (length (pre ++ y :: post) = S (length (pre ++ post))) as El
    by (by rewrite <- Permutation_middle). rewrite El in *.
  assert (0 <= K) as HK0 by (destruct (Hch (running s)) as (th & _ & ?); [set_solver|lia]).
  assert (waits s Q y K pre post) as HW.
  { split; try done.
    - intros u Hu. apply Hch. set_solver.
    - intros u Hu. eapply charged_mono; [apply Hch; set_solver|lia]. }
  assert (0 <= 151 * Z.of_nat (S (length (pre ++ post))) * (K + 2))
    by (apply Z.mul_nonneg_nonneg; lia).
  assert (K < 2 ^ 31 - 2) as HK1 by lia.
  pose proof (togo_le s Q y K pre post HW HK1 HK0) as Hle.
  pose proof (togo_pos s Q y K pre post HW HK1) as Hpos.
  destruct (waits_runs (Z.to_nat (togo s K pre post + 1)) s Q y K pre post)
    as (n & s' & th & E & ER & Et & EC & Hn & Hb); try done; try lia.
  exists n, s', th. split_and!; try done. lia.
Qed.
End Live.

(** ** Yields *)

Section Before.
Context (k : Z -> Z).

Lemma insert_le_before r y pre post :
  k r < k y -> exists pre', Queue.insert_le k r (pre ++ y :: post) = pre' ++ y :: post /\ pre' ≡ₚ r :: pre.
Proof.
  intros Hk. induction pre as [|x pre IH]; simpl.
  - destruct (Z.leb_spec (k y) (k r)); [lia|]. by exists [r].
  - destruct (Z.leb_spec (k x) (k r)); [|by exists (r :: x :: pre)].
    destruct IH as (pre' & -> & Hp). exists (x :: pre'). split; [done|].
    rewrite Hp. apply Permutation_swap.
Qed.

(** A thread with a smaller key goes ahead of one that is not the head. *)
Lemma insert_before r y x pre post :
  k r < k y ->
  exists pre', Queue.insert k r (x :: pre ++ y :: post) = x :: pre' ++ y :: post /\ pre' ≡ₚ r :: pre.
Proof.
  intros Hk. simpl. destruct (Z.leb_spec (k x) (k r)).
  - destruct (insert_le_before r y pre post Hk) as (pre' & -> & Hp). by exists pre'.
  - by exists (r :: pre).
Qed.

Lemma insert_le_last y q : (forall u, u ∈ q -> k u <= k y) -> Queue.insert_le k y q = q ++ [y].
Proof.
  induction q as [|x q IH]; intros Hq; simpl; [done|].
  destruct (Z.leb_spec (k x) (k y)); [by rewrite IH by set_solver|].
  specialize (Hq x ltac:(set_solver)). lia.
Qed.

Lemma foldl_behind y q : forall x pre, (forall u, u ∈ q -> k u < k y) ->
  exists pre', foldl (fun a t => Queue.insert k t a) (x :: pre ++ [y]) q = x :: pre' ++ [y].
Proof.
  induction q as [|u q IH]; intros x pre Hq; cbn [foldl]; [by exists pre|].
  destruct (insert_before u y x pre []) as (pre' & -> & _); [apply Hq; set_solver|].
  apply IH. set_solver.
Qed.

(** [orderByOldest] puts the youngest thread last, unless it is the head. *)
Lemma by_age_last y t q :
  y ∈ q -> NoDup (t :: q) -> (forall u, u ∈ t :: q -> u <> y -> k u < k y) ->
  exists pre, Queue.by_age k (t :: q) = t :: pre ++ [y] /\ pre ++ [y] ≡ₚ q.
Proof.
  intros (q1 & q2 & ->)%list_elem_of_split Hnd Hk.
  assert (forall u, u ∈ t :: q1 ++ q2 -> k u < k y) as Hlt.
  { intros u Hu. apply Hk; [set_solver|]. intros ->. revert Hnd.
    rewrite <- Permutation_middle, Permutation_swap, NoDup_cons. intros [[] _]. set_solver. }
  assert (list.head (Queue.by_age k (t :: q1 ++ y :: q2)) = Some t) as Eh
    by apply foldl_pushOrdered_head.
  assert (Queue.by_age k (t :: q1 ++ y :: q2) ≡ₚ t :: q1 ++ y :: q2) as Hp
    by (unfold Queue.by_age; by rewrite foldl_pushOrdered_perm).
  assert (exists pre, Queue.by_age k (t :: q1 ++ y :: q2) = t :: pre ++ [y]) as [pre E].
  { revert Eh. unfold Queue.by_age. change (t :: q1 ++ y :: q2) with ((t :: q1) ++ y :: q2).
    rewrite foldl_app. cbn [foldl].
    pose proof (foldl_pushOrdered_perm k (t :: q1) []) as Hp1.
    pose proof (foldl_pushOrdered_head k q1 t []) as Eh1. cbn [foldl Queue.insert] in *.
    destruct (foldl _ [t] q1) as [|x acc]; [done|]. simplify_eq/=.
    assert (forall u, u ∈ t :: acc -> k u < k y) as Hacc.
    { intros u. rewrite Hp1. intros Hu. apply Hlt. set_solver. }
    pose proof (Hacc t ltac:(set_solver)). destruct (Z.leb_spec (k t) (k y)); [|lia].
    rewrite insert_le_last by (intros u Hu; specialize (Hacc u ltac:(set_solver)); lia).
    intros _. apply foldl_behind. intros u Hu. apply Hlt. set_solver. }
  exists pre. split; [done|]. rewrite E in Hp. by apply Permutation_cons_inv in Hp.
Qed.
End Before.

Section Yields.
Context {H : Type} `{QueueLaws H}.
Implicit Types (s : os H) (Q : gmap Z (list Z)).

(** Thread [u] was charged for at least one quantum, for fewer than [y], and
    is older than [y]. *)
Definition rival (s : os H) (y u : Z) : Prop :=
  exists th thy, threads s !! u = Some th /\ threads s !! y = Some thy /\
    1 <= priority th < priority thy /\ priority thy < 2 ^ 31 /\
    wrapu 32 (born th) < wrapu 32 (born thy).

(** Thread [u] was interrupted in application code. *)
Definition in_user (s : os H) (u : Z) : Prop :=
  exists th, threads s !! u = Some th /\ context th = User.

Record shut_out s Q y pre post : Prop := {
  so_abs : q_abs (hp s) Q;
  so_run : Q !! run s = Some (pre ++ y :: post);
  so_two : (2 <= length pre)%nat;
  so_nodup : NoDup (running s :: pre ++ y :: post);
  so_rival u : u ∈ running s :: pre ++ post -> rival s y u;
  so_user u : u ∈ pre ++ post -> in_user s u;
  so_cpu : cpu s = User;
  so_count : 0 <= nSchedulings s <= 150
}.

Lemma rival_keys s y u :
  rival s y u -> getPriority s u < getPriority s y /\ getTimeCreated s u < getTimeCreated s y.
Proof.
  intros (th & thy & E1 & E2 & ? & ? & ?). unfold getPriority, getTimeCreated. rewrite E1, E2.
  rewrite !wraps_small; simpl; lia.
Qed.

(** A yield of a charged thread leaves its charge: only its context is
    saved. *)
Lemma yield_exact s Q t q th tht :
  q_abs (hp s) Q -> Q !! run s = Some (t :: q) ->
  threads s !! running s = Some th -> threads s !! t = Some tht -> t <> running s ->
  1 <= priority th < 2 ^ 31 -> 0 <= nSchedulings s <= 150 ->
  exists s', my_pthread_yield s = Ret (tt, s') /\ running s' = t /\ cpu s' = context tht /\
    threads s' = <[running s := upd_context (cpu s) th]> (threads s) /\ run s' = run s /\
    0 <= nSchedulings s' <= 150 /\
    q_abs (hp s') (<[run s := Queue.insert (getPriority s') (running s)
      (tail (reordered (getTimeCreated s) (nSchedulings s + 1) (t :: q)))]> Q).
Proof.
  intros HA HQ Er Et Hne Hp Hc. unfold my_pthread_yield. erewrite bind_Ret by done.
  erewrite bind_Ret by (by apply ld_thread_Ret).
  destruct (Z.gtb_spec (priority th) 0); [|lia]. erewrite bind_Ret by done.
  set (s1 := set_threads _ s).
  destruct (interrupt_exact s1 Q t q (upd_priority (priority th - 1) th) tht)
    as (s' & E & ER & EC & HA' & EN & ET & EQ & _); try done; simpl.
  { by rewrite lookup_insert_eq. }
  { by rewrite lookup_insert_ne. }
  simpl in EN, HA', ET. rewrite insert_insert_eq in ET.
  rewrite (wrapu_small 32 (nSchedulings s + 1)) in EN, HA' by lia.
  rewrite (reordered_ext _ (getTimeCreated s)) in HA'.
  2:{ intros x. unfold getTimeCreated. simpl. destruct (decide (running s = x)) as [<-|].
      - by rewrite lookup_insert_eq, Er.
      - by rewrite lookup_insert_ne. }
  exists s'. split_and!; try done.
  - rewrite ET. f_equal. destruct th. unfold upd_priority, upd_context. simpl in *.
    rewrite wrapu_small by lia. f_equal; lia.
  - rewrite EN. case_match; lia.
  - rewrite EN. destruct (Z.gtb_spec (nSchedulings s + 1) 150); lia.
Qed.

Lemma shut_out_reordered s Q y t pre post n :
  shut_out s Q y (t :: pre) post ->
  exists x l post1,
    tail (reordered (getTimeCreated s) n (t :: pre ++ y :: post)) = x :: l ++ y :: post1 /\
    x :: l ++ post1 ≡ₚ pre ++ post.
Proof.
  intros [HA HQ Htwo Hnd Hr Hu Hcpu Hc]. unfold reordered. destruct (n >? 150).
  - apply NoDup_cons in Hnd as [_ Hnd]. simpl in Hnd.
    destruct (by_age_last (getTimeCreated s) y t (pre ++ y :: post)) as (pre1 & -> & Hp);
      [set_solver|done| |].
    { intros u Hin Hne. apply rival_keys, Hr. set_solver. }
    rewrite <- !Permutation_middle, app_nil_r in Hp. apply Permutation_cons_inv in Hp.
    destruct pre1 as [|x l]; simpl.
    + apply Permutation_length in Hp. rewrite length_app in Hp. simpl in *. lia.
    + exists x, l, []. by rewrite app_nil_r.
  - destruct pre as [|x l]; [simpl in *; lia|]. by exists x, l, post.
Qed.

Lemma rival_saved s s' y u c th :
  threads s !! running s = Some th -> running s <> y ->
  threads s' = <[running s := upd_context c th]> (threads s) -> rival s y u -> rival s' y u.
Proof.
  intros Er Hy ET (thu & thy & E1 & E2 & Hr). unfold rival. rewrite ET.
  destruct (decide (u = running s)) as [->|].
  - rewrite Er in E1. simplify_eq. exists (upd_context c thu), thy.
    by rewrite lookup_insert_eq, lookup_insert_ne.
  - exists thu, thy. by rewrite !lookup_insert_ne by done.
Qed.

Lemma shut_out_yield s Q y pre post :
  shut_out s Q y pre post ->
  exists s' Q' pre' post', step Yield s s' /\ shut_out s' Q' y pre' post'.
Proof.
  intros HS. pose proof HS as [HA HQ Htwo Hnd Hr Hu Hcpu Hc].
  destruct pre as [|t pre]; [simpl in *; lia|].
  destruct (Hr (running s) ltac:(set_solver)) as (th & thy & Er & Ey & Hp & Hpy & _).
  destruct (Hu t ltac:(set_solver)) as (tht & Et & Ect).
  assert (running s ∉ t :: pre ++ y :: post) as Hrun by (by apply NoDup_cons in Hnd as [? _]).
  destruct (yield_exact s Q t (pre ++ y :: post) th tht)
    as (s' & E & ER & EC & ET & EQ & EN & HA'); try done; [set_solver|lia|].
  destruct (shut_out_reordered s Q y t pre post (nSchedulings s + 1) HS)
    as (x & l & post1 & Etl & Hperm). rewrite Etl in HA'. clear Etl.
  assert (forall u, rival s y u -> rival s' y u) as Hriv.
  { intros u. eapply rival_saved; [done| |done]. set_solver. }
  destruct (insert_before (getPriority s') (running s) y x l post1) as (l' & El & Hl).
  { apply rival_keys, Hriv, Hr. set_solver. }
  rewrite El in HA'.
  assert (x :: l' ++ post1 ≡ₚ running s :: pre ++ post) as Hp'.
  { rewrite Hl, <- Hperm. apply Permutation_swap. }
  eexists s', _, (x :: l'), post1. split; [split; [simpl; by rewrite bool_decide_true|done]|].
  split; [exact HA'|by rewrite EQ, lookup_insert_eq| | | | |by rewrite EC|done].
  - simpl. rewrite Hl. simpl. lia.
  - rewrite ER. eapply NoDup_Permutation_proper; [|exact Hnd]. simpl.
    rewrite <- !Permutation_middle, (Permutation_swap y x), Hp'.
    etrans; [|apply Permutation_swap]. apply Permutation_skip. apply Permutation_swap.
  - intros u. rewrite ER. simpl. rewrite Hp'. intros Hin. apply Hriv, Hr. set_solver.
  - intros u. simpl. rewrite Hp'. unfold in_user. rewrite ET.
    intros [->|Hin]%elem_of_cons; [rewrite lookup_insert_eq; by eexists|].
    rewrite lookup_insert_ne by set_solver. apply Hu. set_solver.
Qed.

Lemma shut_out_runs n : forall s Q y pre post,
  shut_out s Q y pre post ->
  exists s' Q' pre' post', steps s (repeat Yield n) s' /\ shut_out s' Q' y pre' post'.
Proof.
  induction n as [|n IH]; intros s Q y pre post HS; [by exists s, Q, pre, post; split; [constructor|]|].
  destruct (shut_out_yield s Q y pre post HS) as (s1 & Q1 & pre1 & post1 & E1 & HS1).
  destruct (IH s1 Q1 y pre1 post1 HS1) as (s' & Q' & pre' & post' & E & HS').
  exists s', Q', pre', post'. split; [by econstructor|done].
Qed.
End Yields.

(** ** Theorems *)

Section Thms.
Context {H : Type} `{QueueLaws H}.
Implicit Types (s : os H) (Q : gmap Z (list Z)).

(** C3: no starvation: in every state an execution reaches in which no call gave
    up for want of another thread, timer interrupts bring every thread [y] of the
    run queue [q] to the processor, at the place where it was interrupted, if the
    queue has at most 150 threads and the threads have been charged between 0 and
    [K] units each, where [K] is small enough that no charge reaches 2^31 on the
    way; whatever the ages are and however far away the next reordering by age
    is.  [n] interrupts are enough, where [n] is bounded by [K] and the number of
    threads. *)
Theorem no_starvation h0 gc fn a s1 es s Q q y K :
  q_abs h0 ∅ -> step (Create gc fn a) (boot h0) s1 -> good_steps s1 es s ->
  q_abs (hp s) Q -> Q !! run s = Some q -> y ∈ q -> (length q <= 150)%nat ->
  (forall u, u ∈ running s :: q -> charged s K u) ->
  K + 151 * Z.of_nat (length q) * (K + 2) < 2 ^ 31 - 2 ->
  exists n s' th, steps s (repeat Tick n) s' /\ running s' = y /\
    threads s !! y = Some th /\ cpu s' = context th /\ (0 < n)%nat /\
    Z.of_nat n * (151 - Z.of_nat (length q)) <= 151 * Z.of_nat (length q) * (K + 2).
Proof.
  intros HA0 [_ E1] Hes HA HQ Hy Hlen Hch HK.
  assert (inv s) as [Q0 HI].
  { eapply good_steps_inv; [|done]. by eapply (first_step_inv gc fn a (boot h0)). }
  assert (counted s) as Hc.
  { assert (counted s1) as Hc1 by (eapply counted_exec; [|exact E1]; unfold counted; simpl; lia).
    clear E1 HI HA HQ Hch. induction Hes as [|? ? ? ? ? [_ E] _ _ IH]; [done|].
    apply IH. by eapply counted_exec. }
  apply (queue_served s Q q y K); try done.
  destruct (i_run _ _ HI) as [q0 Eq0].
  rewrite (q_abs_unique _ _ _ _ _ _ HA (i_abs _ _ HI) HQ Eq0).
  pose proof (i_nodup _ _ HI) as Hnd. rewrite (flat_delete Q0 (run s) q0 Eq0), app_comm_cons in Hnd.
  by apply NoDup_app in Hnd as [? _].
Qed.

(** C33: yields are not charged: as long as a thread waits behind two others and
    all others have been charged for at least one quantum but for fewer than it,
    and are older, it does not get the processor however often the others yield,
    the reorderings by age included. *)
Theorem yields_starve s Q y pre post n :
  q_abs (hp s) Q -> Q !! run s = Some (pre ++ y :: post) -> (2 <= length pre)%nat ->
  NoDup (running s :: pre ++ y :: post) ->
  (forall u, u ∈ running s :: pre ++ post -> rival s y u) ->
  (forall u, u ∈ pre ++ post -> in_user s u) ->
  cpu s = User -> 0 <= nSchedulings s <= 150 ->
  exists s', steps s (repeat Yield n) s' /\ running s' <> y.
Proof.
  intros. destruct (shut_out_runs n s Q y pre post) as (s' & Q' & pre' & post' & E & HS); [done|].
  exists s'. split; [done|]. intros Ey. pose proof (so_nodup _ _ _ _ _ HS) as Hnd.
  apply NoDup_cons in Hnd as [[] _]. set_solver.
Qed.

(** A new thread is charged for its first yield: [my_pthread_yield] takes back
    in advance the unit the scheduler charges, but not below 0. *)
Theorem yield_charges_new s Q t q th tht :
  q_abs (hp s) Q -> Q !! run s = Some (t :: q) ->
  threads s !! running s = Some th -> threads s !! t = Some tht -> t <> running s ->
  priority th = 0 ->
  exists s' th', my_pthread_yield s = Ret (tt, s') /\ threads s' !! running s = Some th' /\
    priority th' = 1.
Proof.
  intros HA HQ Er Et Hne Hp. unfold my_pthread_yield. erewrite bind_Ret by done.
  erewrite bind_Ret by (by apply ld_thread_Ret). rewrite Hp. cbn [Z.gtb Z.compare].
  erewrite bind_Ret by done.
  destruct (interrupt_Ret s Q t q th tht) as (s' & q' & E & _ & _ & _ & _ & ET & _); [done..|].
  eexists s', _. split_and!; [done|by rewrite ET, lookup_insert_eq|]. simpl. by rewrite Hp.
Qed.
End Thms.

(** ** Witnesses *)

(** The main thread and the threads 7, 9 and 11; 11 was created later and has
    used one more quantum than the others, which only yield. *)
Definition four : os plain :=
  run_or [Create true 10 0; Create true 11 0; Clock 5; Create true 12 0;
          Yield; Advance; Yield; Advance; Yield; Advance; Tick;
          Yield; Yield; Yield; Tick; Yield] start.

(** Check a property of the structs of listed threads of a computed state. *)
Definition all_threads (s : os plain) (P : sthread -> bool) (us : list Z) : bool :=
  forallb (fun u => match threads s !! u with Some th => P th | None => false end) us.

Lemma all_threads_elim s P us u :
  all_threads s P us = true -> u ∈ us -> exists th, threads s !! u = Some th /\ P th = true.
Proof.
  unfold all_threads. rewrite forallb_forall. intros Hall Hu%list_elem_of_In. specialize (Hall u Hu).
  destruct (threads s !! u) as [th|]; [by exists th|done].
Qed.

(** The main thread created two threads; the queue is 7, 9. *)
Lemma no_starvation_witness :
  exists n s' th, steps three (repeat Tick n) s' /\ running s' = 9 /\
    threads three !! 9 = Some th /\ cpu s' = context th /\ (0 < n)%nat /\
    Z.of_nat n * (151 - 2) <= 151 * 2 * 2.
Proof.
  apply (no_starvation (∅, 1) true 10 0 two [Create true 11 0] three (qs three) [7; 9] 9 0).
  - by split_and!.
  - split; vm_compute; reflexivity.
  - apply run_good_steps. vm_compute. reflexivity.
  - plain_state.
  - vm_compute. reflexivity.
  - set_solver.
  - simpl. lia.
  - intros u Hu. destruct (all_threads_elim three (fun th => priority th =? 0) (running three :: [7; 9]) u)
      as (th & E & Hp); [vm_compute; reflexivity|done|].
    exists th. split; [done|]. apply Z.eqb_eq in Hp. lia.
  - vm_compute. reflexivity.
Defined.

Lemma yields_starve_witness :
  exists s', steps four (repeat Yield (Z.to_nat 1000000)) s' /\ running s' <> 11.
Proof.
  apply (yields_starve four (qs four) 11 [9; 2] []).
  - plain_state.
  - vm_compute. reflexivity.
  - simpl. lia.
  - apply (bool_decide_eq_true_1 (NoDup _)). vm_compute. reflexivity.
  - intros u Hu.
    destruct (all_threads_elim four (fun th => (priority th =? 1) && (born th =? 0))
      (running four :: [9; 2]) u) as (th & E & [Hp Hb]%andb_prop); [vm_compute; reflexivity|done|].
    destruct (all_threads_elim four (fun th => (priority th =? 2) && (born th =? 5))
      [11] 11) as (thy & Ey & [Hpy Hby]%andb_prop); [vm_compute; reflexivity|constructor|].
    apply Z.eqb_eq in Hp, Hb, Hpy, Hby. exists th, thy. rewrite Hp, Hb, Hpy, Hby.
    by split_and!.
  - intros u Hu. destruct (all_threads_elim four (fun th => bool_decide (context th = User)) [9; 2] u)
      as (th & E & Hp); [vm_compute; reflexivity|done|].
    exists th. split; [done|]. by apply bool_decide_eq_true in Hp.
  - vm_compute. reflexivity.
  - vm_compute. split; discriminate.
Defined.
