(* ===== verification/Block.v ===== *)
(** * The block device: block.c

    The disk file with the operating system's [pread] and [pwrite] on it, the
    two block operations of block.c, and the interface through which the file
    system uses them. *)

From S2P Require Import Prelude ByteMem.

Module Block.

Definition BLOCK_SIZE : Z := 512.

(** The disk file as the process sees it.  [rd_err] and [wr_err] say at which
    offsets the operating system reports an error. *)
Record disk := mkDisk {
  diskfile : Z;            (* the descriptor, -1 before [disk_open] *)
  live : bool;             (* the descriptor is open *)
  size : Z;                (* length of the file *)
  data : bytes;            (* its contents *)
  rd_err : Z -> bool;
  wr_err : Z -> bool
}.

(** [open_fd] is what [open] returns. *)
Definition disk_open (open_fd : Z) : prog disk unit := fun d =>
  if 0 <=? diskfile d then Ret (tt, d)
  else if open_fd <? 0 then Halt 1
  else Ret (tt, mkDisk open_fd true (size d) (data d) (rd_err d) (wr_err d)).

Definition disk_close : prog disk unit := fun d =>
  if 0 <=? diskfile d
  then Ret (tt, mkDisk (diskfile d) false (size d) (data d) (rd_err d) (wr_err d))
  else Ret (tt, d).

(** [pread(diskfile, buf, n, off)]: the result and the buffer *)
Definition pread (buf : bytes) (n off : Z) (d : disk) : Z * bytes :=
  if negb (live d) || (off <? 0) || rd_err d off then (-1, buf)
  else
    let k := Z.max 0 (Z.min n (size d - off)) in
    (k, blit (Z.to_nat k) buf 0 (data d) off).

(** [pwrite(diskfile, buf, n, off)] *)
Definition pwrite (buf : bytes) (n off : Z) (d : disk) : Z * disk :=
  if negb (live d) || (off <? 0) || wr_err d off then (-1, d)
  else
    (n, mkDisk (diskfile d) (live d) (Z.max (size d) (off + n))
          (blit (Z.to_nat n) (data d) off buf 0) (rd_err d) (wr_err d)).

Definition block_read (block_num : Z) (buf : bytes) : prog disk (Z * bytes) := fun d =>
  let (retstat, buf') := pread buf BLOCK_SIZE (wraps 32 (block_num * BLOCK_SIZE)) d in
  if retstat <=? 0 then Ret ((retstat, fill (Z.to_nat BLOCK_SIZE) buf' 0 0), d)
  else Ret ((retstat, buf'), d).

Definition block_write (block_num : Z) (buf : bytes) : prog disk Z := fun d =>
  let (retstat, d') := pwrite buf BLOCK_SIZE (wraps 32 (block_num * BLOCK_SIZE)) d in
  Ret (retstat, d').

(** The disk is open, the system reports no errors, and the file consists of
    whole blocks. *)
Record ok (d : disk) : Prop := {
  ok_fd : 0 <= diskfile d;
  ok_live : live d = true;
  ok_rd : forall off, rd_err d off = false;
  ok_wr : forall off, wr_err d off = false;
  ok_size : 0 <= size d;
  ok_blocks : size d `mod` BLOCK_SIZE = 0;
  ok_beyond : forall a, size d <= a -> rd8 (data d) a = 0
}.

(** The contents of block [n]. *)
Definition blk (d : disk) (n : Z) : bytes := blit 512 ∅ 0 (data d) (n * BLOCK_SIZE).

(** The block numbers whose offset fits the [int] the code computes it in. *)
Definition max_block : Z := 4194304.

End Block.

(** ** Buffers *)

(** Two buffers hold the same block. *)
Record same_block (b b' : bytes) : Prop := Same { same_bytes : agree_on 0 512 b b' }.
Infix "≈" := same_block (at level 70, no associativity) : os_scope.

#[export] Instance same_block_equiv : Equivalence same_block.
Proof.
  split.
  - intros b. by constructor.
  - intros b b' [Hb]. constructor. intros a Ha. by rewrite Hb.
  - intros b1 b2 b3 [H1] [H2]. constructor. intros a Ha. by rewrite H1, H2.
Qed.

(** ** The interface to the file system *)

(** [dev_size] is the [st_size] of [lstat] on the disk file. *)
Class BlockOps (D : Type) := {
  dev_open : prog D unit;
  dev_size : prog D Z;
  dev_read : Z -> bytes -> prog D (Z * bytes);
  dev_write : Z -> bytes -> prog D Z
}.

Class BlockLaws (D : Type) `{BlockOps D} := {
  d_ok : D -> Prop;
  d_blk : D -> Z -> bytes;
  dev_open_law d : d_ok d -> dev_open d = Ret (tt, d);
  dev_size_law d : d_ok d -> exists n, dev_size d = Ret (n, d) /\ (n = 0 -> d_blk d 0 ≈ ∅);
  dev_read_law d n buf : d_ok d -> 0 <= n < Block.max_block ->
    exists r buf', dev_read n buf d = Ret ((r, buf'), d) /\ 0 <= r /\ buf' ≈ d_blk d n;
  dev_write_law d n buf : d_ok d -> 0 <= n < Block.max_block ->
    exists d', dev_write n buf d = Ret (512, d') /\ d_ok d' /\
      forall m, 0 <= m < Block.max_block ->
        d_blk d' m ≈ (if decide (m = n) then buf else d_blk d m)
}.

Arguments BlockLaws D {_}.

#[export] Instance disk_ops : BlockOps Block.disk := {
  dev_open := Block.disk_open 3;
  dev_size := p_gets Block.size;
  dev_read := Block.block_read;
  dev_write := Block.block_write
}.

Lemma block_offset n :
  - Block.max_block <= n < Block.max_block -> wraps 32 (n * Block.BLOCK_SIZE) = n * 512.
Proof. intros Hn. apply wraps_small; [lia|]. unfold Block.max_block, Block.BLOCK_SIZE in *. lia. Qed.

(** A read on a good disk returns the block. *)
Lemma pread_block d n buf :
  Block.ok d -> 0 <= n -> exists k, Block.pread buf 512 (n * 512) d =
    (k, blit (Z.to_nat k) buf 0 (Block.data d) (n * 512)) /\
    (k = 512 \/ k = 0 /\ Block.size d <= n * 512).
Proof.
  intros [? Hl Hr _ Hs Hb _] Hn. unfold Block.pread. rewrite Hl, Hr.
  destruct (Z.ltb_spec (n * 512) 0); [lia|]. simpl. eexists. split; [done|].
  unfold Block.BLOCK_SIZE in Hb. apply Z_div_exact_2 in Hb; [|lia].
  destruct (decide (n < Block.size d / 512)); lia.
Qed.

Lemma disk_read d n buf :
  Block.ok d -> 0 <= n < Block.max_block ->
  exists r buf', Block.block_read n buf d = Ret ((r, buf'), d) /\ 0 <= r /\
    buf' ≈ Block.blk d n.
Proof.
  intros Hok Hn. unfold Block.block_read. rewrite block_offset by lia.
  change Block.BLOCK_SIZE with 512.
  destruct (pread_block d n buf Hok) as (k & -> & [-> | [-> Hsz]]); [lia|..].
  - eexists _, _. split_and!; [reflexivity|lia|]. constructor. intros j Hj.
    unfold Block.blk. rewrite !rd8_blit, !decide_True by lia. done.
  - eexists _, _. split_and!; [reflexivity|lia|]. constructor. intros j Hj.
    rewrite rd8_fill, decide_True by lia.
    unfold Block.blk. rewrite rd8_blit, decide_True by lia.
    change Block.BLOCK_SIZE with 512. rewrite (Block.ok_beyond d Hok); [done|lia].
Qed.

Lemma disk_write d n buf :
  Block.ok d -> 0 <= n < Block.max_block ->
  exists d', Block.block_write n buf d = Ret (512, d') /\ Block.ok d' /\
    forall m, 0 <= m < Block.max_block ->
      Block.blk d' m ≈ (if decide (m = n) then buf else Block.blk d m).
Proof.
  intros Hok Hn. unfold Block.block_write. rewrite block_offset by lia.
  unfold Block.pwrite. rewrite (Block.ok_live d Hok), (Block.ok_wr d Hok).
  destruct (Z.ltb_spec (n * 512) 0); [lia|]. cbn [negb orb].
  pose proof (rd8_blit (Z.to_nat Block.BLOCK_SIZE) (Block.data d) (n * 512) buf 0) as HD.
  revert HD. generalize (blit (Z.to_nat Block.BLOCK_SIZE) (Block.data d) (n * 512) buf 0).
  change Block.BLOCK_SIZE with 512. rewrite Z2Nat.id by lia. intros D HD.
  eexists. split; [reflexivity|split].
  - destruct Hok as [? ? ? ? Hs Hb Hz]. change Block.BLOCK_SIZE with 512 in Hb.
    split; simpl; try done; [lia|..].
    + change Block.BLOCK_SIZE with 512. apply Z_div_exact_2 in Hb; [|lia].
      destruct (Z.max_spec (Block.size d) (n * 512 + 512)) as [[_ ->]|[_ ->]].
      * replace (n * 512 + 512) with ((n + 1) * 512) by lia. apply Z_mod_mult.
      * rewrite Hb, Z.mul_comm. apply Z_mod_mult.
    + intros a Ha. rewrite HD, decide_False by lia. apply Hz. lia.
  - intros m Hm. constructor. intros j Hj. unfold Block.blk at 1. rewrite rd8_blit, decide_True by lia.
    change Block.BLOCK_SIZE with 512. simpl Block.data. rewrite HD.
    destruct (decide (m = n)) as [->|].
    + rewrite decide_True by lia. f_equal. lia.
    + rewrite decide_False by lia. unfold Block.blk. by rewrite rd8_blit, decide_True by lia.
Qed.

#[export] Instance disk_laws : BlockLaws Block.disk.
Proof.
  refine {| d_ok := Block.ok; d_blk := Block.blk |}.
  - intros d Hok. simpl. unfold Block.disk_open. destruct (Z.leb_spec 0 (Block.diskfile d)); [done|].
    pose proof (Block.ok_fd d Hok). lia.
  - intros d Hok. eexists. split; [reflexivity|]. intros E.
    constructor. intros a Ha. unfold Block.blk.
    rewrite rd8_blit, decide_True by lia. change Block.BLOCK_SIZE with 512.
    rewrite (Block.ok_beyond d Hok); [done|lia].
  - apply disk_read.
  - apply disk_write.
Defined.
