(* ===== verification/Sfs.v ===== *)
(** * The file system: sfs.c

    The operations of sfs.c over the block interface of [Block].  A 512-byte
    buffer of the C code is a byte memory addressed from 0; the structs are
    read and written in it at the offsets the x86-64 ABI gives their fields.
    A path is the list of its bytes without the final NUL. *)

From S2P Require Import Prelude ByteMem Block.

Module Sfs.

Definition DIRECTORY : Z := 0.
Definition FILE : Z := 1.
Definition NUM_DIRECT_POINTERS : Z := 44.
Definition MAGIC : Z := 4511000.
Definition MAX_FNAME : nat := 24.
Definition INUM_FREE : Z := 568754.
Definition ENOENT : Z := 2.
Definition SLASH : Z := 47.
Definition DOT : Z := 46.

(** [S_IFDIR] and [S_IFREG] with read and write permission for everybody *)
Definition dir_mode : Z := Z.lor 16384 438.
Definition file_mode : Z := Z.lor 32768 438.

(** An [int] of a buffer. *)
Definition ldi (b : bytes) (a : Z) : Z := wraps 32 (ld 4 b a).

(** ** The structs *)

Record superblock := mkSuper { imap : Z; iList : Z; dmap : Z; dList : Z; magicnum : Z }.

Definition rd_superblock (b : bytes) : superblock :=
  mkSuper (ldi b 0) (ldi b 4) (ldi b 8) (ldi b 12) (ldi b 16).

Record inode := mkInode {
  st_mode : Z; st_ino : Z; st_uid : Z; st_gid : Z;
  st_atime : Z; st_mtime : Z; st_ctime : Z;
  st_nlink : Z; st_size : Z; st_blocks : Z;
  opened : Z; used : Z;
  directp : list Z;
  indirectp : Z
}.

(** The [inode] at offset [o] of a buffer: [*(inode * )(buff + o)] *)
Definition rd_inode (b : bytes) (o : Z) : inode :=
  mkInode (ld 4 b o) (ld 8 b (o + 8)) (ld 4 b (o + 16)) (ld 4 b (o + 20))
    (wraps 64 (ld 8 b (o + 24))) (wraps 64 (ld 8 b (o + 32))) (wraps 64 (ld 8 b (o + 40)))
    (ld 8 b (o + 48)) (wraps 64 (ld 8 b (o + 56))) (wraps 64 (ld 8 b (o + 64)))
    (rd8 b (o + 72)) (rd8 b (o + 73))
    ((fun k => ldi b (o + 76 + 4 * k)) <$> seqZ 0 NUM_DIRECT_POINTERS)
    (ldi b (o + 252)).

(** The half of its block an inode is in, and the block. *)
Definition inode_half (inum : Z) : Z := if inum `mod` 2 =? 0 then 0 else 256.
Definition inode_block (inum : Z) : Z := wraps 32 (65 + inum / 2).

(** [struct mydir]: [inums[k]] and the address of [fnames[k]] *)
Definition inums (m : bytes) (k : Z) : Z := ld 8 m (8 * k).
Definition fnames (k : Z) : Z := 128 + Z.of_nat MAX_FNAME * k.

(** [strcmp(m.fnames[k], s) == 0], at address [a] of [m] *)
Fixpoint str_eq (m : bytes) (a : Z) (s : list Z) : bool :=
  match s with
  | [] => rd8 m a =? 0
  | c :: s' => (rd8 m a =? c) && str_eq m (a + 1) s'
  end.

(** The C string at address [a] of a buffer, at most [n] bytes away from its
    end. *)
Fixpoint cstr (n : nat) (m : bytes) (a : Z) : option (list Z) :=
  match n with
  | O => None
  | S n' => if rd8 m a =? 0 then Some [] else cons (rd8 m a) <$> cstr n' m (a + 1)
  end.

(** ** Scans of a buffer *)

Fixpoint first_zero (n : nat) (b : bytes) (j : Z) : option Z :=
  match n with
  | O => None
  | S n' => if rd8 b j =? 0 then Some j else first_zero n' b (j + 1)
  end.

(** The directory entry with name [s], and the first free one. *)
Fixpoint find_entry (n : nat) (m : bytes) (k : Z) (s : list Z) : option Z :=
  match n with
  | O => None
  | S n' =>
      if negb (inums m k =? INUM_FREE) && str_eq m (fnames k) s then Some k
      else find_entry n' m (k + 1) s
  end.

Fixpoint free_slot (n : nat) (m : bytes) (j : Z) : option Z :=
  match n with
  | O => None
  | S n' => if inums m j =? INUM_FREE then Some j else free_slot n' m (j + 1)
  end.

(** Split a path at its first slash. *)
Fixpoint component (l : list Z) : list Z * list Z :=
  match l with
  | [] => ([], [])
  | c :: l' => if c =? SLASH then ([], l) else let (n, r) := component l' in (c :: n, r)
  end.

(** What [getattr] stores in the caller's [struct stat]. *)
Record stat := mkStat { s_ino : Z; s_mode : Z; s_nlink : Z; s_size : Z }.

Section Fs.
Context {D : Type} `{BlockOps D}.

(** What uninitialised stack buffers hold; the effective user and group; the
    time. *)
Context (junk : bytes) (euid egid now : Z).

Abbreviation M := (prog D).

(** ** Allocation *)

Fixpoint dmap_loop (fuel : nat) (s : superblock) (bnum : Z) (buf : bytes) : M Z :=
  match fuel with
  | O => p_timeout
  | S f =>
      if bnum <? iList s then
        r ← dev_read bnum buf;
        match first_zero 512 r.2 0 with
        | Some j =>
            w ← dev_write bnum (st 1 r.2 j 1);
            if w =? 512 then mret (wraps 32 (512 * (bnum - dmap s) + j + dList s))
            else mret (-1)
        | None => dmap_loop f s (bnum + 1) r.2
        end
      else mret (-1)
  end.

Definition reserveFreeData : M Z :=
  r ← dev_read 0 junk;
  let s := rd_superblock r.2 in
  dmap_loop (S (Z.to_nat (iList s - dmap s))) s (dmap s) junk.

(** The assignments to [*ti], the inode at offset [o] of [b]. *)
Definition set_inode (type inum : Z) (b : bytes) (o : Z) : bytes :=
  let b := st 4 b o (if type =? DIRECTORY then dir_mode else file_mode) in
  let b := st 8 b (o + 8) inum in
  let b := st 4 b (o + 16) euid in
  let b := st 4 b (o + 20) egid in
  let b := st 8 b (o + 24) now in
  let b := st 8 b (o + 32) now in
  let b := st 8 b (o + 40) now in
  let b := st 1 b (o + 72) 0 in
  let b := st 1 b (o + 73) 0 in
  let b := fill 176 b (o + 76) 0 in
  st 4 b (o + 252) 0.

Fixpoint imap_loop (fuel : nat) (type : Z) (s : superblock) (iplace : Z) (buf : bytes) : M Z :=
  match fuel with
  | O => p_timeout
  | S f =>
      if iplace <? dmap s then
        r ← dev_read iplace buf;
        match first_zero 512 r.2 0 with
        | Some j =>
            dev_write iplace (st 1 r.2 j 1);;
            let inum := wrapu 32 (512 * (iplace - imap s) + j) in
            ri ← dev_read (inode_block inum) junk;
            dev_write (inode_block inum) (set_inode type inum ri.2 (inode_half inum));;
            mret inum
        | None => imap_loop f type s (iplace + 1) r.2
        end
      else mret 0
  end.

Definition reserveFreeInode (type : Z) : M Z :=
  r ← dev_read 0 junk;
  let s := rd_superblock r.2 in
  imap_loop (S (Z.to_nat (dmap s - imap s))) type s (imap s) junk.

(** The result and the inode stored through [in]; [old] is what was there. *)
Definition getInode (inum : Z) (old : inode) : M (Z * inode) :=
  r ← dev_read (inode_block inum) junk;
  if r.1 <? 0 then mret (-1, old)
  else mret (0, rd_inode r.2 (inode_half inum)).

(** ** Directories *)

(** [for(i = n; i < 16; i++) d.inums[i] = INUM_FREE;] *)
Fixpoint free_from (k : nat) (b : bytes) (i : Z) : bytes :=
  match k with
  | O => b
  | S k' => free_from k' (st 8 b (8 * i) INUM_FREE) (i + 1)
  end.

Definition dir_block (d : bytes) (selfinum parentinum : Z) : bytes :=
  let d := st 8 d 0 selfinum in
  let d := st_list d (fnames 0) [DOT; 0] in
  let d :=
    if negb (selfinum =? parentinum) then
      st_list (st 8 d 8 parentinum) (fnames 1) [DOT; DOT; 0]
    else st 8 d 8 INUM_FREE in
  free_from 14 d 2.

Definition initDir (blocknum selfinum parentinum : Z) : M unit :=
  r ← dev_read blocknum junk;
  dev_write blocknum (dir_block r.2 selfinum parentinum);;
  mret tt.

(** The loops over [q] and [k] of [navPath]: look [name] up in the blocks
    [ptrs] of a directory; the buffers [targibuff] and [m] and the offset of
    [t] are passed along. *)
Fixpoint search (s : superblock) (name : list Z) (ptrs : list Z) (tb : bytes) (t : Z) (m : bytes)
    : M (bool * bytes * Z * bytes) :=
  match ptrs with
  | [] => mret (false, tb, t, m)
  | dp :: ptrs' =>
      if dp =? 0 then search s name ptrs' tb t m
      else
        r ← dev_read dp m;
        match find_entry 16 r.2 0 name with
        | Some k =>
            ri ← dev_read (wraps 32 (inums r.2 k / 2 + iList s)) tb;
            mret (true, ri.2, inode_half (inums r.2 k), r.2)
        | None => search s name ptrs' tb t r.2
        end
  end.

(** The outer loop of [navPath]; [rest] is [&path[i]]. *)
Fixpoint nav_loop (fuel : nat) (s : superblock) (par0 targ0 : inode) (failcounter : Z)
    (rest : list Z) (tb : bytes) (t : Z) (m : bytes) : M (Z * inode * inode) :=
  match fuel with
  | O => p_timeout
  | S f =>
      if 10000 <? failcounter + 1 then mret (-1, par0, targ0)
      else
        let p := rd_inode tb t in
        let '(name, r) := component rest in
        if (MAX_FNAME <=? length name)%nat then p_fault
        else
          '(success, tb', t', m') ← search s name (directp p) tb t m;
          let rest' := tail r in
          if bool_decide (r = []) || bool_decide (rest' = []) || bool_decide (rest' = [SLASH])
          then mret (if success : bool then 0 else -1, p, rd_inode tb' t')
          else nav_loop f s par0 targ0 (failcounter + 1) rest' tb' t' m'
  end.

(** The result, [*par] and [*targ]. *)
Definition navPath (path : list Z) : M (Z * inode * inode) :=
  r ← dev_read 0 junk;
  let s := rd_superblock r.2 in
  rp ← dev_read (iList s) junk;
  rt ← dev_read (iList s) junk;
  if (length path =? 1)%nat || (length path =? 0)%nat
  then mret (0, rd_inode rp.2 0, rd_inode rt.2 0)
  else
    nav_loop (S (length path)) s (rd_inode junk 0) (rd_inode junk 0) 0 (drop 1 path) rt.2 0 junk.

Definition set_directp (i b : Z) (n : inode) : inode :=
  mkInode (st_mode n) (st_ino n) (st_uid n) (st_gid n) (st_atime n) (st_mtime n) (st_ctime n)
    (st_nlink n) (st_size n) (st_blocks n) (opened n) (used n)
    (<[Z.to_nat i := b]> (directp n)) (indirectp n).

(** [in->directp[i]]; outside the array the access is undefined. *)
Definition get_directp (i : Z) (n : inode) : M Z :=
  if 0 <=? i then
    match directp n !! Z.to_nat i with Some b => mret b | None => p_fault end
  else p_fault.

(** [strcpy] to address [a] of a 512-byte buffer *)
Definition strcpy (b : bytes) (a : Z) (s : list Z) : M bytes :=
  if a + Z.of_nat (length s) + 1 <=? 512 then mret (st_list b a (s ++ [0])) else p_fault.

(** A first block for the slot [i] of the directory [inn]: [None] when there
    is none left. *)
Definition grow_dir (par inn : inode) (i : Z) : M (option inode) :=
  b ← reserveFreeData;
  if b =? -1 then mret None
  else
    initDir b (st_ino inn) (st_ino par);;
    r ← dev_read (inode_block (st_ino inn)) junk;
    dev_write (inode_block (st_ino inn))
      (st 4 r.2 (inode_half (st_ino inn) + 76 + 4 * i) b);;
    mret (Some (set_directp i b inn)).

(** The loop of [updateDir], which does not change [i]. *)
Fixpoint updateDir_loop (fuel : nat) (newname : list Z) (par inn : inode) (newino i : Z)
    (dirbuff : bytes) : M Z :=
  match fuel with
  | O => p_timeout
  | S f =>
      if i <? NUM_DIRECT_POINTERS then
        dp ← get_directp i inn;
        o ← (if dp =? 0 then grow_dir par inn i else mret (Some inn));
        match o with
        | None => mret (-1)
        | Some inn' =>
            dp' ← get_directp i inn';
            r ← dev_read dp' dirbuff;
            if r.1 <? 0 then mret (-1)
            else
              match free_slot 16 r.2 0 with
              | Some j =>
                  b ← strcpy (st 8 r.2 (8 * j) newino) (fnames j) newname;
                  dev_write dp' b;;
                  mret 0
              | None => updateDir_loop f newname par inn' newino i r.2
              end
        end
      else mret (-1)
  end.

(** [i0] is what the uninitialised [i] holds. *)
Definition updateDir (fuel : nat) (i0 : Z) (newname : list Z) (par inn : inode) (newino : Z) : M Z :=
  updateDir_loop fuel newname par inn newino i0 junk.

(** ** The FUSE operations *)

(** [for(i = 1; i < sbp->iList; i++)]: the empty maps, inode 0 taken *)
Fixpoint init_maps (fuel : nat) (i last : Z) : M Z :=
  match fuel with
  | O => p_timeout
  | S f =>
      if i <? last then
        dev_write i (st 1 (fill 512 ∅ 0 0) 0 (if i =? 1 then 1 else 0));;
        init_maps f (i + 1) last
      else mret i
  end.

Definition set_superblock (b : bytes) : bytes :=
  let b := st 4 b 16 MAGIC in
  let b := st 4 b 0 1 in
  let b := st 4 b 8 5 in
  let b := st 4 b 4 65 in
  st 4 b 12 1089.

(** The root inode in the uninitialised [ibuff], up to the reservation of its
    directory block. *)
Definition set_root (b : bytes) : bytes :=
  let b := st 4 b 0 dir_mode in
  let b := st 8 b 8 0 in
  let b := st 4 b 16 euid in
  let b := st 4 b 20 egid in
  let b := st 8 b 24 now in
  let b := st 8 b 32 now in
  let b := st 8 b 40 now in
  let b := st 8 b 48 1 in
  let b := st 8 b 56 0 in
  let b := st 8 b 64 1 in
  let b := st 1 b 72 0 in
  let b := st 1 b 73 0 in
  fill 172 b 80 0.

Definition format (sb : bytes) : M unit :=
  let sb := set_superblock sb in
  dev_write 0 sb;;
  i ← init_maps 66 1 (iList (rd_superblock sb));
  b ← reserveFreeData;
  let ibuff := st 4 (set_root junk) 76 b in
  initDir b 0 0;;
  dev_write i (st 4 ibuff 252 0);;
  mret tt.

Definition sfs_init : M unit :=
  dev_open;;
  r ← dev_read 0 junk;
  n ← dev_size;
  if (n =? 0) || negb (magicnum (rd_superblock r.2) =? MAGIC) then format r.2
  else mret tt.

Definition sfs_destroy : M unit := mret tt.

(** The result and what is stored in [*statbuf]. *)
Definition sfs_getattr (path : list Z) : M (Z * option stat) :=
  '(ret, par, targ) ← navPath path;
  if ret =? -1 then mret (- ENOENT, None)
  else mret (0, Some (mkStat (st_ino targ) (st_mode targ) 1 512)).

(** The position of the last slash, searched from [i] downwards. *)
Fixpoint last_slash (path : list Z) (i : nat) : option nat :=
  if bool_decide (path !! i = Some SLASH) then Some i
  else match i with O => None | S i' => last_slash path i' end.

(** [sfs_create] and [sfs_mkdir], which differ in the type of the inode. *)
Definition make (fuel : nat) (i0 type : Z) (path : list Z) : M Z :=
  if (255 <=? length path)%nat then mret (-1)
  else
    match last_slash path (length path) with
    | None => mret (-1)
    | Some i =>
        let currdir := take i path in
        '(ret, par, targ) ← navPath currdir;
        if ret =? -1 then mret (-1)
        else
          inum ← reserveFreeInode type;
          if inum =? 0 then mret (-1)
          else
            getInode inum (rd_inode junk 0);;
            let fn := drop (length currdir + 1) path in
            if (MAX_FNAME <=? length fn)%nat then p_fault
            else
              u ← updateDir fuel i0 fn par targ inum;
              if u =? -1 then mret (-1) else mret 0
    end.

Definition sfs_create (fuel : nat) (i0 : Z) (path : list Z) : M Z := make fuel i0 FILE path.
Definition sfs_mkdir (fuel : nat) (i0 : Z) (path : list Z) : M Z := make fuel i0 DIRECTORY path.

Definition sfs_opendir (path : list Z) : M Z :=
  '(ret, par, targ) ← navPath path;
  if ret =? -1 then mret (-1) else mret 0.

(** ** Reading a directory *)

(** FUSE's buffer and the callback that adds a name to it. *)
Context {F : Type} (filler : F -> list Z -> Z * F).

Fixpoint fill_entries (n : nat) (m : bytes) (j : Z) (buf : F) : M (bool * F) :=
  match n with
  | O => mret (true, buf)
  | S n' =>
      if negb (inums m j =? INUM_FREE) then
        match cstr (Z.to_nat (512 - fnames j)) m (fnames j) with
        | None => p_fault
        | Some name =>
            let (dfg, buf') := filler buf name in
            if negb (dfg =? 0) then mret (false, buf') else fill_entries n' m (j + 1) buf'
        end
      else fill_entries n' m (j + 1) buf
  end.

Fixpoint fill_blocks (ptrs : list Z) (m : bytes) (buf : F) : M F :=
  match ptrs with
  | [] => mret buf
  | dp :: ptrs' =>
      if dp =? 0 then fill_blocks ptrs' m buf
      else
        r ← dev_read dp m;
        '(more, buf') ← fill_entries 16 r.2 0 buf;
        if more : bool then fill_blocks ptrs' r.2 buf' else mret buf'
  end.

(** [S_ISDIR] *)
Definition is_dir (mode : Z) : bool := Z.land mode 61440 =? 16384.

Definition sfs_readdir (path : list Z) (buf : F) : M (Z * F) :=
  '(ret, par, targ) ← navPath path;
  if negb (is_dir (st_mode targ)) then mret (-1, buf)
  else
    buf' ← fill_blocks (directp targ) junk buf;
    mret (0, buf').

(** ** Operations without a body *)

Definition sfs_unlink (path : list Z) : M Z := mret 0.
Definition sfs_open (path : list Z) : M Z := mret 0.
Definition sfs_release (path : list Z) : M Z := mret 0.
Definition sfs_read (path : list Z) (size offset : Z) : M Z := mret 0.
Definition sfs_write (path : list Z) (buf : list Z) (size offset : Z) : M Z := mret 0.
Definition sfs_rmdir (path : list Z) : M Z := mret 0.
Definition sfs_releasedir (path : list Z) : M Z := mret 0.

End Fs.
End Sfs.
