(* ===== verification/SfsBuf.v ===== *)
(** * The file system: buffers

    The functions of [Sfs] that decode a 512-byte buffer depend on its 512
    bytes only, and the ones that change a buffer change them in the same way;
    so both respect the equivalence of buffers.  What a scan of a buffer
    finds. *)

From S2P Require Import Prelude ByteMem Block Sfs.
Import Sfs.

(** ** Equivalence *)

Lemma ld_same n b b' a : b ≈ b' -> 0 <= a -> a + Z.of_nat n <= 512 -> ld n b a = ld n b' a.
Proof. intros [Hb] ??. by eapply ld_agree. Qed.

Lemma ldi_same b b' a : b ≈ b' -> 0 <= a -> a + 4 <= 512 -> ldi b a = ldi b' a.
Proof. intros. unfold ldi. f_equal. by apply ld_same. Qed.

#[export] Instance st_proper n : Proper (same_block ==> eq ==> eq ==> same_block) (st n).
Proof. intros b b' Hb a ? <- v ? <-. constructor. intros j Hj. rewrite !rd8_st. case_decide; [done|by apply (same_bytes _ _ Hb)]. Qed.

#[export] Instance st_list_proper : Proper (same_block ==> eq ==> eq ==> same_block) st_list.
Proof. intros b b' Hb a ? <- l ? <-. constructor. intros j Hj. rewrite !rd8_st_list. case_decide; [done|by apply (same_bytes _ _ Hb)]. Qed.

#[export] Instance fill_proper n : Proper (same_block ==> eq ==> eq ==> same_block) (fill n).
Proof. intros b b' Hb a ? <- v ? <-. constructor. intros j Hj. rewrite !rd8_fill. case_decide; [done|by apply (same_bytes _ _ Hb)]. Qed.

#[export] Instance free_from_proper k : Proper (same_block ==> eq ==> same_block) (free_from k).
Proof.
  induction k as [|k IH]; intros b b' Hb i ? <-; simpl; [done|]. by rewrite Hb.
Qed.

#[export] Instance dir_block_proper : Proper (same_block ==> eq ==> eq ==> same_block) dir_block.
Proof.
  intros b b' Hb s ? <- p ? <-. unfold dir_block. cbn zeta.
  destruct (negb (s =? p)); by rewrite Hb.
Qed.

#[export] Instance set_inode_proper e g n t i :
  Proper (same_block ==> eq ==> same_block) (set_inode e g n t i).
Proof. intros b b' Hb o ? <-. unfold set_inode. cbn zeta. by rewrite Hb. Qed.

#[export] Instance rd_superblock_proper : Proper (same_block ==> eq) rd_superblock.
Proof. intros b b' Hb. unfold rd_superblock. f_equal; apply ldi_same; done || lia. Qed.

Lemma rd_inode_same b b' o : b ≈ b' -> 0 <= o <= 256 -> rd_inode b o = rd_inode b' o.
Proof.
  intros Hb Ho. unfold rd_inode. f_equal; try (apply ld_same; done || lia);
    try (f_equal; apply ld_same; done || lia); try (apply (same_bytes _ _ Hb); lia); try (apply ldi_same; done || lia).
  apply list_fmap_ext. intros i k Hk%lookup_seqZ. apply ldi_same; [done|..];
    unfold NUM_DIRECT_POINTERS in *; lia.
Qed.

Lemma inums_same b b' k : b ≈ b' -> 0 <= k < 16 -> inums b k = inums b' k.
Proof. intros. unfold inums. apply ld_same; done || lia. Qed.

Lemma first_zero_same n b b' j :
  b ≈ b' -> 0 <= j -> j + Z.of_nat n <= 512 -> first_zero n b j = first_zero n b' j.
Proof.
  intros Hb. revert j. induction n as [|n IH]; intros j ??; simpl; [done|].
  rewrite (same_bytes _ _ Hb j) by lia. case_match; [done|]. apply IH; lia.
Qed.

Lemma str_eq_same b b' a s :
  b ≈ b' -> 0 <= a -> a + Z.of_nat (length s) < 512 -> str_eq b a s = str_eq b' a s.
Proof.
  intros Hb. revert a. induction s as [|c s IH]; intros a ??; simpl in *.
  - by rewrite (same_bytes _ _ Hb a) by lia.
  - rewrite (same_bytes _ _ Hb a) by lia. f_equal. apply IH; lia.
Qed.

Lemma free_slot_same n b b' j :
  b ≈ b' -> 0 <= j -> j + Z.of_nat n <= 16 -> free_slot n b j = free_slot n b' j.
Proof.
  intros Hb. revert j. induction n as [|n IH]; intros j ??; simpl; [done|].
  rewrite (inums_same b b' j) by (done || lia). case_match; [done|]. apply IH; lia.
Qed.

Lemma find_entry_same n b b' k s :
  b ≈ b' -> (length s < MAX_FNAME)%nat -> 0 <= k -> k + Z.of_nat n <= 16 ->
  find_entry n b k s = find_entry n b' k s.
Proof.
  intros Hb Hs. revert k. induction n as [|n IH]; intros k ??; simpl; [done|].
  rewrite (inums_same b b' k) by (done || lia).
  rewrite (str_eq_same b b' (fnames k) s) by (first [done | unfold fnames, MAX_FNAME in *; lia]).
  destruct (negb _ && _); [done|]. apply IH; lia.
Qed.

(** ** Scans *)

Lemma first_zero_Some n b j r :
  first_zero n b j = Some r ->
  j <= r < j + Z.of_nat n /\ rd8 b r = 0 /\ forall i, j <= i < r -> rd8 b i <> 0.
Proof.
  revert j. induction n as [|n IH]; intros j; simpl; [done|].
  destruct (Z.eqb_spec (rd8 b j) 0) as [E|E].
  - intros [= <-]. split; [lia|split; [done|lia]].
  - intros (? & ? & Hlt)%IH. split; [lia|split; [done|]].
    intros i Hi. destruct (decide (i = j)) as [->|]; [done|]. apply Hlt. lia.
Qed.

Lemma first_zero_None n b j :
  first_zero n b j = None -> forall i, j <= i < j + Z.of_nat n -> rd8 b i <> 0.
Proof.
  revert j. induction n as [|n IH]; intros j; simpl; [lia|].
  destruct (Z.eqb_spec (rd8 b j) 0) as [E|E]; [done|]. intros Hn i Hi.
  destruct (decide (i = j)) as [->|]; [done|]. apply (IH (j + 1)); [done|lia].
Qed.

Lemma free_slot_Some n m j r :
  free_slot n m j = Some r ->
  j <= r < j + Z.of_nat n /\ inums m r = INUM_FREE /\
  forall i, j <= i < r -> inums m i <> INUM_FREE.
Proof.
  revert j. induction n as [|n IH]; intros j; simpl; [done|].
  destruct (Z.eqb_spec (inums m j) INUM_FREE) as [E|E].
  - intros [= <-]. split; [lia|split; [done|lia]].
  - intros (? & ? & Hlt)%IH. split; [lia|split; [done|]].
    intros i Hi. destruct (decide (i = j)) as [->|]; [done|]. apply Hlt. lia.
Qed.

Lemma free_slot_None n m j :
  free_slot n m j = None <-> forall i, j <= i < j + Z.of_nat n -> inums m i <> INUM_FREE.
Proof.
  revert j. induction n as [|n IH]; intros j; simpl; [split; [lia|done]|].
  destruct (Z.eqb_spec (inums m j) INUM_FREE) as [E|E].
  - split; [done|]. intros Hn. exfalso. apply (Hn j); [lia|done].
  - rewrite IH. split; intros Hn i Hi.
    + destruct (decide (i = j)) as [->|]; [done|]. apply Hn. lia.
    + apply Hn. lia.
Qed.

(** An entry is in use and has the name. *)
Definition entry_named (m : bytes) (s : list Z) (k : Z) : bool :=
  negb (inums m k =? INUM_FREE) && str_eq m (fnames k) s.

Lemma find_entry_Some n m k s r :
  find_entry n m k s = Some r ->
  k <= r < k + Z.of_nat n /\ entry_named m s r = true /\
  forall i, k <= i < r -> entry_named m s i = false.
Proof.
  revert k. induction n as [|n IH]; intros k; simpl; [done|]. fold (entry_named m s k).
  destruct (entry_named m s k) eqn:E.
  - intros [= <-]. split; [lia|split; [done|lia]].
  - intros (? & ? & Hlt)%IH. split; [lia|split; [done|]].
    intros i Hi. destruct (decide (i = k)) as [->|]; [done|]. apply Hlt. lia.
Qed.

Lemma find_entry_None n m k s :
  find_entry n m k s = None <-> forall i, k <= i < k + Z.of_nat n -> entry_named m s i = false.
Proof.
  revert k. induction n as [|n IH]; intros k; simpl; [split; [lia|done]|].
  fold (entry_named m s k). destruct (entry_named m s k) eqn:E.
  - split; [done|]. intros Hn. rewrite (Hn k) in E; [done|lia].
  - rewrite IH. split; intros Hn i Hi.
    + destruct (decide (i = k)) as [->|]; [done|]. apply Hn. lia.
    + apply Hn. lia.
Qed.

#[global] Arguments first_zero : simpl never.
#[global] Arguments find_entry : simpl never.
#[global] Arguments free_slot : simpl never.
