(* ===== verification/SfsSpec.v ===== *)
(** * The file system: what the operations do to the blocks

    The state of the disk is described by a view, a function from block
    numbers to contents; every operation of [Sfs] that does not fail is shown
    to turn the view into an explicit other one. *)

From S2P Require Import Prelude ByteMem Block Sfs SfsBuf.
Import Sfs.

Abbreviation view := (Z -> bytes).

Definition vset (V : view) (n : Z) (b : bytes) : view := fun m => if decide (m = n) then b else V m.

Lemma vset_eq V n b : vset V n b n = b.
Proof. unfold vset. by rewrite decide_True. Qed.

Lemma vset_ne V n b m : m <> n -> vset V n b m = V m.
Proof. intros. unfold vset. by rewrite decide_False. Qed.

(** The layout [sfs_init] gives the disk. *)
Definition geometry : superblock := mkSuper 1 65 5 1089 MAGIC.

(** ** The maps *)

(** Entry [i] of the map that starts at block [base], and the map with entry
    [i] taken. *)
Definition map_at (V : view) (base i : Z) : Z := rd8 (V (base + i / 512)) (i `mod` 512).
Definition map_set (V : view) (base i : Z) : view :=
  vset V (base + i / 512) (st 1 (V (base + i / 512)) (i `mod` 512) 1).

(** The first free entry of a map of [n] blocks. *)
Definition first_free (V : view) (base n i : Z) : Prop :=
  0 <= i < 512 * n /\ map_at V base i = 0 /\ forall i', 0 <= i' < i -> map_at V base i' <> 0.
Definition full (V : view) (base n : Z) : Prop :=
  forall i, 0 <= i < 512 * n -> map_at V base i <> 0.

Lemma entry_div k j : 0 <= j < 512 -> (512 * k + j) / 512 = k.
Proof. intros. rewrite Z.mul_comm, Z.div_add_l, Z.div_small by lia. lia. Qed.

Lemma entry_mod k j : 0 <= j < 512 -> (512 * k + j) `mod` 512 = j.
Proof. intros. rewrite Z.add_comm, Z.mul_comm, Z.mod_add, Z.mod_small by lia. done. Qed.

Lemma map_at_block V base k j : 0 <= j < 512 -> map_at V base (512 * k + j) = rd8 (V (base + k)) j.
Proof. intros. unfold map_at. by rewrite entry_div, entry_mod by lia. Qed.

Lemma map_set_block V base k j :
  0 <= j < 512 -> map_set V base (512 * k + j) = vset V (base + k) (st 1 (V (base + k)) j 1).
Proof. intros. unfold map_set. by rewrite entry_div, entry_mod by lia. Qed.

Lemma map_at_set V base i i' :
  0 <= i -> 0 <= i' -> map_at (map_set V base i) base i' = if decide (i' = i) then 1 else map_at V base i'.
Proof.
  intros Hi Hi'. unfold map_at at 1, map_set.
  pose proof (Z.div_mod i 512). pose proof (Z.div_mod i' 512).
  pose proof (Z.mod_pos_bound i 512). pose proof (Z.mod_pos_bound i' 512).
  destruct (decide (base + i' / 512 = base + i / 512)) as [E|E].
  - rewrite E, vset_eq, rd8_st. destruct (decide (i' = i)) as [->|].
    + rewrite decide_True by lia. by rewrite Z.sub_diag.
    + rewrite decide_False by lia. unfold map_at. do 2 f_equal. lia.
  - rewrite vset_ne by done. rewrite decide_False; [done|]. intros ->. lia.
Qed.

Lemma map_at_out V base n b i :
  0 <= i -> (n < base \/ base + i / 512 < n) -> map_at (vset V n b) base i = map_at V base i.
Proof. intros. unfold map_at. rewrite vset_ne; [done|]. pose proof (Z.div_pos i 512). lia. Qed.

(** One more block of a map is scanned. *)
Lemma first_zero_free V base n k j :
  0 <= k < n -> (forall i, 0 <= i < 512 * k -> map_at V base i <> 0) ->
  first_zero 512 (V (base + k)) 0 = Some j ->
  0 <= j < 512 /\ first_free V base n (512 * k + j).
Proof.
  intros Hk Hprev (Hj & Ez & Hlt)%first_zero_Some. split; [lia|]. split; [lia|].
  rewrite map_at_block by lia. split; [done|]. intros i Hi.
  destruct (decide (i < 512 * k)); [apply Hprev; lia|].
  replace i with (512 * k + (i - 512 * k)) by lia. rewrite map_at_block by lia. apply Hlt. lia.
Qed.

Lemma first_zero_full V base k :
  (forall i, 0 <= i < 512 * k -> map_at V base i <> 0) ->
  first_zero 512 (V (base + k)) 0 = None ->
  forall i, 0 <= i < 512 * (k + 1) -> map_at V base i <> 0.
Proof.
  intros Hprev Hn i Hi. destruct (decide (i < 512 * k)); [apply Hprev; lia|].
  replace i with (512 * k + (i - 512 * k)) by lia. rewrite map_at_block by lia.
  apply (first_zero_None _ _ _ Hn). lia.
Qed.

(** ** Inodes *)

Definition node_block (inum : Z) : Z := 65 + inum / 2.
Definition node (V : view) (inum : Z) : inode := rd_inode (V (node_block inum)) (inode_half inum).

Lemma inode_half_range inum : 0 <= inode_half inum <= 256.
Proof. unfold inode_half. case_match; lia. Qed.

Lemma inode_block_small inum : 0 <= inum < 2 ^ 22 -> inode_block inum = node_block inum.
Proof.
  intros. unfold inode_block, node_block. apply wraps_small; [lia|].
  pose proof (Z.div_pos inum 2). pose proof (Z.div_le_upper_bound inum 2 inum). lia.
Qed.

Section Spec.
Context {D : Type} `{BlockLaws D} (junk : bytes) (euid egid now : Z).

(** The disk works and holds the blocks of [V]. *)
Definition on (d : D) (V : view) : Prop :=
  d_ok d /\ forall m, 0 <= m < Block.max_block -> d_blk d m ≈ V m.

Lemma read_on d V n buf :
  on d V -> 0 <= n < Block.max_block ->
  exists r b, dev_read n buf d = Ret ((r, b), d) /\ 0 <= r /\ b ≈ V n.
Proof.
  intros [Hok HV] Hn. destruct (dev_read_law d n buf Hok Hn) as (r & b & E & Hr & Hb).
  exists r, b. split_and!; [done|done|]. rewrite Hb. by apply HV.
Qed.

Lemma write_on d V n buf b :
  on d V -> 0 <= n < Block.max_block -> buf ≈ b ->
  exists d', dev_write n buf d = Ret (512, d') /\ on d' (vset V n b).
Proof.
  intros [Hok HV] Hn Hb. destruct (dev_write_law d n buf Hok Hn) as (d' & E & Hok' & HV').
  exists d'. split; [done|]. split; [done|]. intros m Hm. rewrite HV' by done. unfold vset.
  case_decide; [done|by apply HV].
Qed.

Lemma read_super d V buf :
  on d V -> rd_superblock (V 0) = geometry ->
  exists r b, dev_read 0 buf d = Ret ((r, b), d) /\ 0 <= r /\ rd_superblock b = geometry.
Proof.
  intros HV Hg. destruct (read_on d V 0 buf HV) as (r & b & E & Hr & Hb); [done|].
  exists r, b. split_and!; [done|done|]. by rewrite Hb.
Qed.

(** ** Reserving a data block *)

Lemma dmap_loop_run fuel k buf d V :
  on d V -> 0 <= k <= 60 -> (Z.to_nat (60 - k) < fuel)%nat ->
  (forall i, 0 <= i < 512 * k -> map_at V 5 i <> 0) ->
  (exists i d', first_free V 5 60 i /\
     dmap_loop fuel geometry (5 + k) buf d = Ret (1089 + i, d') /\ on d' (map_set V 5 i)) \/
  (full V 5 60 /\ dmap_loop fuel geometry (5 + k) buf d = Ret (-1, d)).
Proof.
  intros HV. revert k buf. induction fuel as [|f IH]; intros k buf Hk Hf Hprev; [lia|].
  cbn [dmap_loop]. cbn [geometry iList dmap dList]. destruct (Z.ltb_spec (5 + k) 65) as [Hlt|Hge].
  - destruct (read_on d V (5 + k) buf HV) as (r & b & E & Hr & Hb);
      [unfold Block.max_block; lia|]. erewrite bind_Ret by done. cbn [snd].
    rewrite (first_zero_same 512 b (V (5 + k)) 0) by (done || lia).
    destruct (first_zero 512 (V (5 + k)) 0) as [j|] eqn:Ez.
    + destruct (first_zero_free V 5 60 k j) as [Hj Hff]; [lia|done|done|].
      destruct (write_on d V (5 + k) (st 1 b j 1) (st 1 (V (5 + k)) j 1) HV) as (d' & Ew & HV');
        [unfold Block.max_block; lia|by rewrite Hb|].
      left. exists (512 * k + j), d'. split_and!; [done| |by rewrite map_set_block by lia].
      erewrite bind_Ret by done. change (512 =? 512) with true. cbn match.
      rewrite wraps_small by lia. unfold mret, prog_ret, p_ret. do 2 f_equal; lia.
    + replace (5 + k + 1) with (5 + (k + 1)) by lia.
      apply IH; [lia|lia|]. by apply first_zero_full.
  - right. assert (k = 60) as -> by lia. split; [|done]. intros i Hi. apply Hprev. lia.
Qed.

Lemma reserveFreeData_run d V :
  on d V -> rd_superblock (V 0) = geometry ->
  (exists i d', first_free V 5 60 i /\
     reserveFreeData junk d = Ret (1089 + i, d') /\ on d' (map_set V 5 i)) \/
  (full V 5 60 /\ reserveFreeData junk d = Ret (-1, d)).
Proof.
  intros HV Hg. unfold reserveFreeData.
  destruct (read_super d V junk HV Hg) as (r & b & E & _ & Eg).
  rewrite (bind_Ret _ _ _ _ _ E). cbn [snd]. cbn zeta. rewrite Eg.
  apply (dmap_loop_run _ 0); [done|lia|cbn [geometry iList dmap]; lia|lia].
Qed.

(** ** Reserving an inode *)

(** The view with inode [i] taken and initialised. *)
Definition with_inode (type i : Z) (V : view) : view :=
  vset (map_set V 1 i) (node_block i)
    (set_inode euid egid now type i (V (node_block i)) (inode_half i)).

Lemma imap_loop_run fuel type k buf d V :
  on d V -> 0 <= k <= 4 -> (Z.to_nat (4 - k) < fuel)%nat ->
  (forall i, 0 <= i < 512 * k -> map_at V 1 i <> 0) ->
  (exists i d', first_free V 1 4 i /\
     imap_loop junk euid egid now fuel type geometry (1 + k) buf d = Ret (i, d') /\
     on d' (with_inode type i V)) \/
  (full V 1 4 /\ imap_loop junk euid egid now fuel type geometry (1 + k) buf d = Ret (0, d)).
Proof.
  intros HV. revert k buf. induction fuel as [|f IH]; intros k buf Hk Hf Hprev; [lia|].
  cbn [imap_loop]. cbn [geometry imap dmap]. destruct (Z.ltb_spec (1 + k) 5) as [Hlt|Hge].
  - destruct (read_on d V (1 + k) buf HV) as (r & b & E & Hr & Hb);
      [unfold Block.max_block; lia|]. rewrite (bind_Ret _ _ _ _ _ E). cbn [snd].
    rewrite (first_zero_same 512 b (V (1 + k)) 0) by (done || lia).
    destruct (first_zero 512 (V (1 + k)) 0) as [j|] eqn:Ez.
    + destruct (first_zero_free V 1 4 k j) as [Hj Hff]; [lia|done|done|].
      destruct (write_on d V (1 + k) (st 1 b j 1) (st 1 (V (1 + k)) j 1) HV) as (d1 & Ew & HV1);
        [unfold Block.max_block; lia|by rewrite Hb|].
      rewrite (bind_Ret _ _ _ _ _ Ew). cbn zeta.
      replace (512 * (1 + k - 1) + j) with (512 * k + j) by lia.
      rewrite wrapu_small by lia. rewrite <- map_set_block in HV1 by lia.
      set (i := 512 * k + j) in *. assert (0 <= i < 2048) as Hi by lia.
      rewrite inode_block_small by lia.
      assert (65 <= node_block i < 1089) as Hn.
      { unfold node_block. pose proof (Z.div_pos i 2). pose proof (Z.div_lt_upper_bound i 2 1024). lia. }
      destruct (read_on d1 _ (node_block i) junk HV1) as (r2 & b2 & E2 & _ & Hb2);
        [unfold Block.max_block; lia|]. rewrite (bind_Ret _ _ _ _ _ E2).
      assert (map_set V 1 i (node_block i) = V (node_block i)) as Eq.
      { unfold map_set. apply vset_ne. pose proof (Z.div_lt_upper_bound i 512 4). lia. }
      rewrite Eq in Hb2.
      destruct (write_on d1 _ (node_block i)
        (set_inode euid egid now type i b2 (inode_half i))
        (set_inode euid egid now type i (V (node_block i)) (inode_half i)) HV1) as (d2 & Ew2 & HV2);
        [unfold Block.max_block; lia|by rewrite Hb2|].
      left. exists i, d2. split_and!; [done| |done]. by rewrite (bind_Ret _ _ _ _ _ Ew2).
    + replace (1 + k + 1) with (1 + (k + 1)) by lia.
      apply IH; [lia|lia|]. by apply first_zero_full.
  - right. assert (k = 4) as -> by lia. split; [|done]. intros i Hi. apply Hprev. lia.
Qed.

Lemma reserveFreeInode_run type d V :
  on d V -> rd_superblock (V 0) = geometry ->
  (exists i d', first_free V 1 4 i /\
     reserveFreeInode junk euid egid now type d = Ret (i, d') /\ on d' (with_inode type i V)) \/
  (full V 1 4 /\ reserveFreeInode junk euid egid now type d = Ret (0, d)).
Proof.
  intros HV Hg. unfold reserveFreeInode.
  destruct (read_super d V junk HV Hg) as (r & b & E & _ & Eg).
  rewrite (bind_Ret _ _ _ _ _ E). cbn [snd]. cbn zeta. rewrite Eg.
  apply (imap_loop_run _ _ 0); [done|lia|cbn [geometry imap dmap]; lia|lia].
Qed.

(** ** Directories *)

Lemma initDir_run n self parent d V :
  on d V -> 0 <= n < Block.max_block ->
  exists d', initDir junk n self parent d = Ret (tt, d') /\
    on d' (vset V n (dir_block (V n) self parent)).
Proof.
  intros HV Hn. unfold initDir. destruct (read_on d V n junk HV Hn) as (r & b & E & _ & Hb).
  rewrite (bind_Ret _ _ _ _ _ E). cbn [snd].
  destruct (write_on d V n (dir_block b self parent) (dir_block (V n) self parent) HV Hn)
    as (d' & Ew & HV'); [by rewrite Hb|].
  exists d'. split; [|done]. by rewrite (bind_Ret _ _ _ _ _ Ew).
Qed.

End Spec.
