(* ===== verification/SfsInv.v ===== *)
(** * The file system: consistency of the disk

    A view is consistent when the superblock is the one [sfs_init] writes,
    every allocated inode carries its own number, its direct pointers are free
    slots or allocated data blocks that no other slot points to, and the
    directory entries in those blocks are free or name allocated inodes. *)

From S2P Require Import Prelude ByteMem Block Sfs SfsBuf SfsSpec.
Import Sfs.

(** Inode [i] is allocated. *)
Definition taken (V : view) (i : Z) : Prop := 0 <= i < 2048 /\ map_at V 1 i <> 0.

(** Slot [q] of inode [i] points to block [dp]. *)
Definition slot (V : view) (i : Z) (q : nat) (dp : Z) : Prop := directp (node V i) !! q = Some dp.

Record consistent (V : view) : Prop := {
  c_super : rd_superblock (V 0) = geometry;
  c_root : map_at V 1 0 <> 0;
  c_ino : forall i, taken V i -> st_ino (node V i) = i;
  c_ptr : forall i q dp, taken V i -> slot V i q dp ->
    dp = 0 \/ (1089 <= dp < 31809 /\ map_at V 5 (dp - 1089) <> 0);
  c_inj : forall i i' q q' dp, taken V i -> taken V i' -> slot V i q dp -> slot V i' q' dp ->
    dp <> 0 -> i = i' /\ q = q';
  c_entry : forall i q dp k, taken V i -> slot V i q dp -> dp <> 0 -> 0 <= k < 16 ->
    inums (V dp) k = INUM_FREE \/ taken V (inums (V dp) k)
}.

(** ** Reading inodes *)

Lemma rd_inode_agree b b' o : agree_on o (o + 256) b b' -> rd_inode b o = rd_inode b' o.
Proof.
  intros Hb. unfold rd_inode, ldi.
  f_equal; try (eapply ld_agree; [exact Hb|lia|lia]);
    try (f_equal; eapply ld_agree; [exact Hb|lia|lia]); try (apply Hb; lia).
  apply list_fmap_ext. intros i k Hk%lookup_seqZ. f_equal.
  unfold NUM_DIRECT_POINTERS in Hk. eapply ld_agree; [exact Hb|lia|lia].
Qed.

Lemma directp_lookup b o q dp :
  directp (rd_inode b o) !! q = Some dp <->
  (q < 44)%nat /\ dp = ldi b (o + 76 + 4 * Z.of_nat q).
Proof.
  cbn [rd_inode directp]. rewrite list_lookup_fmap. unfold NUM_DIRECT_POINTERS.
  destruct (decide (q < 44)%nat).
  - rewrite lookup_seqZ_lt by lia. simpl. split; [|by intros [_ ->]]. by intros [= <-].
  - rewrite lookup_seqZ_ge by lia. simpl. split; [done|lia].
Qed.

Lemma node_block_range i : 0 <= i < 2048 -> 65 <= node_block i < 1089.
Proof.
  intros. unfold node_block. pose proof (Z.div_pos i 2). pose proof (Z.div_lt_upper_bound i 2 1024).
  lia.
Qed.

Lemma node_other V n b i : n <> node_block i -> node (vset V n b) i = node V i.
Proof. intros. unfold node. by rewrite vset_ne. Qed.

(** Two inodes of one block are in different halves. *)
Lemma halves i i' :
  node_block i = node_block i' -> i <> i' ->
  (inode_half i = 0 /\ inode_half i' = 256) \/ (inode_half i = 256 /\ inode_half i' = 0).
Proof.
  unfold node_block, inode_half. intros E Hne.
  pose proof (Z.div_mod i 2). pose proof (Z.div_mod i' 2).
  pose proof (Z.mod_pos_bound i 2). pose proof (Z.mod_pos_bound i' 2).
  destruct (Z.eqb_spec (i `mod` 2) 0), (Z.eqb_spec (i' `mod` 2) 0); lia.
Qed.

(** A change of the half of [i] leaves the other inodes alone. *)
Lemma node_half V i b i' :
  i <> i' ->
  (forall a, ~ (inode_half i <= a < inode_half i + 256) -> rd8 b a = rd8 (V (node_block i)) a) ->
  node (vset V (node_block i) b) i' = node V i'.
Proof.
  intros Hne Hb. destruct (decide (node_block i = node_block i')) as [E|E].
  - unfold node. rewrite E, vset_eq. apply rd_inode_agree. intros a Ha. rewrite <- E.
    apply Hb. destruct (halves i i' E Hne) as [[-> Hh]|[-> Hh]]; rewrite Hh in Ha; lia.
  - by apply node_other.
Qed.

Lemma ldi_st b a v : - 2 ^ 31 <= v < 2 ^ 31 -> ldi (st 4 b a v) a = v.
Proof.
  intros Hv. unfold ldi. rewrite ld_st_same. change (256 ^ Z.of_nat 4) with (2 ^ 32).
  rewrite wraps_mod by lia. apply wraps_small; [lia|]. done.
Qed.

Lemma ldi_st_ne n b a v a' :
  a' + 4 <= a \/ a + Z.of_nat n <= a' -> ldi (st n b a v) a' = ldi b a'.
Proof. intros. unfold ldi. rewrite ld_st_disj; [done|lia]. Qed.

(** ** A fresh inode *)

Lemma set_inode_frame e g n type i b o a :
  ~ (o <= a < o + 256) -> rd8 (set_inode e g n type i b o) a = rd8 b a.
Proof.
  intros Ha. unfold set_inode. cbn zeta.
  repeat first [rewrite rd8_st | rewrite rd8_fill]. repeat (rewrite decide_False by lia). done.
Qed.

Lemma set_inode_ino e g n type i b o :
  0 <= i < 2 ^ 64 -> st_ino (rd_inode (set_inode e g n type i b o) o) = i.
Proof.
  intros Hi. cbn [rd_inode st_ino]. unfold set_inode. cbn zeta.
  repeat first [rewrite ld_st_disj by lia | rewrite ld_fill_disj by lia].
  rewrite ld_st_same. change (256 ^ Z.of_nat 8) with (2 ^ 64). apply Z.mod_small. lia.
Qed.

Lemma set_inode_mode e g n type i b o :
  st_mode (rd_inode (set_inode e g n type i b o) o) =
    if type =? DIRECTORY then dir_mode else file_mode.
Proof.
  cbn [rd_inode st_mode]. unfold set_inode. cbn zeta.
  repeat first [rewrite ld_st_disj by lia | rewrite ld_fill_disj by lia].
  rewrite ld_st_same. by case_match.
Qed.

Lemma ld_zero n b a : (forall k, 0 <= k < Z.of_nat n -> rd8 b (a + k) = 0) -> ld n b a = 0.
Proof.
  intros Hz. rewrite (ld_bytes n b a 0); [apply Z.mod_0_l; pose proof (Z.pow_pos_nonneg 256 (Z.of_nat n)); lia|].
  intros k Hk. rewrite Hz by done. rewrite Z.div_0_l; [done|].
  pose proof (Z.pow_pos_nonneg 256 k). lia.
Qed.

Lemma set_inode_ptr e g n type i b o q dp :
  directp (rd_inode (set_inode e g n type i b o) o) !! q = Some dp -> dp = 0.
Proof.
  intros [Hq ->]%directp_lookup. unfold set_inode. cbn zeta. rewrite ldi_st_ne by lia.
  unfold ldi. rewrite ld_zero; [done|]. intros k Hk.
  rewrite rd8_fill, decide_True by lia. done.
Qed.

(** ** The regions of the disk *)

Lemma map_set_other V base i m : m <> base + i / 512 -> map_set V base i m = V m.
Proof. intros. unfold map_set. by rewrite vset_ne. Qed.

Lemma imap_block i : 0 <= i < 2048 -> 1 <= 1 + i / 512 < 5.
Proof. intros. pose proof (Z.div_pos i 512). pose proof (Z.div_lt_upper_bound i 512 4). lia. Qed.

Lemma dmap_block i : 0 <= i < 30720 -> 5 <= 5 + i / 512 < 65.
Proof. intros. pose proof (Z.div_pos i 512). pose proof (Z.div_lt_upper_bound i 512 60). lia. Qed.

(** A view that keeps everything but the contents of data blocks, or one more
    allocated block or inode, is compared region by region. *)
Lemma map_at_ext V V' base i : V' (base + i / 512) = V (base + i / 512) -> map_at V' base i = map_at V base i.
Proof. intros E. unfold map_at. by rewrite E. Qed.

Section Fresh.
Context (e g n : Z) (type i : Z) (V : view) (Hi : 0 <= i < 2048).
Abbreviation W := (with_inode e g n type i V).

Lemma fresh_other m : m <> 1 + i / 512 -> m <> node_block i -> W m = V m.
Proof. intros. unfold with_inode. rewrite vset_ne by done. by apply map_set_other. Qed.

Lemma fresh_imap i' : 0 <= i' < 2048 ->
  map_at W 1 i' = if decide (i' = i) then 1 else map_at V 1 i'.
Proof.
  intros Hi'. unfold with_inode. pose proof (imap_block i' Hi'). pose proof (node_block_range i Hi).
  rewrite (map_at_ext (map_set V 1 i)) by (apply vset_ne; lia). apply map_at_set; lia.
Qed.

Lemma fresh_dmap k : 0 <= k < 30720 -> map_at W 5 k = map_at V 5 k.
Proof.
  intros Hk. apply map_at_ext. pose proof (dmap_block k Hk). pose proof (imap_block i Hi).
  pose proof (node_block_range i Hi). apply fresh_other; lia.
Qed.

Lemma fresh_node i' : 0 <= i' < 2048 -> i' <> i -> node W i' = node V i'.
Proof.
  intros Hi' Hne. pose proof (node_block_range i' Hi'). pose proof (imap_block i Hi).
  pose proof (node_block_range i Hi). unfold with_inode. rewrite node_half; [|done|].
  - unfold node. rewrite map_set_other by lia. done.
  - intros a Ha. rewrite set_inode_frame by done. by rewrite map_set_other by lia.
Qed.

Lemma fresh_self : node W i = rd_inode (set_inode e g n type i (V (node_block i)) (inode_half i)) (inode_half i).
Proof. unfold node, with_inode. by rewrite vset_eq. Qed.

Lemma fresh_taken i' : taken W i' <-> taken V i' \/ i' = i.
Proof.
  unfold taken. split.
  - intros [? Hm]. rewrite fresh_imap in Hm by done. case_decide; naive_solver.
  - intros [[? Hm]| ->]; (split; [done|]); rewrite fresh_imap by done; by case_decide.
Qed.

Lemma fresh_slot i' q dp : taken W i' -> slot W i' q dp -> (i' = i /\ dp = 0) \/ (i' <> i /\ slot V i' q dp).
Proof.
  intros [Hr _] Hs. destruct (decide (i' = i)) as [->|Hne].
  - left. split; [done|]. unfold slot in Hs. rewrite fresh_self in Hs. by apply set_inode_ptr in Hs.
  - right. split; [done|]. unfold slot in *. by rewrite fresh_node in Hs.
Qed.

Lemma with_inode_consistent : map_at V 1 i = 0 -> consistent V -> consistent W.
Proof.
  intros Hfree [Hs Hroot Hino Hptr Hinj Hent].
  pose proof (imap_block i Hi). pose proof (node_block_range i Hi).
  assert (forall i' q dp, taken W i' -> slot W i' q dp -> dp <> 0 -> taken V i' /\ slot V i' q dp) as Hold.
  { intros i' q dp Ht Hsl Hdp. destruct (fresh_slot _ _ _ Ht Hsl) as [[_ ->]|[Hne Hsl']]; [done|].
    apply fresh_taken in Ht as [?| ->]; done. }
  split.
  - rewrite fresh_other by lia. done.
  - rewrite fresh_imap by lia. by case_decide.
  - intros i' Ht. destruct (decide (i' = i)) as [->|Hne].
    + rewrite fresh_self. apply set_inode_ino. lia.
    + rewrite fresh_node by (apply Ht || done). apply Hino. apply fresh_taken in Ht. naive_solver.
  - intros i' q dp Ht Hsl. destruct (decide (dp = 0)) as [|Hdp]; [by left|right].
    destruct (Hold _ _ _ Ht Hsl Hdp) as [Ht' Hsl'].
    destruct (Hptr _ _ _ Ht' Hsl') as [|[? ?]]; [done|]. split; [done|].
    by rewrite fresh_dmap by lia.
  - intros i1 i2 q1 q2 dp Ht1 Ht2 Hs1 Hs2 Hdp.
    destruct (Hold _ _ _ Ht1 Hs1 Hdp), (Hold _ _ _ Ht2 Hs2 Hdp). by apply (Hinj i1 i2 q1 q2 dp).
  - intros i' q dp k Ht Hsl Hdp Hk. destruct (Hold _ _ _ Ht Hsl Hdp) as [Ht' Hsl'].
    destruct (Hptr _ _ _ Ht' Hsl') as [|[? _]]; [done|]. rewrite fresh_other by lia.
    destruct (Hent i' q dp k) as [?|?]; [done..|by left|right]. apply fresh_taken. by left.
Qed.
End Fresh.

(** ** Data blocks *)

(** Writing a data block changes no inode and no map. *)
Section DataBlock.
Context (V : view) (dp : Z) (b : bytes) (Hdp : 1089 <= dp).
Abbreviation W := (vset V dp b).

Lemma data_imap i : 0 <= i < 2048 -> map_at W 1 i = map_at V 1 i.
Proof. intros Hi. apply map_at_ext, vset_ne. pose proof (imap_block i Hi). lia. Qed.

Lemma data_dmap i : 0 <= i < 30720 -> map_at W 5 i = map_at V 5 i.
Proof. intros Hi. apply map_at_ext, vset_ne. pose proof (dmap_block i Hi). lia. Qed.

Lemma data_taken i : taken W i <-> taken V i.
Proof.
  unfold taken. split; intros [Hi ?]; (split; [done|]); [rewrite <- data_imap|rewrite data_imap]; done.
Qed.

Lemma data_node i : 0 <= i < 2048 -> node W i = node V i.
Proof. intros Hi. apply node_other. pose proof (node_block_range i Hi). lia. Qed.

Lemma data_slot i q x : taken V i -> slot W i q x <-> slot V i q x.
Proof. intros [Hi _]. unfold slot. by rewrite data_node. Qed.

Lemma data_consistent :
  consistent V ->
  (forall k, 0 <= k < 16 -> inums b k = INUM_FREE \/ taken V (inums b k)) ->
  consistent W.
Proof.
  intros [Hs Hroot Hino Hptr Hinj Hent] Hb. split.
  - rewrite vset_ne by lia. done.
  - by rewrite data_imap.
  - intros i Ht%data_taken. rewrite data_node by apply Ht. by apply Hino.
  - intros i q x Ht%data_taken Hsl. apply data_slot in Hsl; [|done].
    destruct (Hptr _ _ _ Ht Hsl) as [?|[? ?]]; [by left|right]. split; [done|].
    by rewrite data_dmap by lia.
  - intros i1 i2 q1 q2 x Ht1%data_taken Ht2%data_taken Hs1 Hs2 Hx.
    apply data_slot in Hs1; [|done]. apply data_slot in Hs2; [|done]. by eapply Hinj.
  - intros i q x k Ht%data_taken Hsl Hx Hk. apply data_slot in Hsl; [|done]. rewrite data_taken.
    unfold vset. case_decide; [by apply Hb|]. by eapply Hent.
Qed.
End DataBlock.

(** ** Directory entries *)

(** The buffer of a directory block with entry [j] filled in. *)
Definition enter (b : bytes) (j ino : Z) (name : list Z) : bytes :=
  st_list (st 8 b (8 * j) ino) (fnames j) (name ++ [0]).

Lemma enter_inums b j ino name k :
  0 <= j < 16 -> 0 <= k < 16 -> 0 <= ino < 2 ^ 64 ->
  inums (enter b j ino name) k = if decide (k = j) then ino else inums b k.
Proof.
  intros Hj Hk Hino. unfold inums, enter, fnames, MAX_FNAME. rewrite ld_st_list_disj by lia.
  case_decide as E.
  - subst. rewrite ld_st_same. change (256 ^ Z.of_nat 8) with (2 ^ 64). apply Z.mod_small. lia.
  - rewrite ld_st_disj by lia. done.
Qed.

Lemma free_from_inums n b i k :
  0 <= i -> i + Z.of_nat n <= 16 -> 0 <= k < 16 ->
  inums (free_from n b i) k = if decide (i <= k < i + Z.of_nat n) then INUM_FREE else inums b k.
Proof.
  revert b i. induction n as [|n IH]; intros b i Hi Hn Hk; simpl free_from.
  { rewrite decide_False by lia. done. }
  rewrite IH by lia. unfold inums. destruct (decide (k = i)) as [->|].
  - rewrite decide_False, decide_True by lia. rewrite ld_st_same. done.
  - rewrite ld_st_disj by lia. repeat case_decide; done || lia.
Qed.

Lemma dir_block_inums b self parent k :
  0 <= self < 2 ^ 64 -> 0 <= parent < 2 ^ 64 -> 0 <= k < 16 ->
  inums (dir_block b self parent) k =
    if decide (k = 0) then self
    else if decide (k = 1 /\ self <> parent) then parent else INUM_FREE.
Proof.
  intros Hs Hp Hk. unfold dir_block. cbn zeta. rewrite free_from_inums by lia.
  destruct (decide (2 <= k < 2 + Z.of_nat 14)).
  { repeat case_decide; done || lia. }
  destruct (Z.eqb_spec self parent) as [<-|Hne]; simpl negb; cbn match;
    unfold inums, fnames, MAX_FNAME.
  - destruct (decide (k = 0)) as [->|].
    + rewrite ld_st_disj, ld_st_list_disj by lia. rewrite Z.mul_0_r, ld_st_same.
      change (256 ^ Z.of_nat 8) with (2 ^ 64). apply Z.mod_small. lia.
    + assert (k = 1) as -> by lia. rewrite decide_False by naive_solver.
      rewrite Z.mul_1_r, ld_st_same. done.
  - rewrite ld_st_list_disj by lia. destruct (decide (k = 0)) as [->|].
    + rewrite ld_st_disj, ld_st_list_disj by lia. rewrite Z.mul_0_r, ld_st_same.
      change (256 ^ Z.of_nat 8) with (2 ^ 64). apply Z.mod_small. lia.
    + assert (k = 1) as -> by lia. rewrite decide_True by done.
      rewrite Z.mul_1_r, ld_st_same. change (256 ^ Z.of_nat 8) with (2 ^ 64). apply Z.mod_small. lia.
Qed.

(** ** A directory gets a block *)

Section Grow.
Context (V : view) (i p : Z) (i0 : nat) (x : Z).
Context (HV : consistent V) (Hi : taken V i) (Hp : taken V p).
Context (Hslot : slot V i i0 0) (Hx : 0 <= x < 30720) (Hfree : map_at V 5 x = 0).

(** Block [1089 + x] becomes the block of slot [i0] of inode [i], whose parent
    is [p]. *)
Definition grown : view :=
  vset (vset (map_set V 5 x) (1089 + x) (dir_block (V (1089 + x)) i p)) (node_block i)
    (st 4 (V (node_block i)) (inode_half i + 76 + 4 * Z.of_nat i0) (1089 + x)).

Lemma grown_slot_lt : (i0 < 44)%nat.
Proof. clear -Hslot. by apply directp_lookup in Hslot as [? _]. Qed.

Lemma grown_other m : m <> 5 + x / 512 -> m <> 1089 + x -> m <> node_block i -> grown m = V m.
Proof. clear. intros. unfold grown. rewrite !vset_ne by done. by apply map_set_other. Qed.

Lemma grown_imap i' : 0 <= i' < 2048 -> map_at grown 1 i' = map_at V 1 i'.
Proof.
  clear HV Hp Hslot Hfree. destruct Hi as [Hi' _]. intros Hr. apply map_at_ext.
  pose proof (imap_block i' Hr). pose proof (dmap_block x Hx). pose proof (node_block_range i Hi').
  apply grown_other; lia.
Qed.

Lemma grown_dmap k : 0 <= k < 30720 -> map_at grown 5 k = if decide (k = x) then 1 else map_at V 5 k.
Proof.
  clear HV Hp Hslot Hfree. destruct Hi as [Hi' _]. intros Hk. rewrite (map_at_ext (map_set V 5 x)).
  - apply map_at_set; lia.
  - pose proof (dmap_block k Hk). pose proof (node_block_range i Hi'). unfold grown.
    rewrite !vset_ne by lia. done.
Qed.

Lemma grown_taken i' : taken grown i' <-> taken V i'.
Proof.
  unfold taken. split; intros [Hr ?]; (split; [done|]);
    [rewrite <- grown_imap|rewrite grown_imap]; done.
Qed.

Lemma grown_block : grown (1089 + x) = dir_block (V (1089 + x)) i p.
Proof.
  clear HV Hp Hslot Hfree. destruct Hi as [Hi' _]. pose proof (node_block_range i Hi').
  unfold grown. rewrite vset_ne by lia. apply vset_eq.
Qed.

Lemma grown_node_other i' : 0 <= i' < 2048 -> i' <> i -> node grown i' = node V i'.
Proof.
  pose proof grown_slot_lt as Hlt. clear HV Hp Hslot Hfree. destruct Hi as [Hi' _]. intros Hr Hne.
  pose proof (node_block_range i Hi'). pose proof (node_block_range i' Hr).
  pose proof (dmap_block x Hx). unfold grown.
  assert (forall m, 65 <= m < 1089 -> vset (map_set V 5 x) (1089 + x)
             (dir_block (V (1089 + x)) i p) m = V m) as E.
  { intros m Hm. rewrite vset_ne by lia. apply map_set_other. lia. }
  rewrite node_half; [|done|].
  - unfold node. by rewrite E.
  - intros a Ha. rewrite E by done. rewrite rd8_st, decide_False by lia. done.
Qed.

Lemma grown_slot q dp : slot grown i q dp <-> if decide (q = i0) then dp = 1089 + x else slot V i q dp.
Proof.
  pose proof grown_slot_lt as Hlt. clear HV Hp Hslot Hfree. unfold slot, node, grown.
  rewrite vset_eq, !directp_lookup. case_decide as E.
  - subst. rewrite ldi_st by lia. naive_solver.
  - rewrite ldi_st_ne by lia. by rewrite directp_lookup.
Qed.

Lemma grown_ino : st_ino (node grown i) = st_ino (node V i).
Proof.
  pose proof grown_slot_lt. unfold node, grown. rewrite vset_eq. cbn [rd_inode st_ino].
  rewrite ld_st_disj by lia. done.
Qed.

Lemma grown_mode i' : 0 <= i' < 2048 -> st_mode (node grown i') = st_mode (node V i').
Proof.
  intros Hr. destruct (decide (i' = i)) as [->|]; [|by rewrite grown_node_other].
  pose proof grown_slot_lt. unfold node, grown. rewrite vset_eq. cbn [rd_inode st_mode].
  rewrite ld_st_disj by lia. done.
Qed.

(** Every slot is the new one or was there before. *)
Lemma grown_slots i' q dp :
  taken V i' -> slot grown i' q dp ->
  (i' = i /\ q = i0 /\ dp = 1089 + x) \/ (slot V i' q dp /\ (i' <> i \/ q <> i0)).
Proof.
  intros Ht Hsl. destruct (decide (i' = i)) as [->|Hne].
  - apply grown_slot in Hsl. case_decide; [by left|right]. auto.
  - right. split; [|by left]. unfold slot in *. by rewrite grown_node_other in Hsl by (apply Ht || done).
Qed.

Lemma grown_consistent : consistent grown.
Proof.
  pose proof Hi as [Hi' _]. pose proof (node_block_range i Hi'). pose proof (dmap_block x Hx).
  pose proof HV as [Hs Hroot Hino Hptr Hinj Hent].
  assert (forall i' q, taken V i' -> ~ slot V i' q (1089 + x)) as Hnew.
  { intros i' q Ht Hsl. destruct (Hptr _ _ _ Ht Hsl) as [?|[_ Hm]]; [lia|]. apply Hm.
    replace (1089 + x - 1089) with x by lia. done. }
  split.
  - rewrite grown_other by lia. done.
  - by rewrite grown_imap.
  - intros i' Ht%grown_taken. destruct (decide (i' = i)) as [->|].
    + rewrite grown_ino. by apply Hino.
    + rewrite grown_node_other by (apply Ht || done). by apply Hino.
  - intros i' q dp Ht%grown_taken Hsl.
    destruct (grown_slots _ _ _ Ht Hsl) as [(-> & -> & ->)|[Hsl' _]].
    + right. split; [lia|]. rewrite grown_dmap by lia. rewrite decide_True by lia. done.
    + destruct (Hptr _ _ _ Ht Hsl') as [?|[? ?]]; [by left|right]. split; [done|].
      rewrite grown_dmap by lia. by case_decide.
  - intros i1 i2 q1 q2 dp Ht1%grown_taken Ht2%grown_taken Hs1 Hs2 Hdp.
    destruct (grown_slots _ _ _ Ht1 Hs1) as [(? & ? & ?)|[Hs1' _]],
      (grown_slots _ _ _ Ht2 Hs2) as [(? & ? & ?)|[Hs2' _]]; subst; try done.
    + by apply Hnew in Hs2'.
    + by apply Hnew in Hs1'.
    + by eapply Hinj.
  - intros i' q dp k Ht%grown_taken Hsl Hdp Hk. rewrite grown_taken.
    destruct (grown_slots _ _ _ Ht Hsl) as [(-> & -> & ->)|[Hsl' _]].
    + rewrite grown_block. destruct Hp as [Hp' _]. rewrite dir_block_inums by lia.
      repeat case_decide; auto.
    + destruct (Hptr _ _ _ Ht Hsl') as [|[? _]]; [done|].
      assert (dp <> 1089 + x) by (intros ->; by apply Hnew in Hsl').
      rewrite grown_other by lia. by eapply Hent.
Qed.

End Grow.
