(* ===== verification/SfsNav.v ===== *)
(** * The file system: paths

    [navPath] against a recursive reference on the view of the disk: a
    component that is found replaces the current inode, one that is not found
    in the middle of a path is passed over, and only the last one decides the
    result. *)

From S2P Require Import Prelude ByteMem Block Sfs SfsBuf SfsSpec SfsInv.
Import Sfs.

(** ** The reference *)

(** The inode number of [name] in the directory blocks [ptrs]. *)
Fixpoint dir_find (V : view) (ptrs : list Z) (name : list Z) : option Z :=
  match ptrs with
  | [] => None
  | dp :: ptrs' =>
      if dp =? 0 then dir_find V ptrs' name
      else
        match find_entry 16 (V dp) 0 name with
        | Some k => Some (inums (V dp) k)
        | None => dir_find V ptrs' name
        end
  end.

Definition lookup_in (V : view) (i : Z) (name : list Z) : option Z :=
  dir_find V (directp (node V i)) name.

(** Nothing, or a single slash, follows the slash that ends a component. *)
Definition last_component (r : list Z) : bool :=
  bool_decide (r = []) || bool_decide (tail r = []) || bool_decide (tail r = [SLASH]).

(** Whether the path was found, its parent and its target; [None] when a
    component is too long. *)
Fixpoint walk (n : nat) (V : view) (rest : list Z) (i : Z) : option (bool * Z * Z) :=
  match n with
  | O => None
  | S n' =>
      let '(name, r) := component rest in
      if (MAX_FNAME <=? length name)%nat then None
      else
        let o := lookup_in V i name in
        if last_component r then Some (bool_decide (is_Some o), i, default i o)
        else walk n' V (tail r) (default i o)
  end.

Definition resolve (V : view) (path : list Z) : option (bool * Z * Z) :=
  if (length path <=? 1)%nat then Some (true, 0, 0)
  else walk (S (length path)) V (drop 1 path) 0.

(** ** Components *)

Lemma component_length l n r :
  component l = (n, r) -> l = n ++ r /\ (r = [] \/ exists r', r = SLASH :: r').
Proof.
  revert n r. induction l as [|c l IH]; intros n r; simpl.
  - intros [= <- <-]. auto.
  - destruct (Z.eqb_spec c SLASH) as [->|].
    + intros [= <- <-]. eauto.
    + destruct (component l) as [n' r']. intros [= <- <-].
      destruct (IH n' r' eq_refl) as [-> ?]. auto.
Qed.

Lemma component_shorter l n r : component l = (n, r) -> (length (tail r) <= length l)%nat.
Proof. intros [-> _]%component_length. rewrite length_app. destruct r; simpl; lia. Qed.

Lemma component_step l n r :
  component l = (n, r) -> last_component r = false -> (length (tail r) < length l)%nat.
Proof.
  intros [-> [->|[r' ->]]]%component_length; [done|]. intros _. rewrite length_app. simpl. lia.
Qed.

(** ** Lookup *)

Lemma dir_find_taken V i ptrs name j :
  consistent V -> taken V i -> ptrs ⊆ directp (node V i) ->
  dir_find V ptrs name = Some j -> taken V j.
Proof.
  intros HV Hi. induction ptrs as [|dp ptrs IH]; intros Hsub; simpl; [done|].
  destruct (Z.eqb_spec dp 0); [apply IH; set_solver|].
  destruct (find_entry 16 (V dp) 0 name) as [k|] eqn:E; [|apply IH; set_solver].
  apply find_entry_Some in E as (Hk & Hn & _). intros [= <-].
  assert (dp ∈ directp (node V i)) as [q Hq]%list_elem_of_lookup by set_solver.
  destruct (c_entry V HV i q dp k) as [Ef|]; [done..|lia| |done].
  unfold entry_named in Hn. rewrite Ef in Hn. done.
Qed.

Lemma lookup_in_taken V i name j :
  consistent V -> taken V i -> lookup_in V i name = Some j -> taken V j.
Proof. intros HV Hi. apply (dir_find_taken V i); [exact HV|exact Hi|]. by intros x Hx. Qed.

Lemma default_taken V i name :
  consistent V -> taken V i -> taken V (default i (lookup_in V i name)).
Proof.
  intros. destruct (lookup_in V i name) eqn:E; cbn [default]; [|done].
  by apply (lookup_in_taken V i name).
Qed.

Lemma root_taken V : consistent V -> taken V 0.
Proof. intros HV. split; [lia|apply HV]. Qed.

(** The pointers of an inode in use can be read. *)
Lemma ptr_range V i dp :
  consistent V -> taken V i -> dp ∈ directp (node V i) -> 0 <= dp < Block.max_block.
Proof.
  intros HV Hi [q Hq]%list_elem_of_lookup. unfold Block.max_block.
  destruct (c_ptr V HV i q dp Hi Hq) as [->|[? _]]; lia.
Qed.

Section Nav.
Context {D : Type} `{BlockLaws D} (junk : bytes).

Lemma search_run d V i name ptrs tb t m :
  on d V -> consistent V -> taken V i -> (length name < MAX_FNAME)%nat ->
  ptrs ⊆ directp (node V i) ->
  exists tb' t' m',
    search geometry name ptrs tb t m d =
      Ret ((bool_decide (is_Some (dir_find V ptrs name)), tb', t', m'), d) /\
    rd_inode tb' t' =
      match dir_find V ptrs name with Some j => node V j | None => rd_inode tb t end.
Proof.
  intros HV HC Hi Hn. revert m. induction ptrs as [|dp ptrs IH]; intros m Hsub; simpl.
  { eexists _, _, _. split; reflexivity. }
  destruct (Z.eqb_spec dp 0); [apply IH; set_solver|].
  destruct (read_on d V dp m HV) as (r & b & E & _ & Hb).
  { eapply ptr_range; [done|done|]. set_solver. }
  rewrite (bind_Ret _ _ _ _ _ E). cbn [snd].
  rewrite (find_entry_same 16 b (V dp) 0 name) by (done || lia).
  destruct (find_entry 16 (V dp) 0 name) as [k|] eqn:Ek; [|apply IH; set_solver].
  apply find_entry_Some in Ek as Hk. destruct Hk as (Hk & Hnm & _).
  rewrite (inums_same b (V dp) k) by (done || lia).
  assert (taken V (inums (V dp) k)) as Ht.
  { eapply (dir_find_taken V i (dp :: ptrs) name); [done..|]. simpl.
    destruct (Z.eqb_spec dp 0); [done|]. by rewrite Ek. }
  set (j := inums (V dp) k) in *. pose proof Ht as [Hj _]. pose proof (node_block_range j Hj).
  assert (wraps 32 (j / 2 + 65) = node_block j) as ->.
  { rewrite wraps_small; unfold node_block in *; lia. }
  destruct (read_on d V (node_block j) tb HV) as (r2 & b2 & E2 & _ & Hb2);
    [unfold Block.max_block; lia|].
  rewrite (bind_Ret _ _ _ _ _ E2). cbn [snd].
  exists b2, (inode_half j), b. split; [by rewrite bool_decide_true by eauto|].
  apply rd_inode_same; [done|apply inode_half_range].
Qed.

Lemma nav_loop_run fuel d V i par0 targ0 fc rest tb t m :
  on d V -> consistent V -> taken V i -> rd_inode tb t = node V i ->
  (length rest < fuel)%nat -> fc + Z.of_nat (length rest) < 10000 ->
  match walk fuel V rest i with
  | None => nav_loop fuel geometry par0 targ0 fc rest tb t m d = Fault
  | Some (ok, p, j) =>
      nav_loop fuel geometry par0 targ0 fc rest tb t m d =
        Ret ((if ok : bool then 0 else -1, node V p, node V j), d) /\
      taken V p /\ taken V j
  end.
Proof.
  intros HV HC. revert i fc rest tb t m.
  induction fuel as [|f IH]; intros i fc rest tb t m Hi Et Hf Hfc; [lia|].
  cbn [walk nav_loop]. destruct (Z.ltb_spec 10000 (fc + 1)); [lia|].
  destruct (component rest) as [name r] eqn:Ec. cbn zeta. rewrite Et.
  destruct (Nat.leb_spec MAX_FNAME (length name)); [done|].
  destruct (search_run d V i name (directp (node V i)) tb t m) as (tb' & t' & m' & Es & Et');
    [done..|]. fold (lookup_in V i name) in Es, Et'.
  fold (last_component r).
  assert (rd_inode tb' t' = node V (default i (lookup_in V i name))) as Et2.
  { rewrite Et'. by destruct (lookup_in V i name). }
  assert (taken V (default i (lookup_in V i name))) by (by apply default_taken).
  destruct (last_component r) eqn:El.
  - split; [|done]. rewrite (bind_Ret _ _ _ _ _ Es). cbn beta iota.
    by rewrite ?El, Et2.
  - specialize (IH (default i (lookup_in V i name)) (fc + 1) (tail r) tb' t' m').
    pose proof (component_step _ _ _ Ec El).
    destruct (walk f V (tail r) _) as [[[ok p] j]|].
    + destruct IH as [E ?]; [done..|lia|lia|]. split; [|done].
      rewrite (bind_Ret _ _ _ _ _ Es). cbn beta iota. by rewrite ?El.
    + rewrite (bind_Ret _ _ _ _ _ Es). cbn beta iota. rewrite ?El.
      apply IH; done || lia.
Qed.

Lemma node_root V : node V 0 = rd_inode (V 65) 0.
Proof. done. Qed.

Lemma navPath_run d V path :
  on d V -> consistent V -> Z.of_nat (length path) < 10000 ->
  match resolve V path with
  | None => navPath junk path d = Fault
  | Some (ok, p, j) =>
      navPath junk path d = Ret ((if ok : bool then 0 else -1, node V p, node V j), d) /\
      taken V p /\ taken V j
  end.
Proof.
  intros HV HC Hlen. unfold navPath, resolve.
  destruct (read_super d V junk HV (c_super V HC)) as (r0 & b0 & E0 & _ & Eg).
  rewrite (bind_Ret _ _ _ _ _ E0). cbn [snd]. cbn zeta. rewrite Eg. cbn [geometry iList].
  destruct (read_on d V 65 junk HV) as (r1 & b1 & E1 & _ & Hb1); [done|].
  rewrite !(bind_Ret _ _ _ _ _ E1). cbn [snd].
  pose proof (root_taken V HC). destruct (Nat.leb_spec (length path) 1).
  - assert ((length path =? 1)%nat || (length path =? 0)%nat = true) as ->.
    { destruct (Nat.eqb_spec (length path) 1), (Nat.eqb_spec (length path) 0); done || lia. }
    split; [|done]. by rewrite node_root, (rd_inode_same b1 (V 65) 0) by (done || lia).
  - assert ((length path =? 1)%nat || (length path =? 0)%nat = false) as ->.
    { destruct (Nat.eqb_spec (length path) 1), (Nat.eqb_spec (length path) 0); done || lia. }
    apply nav_loop_run; [done..| | |].
    + rewrite node_root. apply rd_inode_same; done || lia.
    + rewrite length_drop. lia.
    + rewrite length_drop. lia.
Qed.

End Nav.
