(* ===== verification/SfsOps.v ===== *)
(** * The file system: creating files and directories

    The runs of [updateDir] and of [sfs_create] and [sfs_mkdir] on a
    consistent disk, and what they do to the lookups. *)

From S2P Require Import Prelude ByteMem Block Sfs SfsBuf SfsSpec SfsInv SfsNav.
Import Sfs.

Section Ops.
Context {D : Type} `{BlockLaws D} (junk : bytes) (euid egid now : Z).

Lemma get_directp_run (d : D) V i q dp :
  slot V i q dp -> get_directp (Z.of_nat q) (node V i) d = Ret (dp, d).
Proof.
  intros Hs. unfold get_directp. destruct (Z.leb_spec 0 (Z.of_nat q)); [|lia].
  rewrite Nat2Z.id. unfold slot in Hs. by rewrite Hs.
Qed.

Lemma strcpy_run (d : D) b j s :
  0 <= j < 16 -> (length s < MAX_FNAME)%nat ->
  strcpy b (fnames j) s d = Ret (st_list b (fnames j) (s ++ [0]), d).
Proof.
  intros Hj Hs. unfold strcpy. destruct (Z.leb_spec (fnames j + Z.of_nat (length s) + 1) 512); [done|].
  unfold fnames, MAX_FNAME in *. lia.
Qed.

(** ** A directory without a block in the slot gets one *)

Lemma set_directp_grown V i q x :
  taken V i -> 0 <= x < 30720 -> (q < 44)%nat ->
  directp (set_directp (Z.of_nat q) (1089 + x) (node V i)) !! q = Some (1089 + x).
Proof.
  intros. cbn [set_directp directp]. rewrite Nat2Z.id. apply list_lookup_insert_eq.
  cbn [node rd_inode directp]. rewrite length_fmap, length_seqZ. done.
Qed.

Lemma grow_dir_run d V i p q :
  on d V -> consistent V -> taken V i -> taken V p -> slot V i q 0 ->
  (exists x d', first_free V 5 60 x /\
     grow_dir junk (node V p) (node V i) (Z.of_nat q) d =
       Ret (Some (set_directp (Z.of_nat q) (1089 + x) (node V i)), d') /\
     on d' (grown V i p q x)) \/
  (full V 5 60 /\ grow_dir junk (node V p) (node V i) (Z.of_nat q) d = Ret (None, d)).
Proof.
  intros HV HC Hi Hp Hs. unfold grow_dir.
  rewrite (c_ino V HC i Hi), (c_ino V HC p Hp).
  destruct (reserveFreeData_run junk d V HV (c_super V HC)) as [(x & d1 & Hff & E1 & HV1)|[Hfull E1]];
    [|right; split; [done|]; by rewrite (bind_Ret _ _ _ _ _ E1)].
  left. exists x. pose proof Hff as [Hx _]. pose proof (dmap_block x Hx).
  pose proof Hi as [Hi' _]. pose proof (node_block_range i Hi').
  rewrite (bind_Ret _ _ _ _ _ E1). destruct (Z.eqb_spec (1089 + x) (-1)); [lia|].
  destruct (initDir_run junk (1089 + x) i p d1 _ HV1) as (d2 & E2 & HV2);
    [unfold Block.max_block; lia|]. rewrite (bind_Ret _ _ _ _ _ E2).
  rewrite map_set_other in HV2 by lia. rewrite inode_block_small by lia.
  destruct (read_on d2 _ (node_block i) junk HV2) as (r & b & E3 & _ & Hb);
    [unfold Block.max_block; lia|]. rewrite (bind_Ret _ _ _ _ _ E3). cbn [snd].
  rewrite vset_ne, map_set_other in Hb by lia.
  destruct (write_on d2 _ (node_block i) (st 4 b (inode_half i + 76 + 4 * Z.of_nat q) (1089 + x))
    (st 4 (V (node_block i)) (inode_half i + 76 + 4 * Z.of_nat q) (1089 + x)) HV2) as (d3 & E4 & HV3);
    [unfold Block.max_block; lia|by rewrite Hb|].
  exists d3. split_and!; [done| |done]. by rewrite (bind_Ret _ _ _ _ _ E4).
Qed.

(** ** [updateDir] *)

(** The block [dp] in slot [q] of directory [i] after [updateDir] has made
    sure that there is one. *)
Inductive ready (V : view) (i p : Z) (q : nat) : view -> Z -> Prop :=
| ready_old dp : slot V i q dp -> dp <> 0 -> ready V i p q V dp
| ready_new x : slot V i q 0 -> first_free V 5 60 x -> ready V i p q (grown V i p q x) (1089 + x).

Lemma ready_consistent V i p q V' dp :
  consistent V -> taken V i -> taken V p -> ready V i p q V' dp ->
  consistent V' /\ taken V' i /\ slot V' i q dp /\ dp <> 0 /\
  (forall j, taken V' j <-> taken V j).
Proof.
  intros HC Hi Hp [dp' Hs Hdp|x Hs Hff]; [done|]. pose proof Hff as (Hx & Hm & _).
  split_and!.
  - by apply grown_consistent.
  - by apply grown_taken.
  - apply grown_slot; [done|done|]. by rewrite decide_True.
  - lia.
  - intros j. by apply grown_taken.
Qed.

Lemma ready_range V i q dp :
  consistent V -> taken V i -> slot V i q dp -> dp <> 0 -> 1089 <= dp < 31809.
Proof. intros HC Hi Hs Hdp. destruct (c_ptr V HC i q dp Hi Hs) as [?|[? _]]; [done|lia]. Qed.

(** Entering a name in the block that is ready. *)
Lemma enter_consistent V i q dp j new name :
  consistent V -> taken V i -> slot V i q dp -> dp <> 0 -> taken V new -> 0 <= j < 16 ->
  consistent (vset V dp (enter (V dp) j new name)).
Proof.
  intros HC Hi Hs Hdp Hnew Hj. pose proof (ready_range _ _ _ _ HC Hi Hs Hdp).
  pose proof Hnew as [Hn _]. apply data_consistent; [lia|done|]. intros k Hk.
  rewrite enter_inums by lia. case_decide; [by right|]. by eapply (c_entry V HC i q dp).
Qed.

Lemma updateDir_full fuel d V i p q dp name new buf :
  on d V -> consistent V -> taken V i -> slot V i q dp -> dp <> 0 -> (q < 44)%nat ->
  free_slot 16 (V dp) 0 = None ->
  updateDir_loop junk fuel name (node V p) (node V i) new (Z.of_nat q) buf d = Timeout.
Proof.
  intros HV HC Hi Hs Hdp Hq Hfull. pose proof (ready_range _ _ _ _ HC Hi Hs Hdp). revert buf.
  induction fuel as [|f IH]; intros buf; cbn [updateDir_loop]; [done|].
  unfold NUM_DIRECT_POINTERS. destruct (Z.ltb_spec (Z.of_nat q) 44); [|lia].
  rewrite (bind_Ret _ _ _ _ _ (get_directp_run d V i q dp Hs)).
  destruct (Z.eqb_spec dp 0); [done|]. erewrite (bind_Ret (mret _)) by done. cbn match.
  rewrite (bind_Ret _ _ _ _ _ (get_directp_run d V i q dp Hs)).
  destruct (read_on d V dp buf HV) as (r & b & E & Hr & Hb); [unfold Block.max_block; lia|].
  rewrite (bind_Ret _ _ _ _ _ E). cbn [fst snd]. destruct (Z.ltb_spec r 0); [lia|].
  rewrite (free_slot_same 16 b (V dp) 0), Hfull by (done || lia). apply IH.
Qed.

Lemma free_slot_dir_block b i p :
  0 <= i < 2 ^ 64 -> 0 <= p < 2 ^ 64 -> exists j, free_slot 16 (dir_block b i p) 0 = Some j.
Proof.
  intros Hi Hp. destruct (free_slot 16 (dir_block b i p) 0) as [j|] eqn:E; [eauto|].
  destruct (proj1 (free_slot_None 16 (dir_block b i p) 0) E 2); [lia|].
  rewrite dir_block_inums by lia. repeat case_decide; done || lia.
Qed.

(** The end of an iteration that finds a free entry. *)
Lemma enter_run d V inn q dp j name new buf (k : bytes -> prog D Z) :
  on d V -> directp inn !! q = Some dp -> 0 <= dp < Block.max_block ->
  free_slot 16 (V dp) 0 = Some j -> (length name < MAX_FNAME)%nat ->
  exists d', (dp' ← get_directp (Z.of_nat q) inn;
    r ← dev_read dp' buf;
    if r.1 <? 0 then mret (-1)
    else match free_slot 16 r.2 0 with
         | Some j =>
             b ← strcpy (st 8 r.2 (8 * j) new) (fnames j) name; dev_write dp' b;; mret 0
         | None => k r.2
         end) d = Ret (0, d') /\
    on d' (vset V dp (enter (V dp) j new name)).
Proof.
  intros HV Hinn Hr Hj Hname. apply free_slot_Some in Hj as Hj'. destruct Hj' as [Hjr _].
  destruct (read_on d V dp buf HV) as (r & b & E & Hr0 & Hb); [done|].
  destruct (write_on d V dp (enter b j new name) (enter (V dp) j new name) HV) as (d2 & E2 & HV2);
    [done|unfold enter; by rewrite Hb|].
  exists d2. split; [|done].
  rewrite (bind_Ret _ _ d dp d).
  2:{ unfold get_directp. destruct (Z.leb_spec 0 (Z.of_nat q)); [|lia]. by rewrite Nat2Z.id, Hinn. }
  rewrite (bind_Ret _ _ _ _ _ E). cbn [fst snd]. destruct (Z.ltb_spec r 0); [lia|].
  rewrite (free_slot_same 16 b (V dp) 0), Hj by (done || lia).
  rewrite (bind_Ret _ _ _ _ _ (strcpy_run d _ j name ltac:(lia) Hname)).
  by rewrite (bind_Ret _ _ _ _ _ E2).
Qed.

Lemma updateDir_run f d V i p q name new buf :
  on d V -> consistent V -> taken V i -> taken V p -> (q < 44)%nat -> (length name < MAX_FNAME)%nat ->
  let run := updateDir_loop junk (S f) name (node V p) (node V i) new (Z.of_nat q) buf d in
  (exists V' dp j d', ready V i p q V' dp /\ free_slot 16 (V' dp) 0 = Some j /\
     run = Ret (0, d') /\ on d' (vset V' dp (enter (V' dp) j new name))) \/
  (slot V i q 0 /\ full V 5 60 /\ run = Ret (-1, d)) \/
  (exists dp, slot V i q dp /\ dp <> 0 /\ free_slot 16 (V dp) 0 = None /\ run = Timeout).
Proof.
  intros HV HC Hi Hp Hq Hname run.
  assert (exists dp, slot V i q dp) as [dp Hs].
  { eexists. apply directp_lookup. by split. }
  destruct (decide (dp = 0)) as [->|Hdp].
  - destruct (grow_dir_run d V i p q HV HC Hi Hp Hs) as [(x & d1 & Hff & E1 & HV1)|[Hfull E1]].
    + left. pose proof (ready_new V i p q x Hs Hff) as Hrd.
      destruct (ready_consistent _ _ _ _ _ _ HC Hi Hp Hrd) as (HC' & Hi' & Hs' & Hne & _).
      pose proof (ready_range _ _ _ _ HC' Hi' Hs' Hne).
      destruct (free_slot_dir_block (V (1089 + x)) i p) as [j Hj]; [destruct Hi; lia|destruct Hp; lia|].
      rewrite <- (grown_block V i p q x Hi ltac:(apply Hff)) in Hj.
      destruct (enter_run d1 _ (set_directp (Z.of_nat q) (1089 + x) (node V i)) q (1089 + x) j name new buf
        (updateDir_loop junk f name (node V p) (set_directp (Z.of_nat q) (1089 + x) (node V i)) new (Z.of_nat q)) HV1)
        as (d2 & E2 & HV2); [by apply set_directp_grown; [|apply Hff|]|unfold Block.max_block; lia|done|done|].
      exists (grown V i p q x), (1089 + x), j, d2. split_and!; [done|done| |done].
      unfold run. cbn [updateDir_loop]. unfold NUM_DIRECT_POINTERS.
      destruct (Z.ltb_spec (Z.of_nat q) 44); [|lia].
      rewrite (bind_Ret _ _ _ _ _ (get_directp_run d V i q 0 Hs)). cbn [Z.eqb].
      rewrite (bind_Ret _ _ _ _ _ E1). exact E2.
    + right. left. split_and!; [done|done|]. unfold run. cbn [updateDir_loop].
      unfold NUM_DIRECT_POINTERS. destruct (Z.ltb_spec (Z.of_nat q) 44); [|lia].
      rewrite (bind_Ret _ _ _ _ _ (get_directp_run d V i q 0 Hs)). cbn [Z.eqb].
      by rewrite (bind_Ret _ _ _ _ _ E1).
  - destruct (free_slot 16 (V dp) 0) as [j|] eqn:Hj.
    + left. pose proof (ready_range _ _ _ _ HC Hi Hs Hdp).
      destruct (enter_run d V (node V i) q dp j name new buf
        (updateDir_loop junk f name (node V p) (node V i) new (Z.of_nat q)) HV)
        as (d2 & E2 & HV2); [done|unfold Block.max_block; lia|done|done|].
      exists V, dp, j, d2. split_and!; [by constructor|done| |done].
      unfold run. cbn [updateDir_loop]. unfold NUM_DIRECT_POINTERS.
      destruct (Z.ltb_spec (Z.of_nat q) 44); [|lia].
      rewrite (bind_Ret _ _ _ _ _ (get_directp_run d V i q dp Hs)).
      destruct (Z.eqb_spec dp 0); [done|]. erewrite (bind_Ret (mret _)) by done.
      exact E2.
    + right. right. exists dp. split_and!; [done..|]. unfold run.
      by apply (updateDir_full (S f) d V i p q dp).
Qed.

(** ** [sfs_create] and [sfs_mkdir] *)

Lemma getInode_run d V i old :
  on d V -> 0 <= i < 2048 -> getInode junk i old d = Ret ((0, node V i), d).
Proof.
  intros HV Hi. unfold getInode. pose proof (node_block_range i Hi).
  rewrite inode_block_small by lia.
  destruct (read_on d V (node_block i) junk HV) as (r & b & E & Hr & Hb); [unfold Block.max_block; lia|].
  rewrite (bind_Ret _ _ _ _ _ E). cbn [fst snd]. destruct (Z.ltb_spec r 0); [lia|].
  by rewrite (rd_inode_same b (V (node_block i))) by (done || apply inode_half_range).
Qed.

Lemma take_length_le (path : list Z) n :
  (length path < 255)%nat -> Z.of_nat (length (take n path)) < 10000.
Proof. intros. rewrite length_take. lia. Qed.

(** The part of [make] after the path was resolved to directory [i] with
    parent [p]. *)
Definition add (fuel : nat) (i0 type : Z) (fn : list Z) (par targ : inode) : prog D Z :=
  inum ← reserveFreeInode junk euid egid now type;
  if inum =? 0 then mret (-1)
  else
    getInode junk inum (rd_inode junk 0);;
    if (MAX_FNAME <=? length fn)%nat then p_fault
    else
      u ← updateDir junk fuel i0 fn par targ inum;
      if u =? -1 then mret (-1) else mret 0.

Lemma make_resolved fuel i0 type path n d V :
  on d V -> consistent V -> (length path < 255)%nat -> last_slash path (length path) = Some n ->
  make junk euid egid now fuel i0 type path d =
    match resolve V (take n path) with
    | None => Fault
    | Some (ok, p, i) =>
        if ok : bool
        then add fuel i0 type (drop (length (take n path) + 1) path) (node V p) (node V i) d
        else Ret (-1, d)
    end.
Proof.
  intros HV HC Hlen Hn. unfold make. destruct (Nat.leb_spec 255 (length path)); [lia|].
  rewrite Hn. cbn zeta.
  pose proof (navPath_run junk d V (take n path) HV HC (take_length_le path n Hlen)) as Hnav.
  destruct (resolve V (take n path)) as [[[[] p] i]|].
  - destruct Hnav as (E & _). by rewrite (bind_Ret _ _ _ _ _ E).
  - destruct Hnav as (E & _). by rewrite (bind_Ret _ _ _ _ _ E).
  - by apply bind_Fault.
Qed.

(** An inode is reserved, or there is none. *)
Lemma add_reserved fuel i0 type fn par targ d V :
  on d V -> consistent V ->
  (exists k d1, first_free V 1 4 k /\ k <> 0 /\ 
     on d1 (with_inode euid egid now type k V) /\
     consistent (with_inode euid egid now type k V) /\
     add fuel i0 type fn par targ d =
       (if (MAX_FNAME <=? length fn)%nat then p_fault
        else
          u ← updateDir junk fuel i0 fn par targ k;
          if u =? -1 then mret (-1) else mret 0) d1) \/
  (full V 1 4 /\ add fuel i0 type fn par targ d = Ret (-1, d)).
Proof.
  intros HV HC. unfold add.
  destruct (reserveFreeInode_run junk euid egid now type d V HV (c_super V HC))
    as [(k & d1 & Hff & E & HV1)|[Hfull E]].
  - left. pose proof Hff as (Hk & Hm & _).
    assert (k <> 0) as Hk0 by (intros ->; by destruct (c_root V HC)).
    exists k, d1. split_and!; [done..| |].
    + apply with_inode_consistent; done.
    + rewrite (bind_Ret _ _ _ _ _ E). destruct (Z.eqb_spec k 0); [done|].
      by rewrite (bind_Ret _ _ _ _ _ (getInode_run d1 _ k _ HV1 Hk)).
  - right. split; [done|]. by rewrite (bind_Ret _ _ _ _ _ E).
Qed.

Lemma taken_fresh V k i : first_free V 1 4 k -> taken V i ->
  i <> k /\ forall type, node (with_inode euid egid now type k V) i = node V i /\
                  taken (with_inode euid egid now type k V) i.
Proof.
  intros (Hk & Hm & _) [Hi Ht]. assert (i <> k) as Hne by congruence. split; [done|].
  intros type. split; [by apply fresh_node|]. apply fresh_taken; [done|]. left. by split.
Qed.

(** What a call that returns can have done: nothing, reserved an inode, or
    reserved it and entered the name in the block of some slot. *)
Inductive added (type p i : Z) (fn : list Z) (V : view) : view -> Prop :=
| added_none : added type p i fn V V
| added_inode k : first_free V 1 4 k -> added type p i fn V (with_inode euid egid now type k V)
| added_entry k q V2 dp j :
    first_free V 1 4 k -> ready (with_inode euid egid now type k V) i p q V2 dp ->
    free_slot 16 (V2 dp) 0 = Some j -> (length fn < MAX_FNAME)%nat ->
    added type p i fn V (vset V2 dp (enter (V2 dp) j k fn)).

Lemma add_added fuel i0 type fn d V p i r d' :
  on d V -> consistent V -> taken V p -> taken V i ->
  add fuel i0 type fn (node V p) (node V i) d = Ret (r, d') ->
  exists V', on d' V' /\ added type p i fn V V'.
Proof.
  intros HV HC Hp Hi Er.
  destruct (add_reserved fuel i0 type fn (node V p) (node V i) d V HV HC)
    as [(k & d1 & Hff & _ & HV1 & HC1 & E)|[_ E]]; rewrite E in Er.
  2:{ injection Er as _ <-. exists V. split; [done|constructor]. }
  destruct (Nat.leb_spec MAX_FNAME (length fn)); [done|].
  destruct (taken_fresh V k i Hff Hi) as [_ Hi1]. destruct (Hi1 type) as [Ei Hi2].
  destruct (taken_fresh V k p Hff Hp) as [_ Hp1]. destruct (Hp1 type) as [Ep Hp2].
  pose proof (added_inode type p i fn V k Hff) as Hk.
  rewrite <- Ei, <- Ep in Er. apply bind_inv in Er as (u & d2 & Eu & Er).
  assert (exists V', on d2 V' /\ added type p i fn V V') as Hd2.
  2:{ destruct (u =? -1); injection Er as _ <-; done. }
  unfold updateDir in Eu. destruct fuel as [|f]; [done|].
  destruct (decide (0 <= i0 < 44)) as [Hq|Hq].
  - replace i0 with (Z.of_nat (Z.to_nat i0)) in Eu by lia.
    destruct (updateDir_run f d1 _ i p (Z.to_nat i0) fn k junk HV1 HC1 Hi2 Hp2 ltac:(lia) ltac:(lia))
      as [(V' & dp & j & d3 & Hrd & Hj & E3 & HV3)|[(_ & _ & E3)|(dp & _ & _ & _ & E3)]];
      rewrite E3 in Eu; [| |done]; injection Eu as _ <-.
    + eexists. split; [done|]. by eapply added_entry.
    + eauto.
  - cbn [updateDir_loop] in Eu. unfold NUM_DIRECT_POINTERS in Eu.
    destruct (Z.ltb_spec i0 44).
    + apply bind_inv in Eu as (dp & d3 & Eg & _). unfold get_directp in Eg.
      destruct (Z.leb_spec 0 i0); [lia|done].
    + injection Eu as _ <-. eauto.
Qed.

End Ops.
