(* ===== verification/SfsInit.v ===== *)
(** * The file system: formatting

    [sfs_init] on a disk without the magic number writes a consistent file
    system with an empty root directory, and leaves a formatted disk alone. *)

From S2P Require Import Prelude ByteMem Block Sfs SfsBuf SfsSpec SfsInv SfsNav.
Import Sfs.

(** Block [m] of the maps after [init_maps]. *)
Definition mapbuf (m : Z) : bytes := st 1 (fill 512 ∅ 0 0) 0 (if m =? 1 then 1 else 0).

Lemma rd8_empty a : rd8 ∅ a = 0.
Proof. unfold rd8. by rewrite lookup_empty. Qed.

Lemma rd8_mapbuf m j : rd8 (mapbuf m) j = if decide (m = 1 /\ j = 0) then 1 else 0.
Proof.
  unfold mapbuf. rewrite rd8_st. destruct (decide (0 <= j < 0 + Z.of_nat 1)).
  - assert (j = 0) as -> by lia. destruct (Z.eqb_spec m 1) as [->|]; [done|].
    rewrite decide_False by naive_solver. done.
  - rewrite decide_False by lia. rewrite rd8_fill, rd8_empty. by case_decide.
Qed.

Lemma set_superblock_geometry b : rd_superblock (set_superblock b) = geometry.
Proof.
  unfold rd_superblock, set_superblock, geometry, MAGIC. cbn zeta.
  f_equal; repeat (rewrite ldi_st_ne by lia); by rewrite ldi_st by lia.
Qed.

#[export] Instance set_superblock_proper : Proper (same_block ==> same_block) set_superblock.
Proof. intros b b' Hb. unfold set_superblock. cbn zeta. by rewrite Hb. Qed.

Lemma map_set_first V m : m <> 5 -> map_set V 5 0 m = V m.
Proof. intros. by apply map_set_other. Qed.

Section Init.
Context {D : Type} `{BlockLaws D} (junk : bytes) (euid egid now : Z).

Lemma init_maps_run fuel i d V :
  on d V -> 1 <= i <= 65 -> (Z.to_nat (65 - i) < fuel)%nat ->
  exists d', init_maps fuel i 65 d = Ret (65, d') /\
    on d' (fun m => if decide (i <= m < 65) then mapbuf m else V m).
Proof.
  revert i d V. induction fuel as [|f IH]; intros i d V HV Hi Hf; [lia|]. cbn [init_maps].
  destruct (Z.ltb_spec i 65).
  - destruct (write_on d V i (mapbuf i) (mapbuf i) HV) as (d1 & E1 & HV1);
      [unfold Block.max_block; lia|done|]. fold (mapbuf i). rewrite (bind_Ret _ _ _ _ _ E1).
    destruct (IH (i + 1) d1 _ HV1) as (d2 & E2 & [Hok HV2]); [lia|lia|].
    exists d2. split; [done|]. split; [done|]. intros m Hm. rewrite HV2 by done. unfold vset.
    repeat case_decide; subst; done || lia.
  - assert (i = 65) as -> by lia. exists d. split; [done|]. destruct HV as [Hok HV].
    split; [done|]. intros m Hm. rewrite decide_False by lia. by apply HV.
Qed.

(** The blocks after formatting. *)
Definition root_buf : bytes := st 4 (st 4 (set_root euid egid now junk) 76 1089) 252 0.

Definition maps_view (V : view) : view :=
  fun m => if decide (1 <= m < 65) then mapbuf m else vset V 0 (set_superblock (V 0)) m.

Definition formatted (V : view) : view :=
  vset (vset (map_set (maps_view V) 5 0) 1089 (dir_block (V 1089) 0 0)) 65 root_buf.

Lemma maps_dmap V i : 0 <= i < 30720 -> map_at (maps_view V) 5 i = 0.
Proof.
  intros Hi. pose proof (dmap_block i Hi). unfold map_at, maps_view.
  rewrite decide_True by lia. rewrite rd8_mapbuf, decide_False by lia. done.
Qed.

Lemma formatted_imap V i : 0 <= i < 2048 -> map_at (formatted V) 1 i = if decide (i = 0) then 1 else 0.
Proof.
  intros Hi. pose proof (imap_block i Hi). unfold formatted, map_at.
  rewrite !vset_ne, map_set_first by lia. unfold maps_view. rewrite decide_True by lia.
  rewrite rd8_mapbuf. pose proof (Z.div_mod i 512). pose proof (Z.mod_pos_bound i 512).
  repeat case_decide; done || lia.
Qed.

Lemma formatted_taken V i : taken (formatted V) i <-> i = 0.
Proof.
  unfold taken. split.
  - intros [Hi Hm]. rewrite formatted_imap in Hm by done. by case_decide.
  - intros ->. split; [lia|]. by rewrite formatted_imap.
Qed.

Lemma formatted_slot V q dp : slot (formatted V) 0 q dp -> (q = 0%nat /\ dp = 1089) \/ (q <> 0%nat /\ dp = 0).
Proof.
  unfold slot, node, formatted. change (node_block 0) with 65. rewrite vset_eq.
  change (inode_half 0) with 0. intros [Hq ->]%directp_lookup. unfold root_buf.
  rewrite ldi_st_ne by lia. destruct q as [|q].
  - left. split; [done|]. rewrite ldi_st by lia. done.
  - right. split; [done|]. rewrite ldi_st_ne by lia. unfold ldi. rewrite ld_zero; [done|].
    intros k Hk. unfold set_root. cbn zeta. rewrite rd8_fill, decide_True by lia. done.
Qed.

Lemma formatted_dir V : formatted V 1089 = dir_block (V 1089) 0 0.
Proof. unfold formatted. rewrite vset_ne by lia. apply vset_eq. Qed.

Lemma formatted_root_slot V : slot (formatted V) 0 0 1089.
Proof.
  assert (exists dp, slot (formatted V) 0 0 dp) as [dp Hs].
  { eexists. apply directp_lookup. split; [lia|done]. }
  destruct (formatted_slot V 0 dp Hs) as [[_ ->]|[? _]]; done.
Qed.

Lemma root_buf_fields :
  st_ino (rd_inode root_buf 0) = 0 /\ st_mode (rd_inode root_buf 0) = dir_mode.
Proof.
  cbn [rd_inode st_ino st_mode]. unfold root_buf, set_root. cbn zeta.
  split; repeat first [rewrite ld_st_disj by lia | rewrite ld_fill_disj by lia];
    by rewrite ld_st_same.
Qed.

Lemma formatted_consistent V : consistent (formatted V).
Proof.
  split.
  - unfold formatted. rewrite !vset_ne, map_set_first by lia. unfold maps_view.
    rewrite decide_False by lia. rewrite vset_eq. apply set_superblock_geometry.
  - by rewrite formatted_imap.
  - intros i ->%formatted_taken. unfold node, formatted. change (node_block 0) with 65.
    rewrite vset_eq. apply root_buf_fields.
  - intros i q dp ->%formatted_taken [[_ ->]|[_ ->]]%formatted_slot; [right|by left].
    split; [lia|]. rewrite (map_at_ext (map_set (maps_view V) 5 0)).
    2:{ unfold formatted. rewrite !vset_ne by done. done. }
    rewrite map_at_set by lia. done.
  - intros i i' q q' dp ->%formatted_taken ->%formatted_taken Hs Hs' Hdp. split; [done|].
    destruct (formatted_slot V q dp Hs) as [[-> _]|[_ ?]], (formatted_slot V q' dp Hs') as [[-> _]|[_ ?]];
      done.
  - intros i q dp k ->%formatted_taken [[_ ->]|[_ ->]]%formatted_slot Hdp Hk; [|done].
    rewrite formatted_dir, dir_block_inums by lia. rewrite formatted_taken.
    repeat case_decide; auto; lia.
Qed.

Lemma format_run b d V :
  on d V -> b ≈ V 0 ->
  exists d', format junk euid egid now b d = Ret (tt, d') /\ on d' (formatted V).
Proof.
  intros HV Hb. unfold format. cbn zeta. rewrite set_superblock_geometry. cbn [geometry iList].
  destruct (write_on d V 0 (set_superblock b) (set_superblock (V 0)) HV) as (d1 & E1 & HV1);
    [done|by rewrite Hb|]. rewrite (bind_Ret _ _ _ _ _ E1).
  destruct (init_maps_run 66 1 d1 _ HV1) as (d2 & E2 & HV2); [lia|lia|].
  fold (maps_view V) in HV2. rewrite (bind_Ret _ _ _ _ _ E2).
  assert (rd_superblock (maps_view V 0) = geometry) as Hg.
  { unfold maps_view. rewrite decide_False, vset_eq by lia. apply set_superblock_geometry. }
  destruct (reserveFreeData_run junk d2 _ HV2 Hg) as [(x & d3 & Hff & E3 & HV3)|[Hfull _]].
  2:{ destruct (Hfull 0); [lia|]. by apply maps_dmap. }
  assert (x = 0) as ->.
  { destruct Hff as (Hx & _ & Hlt). destruct (decide (x = 0)) as [|]; [done|].
    destruct (Hlt 0); [lia|]. by apply maps_dmap. }
  rewrite (bind_Ret _ _ _ _ _ E3). change (1089 + 0) with 1089 in *.
  destruct (initDir_run junk 1089 0 0 d3 _ HV3) as (d4 & E4 & HV4); [done|].
  rewrite (bind_Ret _ _ _ _ _ E4). rewrite map_set_first in HV4 by done.
  assert (maps_view V 1089 = V 1089) as Eq.
  { unfold maps_view. rewrite decide_False by lia. by rewrite vset_ne. }
  rewrite Eq in HV4.
  destruct (write_on d4 _ 65 root_buf root_buf HV4) as (d5 & E5 & HV5); [done|done|].
  exists d5. split; [|done]. fold root_buf. by rewrite (bind_Ret _ _ _ _ _ E5).
Qed.

Lemma sfs_init_run d V :
  on d V ->
  (magicnum (rd_superblock (V 0)) <> MAGIC -> exists d', sfs_init junk euid egid now d = Ret (tt, d') /\
     on d' (formatted V)) /\
  (magicnum (rd_superblock (V 0)) = MAGIC -> sfs_init junk euid egid now d = Ret (tt, d)).
Proof.
  intros HV. pose proof HV as [Hok HVd]. unfold sfs_init.
  rewrite (bind_Ret _ _ _ _ _ (dev_open_law d Hok)).
  destruct (read_on d V 0 junk HV) as (r & b & E & _ & Hb); [done|].
  rewrite (bind_Ret _ _ _ _ _ E). destruct (dev_size_law d Hok) as (n & En & Hn).
  rewrite (bind_Ret _ _ _ _ _ En). cbn [snd].
  assert (rd_superblock b = rd_superblock (V 0)) as -> by (by rewrite Hb).
  split; intros Hm.
  - destruct (Z.eqb_spec (magicnum (rd_superblock (V 0))) MAGIC); [done|].
    rewrite orb_true_r. by apply format_run.
  - rewrite Hm, Z.eqb_refl. cbn [negb]. rewrite orb_false_r.
    destruct (Z.eqb_spec n 0) as [->|]; [|done].
    specialize (Hn eq_refl). rewrite (HVd 0) in Hn by done. rewrite Hn in Hm. done.
Qed.

End Init.
