(* ===== verification/SfsLookup.v ===== *)
(** * The file system: names

    How the entries [updateDir] writes change the lookups: the new name is
    found in its directory, every other lookup gives what it gave before. *)

From S2P Require Import Prelude ByteMem Block Sfs SfsBuf SfsSpec SfsInv SfsNav SfsOps.
Import Sfs.

(** A name that fits an entry and holds no slash and no NUL. *)
Definition good_name (s : list Z) : Prop :=
  (length s < MAX_FNAME)%nat /\ Forall (fun c => 0 < c < 256 /\ c <> SLASH) s.

#[export] Instance good_name_dec s : Decision (good_name s).
Proof. unfold good_name. apply _. Defined.

Lemma good_bytes s : good_name s -> Forall (fun c => 0 < c < 256) s.
Proof. intros [_ Hs]. eapply Forall_impl; [done|]. by intros c [? _]. Qed.

(** ** Strings in buffers *)

Lemma str_eq_written m a name s :
  Forall (fun c => 0 < c < 256) name -> Forall (fun c => 0 < c < 256) s ->
  (forall k, (k <= length name)%nat -> rd8 m (a + Z.of_nat k) = default 0 (name !! k)) ->
  str_eq m a s = bool_decide (s = name).
Proof.
  revert a s. induction name as [|c name IH]; intros a s Hn Hs Hm.
  - pose proof (Hm 0%nat ltac:(simpl; lia)) as E. rewrite Z.add_0_r in E. simpl in E.
    destruct s as [|c s]; simpl.
    + by rewrite E.
    + apply Forall_cons in Hs as [? _]. rewrite E.
      destruct (Z.eqb_spec 0 c); [lia|]. done.
  - apply Forall_cons in Hn as [? Hn]. pose proof (Hm 0%nat ltac:(simpl; lia)) as E.
    rewrite Z.add_0_r in E. simpl in E. destruct s as [|c' s]; simpl; rewrite E.
    + destruct (Z.eqb_spec c 0); [lia|]. done.
    + apply Forall_cons in Hs as [_ Hs]. rewrite (IH (a + 1) s Hn Hs).
      2:{ intros k Hk. rewrite <- Z.add_assoc. replace (1 + Z.of_nat k) with (Z.of_nat (S k)) by lia.
          rewrite Hm by (simpl; lia). done. }
      destruct (Z.eqb_spec c c') as [->|]; simpl.
      * apply bool_decide_ext. naive_solver.
      * symmetry. apply bool_decide_eq_false. naive_solver.
Qed.

Lemma str_eq_ext m m' a s :
  (forall k, 0 <= k <= Z.of_nat (length s) -> rd8 m (a + k) = rd8 m' (a + k)) ->
  str_eq m a s = str_eq m' a s.
Proof.
  revert a. induction s as [|c s IH]; intros a Hm; simpl.
  - specialize (Hm 0 ltac:(simpl; lia)). rewrite Z.add_0_r in Hm. by rewrite Hm.
  - pose proof (Hm 0 ltac:(simpl; lia)) as E. rewrite Z.add_0_r in E. rewrite E. f_equal.
    apply IH. intros k Hk. rewrite <- !Z.add_assoc. apply Hm. simpl length. lia.
Qed.

Lemma find_entry_S n m k s :
  find_entry (S n) m k s = if entry_named m s k then Some k else find_entry n m (k + 1) s.
Proof. done. Qed.

Lemma find_entry_ext n m m' k s :
  (forall i, k <= i < k + Z.of_nat n -> entry_named m s i = entry_named m' s i) ->
  find_entry n m k s = find_entry n m' k s.
Proof.
  revert k. induction n as [|n IH]; intros k Hm; [done|].
  rewrite !find_entry_S, (Hm k) by lia.
  destruct (entry_named m' s k); [done|]. apply IH. intros i Hi. apply Hm. lia.
Qed.

Lemma find_entry_first n m k s j :
  k <= j < k + Z.of_nat n -> entry_named m s j = true ->
  (forall i, k <= i < j -> entry_named m s i = false) -> find_entry n m k s = Some j.
Proof.
  revert k. induction n as [|n IH]; intros k Hj Hn Hlt; [lia|].
  rewrite find_entry_S. destruct (decide (k = j)) as [->|]; [by rewrite Hn|].
  rewrite (Hlt k) by lia. apply IH; [lia|done|]. intros i Hi. apply Hlt. lia.
Qed.

(** ** An entry is written *)

Section Enter.
Context (b : bytes) (j ino : Z) (name : list Z).
Context (Hj : 0 <= j < 16) (Hino : 0 <= ino < 2 ^ 64) (Hname : good_name name).

Lemma enter_other k s : 0 <= k < 16 -> k <> j -> good_name s ->
  entry_named (enter b j ino name) s k = entry_named b s k.
Proof.
  intros Hk Hne [Hs _]. destruct Hname as [Hl _]. unfold entry_named.
  rewrite enter_inums, decide_False by lia. f_equal. apply str_eq_ext. intros i Hi.
  unfold enter. rewrite rd8_st_list, rd8_st, length_app. simpl length.
  unfold fnames, MAX_FNAME in *. rewrite !decide_False by lia. done.
Qed.

Lemma enter_self s : ino <> INUM_FREE -> good_name s ->
  entry_named (enter b j ino name) s j = bool_decide (s = name).
Proof.
  intros Hne Hs%good_bytes. pose proof (good_bytes name Hname) as Hb. destruct Hname as [Hl Hn].
  unfold entry_named. rewrite enter_inums, decide_True by (done || lia).
  destruct (Z.eqb_spec ino INUM_FREE); [done|]. simpl. apply str_eq_written; [done|done|].
  intros k Hk. unfold enter. rewrite rd8_st_list, length_app. simpl length.
  rewrite decide_True by lia. replace (Z.to_nat (fnames j + Z.of_nat k - fnames j)) with k by lia.
  destruct (decide (k = length name)) as [->|].
  - rewrite lookup_app_r, Nat.sub_diag by lia. simpl. by rewrite lookup_ge_None_2.
  - rewrite lookup_app_l by lia. destruct (lookup_lt_is_Some_2 name k) as [c Ec]; [lia|].
    rewrite Ec. simpl. rewrite Forall_lookup in Hn. destruct (Hn k c Ec) as [? _].
    apply Z.mod_small. lia.
Qed.

Lemma find_enter_same :
  ino <> INUM_FREE -> find_entry 16 b 0 name = None ->
  find_entry 16 (enter b j ino name) 0 name = Some j.
Proof.
  intros Hne Hnone. rewrite find_entry_None in Hnone. apply find_entry_first; [lia|..].
  - rewrite enter_self by done. by rewrite bool_decide_true.
  - intros i Hi. rewrite enter_other by (done || lia). apply Hnone. lia.
Qed.

Lemma find_enter_other s :
  ino <> INUM_FREE -> inums b j = INUM_FREE -> good_name s -> s <> name ->
  find_entry 16 (enter b j ino name) 0 s = find_entry 16 b 0 s.
Proof.
  intros Hne Hfree Hs Hsn. apply find_entry_ext. intros i Hi.
  destruct (decide (i = j)) as [->|]; [|by apply enter_other; [lia|..]].
  rewrite enter_self, bool_decide_false by done. unfold entry_named.
  rewrite Hfree. done.
Qed.
End Enter.

(** ** Lookups *)

Lemma dir_find_ext V V' ptrs s :
  (forall dp, dp ∈ ptrs -> dp <> 0 -> V' dp = V dp) -> dir_find V' ptrs s = dir_find V ptrs s.
Proof.
  induction ptrs as [|dp ptrs IH]; intros Hv; simpl; [done|].
  destruct (Z.eqb_spec dp 0); [|rewrite Hv by set_solver; case_match; [done|]];
    apply IH; intros x Hx; apply Hv; set_solver.
Qed.

Lemma dir_find_app V l1 l2 s :
  dir_find V (l1 ++ l2) s =
    match dir_find V l1 s with Some i => Some i | None => dir_find V l2 s end.
Proof.
  induction l1 as [|dp l1 IH]; simpl; [done|]. destruct (dp =? 0); [exact IH|].
  destruct (find_entry 16 (V dp) 0 s); [done|exact IH].
Qed.

Lemma dir_find_cons V dp l s :
  dp <> 0 -> dir_find V (dp :: l) s =
    match find_entry 16 (V dp) 0 s with
    | Some k => Some (inums (V dp) k)
    | None => dir_find V l s
    end.
Proof. intros. simpl. by destruct (Z.eqb_spec dp 0). Qed.

(** The pointers around slot [q]. *)
Lemma slot_split V i q dp :
  slot V i q dp ->
  directp (node V i) = take q (directp (node V i)) ++ dp :: drop (S q) (directp (node V i)).
Proof. intros Hs. symmetry. by apply take_drop_middle. Qed.

Lemma slot_around V i q dp x :
  consistent V -> taken V i -> slot V i q dp -> dp <> 0 ->
  x ∈ take q (directp (node V i)) ++ drop (S q) (directp (node V i)) -> x <> dp.
Proof.
  intros HC Hi Hs Hdp [Hx|Hx]%elem_of_app ->.
  - apply elem_of_take in Hx as (k & Hk & ?). destruct (c_inj V HC i i k q dp); [done..|]. lia.
  - apply list_elem_of_lookup in Hx as [k Hk]. rewrite lookup_drop in Hk.
    destruct (c_inj V HC i i (S q + k) q dp); [done..|]. lia.
Qed.

Section EnterLookup.
Context (V : view) (HC : consistent V) (i : Z) (q : nat) (dp j new : Z) (name : list Z).
Context (Hi : taken V i) (Hs : slot V i q dp) (Hdp : dp <> 0).
Context (Hj : free_slot 16 (V dp) 0 = Some j) (Hnew : 0 <= new < 2048) (Hname : good_name name).
Abbreviation W := (vset V dp (enter (V dp) j new name)).

Lemma enter_node i' : taken V i' -> node W i' = node V i'.
Proof.
  intros [Hi' _]. apply data_node; [|done]. by eapply (ready_range V i q dp).
Qed.

(** In other directories nothing changes. *)
Lemma enter_lookup_elsewhere i' s : taken V i' -> i' <> i -> lookup_in W i' s = lookup_in V i' s.
Proof.
  intros Hi' Hne. unfold lookup_in. rewrite enter_node by done. apply dir_find_ext.
  intros x [q' Hq']%list_elem_of_lookup Hx. apply vset_ne. intros ->.
  destruct (c_inj V HC i' i q' q dp); done.
Qed.

Lemma enter_around s :
  dir_find W (take q (directp (node V i))) s = dir_find V (take q (directp (node V i))) s /\
  dir_find W (drop (S q) (directp (node V i))) s = dir_find V (drop (S q) (directp (node V i))) s.
Proof.
  split; apply dir_find_ext; intros x Hx Hx0; apply vset_ne;
    apply (slot_around V i q dp x HC Hi Hs Hdp); apply elem_of_app; auto.
Qed.

Lemma enter_lookup s :
  good_name s -> (s = name -> lookup_in V i name = None) ->
  lookup_in W i s = if decide (s = name) then Some new else lookup_in V i s.
Proof.
  intros Hgs Hnone. apply free_slot_Some in Hj as (Hjr & Hjf & _).
  unfold lookup_in. rewrite enter_node by done. rewrite (slot_split V i q dp Hs).
  rewrite !dir_find_app, !dir_find_cons, vset_eq by done.
  destruct (enter_around s) as [-> ->]. case_decide as E.
  - subst s. specialize (Hnone eq_refl). unfold lookup_in in Hnone.
    rewrite (slot_split V i q dp Hs), dir_find_app, dir_find_cons in Hnone by done.
    destruct (dir_find V (take q _) name) eqn:E1; [done|].
    destruct (find_entry 16 (V dp) 0 name) eqn:E2; [done|].
    rewrite find_enter_same by (done || lia || (unfold INUM_FREE; lia)).
    rewrite enter_inums, decide_True by (done || lia). done.
  - rewrite find_enter_other by (done || lia || (unfold INUM_FREE; lia)).
    destruct (dir_find V (take q _) s); [done|].
    destruct (find_entry 16 (V dp) 0 s) as [k|] eqn:E2; [|done].
    apply find_entry_Some in E2 as (Hk & Hn & _).
    rewrite enter_inums by lia. rewrite decide_False; [done|]. intros ->.
    unfold entry_named in Hn. by rewrite Hjf in Hn.
Qed.
End EnterLookup.

(** ** A directory grows *)

Lemma rd8_free_from n b i a :
  0 <= i -> i + Z.of_nat n <= 16 -> 128 <= a -> rd8 (free_from n b i) a = rd8 b a.
Proof.
  revert b i. induction n as [|n IH]; intros b i Hi Hn Ha; simpl free_from; [done|].
  rewrite IH by lia. rewrite rd8_st, decide_False by lia. done.
Qed.

Definition dot : list Z := [DOT].
Definition dotdot : list Z := [DOT; DOT].

Lemma good_dot : good_name dot /\ good_name dotdot.
Proof. split; apply (bool_decide_unpack _); vm_compute; exact I. Qed.

(** A new directory block holds nothing but the two special names. *)
Lemma dir_block_find b i p s :
  0 <= i < 2048 -> 0 <= p < 2048 -> good_name s -> s <> dot -> s <> dotdot ->
  find_entry 16 (dir_block b i p) 0 s = None.
Proof.
  intros Hi Hp Hs Hd Hdd. apply find_entry_None. intros k Hk. unfold entry_named.
  rewrite dir_block_inums by lia. destruct good_dot as [Gd%good_bytes Gdd%good_bytes]. apply good_bytes in Hs.
  case_decide as E0; [|case_decide as E1].
  - subst k. rewrite (str_eq_written _ _ dot s Gd Hs).
    { rewrite bool_decide_false by done. apply andb_false_r. }
    intros n Hn. unfold dir_block. cbn zeta. rewrite rd8_free_from.
    + unfold fnames, MAX_FNAME, dot in *. simpl length in *.
      destruct n as [|[|n]]; [..|lia]; destruct (negb (i =? p));
        do 3 (rewrite ?rd8_st_list, ?rd8_st; simpl length; repeat case_decide; try lia); done.
    + lia.
    + lia.
    + unfold fnames, MAX_FNAME. lia.
  - destruct E1 as [-> Hne]. rewrite (str_eq_written _ _ dotdot s Gdd Hs).
    { rewrite bool_decide_false by done. apply andb_false_r. }
    intros n Hn. unfold dir_block. cbn zeta. rewrite rd8_free_from.
    + destruct (Z.eqb_spec i p); [done|]. simpl negb. cbn match. rewrite rd8_st_list.
      unfold fnames, MAX_FNAME, dotdot in *. simpl length in *. rewrite decide_True by lia.
      destruct n as [|[|[|n]]]; done || lia.
    + lia.
    + lia.
    + unfold fnames, MAX_FNAME. lia.
  - done.
Qed.

Section GrownLookup.
Context (V : view) (i p : Z) (q : nat) (x : Z).
Context (HC : consistent V) (Hi : taken V i) (Hp : taken V p).
Context (Hs : slot V i q 0) (Hx : 0 <= x < 30720) (Hfree : map_at V 5 x = 0).
Abbreviation G := (grown V i p q x).

Lemma grown_old_block i' dp : taken V i' -> dp ∈ directp (node V i') -> dp <> 0 -> G dp = V dp.
Proof.
  intros Hi' [q' Hq']%list_elem_of_lookup Hdp.
  destruct (c_ptr V HC i' q' dp Hi' Hq') as [|[Hr Hm]]; [done|].
  pose proof (dmap_block x Hx). destruct Hi as [Hi0 _]. pose proof (node_block_range i Hi0).
  apply grown_other; [lia| |lia]. intros ->. apply Hm. by replace (1089 + x - 1089) with x by lia.
Qed.

Lemma grown_directp : directp (node G i) = <[q := 1089 + x]> (directp (node V i)).
Proof.
  apply list_eq. intros k. apply option_eq. intros dp.
  pose proof (grown_slot V i p q x Hs Hx k dp) as Hg. unfold slot in Hg. rewrite Hg.
  case_decide as E.
  - subst k. rewrite list_lookup_insert_eq by (by eapply lookup_lt_Some). naive_solver.
  - by rewrite list_lookup_insert_ne.
Qed.

Lemma grown_lookup i' s :
  taken V i' -> good_name s -> (i' = i -> s <> dot /\ s <> dotdot) -> lookup_in G i' s = lookup_in V i' s.
Proof.
  intros Hi' Hgs Hdots. unfold lookup_in. destruct (decide (i' = i)) as [->|Hne].
  - destruct (Hdots eq_refl) as [Hd Hdd]. rewrite grown_directp. rewrite insert_take_drop by (by eapply lookup_lt_Some).
    rewrite (slot_split V i q 0 Hs) at 3. rewrite !dir_find_app, dir_find_cons by lia.
    rewrite grown_block, dir_block_find by (done || apply Hi || apply Hp || lia).
    assert (forall l, l ⊆ directp (node V i) -> dir_find G l s = dir_find V l s) as E.
    { intros l Hl. apply dir_find_ext. intros dp Hdp. apply (grown_old_block i); [done|by apply Hl]. }
    rewrite !E.
    + done.
    + apply subseteq_drop.
    + apply subseteq_take.
  - rewrite grown_node_other by (done || apply Hi'). apply dir_find_ext.
    intros dp Hdp. by apply (grown_old_block i').
Qed.
End GrownLookup.

(** ** A new inode *)

Lemma with_inode_lookup e g n type k V i s :
  consistent V -> first_free V 1 4 k -> taken V i ->
  lookup_in (with_inode e g n type k V) i s = lookup_in V i s.
Proof.
  intros HC Hff Hi. pose proof Hff as [Hk _]. pose proof (imap_block k Hk). pose proof (node_block_range k Hk).
  unfold lookup_in. destruct (taken_fresh e g n V k i Hff Hi) as [_ E]. destruct (E type) as [-> _].
  apply dir_find_ext. intros dp [q Hq]%list_elem_of_lookup Hdp.
  destruct (c_ptr V HC i q dp Hi Hq) as [|[Hr _]]; [done|]. apply fresh_other; lia.
Qed.

(** Free slots hold no names. *)
Lemma dir_find_zeros V ptrs s : (forall dp, dp ∈ ptrs -> dp = 0) -> dir_find V ptrs s = None.
Proof.
  induction ptrs as [|dp ptrs IH]; intros Hz; simpl; [done|].
  rewrite (Hz dp) by set_solver. apply IH. intros x Hx. apply Hz. set_solver.
Qed.
