(* ===== verification/SfsCreate.v ===== *)
(** * The file system: a successful creation

    When the parent directory resolves, an inode is free and the slot
    [updateDir] looks at has room, [sfs_create] and [sfs_mkdir] succeed and
    add exactly one name. *)

From S2P Require Import Prelude ByteMem Block Sfs SfsBuf SfsSpec SfsInv SfsNav SfsOps SfsLookup.
Import Sfs.

(** ** Splitting the path *)

Lemma last_slash_app dir name m :
  Forall (fun c => c <> SLASH) name -> (length dir <= m)%nat ->
  last_slash (dir ++ SLASH :: name) m = Some (length dir).
Proof.
  intros Hn. induction m as [|m IH]; intros Hm; cbn [last_slash].
  - destruct dir; [|simpl in Hm; lia]. done.
  - destruct (decide (length dir = S m)) as [E|].
    + rewrite bool_decide_true; [by rewrite E|].
      by rewrite lookup_app_r, E, Nat.sub_diag by lia.
    + rewrite bool_decide_false; [apply IH; lia|].
      rewrite lookup_app_r by lia. destruct (S m - length dir)%nat as [|k] eqn:Ek; [lia|].
      simpl. intros Hk. rewrite Forall_lookup in Hn. by apply (Hn k SLASH).
Qed.

Lemma path_parts dir name :
  take (length dir) (dir ++ SLASH :: name) = dir /\
  drop (length dir + 1) (dir ++ SLASH :: name) = name.
Proof.
  split; [by rewrite take_app_length|]. rewrite Nat.add_1_r.
  change (SLASH :: name) with ([SLASH] ++ name). rewrite app_assoc.
  rewrite drop_app_length'; [done|]. rewrite length_app. simpl. lia.
Qed.

Lemma good_no_slash s : good_name s -> Forall (fun c => c <> SLASH) s.
Proof. intros [_ Hs]. eapply Forall_impl; [done|]. by intros c [_ ?]. Qed.

(** ** Room in a directory *)

Definition room (V : view) (i : Z) (q : nat) : Prop :=
  exists dp, slot V i q dp /\
    ((dp = 0 /\ exists x, 0 <= x < 30720 /\ map_at V 5 x = 0) \/
     (dp <> 0 /\ exists j, free_slot 16 (V dp) 0 = Some j)).

Lemma room_fresh e g n type k V i q :
  consistent V -> first_free V 1 4 k -> taken V i -> room V i q ->
  room (with_inode e g n type k V) i q.
Proof.
  intros HC Hff Hi (dp & Hs & Hroom). pose proof Hff as [Hk _].
  pose proof (imap_block k Hk). pose proof (node_block_range k Hk).
  destruct (taken_fresh e g n V k i Hff Hi) as [_ E]. destruct (E type) as [En _].
  exists dp. split; [unfold slot in *; by rewrite En|].
  destruct Hroom as [(-> & x & Hx & Hm)|(Hdp & j & Hj)]; [left|right]; (split; [done|]).
  - exists x. split; [done|]. by rewrite fresh_dmap.
  - exists j. destruct (c_ptr V HC i q dp Hi Hs) as [|[? _]]; [done|].
    by rewrite fresh_other by lia.
Qed.

(** ** What a ready directory block keeps *)

Lemma ready_lookup V i p q V' dp i' s :
  consistent V -> taken V i -> taken V p -> ready V i p q V' dp ->
  taken V i' -> good_name s -> (i' = i -> slot V i q 0 -> s <> dot /\ s <> dotdot) ->
  lookup_in V' i' s = lookup_in V i' s.
Proof.
  intros HC Hi Hp [dp' Hs Hdp|x Hs (Hx & Hm & _)] Hi' Hgs Hdots; [done|].
  apply grown_lookup; try done. intros E. by apply Hdots.
Qed.

Lemma ready_mode V i p q V' dp k :
  taken V i -> ready V i p q V' dp -> 0 <= k < 2048 -> st_mode (node V' k) = st_mode (node V k).
Proof.
  intros Hi [dp' Hs Hdp|x Hs (Hx & Hm & _)] Hk; [done|]. by apply grown_mode.
Qed.

Section Create.
Context {D : Type} `{BlockLaws D} (junk : bytes) (euid egid now : Z).

(** [updateDir] succeeds when there is room. *)
Lemma updateDir_room f (d : D) V i p q name new :
  on d V -> consistent V -> taken V i -> taken V p -> room V i q -> (length name < MAX_FNAME)%nat ->
  exists V' dp j d', ready V i p q V' dp /\ free_slot 16 (V' dp) 0 = Some j /\
    updateDir junk (S f) (Z.of_nat q) name (node V p) (node V i) new d = Ret (0, d') /\
    on d' (vset V' dp (enter (V' dp) j new name)).
Proof.
  intros HV HC Hi Hp (dp & Hs & Hroom) Hl.
  assert (q < 44)%nat as Hq by (by apply directp_lookup in Hs as [? _]).
  destruct (updateDir_run junk f d V i p q name new junk HV HC Hi Hp Hq Hl)
    as [?|[(Hs0 & Hfull & _)|(dp' & Hs' & Hdp' & Hj & _)]]; [done|exfalso..]; unfold slot in *;
    simplify_eq; destruct Hroom as [(? & x & Hx & Hm)|(? & j & Hj')]; try congruence.
  by apply (Hfull x).
Qed.

(** A successful creation of [name] in directory [i], in the block of slot [q].
    When the slot is empty the directory gets a new block, which holds the names
    "." and ".." too: these are the only other names whose lookup may change. *)
Record created (type i : Z) (q : nat) (name : list Z) (k : Z) (V V' : view) : Prop := {
  cr_consistent : consistent V';
  cr_new : ~ taken V k /\ taken V' k /\ k <> 0;
  cr_found : lookup_in V' i name = Some k;
  cr_ino : st_ino (node V' k) = k;
  cr_mode : st_mode (node V' k) = if type =? DIRECTORY then dir_mode else file_mode;
  cr_rest : forall i' s, taken V i' -> good_name s -> ~ (i' = i /\ s = name) ->
    (i' = i -> slot V i q 0 -> s <> dot /\ s <> dotdot) -> lookup_in V' i' s = lookup_in V i' s
}.

Lemma make_adds f q type dir name (d : D) V p i :
  on d V -> consistent V -> Z.of_nat (length dir + length name) < 254 ->
  resolve V dir = Some (true, p, i) -> taken V p -> taken V i ->
  good_name name -> name <> dot -> name <> dotdot -> lookup_in V i name = None ->
  (exists k, 0 <= k < 2048 /\ map_at V 1 k = 0) -> room V i q ->
  exists d' V' k, make junk euid egid now (S f) (Z.of_nat q) type (dir ++ SLASH :: name) d = Ret (0, d') /\
    on d' V' /\ created type i q name k V V'.
Proof.
  intros HV HC Hlen Hres Hp Hi Hg Hd Hdd Hnone Hfree Hroom.
  destruct (path_parts dir name) as [Et Ed].
  rewrite (make_resolved _ _ _ _ _ _ _ _ (length dir) d V); [|done|done| |].
  2:{ rewrite length_app. simpl length. lia. }
  2:{ apply last_slash_app; [by apply good_no_slash|]. rewrite length_app. lia. }
  rewrite Et, Hres, Ed.
  destruct (add_reserved junk euid egid now (S f) (Z.of_nat q) type name (node V p) (node V i) d V HV HC)
    as [(k & d1 & Hff & Hk0 & HV1 & HC1 & E1)|[Hfull _]].
  2:{ destruct Hfree as (k & Hk & Hm). by destruct (Hfull k). }
  rewrite E1. pose proof (proj1 Hg) as Hl. destruct (Nat.leb_spec MAX_FNAME (length name)); [lia|].
  destruct (taken_fresh euid egid now V k i Hff Hi) as [_ Hi1]. destruct (Hi1 type) as [Ei Hi2].
  destruct (taken_fresh euid egid now V k p Hff Hp) as [_ Hp1]. destruct (Hp1 type) as [Ep Hp2].
  pose proof (room_fresh euid egid now type k V i q HC Hff Hi Hroom) as Hroom1.
  pose proof (fresh_taken euid egid now type k V ltac:(apply Hff)) as Htk.
  pose proof (fresh_self euid egid now type k V) as Eself.
  assert (forall i' s, taken V i' -> lookup_in (with_inode euid egid now type k V) i' s = lookup_in V i' s)
    as Hlk by (intros; by apply with_inode_lookup).
  set (V1 := with_inode euid egid now type k V) in *. rewrite <- Ei, <- Ep.
  destruct (updateDir_room f d1 V1 i p q name k HV1 HC1 Hi2 Hp2 Hroom1 Hl)
    as (V2 & dp & j & d2 & Hrd & Hj & E2 & HV2).
  rewrite (bind_Ret _ _ _ _ _ E2). cbn [Z.eqb].
  destruct (ready_consistent _ _ _ _ _ _ HC1 Hi2 Hp2 Hrd) as (HC2 & Hi3 & Hs2 & Hdp & Htk2).
  pose proof (ready_range _ _ _ _ HC2 Hi3 Hs2 Hdp) as Hr. pose proof Hff as (Hk & Hm & _).
  assert (taken V2 k) as Hk2 by (apply Htk2, Htk; by right).
  assert (forall i', taken V i' -> taken V2 i') as Hold by (intros; apply Htk2, Htk; by left).
  apply free_slot_Some in Hj as Hj'. destruct Hj' as [Hjr _].
  exists d2, (vset V2 dp (enter (V2 dp) j k name)), k. split_and!; [done|done|].
  assert (consistent (vset V2 dp (enter (V2 dp) j k name))) as HC3
    by (by apply (enter_consistent V2 i q)).
  split.
  - done.
  - split_and!; [by intros [_ ?]|apply data_taken; [lia|done]|done].
  - rewrite (enter_lookup V2 HC2 i q dp j k name Hi3 Hs2 Hdp Hj ltac:(lia) Hg name Hg).
    { by rewrite decide_True. }
    intros _. rewrite (ready_lookup V1 i p q V2 dp) by done. by rewrite Hlk.
  - apply (c_ino _ HC3). apply data_taken; [lia|done].
  - rewrite data_node by lia. rewrite (ready_mode V1 i p q V2 dp k Hi2 Hrd Hk), Eself.
    apply set_inode_mode.
  - intros i' s Hi' Hgs Hne Hdots.
    transitivity (lookup_in V2 i' s).
    2:{ rewrite (ready_lookup V1 i p q V2 dp); [by apply Hlk|done..|by apply Htk; left|done|].
        intros E. unfold slot. rewrite Ei. by apply Hdots. }
    destruct (decide (i' = i)) as [->|].
    + rewrite (enter_lookup V2 HC2 i q dp j k name Hi3 Hs2 Hdp Hj ltac:(lia) Hg s Hgs);
        [|by intros ->; destruct Hne].
      rewrite decide_False; [done|]. intros ->. by apply Hne.
    + by apply (enter_lookup_elsewhere V2 HC2 i q dp j k name Hi3 Hs2 Hdp); [apply Hold|].
Qed.

(** A path of one component. *)
Lemma component_whole s : Forall (fun c => c <> SLASH) s -> component s = (s, []).
Proof.
  induction 1 as [|c s Hc _ IH]; simpl; [done|]. destruct (Z.eqb_spec c SLASH); [done|]. by rewrite IH.
Qed.

Lemma resolve_root V s :
  good_name s -> s <> [] ->
  resolve V (SLASH :: s) = Some (bool_decide (is_Some (lookup_in V 0 s)), 0, default 0 (lookup_in V 0 s)).
Proof.
  intros Hg Hs. unfold resolve. destruct s as [|c s]; [done|].
  destruct (Nat.leb_spec (length (SLASH :: c :: s)) 1) as [Hle|_]; [simpl in Hle; lia|].
  change (drop 1 (SLASH :: c :: s)) with (c :: s). cbn [walk].
  rewrite component_whole by (by apply good_no_slash).
  pose proof (proj1 Hg). destruct (Nat.leb_spec MAX_FNAME (length (c :: s))); [lia|]. done.
Qed.

Lemma component_slash s r :
  Forall (fun c => c <> SLASH) s -> component (s ++ SLASH :: r) = (s, SLASH :: r).
Proof.
  induction 1 as [|c s Hc _ IH]; simpl; [done|]. destruct (Z.eqb_spec c SLASH); [done|]. by rewrite IH.
Qed.

(** More fuel than needed makes no difference. *)
Lemma walk_more V n n' rest i :
  (length rest < n)%nat -> (length rest < n')%nat -> walk n V rest i = walk n' V rest i.
Proof.
  revert n' rest i. induction n as [|n IH]; intros n' rest i Hn Hn'; [lia|].
  destruct n' as [|n']; [lia|]. cbn [walk]. destruct (component rest) as [name r] eqn:Ec.
  destruct (MAX_FNAME <=? length name)%nat; [done|]. cbn zeta.
  destruct (last_component r) eqn:El; [done|]. pose proof (component_step _ _ _ Ec El).
  apply IH; lia.
Qed.

Lemma walk_S V n rest i name r :
  component rest = (name, r) -> (length name < MAX_FNAME)%nat ->
  walk (S n) V rest i =
    if last_component r then Some (bool_decide (is_Some (lookup_in V i name)), i, default i (lookup_in V i name))
    else walk n V (tail r) (default i (lookup_in V i name)).
Proof.
  intros Ec Hl. cbn [walk]. rewrite Ec. destruct (Nat.leb_spec MAX_FNAME (length name)); [lia|done].
Qed.

(** A missing component in the middle of a path is passed over. *)
Lemma resolve_skip V s r :
  good_name s -> lookup_in V 0 s = None -> r <> [] -> r <> [SLASH] ->
  resolve V (SLASH :: s ++ SLASH :: r) = resolve V (SLASH :: r).
Proof.
  intros Hg Hnone Hr Hr'. unfold resolve.
  destruct (Nat.leb_spec (length (SLASH :: s ++ SLASH :: r)) 1) as [Hle|_].
  { rewrite length_cons, length_app in Hle. simpl in Hle. lia. }
  destruct (Nat.leb_spec (length (SLASH :: r)) 1) as [Hle|_].
  { destruct r; [done|]. simpl in Hle. lia. }
  change (drop 1 (SLASH :: s ++ SLASH :: r)) with (s ++ SLASH :: r).
  change (drop 1 (SLASH :: r)) with r.
  rewrite (walk_S V _ _ 0 s (SLASH :: r)).
  2:{ apply component_slash. by apply good_no_slash. }
  2:{ apply Hg. }
  assert (last_component (SLASH :: r) = false) as ->.
  { unfold last_component. simpl tail. by rewrite !bool_decide_false. }
  rewrite Hnone. cbn [default]. simpl tail. apply walk_more; rewrite ?length_cons, ?length_app, ?length_cons; lia.
Qed.

(** The creation of [name] in the directory [dir] resolves to. *)
Lemma make_split fuel i0 type dir name (d : D) V p i :
  on d V -> consistent V -> Z.of_nat (length dir + length name) < 254 ->
  resolve V dir = Some (true, p, i) -> Forall (fun c => c <> SLASH) name ->
  make junk euid egid now fuel i0 type (dir ++ SLASH :: name) d =
    add junk euid egid now fuel i0 type name (node V p) (node V i) d.
Proof.
  intros HV HC Hlen Hres Hn. destruct (path_parts dir name) as [Et Ed].
  rewrite (make_resolved _ _ _ _ _ _ _ _ (length dir) d V); [|done|done| |].
  - by rewrite Et, Hres, Ed.
  - rewrite length_app. simpl length. lia.
  - apply last_slash_app; [done|]. rewrite length_app. lia.
Qed.

Lemma make_full fuel q type dir name (d : D) V p i dp :
  on d V -> consistent V -> Z.of_nat (length dir + length name) < 254 ->
  resolve V dir = Some (true, p, i) -> taken V p -> taken V i -> good_name name ->
  (exists k, 0 <= k < 2048 /\ map_at V 1 k = 0) ->
  slot V i q dp -> dp <> 0 -> free_slot 16 (V dp) 0 = None ->
  make junk euid egid now fuel (Z.of_nat q) type (dir ++ SLASH :: name) d = Timeout.
Proof.
  intros HV HC Hlen Hres Hp Hi Hg (k0 & Hk0 & Hm0) Hs Hdp Hfull.
  rewrite (make_split _ _ _ _ _ d V p i) by (done || by apply good_no_slash).
  destruct (add_reserved junk euid egid now fuel (Z.of_nat q) type name (node V p) (node V i) d V HV HC)
    as [(k & d1 & Hff & _ & HV1 & HC1 & ->)|[Hf _]]; [|by destruct (Hf k0)].
  pose proof (proj1 Hg). destruct (Nat.leb_spec MAX_FNAME (length name)); [lia|].
  destruct (taken_fresh euid egid now V k i Hff Hi) as [_ Hi1]. destruct (Hi1 type) as [Ei Hi2].
  destruct (taken_fresh euid egid now V k p Hff Hp) as [_ Hp1]. destruct (Hp1 type) as [Ep Hp2].
  destruct (c_ptr V HC i q dp Hi Hs) as [|[Hr _]]; [done|]. pose proof Hff as [Hk _].
  pose proof (imap_block k Hk). pose proof (node_block_range k Hk).
  apply bind_Timeout. unfold updateDir. rewrite <- Ei, <- Ep.
  apply (updateDir_full junk fuel d1 _ i p q dp); try done.
  - unfold slot in *. by rewrite Ei.
  - by apply directp_lookup in Hs as [? _].
  - by rewrite fresh_other by lia.
Qed.

End Create.
