(* ===== verification/SfsNames.v ===== *)
(** * The file system: what stays

    Nothing the operations write removes anything: inodes stay allocated,
    directories keep their blocks, and used entries keep their inode and the
    bytes of their name.  The names of used entries are C strings inside their
    24 bytes, so that the contents of a directory are a list of names. *)

From S2P Require Import Prelude ByteMem Block Sfs SfsBuf SfsSpec SfsInv SfsNav SfsOps SfsInit SfsLookup SfsCreate.
Import Sfs.

(** ** Growth *)

Record grows (V V' : view) : Prop := {
  g_taken : forall i, taken V i -> taken V' i;
  g_mode : forall i, taken V i -> st_mode (node V' i) = st_mode (node V i);
  g_slot : forall i q dp, taken V i -> slot V i q dp -> dp <> 0 -> slot V' i q dp;
  g_entry : forall i q dp k, taken V i -> slot V i q dp -> dp <> 0 -> 0 <= k < 16 ->
    inums (V dp) k <> INUM_FREE ->
    inums (V' dp) k = inums (V dp) k /\
    agree_on (fnames k) (fnames k + Z.of_nat MAX_FNAME) (V dp) (V' dp)
}.

#[export] Instance grows_preorder : PreOrder grows.
Proof.
  split.
  - intros V. by split.
  - intros V1 V2 V3 [T1 M1 S1 E1] [T2 M2 S2 E2]. split; [by auto|..].
    + intros i Hi. rewrite M2 by auto. by apply M1.
    + intros i q dp Hi Hs Hdp. apply S2; auto.
    + intros i q dp k Hi Hs Hdp Hk Hu. destruct (E1 i q dp k) as [Ei Ea]; [done..|].
      destruct (E2 i q dp k) as [Ei' Ea']; [auto..|congruence|]. split; [congruence|].
      intros a Ha. by rewrite Ea, Ea'.
Qed.

Lemma fresh_grows e g n type k V :
  consistent V -> first_free V 1 4 k -> grows V (with_inode e g n type k V).
Proof.
  intros HC Hff. pose proof Hff as [Hk _]. pose proof (imap_block k Hk). pose proof (node_block_range k Hk).
  assert (forall i, taken V i -> node (with_inode e g n type k V) i = node V i /\
    taken (with_inode e g n type k V) i) as Hold.
  { intros i Hi. by destruct (taken_fresh e g n V k i Hff Hi) as [_ Hn]. }
  split.
  - intros i Hi. by apply Hold.
  - intros i Hi. by rewrite (proj1 (Hold i Hi)).
  - intros i q dp Hi Hs _. unfold slot. by rewrite (proj1 (Hold i Hi)).
  - intros i q dp j Hi Hs Hdp Hj _. destruct (c_ptr V HC i q dp Hi Hs) as [|[? _]]; [done|].
    by rewrite fresh_other by lia.
Qed.

Lemma ready_grows V i p q V' dp :
  consistent V -> taken V i -> ready V i p q V' dp -> grows V V'.
Proof.
  intros HC Hi [dp' Hs Hdp|x Hs (Hx & Hm & _)]; [done|]. split.
  - intros j Hj. by apply grown_taken.
  - intros j [Hj _]. by apply grown_mode.
  - intros j q' dp' Hj Hs' Hdp'. destruct (decide (j = i)) as [->|].
    + apply grown_slot; [done|done|]. case_decide; [|done]. subst q'. unfold slot in *. congruence.
    + unfold slot. by rewrite grown_node_other by (done || apply Hj).
  - intros j q' dp' k Hj Hs' Hdp' Hk _.
    assert (dp' ∈ directp (node V j)) by (apply list_elem_of_lookup; by exists q').
    by rewrite (grown_old_block V i p q x HC Hi Hx Hm j dp').
Qed.

Lemma enter_grows V i q dp j k name :
  consistent V -> taken V i -> slot V i q dp -> dp <> 0 -> free_slot 16 (V dp) 0 = Some j ->
  0 <= k < 2048 -> (length name < MAX_FNAME)%nat ->
  grows V (vset V dp (enter (V dp) j k name)).
Proof.
  intros HC Hi Hs Hdp (Hj & Hjf & _)%free_slot_Some Hk Hl.
  pose proof (ready_range _ _ _ _ HC Hi Hs Hdp). split.
  - intros i' Hi'. apply data_taken; [lia|done].
  - intros i' Hi'. by rewrite data_node by (lia || apply Hi').
  - intros i' q' dp' Hi' Hs' Hdp'. apply data_slot; [lia|done|done].
  - intros i' q' dp' k' Hi' Hs' Hdp' Hk' Hu. unfold vset. case_decide as E; [subst dp'|done].
    assert (k' <> j) by congruence. rewrite enter_inums, decide_False by lia. split; [done|].
    intros a Ha. unfold enter. rewrite rd8_st_list, rd8_st, length_app. simpl length.
    unfold fnames, MAX_FNAME in *. by rewrite !decide_False by lia.
Qed.

(** ** Names *)

(** Entry [k] of the block [m] is called [s]. *)
Definition name_at (m : bytes) (k : Z) (s : list Z) : Prop :=
  (length s < MAX_FNAME)%nat /\ Forall (fun c => 0 < c < 256) s /\
  forall n, (n <= length s)%nat -> rd8 m (fnames k + Z.of_nat n) = default 0 (s !! n).

Definition named (V : view) : Prop := forall i q dp k,
  taken V i -> slot V i q dp -> dp <> 0 -> 0 <= k < 16 -> inums (V dp) k <> INUM_FREE ->
  exists s, name_at (V dp) k s.

Lemma name_agree m m' k s :
  agree_on (fnames k) (fnames k + Z.of_nat MAX_FNAME) m m' -> name_at m k s -> name_at m' k s.
Proof.
  intros Ha (Hl & Hs & Hr). split_and!; [done|done|]. intros n Hn.
  rewrite <- Ha by lia. by apply Hr.
Qed.

(** An entry has at most one name. *)
Lemma name_unique m k s s' : name_at m k s -> name_at m k s' -> s = s'.
Proof.
  assert (forall s s', name_at m k s -> name_at m k s' -> (length s <= length s')%nat) as Hle.
  { intros t t' (_ & Hc & Hr) (_ & _ & Hr'). destruct (decide (length t <= length t')%nat); [done|].
    pose proof (Hr (length t') ltac:(lia)) as E. rewrite Hr' in E by lia.
    rewrite (lookup_ge_None_2 t') in E by lia.
    destruct (lookup_lt_is_Some_2 t (length t')) as [c Ec]; [lia|]. rewrite Ec in E. simpl in E.
    rewrite Forall_lookup in Hc. destruct (Hc _ _ Ec). lia. }
  intros H1 H2. pose proof (Hle _ _ H1 H2). pose proof (Hle _ _ H2 H1).
  destruct H1 as (_ & _ & H1), H2 as (_ & _ & H2). apply (list_eq_same_length _ _ (length s)); [lia|done|].
  intros n c c' Hn E E'. pose proof (H1 n ltac:(lia)) as R. rewrite H2, E, E' in R by lia. done.
Qed.

Lemma enter_name b j k name :
  0 <= j < 16 -> (length name < MAX_FNAME)%nat -> Forall (fun c => 0 < c < 256) name ->
  name_at (enter b j k name) j name.
Proof.
  intros Hj Hl Hc. split_and!; [done|done|]. intros n Hn.
  unfold enter. rewrite rd8_st_list, length_app. simpl length.
  rewrite decide_True by lia. replace (Z.to_nat (fnames j + Z.of_nat n - fnames j)) with n by lia.
  destruct (decide (n = length name)) as [->|].
  - rewrite lookup_app_r, Nat.sub_diag by lia. by rewrite (lookup_ge_None_2 name).
  - rewrite lookup_app_l by lia. destruct (lookup_lt_is_Some_2 name n) as [c Ec]; [lia|].
    rewrite Ec. simpl. rewrite Forall_lookup in Hc. pose proof (Hc n c Ec). apply Z.mod_small. lia.
Qed.

(** The entries of a new directory block are called [.] and [..]. *)
Lemma dir_block_names b i p k :
  0 <= i < 2048 -> 0 <= p < 2048 -> 0 <= k < 16 -> inums (dir_block b i p) k <> INUM_FREE ->
  name_at (dir_block b i p) k (if decide (k = 0) then dot else dotdot).
Proof.
  intros Hi Hp Hk Hu. rewrite dir_block_inums in Hu by lia.
  assert (Forall (fun c => 0 < c < 256) dot /\ Forall (fun c => 0 < c < 256) dotdot) as [Gd Gdd].
  { split; apply (bool_decide_unpack _); vm_compute; exact I. }
  case_decide as E0; [subst k|case_decide as E1; [destruct E1 as [-> Hne]|done]];
    (split_and!; [vm_compute; lia|done|]); intros n Hn; unfold dir_block; cbn zeta;
    rewrite rd8_free_from by (unfold fnames, MAX_FNAME; lia).
  - unfold fnames, MAX_FNAME, dot in *. simpl length in *.
    destruct n as [|[|n]]; [..|lia]; destruct (negb (i =? p));
      do 3 (rewrite ?rd8_st_list, ?rd8_st; simpl length; repeat case_decide; try lia); done.
  - destruct (Z.eqb_spec i p); [done|]. simpl negb. cbn match. rewrite rd8_st_list.
    unfold fnames, MAX_FNAME, dotdot in *. simpl length in *. rewrite decide_True by lia.
    destruct n as [|[|[|n]]]; done || lia.
Qed.

Lemma formatted_named junk e g n V : named (formatted junk e g n V).
Proof.
  intros i q dp k ->%formatted_taken [[_ ->]|[_ ->]]%formatted_slot Hdp Hk Hu; [|done].
  rewrite formatted_dir in *. eexists. by apply dir_block_names.
Qed.

Lemma fresh_named e g n type k V :
  consistent V -> first_free V 1 4 k -> named V -> named (with_inode e g n type k V).
Proof.
  intros HC Hff HN i q dp j Ht Hs Hdp Hj. pose proof Hff as [Hk _].
  pose proof (imap_block k Hk). pose proof (node_block_range k Hk).
  destruct (fresh_slot e g n type k V Hk _ _ _ Ht Hs) as [[_ ->]|[Hne Hs']]; [done|].
  apply fresh_taken in Ht as [Ht| ->]; [|done|done].
  destruct (c_ptr V HC i q dp Ht Hs') as [|[? _]]; [done|]. rewrite fresh_other by lia. by apply (HN i q dp j).
Qed.

Lemma ready_named V i p q V' dp :
  consistent V -> taken V i -> taken V p -> ready V i p q V' dp -> named V -> named V'.
Proof.
  intros HC Hi Hp [dp' Hs Hdp|x Hs (Hx & Hm & _)] HN; [done|].
  intros j q' dp' k Ht%grown_taken Hs' Hdp Hk Hu; [|done..].
  destruct (grown_slots V i p q x Hi Hs Hx _ _ _ Ht Hs') as [(-> & -> & ->)|[Hs2 _]].
  - rewrite grown_block in * by done. eexists. apply dir_block_names; [apply Hi|apply Hp|done|done].
  - assert (dp' ∈ directp (node V j)) by (apply list_elem_of_lookup; by exists q').
    rewrite (grown_old_block V i p q x HC Hi Hx Hm j dp') in * by done. by apply (HN j q' dp' k).
Qed.

Lemma enter_named V i q dp j k name :
  consistent V -> taken V i -> slot V i q dp -> dp <> 0 -> free_slot 16 (V dp) 0 = Some j ->
  0 <= k < 2048 -> (length name < MAX_FNAME)%nat -> Forall (fun c => 0 < c < 256) name ->
  named V -> named (vset V dp (enter (V dp) j k name)).
Proof.
  intros HC Hi Hs Hdp Hj Hk Hl Hc HN i' q' dp' k' Ht Hs' Hdp' Hk' Hu.
  pose proof (ready_range _ _ _ _ HC Hi Hs Hdp).
  apply data_taken in Ht; [|lia]. apply data_slot in Hs'; [|lia|done].
  apply free_slot_Some in Hj as Hj'. destruct Hj' as (Hjr & _ & _).
  destruct (decide (dp' = dp)) as [->|]; [|rewrite vset_ne in * by done; by apply (HN i' q' dp' k')].
  destruct (decide (k' = j)) as [->|].
  - rewrite vset_eq. eexists. by apply enter_name.
  - rewrite vset_eq, enter_inums, decide_False in Hu by lia.
    destruct (HN i' q' dp k') as [s Hn]; [done..|]. exists s.
    destruct (enter_grows V i q dp j k name HC Hi Hs Hdp Hj Hk Hl) as [_ _ _ He].
    destruct (He i' q' dp k') as [_ Ha]; [done..|]. by eapply name_agree.
Qed.

(** ** A creation, whatever its result *)

Section Added.
Context (e g n : Z) (type p i : Z) (fn : list Z) (V V' : view).
Context (HC : consistent V) (Hp : taken V p) (Hi : taken V i) (Ha : added e g n type p i fn V V').

(** The view before the entry is written. *)
Lemma added_before k q V2 dp j :
  first_free V 1 4 k -> ready (with_inode e g n type k V) i p q V2 dp ->
  free_slot 16 (V2 dp) 0 = Some j ->
  let V1 := with_inode e g n type k V in
  consistent V1 /\ taken V1 i /\ taken V1 p /\ consistent V2 /\ taken V2 i /\ slot V2 i q dp /\ dp <> 0 /\
  taken V2 k /\ 0 <= j < 16.
Proof using HC Hp Hi.
  intros Hff Hrd (Hj & _)%free_slot_Some V1.
  destruct (taken_fresh e g n V k i Hff Hi) as [_ Hi1]. destruct (Hi1 type) as [_ Hi2].
  destruct (taken_fresh e g n V k p Hff Hp) as [_ Hp1]. destruct (Hp1 type) as [_ Hp2].
  assert (consistent V1) as HC1 by (apply with_inode_consistent; [apply Hff|apply Hff|done]).
  destruct (ready_consistent _ _ _ _ _ _ HC1 Hi2 Hp2 Hrd) as (HC2 & Hi3 & Hs2 & Hdp & Htk).
  split_and!; try done; [|lia|lia]. apply Htk, fresh_taken; [apply Hff|]. by right.
Qed.

Lemma added_consistent : consistent V'.
Proof using HC Hp Hi Ha.
  destruct Ha as [|k Hff|k q V2 dp j Hff Hrd Hj Hl]; [done| |].
  - apply with_inode_consistent; [apply Hff|apply Hff|done].
  - destruct (added_before k q V2 dp j Hff Hrd Hj) as (_ & _ & _ & HC2 & Hi2 & Hs & Hdp & Hk & Hjr).
    by apply (enter_consistent V2 i q).
Qed.

Lemma added_grows : grows V V'.
Proof using HC Hp Hi Ha.
  destruct Ha as [|k Hff|k q V2 dp j Hff Hrd Hj Hl]; [done|by apply fresh_grows|].
  destruct (added_before k q V2 dp j Hff Hrd Hj) as (HC1 & Hi1 & _ & HC2 & Hi2 & Hs & Hdp & [Hk _] & _).
  etrans; [by apply (fresh_grows e g n type k)|]. etrans; [by eapply ready_grows|].
  by apply (enter_grows V2 i q).
Qed.

Lemma added_named : Forall (fun c => 0 < c < 256) fn -> named V -> named V'.
Proof using HC Hp Hi Ha.
  intros Hc HN. destruct Ha as [|k Hff|k q V2 dp j Hff Hrd Hj Hl]; [exact HN|by apply fresh_named|].
  destruct (added_before k q V2 dp j Hff Hrd Hj) as (HC1 & Hi1 & Hp1 & HC2 & Hi2 & Hs & Hdp & [Hk _] & _).
  apply (enter_named V2 i q); try done. apply (ready_named _ i p q V2 dp HC1 Hi1 Hp1 Hrd). by apply fresh_named.
Qed.
End Added.

(** ** The names in a directory *)

Definition entry_name (m : bytes) (k : Z) : option (list Z) :=
  if inums m k =? INUM_FREE then None else cstr (Z.to_nat (512 - fnames k)) m (fnames k).

Definition block_names (n : nat) (m : bytes) (k : Z) : list (list Z) :=
  omap (entry_name m) (seqZ k (Z.of_nat n)).

(** The names in the blocks [ptrs], and in directory [i]. *)
Definition names_in (V : view) (ptrs : list Z) : list (list Z) :=
  concat ((fun dp => if dp =? 0 then [] else block_names 16 (V dp) 0) <$> ptrs).

Definition names (V : view) (i : Z) : list (list Z) := names_in V (directp (node V i)).

Lemma cstr_name n m a s :
  (length s < n)%nat -> Forall (fun c => 0 < c < 256) s ->
  (forall k, (k <= length s)%nat -> rd8 m (a + Z.of_nat k) = default 0 (s !! k)) ->
  cstr n m a = Some s.
Proof.
  revert a s. induction n as [|n IH]; intros a s Hn Hc Hm; [lia|]. cbn [cstr].
  pose proof (Hm 0%nat ltac:(lia)) as E. rewrite Z.add_0_r in E. rewrite E.
  destruct s as [|c s]; [done|]. apply Forall_cons in Hc as [? Hc]. simpl default.
  destruct (Z.eqb_spec c 0); [lia|]. rewrite (IH (a + 1) s); [done|simpl in Hn; lia|done|].
  intros k Hk. rewrite <- Z.add_assoc. replace (1 + Z.of_nat k) with (Z.of_nat (S k)) by lia.
  rewrite Hm by (simpl; lia). done.
Qed.

Lemma entry_name_at m k s :
  0 <= k < 16 -> inums m k <> INUM_FREE -> name_at m k s -> entry_name m k = Some s.
Proof.
  intros Hk Hu (Hl & Hc & Hm). unfold entry_name. destruct (Z.eqb_spec (inums m k) INUM_FREE); [done|].
  apply cstr_name; [|done|done]. unfold fnames, MAX_FNAME in *. lia.
Qed.

(** A block whose used entries have names. *)
Definition block_named (m : bytes) : Prop :=
  forall k, 0 <= k < 16 -> inums m k <> INUM_FREE -> exists s, name_at m k s.

Lemma entry_named_name m k s s' :
  inums m k <> INUM_FREE -> name_at m k s' -> Forall (fun c => 0 < c < 256) s ->
  entry_named m s k = bool_decide (s = s').
Proof.
  intros Hu (_ & Hc & Hm) Hs. unfold entry_named. destruct (Z.eqb_spec (inums m k) INUM_FREE); [done|].
  simpl. by apply str_eq_written.
Qed.

(** A name is listed exactly when the search finds it. *)
Lemma block_names_find m s :
  block_named m -> Forall (fun c => 0 < c < 256) s ->
  s ∈ block_names 16 m 0 <-> is_Some (find_entry 16 m 0 s).
Proof.
  intros Hb Hs. unfold block_names. rewrite list_elem_of_omap. split.
  - intros (k & Hk & E). apply elem_of_seqZ in Hk.
    destruct (find_entry 16 m 0 s) eqn:Ef; [done|exfalso].
    rewrite find_entry_None in Ef. specialize (Ef k ltac:(lia)). unfold entry_name in E.
    destruct (Z.eqb_spec (inums m k) INUM_FREE) as [|Hu]; [done|].
    destruct (Hb k ltac:(lia) Hu) as [s' Hn].
    pose proof (entry_name_at m k s' ltac:(lia) Hu Hn) as E'. unfold entry_name in E'.
    destruct (Z.eqb_spec (inums m k) INUM_FREE); [done|]. assert (s' = s) as -> by congruence.
    rewrite (entry_named_name m k s s), bool_decide_true in Ef by done. done.
  - intros [k (Hk & Ek & _)%find_entry_Some]. exists k. split; [apply elem_of_seqZ; lia|].
    assert (inums m k <> INUM_FREE) as Hu.
    { intros E. unfold entry_named in Ek. rewrite E in Ek. done. }
    destruct (Hb k ltac:(lia) Hu) as [s' Hn].
    rewrite (entry_named_name m k s s' Hu Hn Hs) in Ek. apply bool_decide_eq_true in Ek as ->.
    apply entry_name_at; [lia|done|done].
Qed.

Lemma named_block V i dp :
  named V -> taken V i -> dp ∈ directp (node V i) -> dp <> 0 -> block_named (V dp).
Proof. intros HN Hi [q Hq]%list_elem_of_lookup Hdp k Hk Hu. by apply (HN i q dp k). Qed.

Lemma names_lookup V i s :
  named V -> taken V i -> Forall (fun c => 0 < c < 256) s ->
  s ∈ names V i <-> is_Some (lookup_in V i s).
Proof.
  intros HN Hi Hs. unfold names, lookup_in.
  assert (forall dp, dp ∈ directp (node V i) -> dp <> 0 -> block_named (V dp)) as Hb
    by (intros; by eapply named_block).
  revert Hb. unfold names_in. generalize (directp (node V i)) as l. induction l as [|dp l IH]; intros Hb; cbn.
  { split; [by intros ?%elem_of_nil|by intros [? ?]]. }
  rewrite elem_of_app, IH by (intros; apply Hb; [by right|done]).
  destruct (Z.eqb_spec dp 0) as [->|Hne].
  - rewrite elem_of_nil. tauto.
  - rewrite block_names_find by (done || (apply Hb; [by left|done])).
    destruct (find_entry 16 (V dp) 0 s) as [k|].
    + split; [done|]. intros _. by left.
    + split; [by intros [[? ?]|?]|by right].
Qed.

Section Run.
Context {D : Type} `{BlockLaws D} (junk : bytes) (euid egid now : Z).

(** [sfs_create] and [sfs_mkdir], whatever they return. *)
Lemma make_keeps fuel i0 type path (d : D) V r d' :
  on d V -> consistent V -> make junk euid egid now fuel i0 type path d = Ret (r, d') ->
  exists V', on d' V' /\ consistent V' /\ grows V V' /\
    (Forall (fun c => 0 < c < 256) path -> named V -> named V').
Proof.
  intros HV HC Em. destruct (last_slash path (length path)) as [n|] eqn:En.
  - destruct (decide (length path < 255)%nat) as [Hl|Hl].
    + rewrite (make_resolved junk euid egid now fuel i0 type path n d V HV HC Hl En) in Em.
      pose proof (navPath_run junk d V (take n path) HV HC (take_length_le path n Hl)) as Hnav.
      destruct (resolve V (take n path)) as [[[[] p] i]|]; [|injection Em as _ <-; by exists V|done].
      destruct Hnav as (_ & Hp & Hi).
      destruct (add_added junk euid egid now fuel i0 type _ d V p i r d' HV HC Hp Hi Em) as (V' & HV' & Ha).
      exists V'. split_and!; [done|exact (added_consistent _ _ _ _ _ _ _ _ _ HC Hp Hi Ha)
        |exact (added_grows _ _ _ _ _ _ _ _ _ HC Hp Hi Ha)|].
      intros Hb HN. apply (added_named _ _ _ _ _ _ _ _ _ HC Hp Hi Ha); [|done].
      by apply Forall_drop.
    + unfold make in Em. destruct (Nat.leb_spec 255 (length path)); [|lia].
      injection Em as _ <-. by exists V.
  - unfold make in Em. rewrite En in Em. destruct (255 <=? length path)%nat;
      injection Em as _ <-; by exists V.
Qed.

(** ** Reading a directory *)

Context {F : Type} (filler : F -> list Z -> Z * F).

(** The callback is called with one name after the other, until it refuses. *)
Fixpoint feed (buf : F) (l : list (list Z)) : bool * F :=
  match l with
  | [] => (true, buf)
  | s :: l' =>
      let (dfg, buf') := filler buf s in
      if negb (dfg =? 0) then (false, buf') else feed buf' l'
  end.

Lemma feed_app buf l l' :
  feed buf (l ++ l') = let (more, buf') := feed buf l in if more then feed buf' l' else (false, buf').
Proof.
  revert buf. induction l as [|s l IH]; intros buf; cbn [feed app]; [done|].
  destruct (filler buf s) as [dfg buf']. by destruct (negb (dfg =? 0)).
Qed.

Lemma cstr_same n b b' a :
  b ≈ b' -> 0 <= a -> a + Z.of_nat n <= 512 -> cstr n b a = cstr n b' a.
Proof.
  intros [Hb]. revert a. induction n as [|n IH]; intros a Ha Hn; cbn [cstr]; [done|].
  rewrite Hb by lia. case_match; [done|]. by rewrite IH by lia.
Qed.

Lemma fill_entries_run n m m' j buf (d : D) :
  m ≈ m' -> block_named m' -> 0 <= j -> j + Z.of_nat n <= 16 ->
  fill_entries filler n m j buf d = Ret (feed buf (block_names n m' j), d).
Proof.
  intros Hm Hb. revert j buf. induction n as [|n IH]; intros j buf Hj Hn; [done|].
  assert (block_names (S n) m' j =
    match entry_name m' j with Some s => s :: block_names n m' (j + 1) | None => block_names n m' (j + 1) end) as E.
  { unfold block_names. rewrite seqZ_cons by lia. cbn [omap list_omap].
    replace (Z.pred (Z.of_nat (S n))) with (Z.of_nat n) by lia. done. }
  cbn [fill_entries]. rewrite E. rewrite (inums_same m m' j Hm) by lia.
  unfold fnames, MAX_FNAME in *. destruct (decide (inums m' j = INUM_FREE)) as [Ef|Hu].
  - unfold entry_name. rewrite Ef. cbn [negb Z.eqb]. rewrite Z.eqb_refl. apply IH; lia.
  - destruct (Hb j ltac:(lia) Hu) as [s Hs].
    pose proof (entry_name_at m' j s ltac:(lia) Hu Hs) as Es. rewrite Es.
    unfold entry_name, fnames, MAX_FNAME in Es. destruct (Z.eqb_spec (inums m' j) INUM_FREE); [done|].
    cbn [negb]. rewrite (cstr_same _ m m'), Es by (done || lia). cbn [feed].
    destruct (filler buf s) as [dfg buf']. destruct (negb (dfg =? 0)); [done|]. apply IH; lia.
Qed.

Lemma fill_blocks_run V i ptrs m buf (d : D) :
  on d V -> consistent V -> named V -> taken V i -> (forall dp, dp ∈ ptrs -> dp ∈ directp (node V i)) ->
  fill_blocks filler ptrs m buf d = Ret ((feed buf (names_in V ptrs)).2, d).
Proof.
  intros HV HC HN Hi. revert m buf. induction ptrs as [|dp ptrs IH]; intros m buf Hp; [done|].
  cbn [fill_blocks]. change (names_in V (dp :: ptrs)) with
    ((if dp =? 0 then [] else block_names 16 (V dp) 0) ++ names_in V ptrs).
  assert (forall x, x ∈ ptrs -> x ∈ directp (node V i)) by (intros; apply Hp; by right).
  destruct (Z.eqb_spec dp 0) as [->|Hdp]; [by apply IH|].
  assert (dp ∈ directp (node V i)) as Hin by (apply Hp; by left).
  apply list_elem_of_lookup in Hin as Hq. destruct Hq as [q Hq].
  pose proof (ready_range V i q dp HC Hi Hq Hdp).
  destruct (read_on d V dp m HV) as (r & b & E & _ & Hb); [unfold Block.max_block; lia|].
  rewrite (bind_Ret _ _ _ _ _ E). cbn [snd].
  rewrite (bind_Ret _ _ _ _ _ (fill_entries_run 16 b (V dp) 0 buf d Hb (named_block V i dp HN Hi Hin Hdp)
    ltac:(lia) ltac:(lia))).
  rewrite feed_app. destruct (feed buf (block_names 16 (V dp) 0)) as [[] buf']; [by apply IH|done].
Qed.

(** [sfs_readdir] gives the names of the directory to the callback. *)
Lemma readdir_run V path ok p i buf (d : D) :
  on d V -> consistent V -> named V -> Z.of_nat (length path) < 10000 ->
  resolve V path = Some (ok, p, i) ->
  sfs_readdir junk filler path buf d =
    Ret (if is_dir (st_mode (node V i)) then (0, (feed buf (names V i)).2) else (-1, buf), d).
Proof.
  intros HV HC HN Hl Hr. pose proof (navPath_run junk d V path HV HC Hl) as Hnav. rewrite Hr in Hnav.
  destruct Hnav as (E & _ & Hi). unfold sfs_readdir. rewrite (bind_Ret _ _ _ _ _ E).
  destruct (is_dir _); cbn [negb]; [|done].
  by rewrite (bind_Ret _ _ _ _ _ (fill_blocks_run V i _ junk buf d HV HC HN Hi (fun dp Hdp => Hdp))).
Qed.

End Run.

(** The callback that keeps every name. *)
Definition collect (l : list (list Z)) (s : list Z) : Z * list (list Z) := (0, l ++ [s]).

Lemma feed_collect l l' : feed collect l l' = (true, l ++ l').
Proof.
  revert l. induction l' as [|s l' IH]; intros l; cbn.
  - by rewrite app_nil_r.
  - rewrite IH. by rewrite <- app_assoc.
Qed.
