(* ===== verification/SfsFuse.v ===== *)
(** * The file system: what FUSE calls

    The table [sfs_oper] of callbacks as one function on requests, a session of
    requests between [init] and [destroy], and [main], which prepares the
    arguments for FUSE. *)

From Stdlib Require Import Ascii.
From stdpp Require Import strings.
From S2P Require Import Prelude ByteMem Printf Log Block Sfs.
Import Sfs.

Module Fuse.

(** ** Requests *)

Inductive request :=
| Init
| Destroy
| Getattr (path : list Z)
| Create (path : list Z)
| Unlink (path : list Z)
| Open (path : list Z)
| Release (path : list Z)
| Read (path : list Z) (size offset : Z)
| Write (path : list Z) (buf : list Z) (size offset : Z)
| Rmdir (path : list Z)
| Mkdir (path : list Z)
| Opendir (path : list Z)
| Readdir (path : list Z)
| Releasedir (path : list Z).

(** What a callback gives back: its result, with the attributes or the
    directory buffer it stored. *)
Inductive reply (F : Type) :=
| Done
| Status (ret : Z)
| Attr (ret : Z) (statbuf : option stat)
| Names (ret : Z) (buf : F).

Arguments Done {F}.
Arguments Status {F} ret.
Arguments Attr {F} ret statbuf.
Arguments Names {F} ret buf.

(** What a call finds that nobody wrote for it: the contents of its
    uninitialised buffers and of the index of [updateDir], the effective user
    and group, and the time. *)
Record ambient := mkAmbient { junk : bytes; index : Z; euid : Z; egid : Z; now : Z }.

Section Session.
Context {D : Type} `{BlockOps D} {F : Type} (filler : F -> list Z -> Z * F) (empty : F).
Context (fuel : nat).

(** [struct fuse_operations sfs_oper] *)
Definition sfs_oper (a : ambient) (r : request) : prog D (reply F) :=
  match r with
  | Init => sfs_init (junk a) (euid a) (egid a) (now a);; mret Done
  | Destroy => sfs_destroy;; mret Done
  | Getattr path => '(ret, st) ← sfs_getattr (junk a) path; mret (Attr ret st)
  | Create path =>
      ret ← sfs_create (junk a) (euid a) (egid a) (now a) fuel (index a) path; mret (Status ret)
  | Unlink path => ret ← sfs_unlink path; mret (Status ret)
  | Open path => ret ← sfs_open path; mret (Status ret)
  | Release path => ret ← sfs_release path; mret (Status ret)
  | Read path size offset => ret ← sfs_read path size offset; mret (Status ret)
  | Write path buf size offset => ret ← sfs_write path buf size offset; mret (Status ret)
  | Rmdir path => ret ← sfs_rmdir path; mret (Status ret)
  | Mkdir path =>
      ret ← sfs_mkdir (junk a) (euid a) (egid a) (now a) fuel (index a) path; mret (Status ret)
  | Opendir path => ret ← sfs_opendir (junk a) path; mret (Status ret)
  | Readdir path => '(ret, buf) ← sfs_readdir (junk a) filler path empty; mret (Names ret buf)
  | Releasedir path => ret ← sfs_releasedir path; mret (Status ret)
  end.

(** The requests of a session, one after the other. *)
Fixpoint session (rs : list (ambient * request)) : prog D (list (reply F)) :=
  match rs with
  | [] => mret []
  | (a, r) :: rs' => x ← sfs_oper a r; xs ← session rs'; mret (x :: xs)
  end.

(** A mount: [init] first, [destroy] last. *)
Definition mounted (a : ambient) (rs : list (ambient * request)) : prog D (list (reply F)) :=
  sfs_oper a Init;; xs ← session rs; sfs_oper a Destroy;; mret xs.

End Session.

(** ** The command line *)

Import Printf.

(** The state of the process is the text on stderr. *)
Abbreviation stderr := string.

(** The exit status of [abort], as a shell reports it. *)
Definition ABORT : Z := 134.

(** [s[0] == '-'] *)
Definition dash (s : string) : bool :=
  match s with String c _ => bool_decide (c = "-"%char) | EmptyString => false end.

(** [argv[i]]; [argv[argc]] is NULL. *)
Definition argv_at (argv : list string) (i : Z) : prog stderr string :=
  match argv !! Z.to_nat i with Some s => mret s | None => p_fault end.

Definition sfs_usage : prog stderr unit :=
  fprintf ("usage:  sfs [FUSE and mount options] diskFile mountPoint" +:+ Log.NL) [];;
  p_halt ABORT.

(** [(argc < 3) || (argv[argc-2][0] == '-') || (argv[argc-1][0] == '-')] *)
Definition bad_arguments (argc : Z) (argv : list string) : prog stderr bool :=
  if argc <? 3 then mret true
  else
    x ← argv_at argv (argc - 2);
    if dash x then mret true
    else y ← argv_at argv (argc - 1); mret (dash y).

(** [malloc_ok], [fopen] and [strerror] are what the system gives; [fuse_main]
    gets the arguments that are left, and the state. *)
Definition main (malloc_ok : bool) (strerror : string) (fopen : option Z)
    (fuse_main : list string -> Log.sfs_state -> prog stderr Z) (argv : list string) : prog stderr Z :=
  let argc := Z.of_nat (length argv) in
  bad ← bad_arguments argc argv;
  (if bad : bool then sfs_usage else mret tt);;
  if negb malloc_ok then Log.perror strerror "main calloc";; p_halt ABORT
  else
    diskfile ← argv_at argv (argc - 2);
    mountpoint ← argv_at argv (argc - 1);
    let argv := <[Z.to_nat (argc - 2) := mountpoint]> argv in
    let argc := argc - 1 in
    logfile ← Log.log_open strerror fopen;
    fprintf ("about to call fuse_main, %s " +:+ Log.NL) [Text diskfile];;
    fuse_stat ← fuse_main (take (Z.to_nat argc) argv) (Log.mkState logfile diskfile);
    fprintf ("fuse_main returned %d" +:+ Log.NL) [Slot fuse_stat];;
    mret fuse_stat.

End Fuse.
