(* ===== verification/SfsThms.v ===== *)
(** * The file system: theorems *)

From S2P Require Import Prelude ByteMem Block Sfs SfsBuf SfsSpec SfsInv SfsNav SfsOps SfsInit SfsLookup SfsCreate.
Import Sfs.

(** ** A disk for the examples *)

(** An empty disk file, and what the system's calls make of it. *)
Definition disk0 : Block.disk := Block.mkDisk 3 true 0 ∅ (fun _ => false) (fun _ => false).

Lemma disk0_ok : d_ok disk0.
Proof. split; simpl; try done; try lia. Qed.

Lemma on_self {D} `{BlockLaws D} (d : D) : d_ok d -> on d (d_blk d).
Proof. intros Hok. by split. Qed.

(** The disk right after formatting. *)
Definition disk1_view : view := formatted ∅ 0 0 0 (Block.blk disk0).

Lemma disk1_exists : exists d1 : Block.disk,
  sfs_init ∅ 0 0 0 disk0 = Ret (tt, d1) /\ on d1 disk1_view.
Proof.
  apply (sfs_init_run ∅ 0 0 0 disk0 (Block.blk disk0) (on_self disk0 disk0_ok)).
  vm_compute. discriminate.
Qed.

Lemma disk1_consistent : consistent disk1_view.
Proof. apply formatted_consistent. Qed.

(** The path of [name] in the root directory. *)
Definition in_root (name : list Z) : list Z := SLASH :: name.

Section Thms.
Context {D : Type} `{BlockLaws D} (junk : bytes) (euid egid now : Z).

(** The disk holds a consistent file system. *)
Definition fs_ok (d : D) : Prop := exists V, on d V /\ consistent V.

(** C24: on a working disk that does not carry the magic number, whatever it
    holds and whatever the uninitialised buffers contain, [sfs_init] writes a
    consistent file system whose only inode is the root, a directory in which
    no name is found. *)
Theorem init_formats (d : D) :
  d_ok d -> magicnum (rd_superblock (d_blk d 0)) <> MAGIC ->
  exists d' V, sfs_init junk euid egid now d = Ret (tt, d') /\ on d' V /\ consistent V /\
    (forall i, taken V i <-> i = 0) /\ st_mode (node V 0) = dir_mode /\
    (forall s, good_name s -> s <> dot -> s <> dotdot -> lookup_in V 0 s = None).
Proof.
  intros Hok Hm. destruct (sfs_init_run junk euid egid now d (d_blk d) (on_self d Hok)) as [Hf _].
  destruct (Hf Hm) as (d' & E & HV). exists d', (formatted junk euid egid now (d_blk d)).
  split_and!; [done|done|apply formatted_consistent|apply formatted_taken|..].
  - unfold node, formatted. change (node_block 0) with 65. rewrite vset_eq. apply root_buf_fields.
  - intros s Hs Hd Hdd. unfold lookup_in.
    pose proof (formatted_root_slot junk euid egid now (d_blk d)) as Hslot.
    rewrite (slot_split _ 0 0 1089 Hslot). rewrite dir_find_app, dir_find_cons by lia.
    rewrite formatted_dir, dir_block_find by (done || lia). simpl take.
    apply (dir_find_zeros _ _ s). intros dp [k Hk]%list_elem_of_lookup. rewrite lookup_drop in Hk.
    by apply formatted_slot in Hk as [[? _]|[_ ?]].
Qed.

(** Mounting a consistent file system again changes nothing. *)
Theorem init_keeps (d : D) : fs_ok d -> sfs_init junk euid egid now d = Ret (tt, d).
Proof.
  intros (V & HV & HC). destruct (sfs_init_run junk euid egid now d V HV) as [_ Hk].
  apply Hk. by rewrite (c_super V HC).
Qed.

(** C11: [navPath] terminates on every path of a consistent file system (with
    one iteration per byte as bound) and computes the reference [resolve]: the
    inodes it stores are those of the parent and of the target, and it returns
    0 exactly when the last component was found; a component of 24 bytes or
    more overruns its buffer. *)
Theorem navPath_resolves (d : D) V path :
  on d V -> consistent V -> Z.of_nat (length path) < 10000 ->
  match resolve V path with
  | None => navPath junk path d = Fault
  | Some (ok, p, i) =>
      navPath junk path d = Ret ((if ok : bool then 0 else -1, node V p, node V i), d) /\
      st_ino (node V p) = p /\ st_ino (node V i) = i
  end.
Proof.
  intros HV HC Hl. pose proof (navPath_run junk d V path HV HC Hl) as Hn.
  destruct (resolve V path) as [[[ok p] i]|]; [|done]. destruct Hn as (E & Hp & Hi).
  split; [done|]. split; by apply c_ino.
Qed.

(** [reserveFreeData] returns the first free data block, marks exactly it
    as taken and changes no other map entry and no other block, so that two
    calls never return the same block; when all 30720 are taken it returns -1
    and leaves the disk alone. *)
Theorem reserve_data_first (d : D) V :
  on d V -> consistent V ->
  (exists x d' V', reserveFreeData junk d = Ret (1089 + x, d') /\ on d' V' /\
     0 <= x < 30720 /\ map_at V 5 x = 0 /\ (forall y, 0 <= y < x -> map_at V 5 y <> 0) /\
     (forall y, 0 <= y < 30720 -> map_at V' 5 y = if decide (y = x) then 1 else map_at V 5 y) /\
     (forall m, ~ (5 <= m < 65) -> V' m = V m)) \/
  ((forall x, 0 <= x < 30720 -> map_at V 5 x <> 0) /\ reserveFreeData junk d = Ret (-1, d)).
Proof.
  intros HV HC. destruct (reserveFreeData_run junk d V HV (c_super V HC))
    as [(x & d' & (Hx & Hm & Hlt) & E & HV')|[Hf E]]; [left|by right].
  exists x, d', (map_set V 5 x). split_and!; try done; try lia.
  - intros y Hy. apply map_at_set; lia.
  - intros m Hm'. pose proof (dmap_block x Hx). apply map_set_other. lia.
Qed.

(** [reserveFreeInode] returns the first free inode, never the root's,
    initialises it (its own number, the type, no blocks) and leaves all other
    inodes and the data alone; without a free inode it returns 0 and changes
    nothing. *)
Theorem reserve_inode_first type (d : D) V :
  on d V -> consistent V ->
  (exists k d' V', reserveFreeInode junk euid egid now type d = Ret (k, d') /\ on d' V' /\
     0 < k < 2048 /\ ~ taken V k /\ (forall i, 0 <= i < k -> taken V i) /\
     (forall i, taken V' i <-> taken V i \/ i = k) /\
     (forall i, 0 <= i < 2048 -> i <> k -> node V' i = node V i) /\
     (forall m, 1089 <= m -> V' m = V m) /\
     st_ino (node V' k) = k /\
     st_mode (node V' k) = (if type =? DIRECTORY then dir_mode else file_mode) /\
     (forall q dp, slot V' k q dp -> dp = 0)) \/
  ((forall i, 0 <= i < 2048 -> taken V i) /\
   reserveFreeInode junk euid egid now type d = Ret (0, d)).
Proof.
  intros HV HC. destruct (reserveFreeInode_run junk euid egid now type d V HV (c_super V HC))
    as [(k & d' & (Hk & Hm & Hlt) & E & HV')|[Hf E]].
  2:{ right. split; [|done]. intros i Hi. split; [done|]. by apply Hf. }
  left. exists k, d', (with_inode euid egid now type k V).
  assert (k <> 0) by (intros ->; by apply (c_root V HC)).
  pose proof (imap_block k Hk). pose proof (node_block_range k Hk).
  split_and!; try done; try lia.
  - by intros [_ ?].
  - intros i Hi. split; [lia|]. apply Hlt. lia.
  - intros i. by apply fresh_taken.
  - intros i Hi Hne. by apply fresh_node.
  - intros m Hm'. apply fresh_other; lia.
  - rewrite fresh_self. apply set_inode_ino. lia.
  - rewrite fresh_self. apply set_inode_mode.
  - intros q dp Hs. unfold slot in Hs. rewrite fresh_self in Hs. by apply set_inode_ptr in Hs.
Qed.

(** C6: when the parent directory resolves, an inode is free, the slot
    [updateDir] looks at has room and the name is new, has less than 24 bytes and
    is not "." or "..", [sfs_create] and [sfs_mkdir] return 0 and add the name: it
    is found in its directory with a fresh inode of the right type, every other
    name in every directory is found as before, and the file system stays
    consistent.  The exception is a directory whose slot was empty: its new block
    holds the names "." and ".." too, and the lookup of these two in it may
    change. *)
Theorem create_adds_entry f q (mkdir : bool) dir name (d : D) V p i :
  on d V -> consistent V -> Z.of_nat (length dir + length name) < 254 ->
  resolve V dir = Some (true, p, i) ->
  good_name name -> name <> dot -> name <> dotdot -> lookup_in V i name = None ->
  (exists k, 0 <= k < 2048 /\ map_at V 1 k = 0) -> room V i q ->
  exists d' V' k,
    (if mkdir then sfs_mkdir else sfs_create) junk euid egid now (S f) (Z.of_nat q)
      (dir ++ SLASH :: name) d = Ret (0, d') /\
    on d' V' /\ created (if mkdir then DIRECTORY else FILE) i q name k V V'.
Proof.
  intros HV HC Hlen Hres Hg Hd Hdd Hnone Hfree Hroom.
  pose proof (navPath_run junk d V dir HV HC ltac:(lia)) as Hnav. rewrite Hres in Hnav.
  destruct Hnav as (_ & Hp & Hi).
  destruct mkdir; by apply (make_adds junk euid egid now f q _ dir name d V p i).
Qed.

(** C30: a file created in the root directory is there: [sfs_create] followed
    by [sfs_getattr] on the same path returns 0 and a regular file with a
    fresh, non-root inode number. *)
Theorem create_getattr f q name (d : D) V :
  on d V -> consistent V -> good_name name -> name <> [] -> name <> dot -> name <> dotdot ->
  lookup_in V 0 name = None -> (exists k, 0 <= k < 2048 /\ map_at V 1 k = 0) -> room V 0 q ->
  exists d' k, sfs_create junk euid egid now (S f) (Z.of_nat q) (in_root name) d = Ret (0, d') /\
    ~ taken V k /\ k <> 0 /\
    sfs_getattr junk (in_root name) d' = Ret ((0, Some (mkStat k file_mode 1 512)), d').
Proof.
  intros HV HC Hg Hne Hd Hdd Hnone Hfree Hroom. pose proof (root_taken V HC) as H0'.
  pose proof (proj1 Hg) as Hl. unfold MAX_FNAME in Hl.
  destruct (make_adds junk euid egid now f q FILE [] name d V 0 0 HV HC ltac:(simpl; lia) eq_refl
    H0' H0' Hg Hd Hdd Hnone Hfree Hroom) as (d' & V' & k & E & HV' & [HC' (Hk & Hk' & Hk0) Hf Hino Hmode _]).
  exists d', k. split_and!; [done..|]. unfold sfs_getattr.
  pose proof (navPath_run junk d' V' (in_root name) HV' HC' ltac:(simpl; lia)) as Hnav.
  unfold in_root in *. rewrite resolve_root in Hnav by done. rewrite Hf in Hnav.
  change (bool_decide (is_Some (Some k))) with true in Hnav.
  change (default 0 (Some k)) with k in Hnav. destruct Hnav as [En _].
  rewrite (bind_Ret _ _ _ _ _ En). change (0 =? -1) with false. cbn match. by rewrite Hino, Hmode.
Qed.

(** C40: [updateDir] never advances its index: when the block of the slot it
    looks at is full, [sfs_create] and [sfs_mkdir] loop forever, for every
    bound on the number of iterations. *)
Theorem create_full_hangs fuel q (mkdir : bool) dir name (d : D) V p i dp :
  on d V -> consistent V -> Z.of_nat (length dir + length name) < 254 ->
  resolve V dir = Some (true, p, i) -> good_name name ->
  (exists k, 0 <= k < 2048 /\ map_at V 1 k = 0) ->
  slot V i q dp -> dp <> 0 -> free_slot 16 (V dp) 0 = None ->
  (if mkdir then sfs_mkdir else sfs_create) junk euid egid now fuel (Z.of_nat q)
    (dir ++ SLASH :: name) d = Timeout.
Proof.
  intros HV HC Hlen Hres Hg Hfree Hs Hdp Hfull.
  pose proof (navPath_run junk d V dir HV HC ltac:(lia)) as Hnav. rewrite Hres in Hnav.
  destruct Hnav as (_ & Hp & Hi).
  assert (forall type, make junk euid egid now fuel (Z.of_nat q) type (dir ++ SLASH :: name) d = Timeout)
    as Hm; [|destruct mkdir; apply Hm].
  intros type. rewrite (make_full junk euid egid now fuel q type dir name d V p i dp); done.
Qed.

(** A component that does not exist is passed over: looking up
    ["/missing/r"] gives exactly what looking up ["/r"] gives, so a file can
    be reached below directories that do not exist. *)
Theorem nav_skips_missing s r (d : D) V :
  on d V -> consistent V -> good_name s -> s <> [] -> lookup_in V 0 s = None ->
  r <> [] -> r <> [SLASH] -> Z.of_nat (length s + length r) < 9990 ->
  navPath junk (SLASH :: s ++ SLASH :: r) d = navPath junk (SLASH :: r) d.
Proof.
  intros HV HC Hg Hs Hnone Hr Hr' Hlen.
  assert (resolve V (SLASH :: s ++ SLASH :: r) = resolve V (SLASH :: r)) as E.
  { by apply resolve_skip. }
  pose proof (navPath_run junk d V (SLASH :: s ++ SLASH :: r) HV HC) as H1.
  pose proof (navPath_run junk d V (SLASH :: r) HV HC) as H2.
  rewrite E in H1. rewrite length_cons, length_app, length_cons in H1. rewrite length_cons in H2.
  destruct (resolve V (SLASH :: r)) as [[[ok p] i]|].
  - destruct H1 as [-> _]; [lia|]. by destruct H2 as [-> _]; [lia|].
  - rewrite H1 by lia. by rewrite H2 by lia.
Qed.

(** A file name of 24 bytes or more overruns the 24-byte buffer
    [sfs_create] copies it to (paths of up to 254 bytes are accepted). *)
Theorem long_name_faults fuel i0 (mkdir : bool) dir name (d : D) V p i :
  on d V -> consistent V -> Z.of_nat (length dir + length name) < 254 ->
  resolve V dir = Some (true, p, i) -> Forall (fun c => c <> SLASH) name ->
  (exists k, 0 <= k < 2048 /\ map_at V 1 k = 0) -> (MAX_FNAME <= length name)%nat ->
  (if mkdir then sfs_mkdir else sfs_create) junk euid egid now fuel i0 (dir ++ SLASH :: name) d = Fault.
Proof.
  intros HV HC Hlen Hres Hn Hfree Hl.
  assert (forall type, make junk euid egid now fuel i0 type (dir ++ SLASH :: name) d = Fault)
    as Hm; [|destruct mkdir; apply Hm].
  intros type. rewrite (make_split junk euid egid now fuel i0 type dir name d V p i) by done.
  destruct (add_reserved junk euid egid now fuel i0 type name (node V p) (node V i) d V HV HC)
    as [(k & d1 & _ & _ & _ & _ & ->)|[Hfull _]].
  - destruct (Nat.leb_spec MAX_FNAME (length name)); [done|lia].
  - destruct Hfree as (k & Hk & Hm). by destruct (Hfull k).
Qed.

(** [sfs_readdir] ignores the failure of [navPath]: reading a directory
    that does not exist in the root succeeds and lists the root. *)
Theorem readdir_missing {F} (filler : F -> list Z -> Z * F) buf s (d : D) V :
  on d V -> consistent V -> good_name s -> s <> [] -> lookup_in V 0 s = None ->
  sfs_readdir junk filler (in_root s) buf d = sfs_readdir junk filler (in_root []) buf d.
Proof.
  intros HV HC Hg Hs Hnone. unfold sfs_readdir, in_root.
  pose proof (proj1 Hg) as Hl. unfold MAX_FNAME in Hl.
  pose proof (navPath_run junk d V (SLASH :: s) HV HC ltac:(simpl; lia)) as H1.
  pose proof (navPath_run junk d V [SLASH] HV HC ltac:(simpl; lia)) as H2.
  rewrite resolve_root in H1 by done. rewrite Hnone in H1. destruct H1 as [E1 _], H2 as [E2 _].
  by rewrite (bind_Ret _ _ _ _ _ E1), (bind_Ret _ _ _ _ _ E2).
Qed.

End Thms.

(** ** The theorems at work *)

Definition name_a : list Z := [97].
Definition name_long : list Z := replicate 24 97.

Lemma disk1_free_inode : exists k, 0 <= k < 2048 /\ map_at disk1_view 1 k = 0.
Proof. exists 1. split; [lia|vm_compute; reflexivity]. Qed.

Lemma disk1_room : room disk1_view 0 0.
Proof.
  exists 1089. split; [apply formatted_root_slot|]. right. split; [done|].
  exists 1. vm_compute. reflexivity.
Qed.

Lemma good_a : good_name name_a.
Proof. apply (bool_decide_unpack _). vm_compute. exact I. Qed.

Lemma lookup_a : lookup_in disk1_view 0 name_a = None.
Proof. vm_compute. reflexivity. Qed.

Lemma init_formats_witness :
  exists d' V, sfs_init ∅ 0 0 0 disk0 = Ret (tt, d') /\ on d' V /\ consistent V.
Proof.
  destruct (init_formats ∅ 0 0 0 disk0) as (d' & V & E & HV & HC & _).
  - exact disk0_ok.
  - vm_compute. discriminate.
  - exists d', V. split_and!; [exact E|exact HV|exact HC].
Defined.

Lemma init_keeps_witness :
  exists d : Block.disk, sfs_init ∅ 0 0 0 disk0 = Ret (tt, d) /\ sfs_init ∅ 0 0 0 d = Ret (tt, d).
Proof.
  destruct disk1_exists as (d & E & HV). exists d. split; [exact E|].
  apply (init_keeps ∅ 0 0 0 d). exists disk1_view. split; [exact HV|exact disk1_consistent].
Defined.

(** The creation of ["/a"] on the formatted disk. *)
Lemma create_a_run (d : Block.disk) :
  on d disk1_view -> exists d', sfs_create ∅ 0 0 0 1 0 (in_root name_a) d = Ret (0, d').
Proof.
  intros HV. pose proof (root_taken _ disk1_consistent) as H0.
  destruct (make_adds ∅ 0 0 0 0 0 FILE [] name_a d disk1_view 0 0 HV disk1_consistent
    ltac:(simpl; lia) eq_refl H0 H0 good_a ltac:(done) ltac:(done) lookup_a disk1_free_inode disk1_room)
    as (d' & _ & _ & E & _).
  by exists d'.
Qed.

Lemma navPath_resolves_witness :
  exists d : Block.disk,
    navPath ∅ (in_root name_a) d = Ret ((-1, node disk1_view 0, node disk1_view 0), d).
Proof.
  destruct disk1_exists as (d & E & HV). exists d.
  pose proof (navPath_resolves ∅ d disk1_view (in_root name_a) HV disk1_consistent ltac:(simpl; lia)) as Hn.
  rewrite resolve_root in Hn; [|exact good_a|discriminate]. rewrite lookup_a in Hn.
  destruct Hn as [En _]. exact En.
Defined.

Lemma reserve_data_first_witness :
  exists (d : Block.disk) x d', reserveFreeData ∅ d = Ret (1089 + x, d') /\ map_at disk1_view 5 x = 0.
Proof.
  destruct disk1_exists as (d & E & HV).
  destruct (reserve_data_first ∅ d disk1_view HV disk1_consistent)
    as [(x & d' & V' & Er & _ & _ & Hm & _)|[Hf _]].
  - exists d, x, d'. split; [exact Er|exact Hm].
  - exfalso. apply (Hf 1); [lia|vm_compute; reflexivity].
Defined.

Lemma reserve_inode_first_witness :
  exists (d : Block.disk) k d', reserveFreeInode ∅ 0 0 0 FILE d = Ret (k, d') /\ 0 < k.
Proof.
  destruct disk1_exists as (d & E & HV).
  destruct (reserve_inode_first ∅ 0 0 0 FILE d disk1_view HV disk1_consistent)
    as [(k & d' & V' & Er & _ & Hk & _)|[Hf _]].
  - exists d, k, d'. split; [exact Er|exact (proj1 Hk)].
  - exfalso. apply (proj2 (Hf 1 ltac:(lia))). vm_compute. reflexivity.
Defined.

Lemma create_adds_entry_witness :
  exists (d d' : Block.disk) V' k,
    sfs_mkdir ∅ 0 0 0 1 0 (in_root name_a) d = Ret (0, d') /\ on d' V' /\
    created DIRECTORY 0 0 name_a k disk1_view V'.
Proof.
  destruct disk1_exists as (d & E & HV).
  destruct (create_adds_entry ∅ 0 0 0 0 0 true [] name_a d disk1_view 0 0 HV disk1_consistent)
    as (d' & V' & k & Ec & HV' & Hcr).
  - simpl. lia.
  - reflexivity.
  - exact good_a.
  - discriminate.
  - discriminate.
  - exact lookup_a.
  - exact disk1_free_inode.
  - exact disk1_room.
  - exists d, d', V', k. split_and!; [exact Ec|exact HV'|exact Hcr].
Defined.

Lemma create_getattr_witness :
  exists (d d' : Block.disk) k, sfs_create ∅ 0 0 0 1 0 (in_root name_a) d = Ret (0, d') /\
    sfs_getattr ∅ (in_root name_a) d' = Ret ((0, Some (mkStat k file_mode 1 512)), d').
Proof.
  destruct disk1_exists as (d & E & HV).
  destruct (create_getattr ∅ 0 0 0 0 0 name_a d disk1_view HV disk1_consistent)
    as (d' & k & Ec & _ & _ & Eg).
  - exact good_a.
  - discriminate.
  - discriminate.
  - discriminate.
  - exact lookup_a.
  - exact disk1_free_inode.
  - exact disk1_room.
  - exists d, d', k. split; [exact Ec|exact Eg].
Defined.

(** The root's block with every entry in use (all of them the root). *)
Definition full_view : view := vset disk1_view 1089 ∅.

Lemma full_consistent : consistent full_view.
Proof.
  apply data_consistent; [done|exact disk1_consistent|]. intros k Hk. right.
  assert (inums ∅ k = 0) as ->; [|apply root_taken, disk1_consistent].
  apply ld_zero. intros. apply rd8_empty.
Qed.

Lemma full_disk : exists d : Block.disk, on d full_view.
Proof.
  destruct disk1_exists as (d & _ & HV).
  destruct (write_on d disk1_view 1089 ∅ ∅ HV) as (d' & _ & HV'); [done|done|]. by exists d'.
Qed.

Lemma create_full_hangs_witness :
  exists d : Block.disk, forall fuel, sfs_create ∅ 0 0 0 fuel 0 (in_root name_a) d = Timeout.
Proof.
  destruct full_disk as (d & HV). exists d. intros fuel.
  apply (create_full_hangs ∅ 0 0 0 fuel 0 false [] name_a d full_view 0 0 1089 HV full_consistent).
  - simpl. lia.
  - reflexivity.
  - exact good_a.
  - exists 1. split; [lia|vm_compute; reflexivity].
  - unfold slot. unfold full_view. rewrite data_node by lia. apply formatted_root_slot.
  - discriminate.
  - vm_compute. reflexivity.
Defined.

Lemma nav_skips_missing_witness :
  exists d : Block.disk,
    navPath ∅ [SLASH; 97; SLASH; DOT] d = navPath ∅ [SLASH; DOT] d.
Proof.
  destruct disk1_exists as (d & E & HV). exists d.
  apply (nav_skips_missing ∅ name_a [DOT] d disk1_view HV disk1_consistent).
  - exact good_a.
  - discriminate.
  - exact lookup_a.
  - discriminate.
  - discriminate.
  - simpl. lia.
Defined.

Lemma long_name_faults_witness :
  exists d : Block.disk, sfs_create ∅ 0 0 0 1 0 (in_root name_long) d = Fault.
Proof.
  destruct disk1_exists as (d & E & HV). exists d.
  apply (long_name_faults ∅ 0 0 0 1 0 false [] name_long d disk1_view 0 0 HV disk1_consistent).
  - simpl. lia.
  - reflexivity.
  - apply (bool_decide_unpack _). vm_compute. exact I.
  - exact disk1_free_inode.
  - vm_compute. lia.
Defined.

Lemma readdir_missing_witness :
  exists d : Block.disk,
    sfs_readdir ∅ (fun l n => (0, l ++ [n])) (in_root name_a) [] d =
    sfs_readdir ∅ (fun l n => (0, l ++ [n])) (in_root []) [] d.
Proof.
  destruct disk1_exists as (d & E & HV). exists d.
  apply (readdir_missing ∅ (fun l n => (0, l ++ [n])) [] name_a d disk1_view HV disk1_consistent).
  - exact good_a.
  - discriminate.
  - exact lookup_a.
Defined.
