(* ===== verification/SfsSession.v ===== *)
(** * The file system: sessions

    Every sequence of requests FUSE can send keeps the file system consistent
    and loses nothing that was there; the requests that do not create anything
    always return and write nothing; a directory is read back as the names
    that can be looked up in it. *)

From stdpp Require Import strings.
From S2P Require Import Prelude ByteMem Printf Log Block Sfs SfsBuf SfsSpec SfsInv SfsNav SfsOps SfsInit SfsLookup SfsCreate SfsNames SfsFuse SfsThms.
Import Sfs Fuse.

(** ** Requests *)

Definition path_of (r : request) : list Z :=
  match r with
  | Init | Destroy => []
  | Getattr path | Create path | Unlink path | Open path | Release path | Read path _ _
  | Write path _ _ _ | Rmdir path | Mkdir path | Opendir path | Readdir path | Releasedir path => path
  end.

(** The path of a request is a C string of less than [PATH_MAX] bytes. *)
Definition valid (r : request) : Prop :=
  Z.of_nat (length (path_of r)) < 4096 /\ Forall (fun c => 0 < c < 256) (path_of r).

#[export] Instance valid_dec r : Decision (valid r).
Proof. unfold valid. apply _. Defined.

Definition creates (r : request) : bool :=
  match r with Create _ | Mkdir _ => true | _ => false end.

Section Requests.
Context {D : Type} `{BlockLaws D} {F : Type} (filler : F -> list Z -> Z * F) (empty : F) (fuel : nat).
Abbreviation oper := (sfs_oper (D := D) filler empty fuel).

(** A request that creates nothing returns and writes nothing. *)
Lemma observe_run a r (d : D) V :
  on d V -> consistent V -> named V -> valid r -> creates r = false -> resolve V (path_of r) <> None ->
  exists x, oper a r d = Ret (x, d).
Proof.
  intros HV HC HN [Hl _] Hr Hres.
  pose proof (navPath_run (junk a) d V (path_of r) HV HC ltac:(lia)) as Hnav.
  destruct (resolve V (path_of r)) as [[[ok p] i]|] eqn:Eres; [|done]. destruct Hnav as (E & _ & _).
  destruct r; cbn [sfs_oper path_of] in *; try (eexists; reflexivity); try done.
  - destruct (sfs_init_run (junk a) (euid a) (egid a) (now a) d V HV) as [_ Hk].
    rewrite (bind_Ret _ _ _ _ _ (Hk ltac:(by rewrite (c_super V HC)))). by eexists.
  - unfold sfs_getattr. destruct ok; eexists; unfold mbind, prog_bind, p_bind in *; by rewrite E.
  - unfold sfs_opendir. destruct ok; eexists; unfold mbind, prog_bind, p_bind in *; by rewrite E.
  - rewrite (bind_Ret _ _ _ _ _ (readdir_run (junk a) filler V path ok p i empty d HV HC HN ltac:(lia) Eres)).
    destruct (is_dir _); by eexists.
Qed.

(** With a component that is too long such a request faults. *)
Lemma observe_long a r (d : D) V x d' :
  on d V -> consistent V -> named V -> valid r -> creates r = false -> oper a r d = Ret (x, d') -> d' = d.
Proof.
  intros HV HC HN Hv Hr E. destruct (resolve V (path_of r)) as [t|] eqn:Eres.
  - destruct (observe_run a r d V HV HC HN Hv Hr) as [x' E']; [congruence|]. congruence.
  - destruct Hv as [Hl _]. pose proof (navPath_run (junk a) d V (path_of r) HV HC ltac:(lia)) as Hnav.
    rewrite Eres in Hnav. destruct r; cbn [sfs_oper path_of] in *; try done;
      try (injection E as _ <-; done);
      unfold sfs_getattr, sfs_opendir, sfs_readdir, mbind, prog_bind, p_bind in E; by rewrite Hnav in E.
Qed.

(** One request. *)
Lemma oper_keeps a r (d : D) V x d' :
  on d V -> consistent V -> named V -> valid r -> oper a r d = Ret (x, d') ->
  exists V', on d' V' /\ consistent V' /\ named V' /\ grows V V'.
Proof.
  intros HV HC HN Hv E. destruct (creates r) eqn:Hr.
  - assert (exists type ret, make (junk a) (euid a) (egid a) (now a) fuel (index a) type (path_of r) d
      = Ret (ret, d')) as (type & ret & Em).
    { destruct r; try done; cbn [sfs_oper path_of] in *; apply bind_inv in E as (ret & d1 & E1 & E2);
        injection E2 as _ <-; by eexists _, _. }
    destruct (make_keeps _ _ _ _ _ _ _ _ d V ret d' HV HC Em) as (V' & HV' & HC' & Hg & Hn).
    exists V'. split_and!; [done|done| |done]. apply Hn; [apply Hv|done].
  - rewrite (observe_long a r d V x d') by done. by exists V.
Qed.

Lemma session_run rs (d : D) V xs d' :
  on d V -> consistent V -> named V -> Forall (fun c => valid c.2) rs ->
  session filler empty fuel rs d = Ret (xs, d') ->
  exists V', on d' V' /\ consistent V' /\ named V' /\ grows V V'.
Proof.
  intros HV HC HN Hrs. revert d V xs d' HV HC HN.
  induction Hrs as [|[a r] rs Hr Hrs IH]; intros d V xs d' HV HC HN E; cbn [session] in E.
  - injection E as _ <-. by exists V.
  - apply bind_inv in E as (x & d1 & E1 & E). apply bind_inv in E as (xs' & d2 & E2 & E).
    injection E as _ <-.
    destruct (oper_keeps a r d V x d1 HV HC HN Hr E1) as (V1 & HV1 & HC1 & HN1 & Hg1).
    destruct (IH d1 V1 xs' d2 HV1 HC1 HN1 E2) as (V2 & ? & ? & ? & Hg2).
    exists V2. split_and!; [done..|]. by etrans.
Qed.

End Requests.

(** ** Theorems *)

Section Thms.
Context {D : Type} `{BlockLaws D} {F : Type} (filler : F -> list Z -> Z * F) (empty : F).

(** C4: whatever requests FUSE sends, in whatever order, with whatever the
    uninitialised variables of every call hold and whether the calls succeed or
    report errors: the file system stays consistent (no block used twice, no
    entry that names a free inode, every entry with a name) and nothing in it
    is lost: allocated inodes stay allocated and keep their type, directories
    keep their blocks, and entries their names and inodes. *)
Theorem session_keeps fuel rs (d : D) V xs d' :
  on d V -> consistent V -> named V -> Forall (fun c => valid c.2) rs ->
  session filler empty fuel rs d = Ret (xs, d') ->
  exists V', on d' V' /\ consistent V' /\ named V' /\ grows V V'.
Proof. apply session_run. Qed.

(** C21: a disk that does not carry the magic number is formatted by the first
    mount; after any session and the unmount, mounting it again formats
    nothing: the second [init], with other contents of its buffers, leaves
    the disk as it is. *)
Theorem remount_keeps fuel a a' rs (d : D) xs d' :
  d_ok d -> magicnum (rd_superblock (d_blk d 0)) <> MAGIC -> Forall (fun c => valid c.2) rs ->
  mounted filler empty fuel a rs d = Ret (xs, d') ->
  sfs_oper filler empty fuel a' Init d' = Ret (Done, d').
Proof.
  intros Hok Hm Hrs E. unfold mounted in E. apply bind_inv in E as (x & d1 & E1 & E).
  apply bind_inv in E as (xs' & d2 & E2 & E). injection E as _ <-.
  destruct (sfs_init_run (junk a) (euid a) (egid a) (now a) d (d_blk d) (on_self d Hok)) as [Hf _].
  destruct (Hf Hm) as (d1' & Ei & HV1). cbn [sfs_oper] in E1. rewrite (bind_Ret _ _ _ _ _ Ei) in E1.
  injection E1 as _ <-.
  destruct (session_run filler empty fuel rs d1' _ xs' d2 HV1 (formatted_consistent _ _ _ _ _)
    (formatted_named _ _ _ _ _) Hrs E2) as (V2 & HV2 & HC2 & _ & _).
  cbn [sfs_oper]. destruct (sfs_init_run (junk a') (euid a') (egid a') (now a') d2 V2 HV2) as [_ Hk].
  by rewrite (bind_Ret _ _ _ _ _ (Hk ltac:(by rewrite (c_super V2 HC2)))).
Qed.

(** C31: requests that create nothing (attributes, opening, reading and
    listing, and the operations without a body) always return, and leave the
    disk exactly as it is, as long as no component of the path is too long. *)
Theorem observers_return fuel a r (d : D) V :
  on d V -> consistent V -> named V -> valid r -> creates r = false -> resolve V (path_of r) <> None ->
  exists x, sfs_oper filler empty fuel a r d = Ret (x, d).
Proof. apply observe_run. Qed.

End Thms.

Section Listing.
Context {D : Type} `{BlockLaws D}.

(** C20: reading a directory calls the callback of FUSE with the names of the
    used entries, block after block and entry after entry ([names]), each once,
    until the callback refuses; with a callback that keeps what it gets, the
    result is this list.  These are exactly the names that can be looked up. *)
Theorem readdir_lists {F : Type} (filler : F -> list Z -> Z * F) junk path buf (d : D) V ok p i :
  on d V -> consistent V -> named V -> Z.of_nat (length path) < 10000 ->
  resolve V path = Some (ok, p, i) -> is_dir (st_mode (node V i)) = true ->
  sfs_readdir junk filler path buf d = Ret ((0, (feed filler buf (names V i)).2), d) /\
  sfs_readdir junk collect path [] d = Ret ((0, names V i), d) /\
  forall s, Forall (fun c => 0 < c < 256) s -> s ∈ names V i <-> is_Some (lookup_in V i s).
Proof.
  intros HV HC HN Hl Hr Hdir. split_and!.
  - rewrite (readdir_run junk filler V path ok p i) by done. by rewrite Hdir.
  - rewrite (readdir_run junk collect V path ok p i) by done. by rewrite Hdir, feed_collect.
  - intros s Hs. apply names_lookup; [done| |done].
    pose proof (navPath_run junk d V path HV HC Hl) as Hn. rewrite Hr in Hn. apply Hn.
Qed.

End Listing.

(** ** The command line *)

Lemma dash_neg argc argv x y err :
  3 <= argc -> argv !! Z.to_nat (argc - 2) = Some x -> argv !! Z.to_nat (argc - 1) = Some y ->
  bad_arguments argc argv err = Ret (dash x || dash y, err).
Proof.
  intros Ha Ex Ey. unfold bad_arguments, argv_at. destruct (Z.ltb_spec argc 3); [lia|].
  rewrite Ex. unfold mbind, prog_bind, p_bind, mret, prog_ret, p_ret. destruct (dash x); [done|].
  by rewrite Ey.
Qed.

Lemma last_two (first : string) opts (disk mnt : string) :
  let argv := first :: opts ++ [disk; mnt] in
  let argc := Z.of_nat (length argv) in
  3 <= argc /\ argv !! Z.to_nat (argc - 2) = Some disk /\ argv !! Z.to_nat (argc - 1) = Some mnt /\
  take (Z.to_nat (argc - 1)) (<[Z.to_nat (argc - 2) := mnt]> argv) = first :: opts ++ [mnt].
Proof.
  intros argv argc. assert (argc = Z.of_nat (length opts) + 3) as E.
  { unfold argc, argv. rewrite length_cons, length_app. cbn [length]. lia. }
  replace (Z.to_nat (argc - 2)) with (S (length opts)) by lia.
  replace (Z.to_nat (argc - 1)) with (S (S (length opts))) by lia.
  unfold argv. split_and!; [lia|..].
  - rewrite lookup_cons. by rewrite lookup_app_r, Nat.sub_diag by lia.
  - rewrite lookup_cons. rewrite lookup_app_r by lia.
    replace (S (length opts) - length opts)%nat with 1%nat by lia. done.
  - rewrite !app_comm_cons. rewrite insert_app_r_alt by (simpl; lia).
    replace (S (length opts) - length (first :: opts))%nat with 0%nat by (simpl; lia).
    change (<[0%nat:=mnt]> [disk; mnt]) with ([mnt] ++ [mnt]). rewrite app_assoc.
    rewrite take_app_length'; [done|]. rewrite length_app. simpl. lia.
Qed.

Lemma vfprintf_about disk :
  Printf.sprintf ("about to call fuse_main, %s " +:+ Log.NL) [Printf.Text disk] =
    Some ("about to call fuse_main, " +:+ disk +:+ " " +:+ Log.NL).
Proof. reflexivity. Qed.

(** [main] runs FUSE exactly when there are a disk file and a mount point
    that are not options: then FUSE gets all arguments but the disk file, which
    is in the state the callbacks find, and the result of FUSE is that of the
    program; otherwise the process aborts without calling FUSE. *)
Theorem main_arguments strerror f fuse_main first opts disk mnt err :
  main true strerror (Some f) fuse_main (first :: opts ++ [disk; mnt]) err =
    (if dash disk || dash mnt then Halt ABORT
     else (r ← fuse_main (first :: opts ++ [mnt]) (Log.mkState f disk);
           Printf.fprintf ("fuse_main returned %d" +:+ Log.NL) [Printf.Slot r];; mret r)
            (err +:+ ("about to call fuse_main, " +:+ disk +:+ " " +:+ Log.NL))) /\
  forall argv, (length argv < 3)%nat ->
    main true strerror (Some f) fuse_main argv err = Halt ABORT.
Proof.
  split.
  - destruct (last_two first opts disk mnt) as (Hc & Ed & Em & Et).
    set (argv := first :: opts ++ [disk; mnt]) in *. unfold main.
    rewrite (bind_Ret _ _ _ _ _ (dash_neg _ argv disk mnt err Hc Ed Em)).
    destruct (dash disk || dash mnt); [done|]. rewrite (bind_Ret _ _ err tt err) by done.
    cbn [negb]. unfold argv_at. rewrite Ed, Em.
    rewrite !(bind_Ret (mret _) _ _ _ _ eq_refl). cbn zeta. rewrite Et.
    rewrite (bind_Ret _ _ _ f err) by done.
    erewrite bind_Ret; [done|]. unfold Printf.fprintf. by rewrite vfprintf_about.
  - intros argv Hl. unfold main, bad_arguments. destruct (Z.ltb_spec (Z.of_nat (length argv)) 3); [done|lia].
Qed.

(** ** The theorems at work *)

Definition ambient0 : ambient := mkAmbient ∅ 0 0 0 0.

Lemma disk1_named : named disk1_view.
Proof. apply formatted_named. Qed.

(** Two files and a listing. *)
Definition requests0 : list (ambient * request) :=
  [(ambient0, Create (in_root name_a)); (ambient0, Readdir (in_root [])); (ambient0, Unlink (in_root name_a))].

Lemma requests0_valid : Forall (fun c : ambient * request => valid c.2) requests0.
Proof. apply (bool_decide_unpack _). vm_compute. exact I. Qed.

Lemma session0_run (d : Block.disk) :
  on d disk1_view -> exists xs d', session collect [] 1 requests0 d = Ret (xs, d').
Proof.
  intros HV. destruct (create_a_run d HV) as (d1 & E1).
  destruct (oper_keeps collect [] 1 ambient0 (Create (in_root name_a)) d disk1_view (Status 0) d1
    HV disk1_consistent disk1_named) as (V1 & HV1 & HC1 & HN1 & _).
  { apply (bool_decide_unpack _). vm_compute. exact I. }
  { cbn [sfs_oper]. by rewrite (bind_Ret _ _ _ _ _ E1). }
  destruct (observe_run collect [] 1 ambient0 (Readdir (in_root [])) d1 V1 HV1 HC1 HN1) as [x2 E2].
  { apply (bool_decide_unpack _). vm_compute. exact I. }
  { done. }
  { done. }
  exists [Status 0; x2; Status 0], d1. unfold requests0. cbn [session].
  rewrite (bind_Ret _ _ d (Status 0) d1).
  2:{ cbn [sfs_oper]. by rewrite (bind_Ret _ _ _ _ _ E1). }
  rewrite (bind_Ret _ _ d1 [x2; Status 0] d1); [done|].
  rewrite (bind_Ret _ _ _ _ _ E2). done.
Qed.

Lemma session_keeps_witness :
  exists (d d' : Block.disk) xs V', session collect [] 1 requests0 d = Ret (xs, d') /\
    on d' V' /\ consistent V' /\ grows disk1_view V'.
Proof.
  destruct disk1_exists as (d & E & HV). destruct (session0_run d HV) as (xs & d' & Es).
  destruct (session_keeps collect [] 1 requests0 d disk1_view xs d' HV disk1_consistent disk1_named
    requests0_valid Es) as (V' & HV' & HC' & _ & Hg).
  exists d, d', xs, V'. split_and!; [exact Es|exact HV'|exact HC'|exact Hg].
Defined.

Lemma remount_keeps_witness :
  exists (d' : Block.disk) xs, mounted collect [] 1 ambient0 requests0 disk0 = Ret (xs, d') /\
    sfs_oper collect [] 1 (mkAmbient (fill 8 ∅ 0 255) 3 1 1 1) Init d' = Ret (Done, d').
Proof.
  destruct disk1_exists as (d & E & HV). destruct (session0_run d HV) as (xs & d' & Es).
  assert (mounted collect [] 1 ambient0 requests0 disk0 = Ret (xs, d')) as Em.
  { unfold mounted. rewrite (bind_Ret _ _ disk0 Done d).
    - rewrite (bind_Ret _ _ _ _ _ Es). reflexivity.
    - cbn [sfs_oper]. rewrite (bind_Ret _ _ _ _ _ E). reflexivity. }
  exists d', xs. split; [exact Em|].
  apply (remount_keeps collect [] 1 ambient0 (mkAmbient (fill 8 ∅ 0 255) 3 1 1 1) requests0 disk0 xs d').
  - exact disk0_ok.
  - vm_compute. discriminate.
  - exact requests0_valid.
  - exact Em.
Defined.

Lemma observers_return_witness :
  exists (d : Block.disk) x, sfs_oper collect [] 1 ambient0 (Getattr (in_root name_a)) d = Ret (x, d).
Proof.
  destruct disk1_exists as (d & E & HV). exists d.
  apply (observers_return collect [] 1 ambient0 (Getattr (in_root name_a)) d disk1_view HV
    disk1_consistent disk1_named).
  - apply (bool_decide_unpack _). vm_compute. exact I.
  - reflexivity.
  - cbn [path_of]. unfold in_root. rewrite resolve_root by (exact good_a || discriminate). discriminate.
Defined.

Lemma root_is_dir : is_dir (st_mode (node disk1_view 0)) = true.
Proof.
  unfold node, disk1_view, formatted. change (node_block 0) with 65. rewrite vset_eq.
  change (inode_half 0) with 0. rewrite (proj2 (root_buf_fields _ _ _ _)). reflexivity.
Qed.

(** The callback that takes one name and refuses the next. *)
Definition take_one (l : list (list Z)) (s : list Z) : Z * list (list Z) :=
  match l with [] => (0, [s]) | _ => (1, l) end.

Lemma readdir_lists_witness :
  names disk1_view 0 = [[46]] /\
  exists d : Block.disk, sfs_readdir ∅ take_one (in_root []) [] d = Ret ((0, [[46]]), d) /\
    sfs_readdir ∅ collect (in_root []) [] d = Ret ((0, [[46]]), d) /\
    forall s, Forall (fun c => 0 < c < 256) s -> s ∈ [[46]] <-> is_Some (lookup_in disk1_view 0 s).
Proof.
  assert (names disk1_view 0 = [[46]]) as En by (vm_compute; reflexivity). split; [exact En|].
  destruct disk1_exists as (d & E & HV). exists d.
  pose proof (readdir_lists take_one ∅ (in_root []) [] d disk1_view true 0 0 HV disk1_consistent disk1_named) as Hl.
  rewrite En in Hl. apply Hl.
  - simpl. lia.
  - reflexivity.
  - exact root_is_dir.
Defined.

Lemma main_arguments_witness :
  main true "" (Some 3) (fun _ _ => mret 0) ["sfs"; "disk"; "-f"] "" = Halt ABORT /\
  main true "" (Some 3) (fun _ _ => mret 0) ["sfs"; "disk"] "" = Halt ABORT.
Proof.
  split.
  - exact (proj1 (main_arguments "" 3 (fun _ _ => mret 0) "sfs" [] "disk" "-f" "")).
  - apply (proj2 (main_arguments "" 3 (fun _ _ => mret 0) "sfs" [] "disk" "-f" "")). simpl. lia.
Defined.
