(* ===== verification/Vm.v ===== *)
(** * The memory manager: vm.c

    The functions of vm.c over a byte-addressed memory.  [SpaceNode]s are read
    and written at the offsets the x86-64 ABI gives their fields; local structs
    and buffers are byte memories of their own, addressed from 0.  An access
    outside the main memory and the static swap arrays is a fault.  The sizes of
    vm.h are the fields of a record; [vm_h] is the instance of the repository. *)

From S2P Require Import Prelude LinkedList ByteMem.

Module Vm.

(** ** Constants *)

Record config := mkConfig {
  PHYSICAL_SIZE : Z;
  SWAP_SIZE : Z;
  OSRESERVED_START : Z;
  SWAP_MEMORY_START : Z;
  MEMORY_START : Z;
  page_size : Z;           (* sysconf(_SC_PAGE_SIZE) *)
  swap_move : Z;           (* the static array [swap] of movePageToSwap *)
  swap_find : Z;           (* the one of findPageInSwap *)
  swap_init : Z;           (* the one of init *)
  swap_print : Z           (* the one of printSwapF *)
}.

Definition vm_h (swap_move swap_find swap_init swap_print : Z) : config :=
  mkConfig 8000000 4000000 1000000 1000000 2097152 4096 swap_move swap_find swap_init swap_print.

Definition THREADREQ : Z := 0.
Definition OSREQ : Z := -1.
Definition SHALLOC : Z := -3.
Definition PAGE : Z := 0.
Definition ELEMENT : Z := 1.
Definition VIRTUAL_MEMORY : bool := true.
Definition SWAP_STRATEGY : Z := 1.
Definition USE_SWAP_F : Z := 1.
Definition USE_FIND_IN_SWAP : bool := false.

(** [sizeof(SpaceNode)] and the offsets of its fields *)
Definition NODE : Z := 56.
Definition o_pid : Z := 0.
Definition o_reference : Z := 4.
Definition o_free : Z := 8.
Definition o_order : Z := 12.
Definition o_start : Z := 16.
Definition o_size : Z := 24.
Definition o_next : Z := 32.
Definition o_prev : Z := 40.
Definition o_data : Z := 48.   (* dataStartsAnotherPage *)
Definition o_clock : Z := 52.  (* swapclock *)

(** ** State *)

Record vm := mkVm {
  memp : Z;                        (* [mem], NULL before [init] *)
  ram : bytes;
  shared : Z;                      (* [sharedMemoryStart] *)
  prot : gset Z;                   (* addresses of the pages without access *)
  swapfile : option (Z * bytes);   (* length and contents of the file "swap" *)
  swap_wok : bool;                 (* it can be opened for writing *)
  running : option Z;              (* [( *running)->id], [None] when [running] is NULL *)
  inHandler : Z
}.

Definition set_memp (x : Z) (s : vm) : vm :=
  mkVm x (ram s) (shared s) (prot s) (swapfile s) (swap_wok s) (running s) (inHandler s).
Definition set_ram (x : bytes) (s : vm) : vm :=
  mkVm (memp s) x (shared s) (prot s) (swapfile s) (swap_wok s) (running s) (inHandler s).
Definition set_shared (x : Z) (s : vm) : vm :=
  mkVm (memp s) (ram s) x (prot s) (swapfile s) (swap_wok s) (running s) (inHandler s).
Definition set_prot (x : gset Z) (s : vm) : vm :=
  mkVm (memp s) (ram s) (shared s) x (swapfile s) (swap_wok s) (running s) (inHandler s).
Definition set_swapfile (x : option (Z * bytes)) (s : vm) : vm :=
  mkVm (memp s) (ram s) (shared s) (prot s) x (swap_wok s) (running s) (inHandler s).
Definition set_running (x : option Z) (s : vm) : vm :=
  mkVm (memp s) (ram s) (shared s) (prot s) (swapfile s) (swap_wok s) x (inHandler s).
Definition set_inHandler (x : Z) (s : vm) : vm :=
  mkVm (memp s) (ram s) (shared s) (prot s) (swapfile s) (swap_wok s) (running s) x.

Section Code.
Context (C : config).
(** What an uninitialised local struct holds. *)
Context (junk : bytes).

Abbreviation M := (prog vm).

(** ** Memory accesses *)

Definition in_area (base len a n : Z) : bool := (0 <? base) && (base <=? a) && (a + n <=? base + len).

Definition valid (s : vm) (a n : Z) : bool :=
  in_area (memp s) (PHYSICAL_SIZE C) a n || in_area (swap_move C) (SWAP_SIZE C) a n ||
  in_area (swap_find C) (SWAP_SIZE C) a n || in_area (swap_init C) (SWAP_SIZE C) a n ||
  in_area (swap_print C) (SWAP_SIZE C) a n.

Definition load (n : nat) (a : Z) : M Z := fun s =>
  if valid s a (Z.of_nat n) then Ret (ld n (ram s) a, s) else Fault.
Definition store (n : nat) (a v : Z) : M unit := fun s =>
  if valid s a (Z.of_nat n) then Ret (tt, set_ram (st n (ram s) a v) s) else Fault.

(** [memcpy] between two places of memory, from memory to a local buffer and
    back. *)
Definition memcpy_m (d src n : Z) : M unit := fun s =>
  if valid s d n && valid s src n then Ret (tt, set_ram (memcpy (ram s) d src n) s) else Fault.
Definition copy_in (src n : Z) : M bytes := fun s =>
  if valid s src n then Ret (blit (Z.to_nat n) ∅ 0 (ram s) src, s) else Fault.
Definition copy_out (d : Z) (b : bytes) (n : Z) : M unit := fun s =>
  if valid s d n then Ret (tt, set_ram (blit (Z.to_nat n) (ram s) d b 0) s) else Fault.

Definition n_pid (n : Z) : M Z := load 4 (n + o_pid).
Definition n_reference (n : Z) : M Z := load 4 (n + o_reference).
Definition n_free (n : Z) : M Z := load 4 (n + o_free).
Definition n_order (n : Z) : M Z := x ← load 4 (n + o_order); mret (wraps 32 x).
Definition n_start (n : Z) : M Z := load 8 (n + o_start).
Definition n_size (n : Z) : M Z := load 4 (n + o_size).
Definition n_next (n : Z) : M Z := load 8 (n + o_next).
Definition n_prev (n : Z) : M Z := load 8 (n + o_prev).
Definition n_data (n : Z) : M Z := load 4 (n + o_data).
Definition n_clock (n : Z) : M Z := x ← load 1 (n + o_clock); mret (wraps 8 x).

(** The local struct with the fields the code sets. *)
Definition local_node (pid reference free order start size next prev : Z) (b : bytes) : bytes :=
  let b := st 4 b o_pid pid in
  let b := st 4 b o_reference reference in
  let b := st 4 b o_free free in
  let b := st 4 b o_order order in
  let b := st 8 b o_start start in
  let b := st 4 b o_size size in
  let b := st 8 b o_next next in
  st 8 b o_prev prev.

(** ** Lists of nodes *)

Definition getFirstPage : M Z := p_gets memp.

Definition getNextSpace (old : Z) : M Z := if old =? NULL then mret NULL else n_next old.

(** [while (n != NULL) { prev = n; n = getNextSpace(n); }] *)
Fixpoint last_loop (fuel : nat) (n prev : Z) : M Z :=
  match fuel with
  | O => p_timeout
  | S f => if n =? NULL then mret prev else n' ← getNextSpace n; last_loop f n' n
  end.

Definition getLastPage (fuel : nat) : M Z := n ← getFirstPage; last_loop fuel n NULL.

Fixpoint updateReference_loop (fuel : nat) (n : Z) : M unit :=
  match fuel with
  | O => p_timeout
  | S f =>
      if n =? NULL then mret tt
      else store 4 (n + o_reference) 0;; n' ← getNextSpace n; updateReference_loop f n'
  end.

Definition updateReference (fuel : nat) : M unit := n ← getFirstPage; updateReference_loop fuel n.

Fixpoint findFreePage_loop (fuel : nat) (n : Z) : M Z :=
  match fuel with
  | O => p_timeout
  | S f =>
      if n =? NULL then mret n
      else
        fr ← n_free n;
        if fr =? 0 then n' ← getNextSpace n; findFreePage_loop f n' else mret n
  end.

Definition findFreePage (fuel : nat) : M Z := n ← getFirstPage; findFreePage_loop fuel n.

Fixpoint findFreeSpace (fuel : nat) (n size : Z) : M Z :=
  match fuel with
  | O => p_timeout
  | S f =>
      if n =? NULL then mret n
      else
        fr ← n_free n;
        sz ← n_size n;
        if negb (fr =? 0) && (size <=? sz) then mret n
        else n' ← getNextSpace n; findFreeSpace f n' size
  end.

Definition initializeSpace (space size : Z) : M Z :=
  copy_out space (local_node 0 0 1 1 (space + NODE) (wrapu 32 (size - NODE)) NULL NULL junk) NODE;;
  mret 0.

(** [restSize] is an [int]; comparing it with [sizeof] makes it unsigned. *)
Definition createSpace (n size : Z) : M Z :=
  fr ← n_free n;
  if fr =? 0 then mret 1
  else
    store 4 (n + o_free) 0;;
    sz ← n_size n;
    let restSize := wraps 32 (sz - size) in
    store 4 (n + o_size) size;;
    (if NODE <? wrapu 64 restSize then
       nx ← n_next n;
       start ← n_start n;
       let newPos := start + size in
       copy_out newPos (local_node 0 0 1 1 (newPos + NODE) restSize nx n junk) NODE;;
       store 8 (n + o_next) newPos
     else mret tt);;
    mret 0.

(** The four cases of merging a freed element with its neighbours. *)
Definition merge (n a b : Z) : M unit :=
  if (a =? NULL) && negb (b =? NULL) then
    fb ← n_free b;
    if negb (fb =? 0) then
      sb ← n_size b; store 4 (n + o_size) (sb + NODE);;
      nb ← n_next b; store 8 (n + o_next) nb
    else mret tt
  else if negb (a =? NULL) && (b =? NULL) then
    fa ← n_free a;
    if negb (fa =? 0) then
      sn ← n_size n; store 4 (a + o_size) (sn + NODE);;
      nn ← n_next n; store 8 (a + o_next) nn
    else mret tt
  else if negb (a =? NULL) && negb (b =? NULL) then
    fa ← n_free a;
    fb ← n_free b;
    if (fa =? 0) && negb (fb =? 0) then
      sb ← n_size b; store 4 (n + o_size) (sb + NODE);;
      nb ← n_next b; store 8 (n + o_next) nb
    else if negb (fa =? 0) && (fb =? 0) then
      sn ← n_size n; store 4 (a + o_size) (sn + NODE);;
      nn ← n_next n; store 8 (a + o_next) nn
    else if negb (fa =? 0) && negb (fb =? 0) then
      sn ← n_size n; sb ← n_size b; store 4 (a + o_size) (sn + sb + 2 * NODE);;
      nb ← n_next b; store 8 (a + o_next) nb
    else mret tt
  else mret tt.

Definition removeSpace (ptr type : Z) : M Z :=
  let n := if type =? PAGE then ptr else ptr - NODE in
  fr ← n_free n;
  if negb (fr =? 0) then mret 0
  else
    a ← n_prev n;
    b ← n_next n;
    store 4 (n + o_free) 1;;
    store 4 (n + o_pid) 0;;
    (if negb (type =? PAGE) then merge n a b else mret tt);;
    mret 0.

Definition setProcessPage (n pid : Z) : M unit := store 4 (n + o_pid) pid.

(** ** Restoring the pointers of a page *)

(** The loop; [inner] is the recursive call on the elements of a page. *)
Fixpoint restore_loop (fuel : nat) (inner : Z -> Z -> M unit) (n old s size type : Z) : M Z :=
  match fuel with
  | O => p_timeout
  | S f =>
      if (s <? size) && (NODE <? size - s) then
        sz ← n_size n;
        let offset := NODE + sz in
        let next := n + offset in
        store 8 (n + o_next) next;;
        store 8 (n + o_prev) old;;
        store 8 (n + o_start) (n + NODE);;
        (if type =? 0 then sz' ← n_size n; inner (n + NODE) sz' else mret tt);;
        restore_loop f inner next n (s + offset) size type
      else mret old
  end.

Definition restore (fuel : nat) (inner : Z -> Z -> M unit) (n size type : Z) : M unit :=
  if size <=? 0 then p_halt 1
  else
    old ← restore_loop fuel inner n NULL 0 size type;
    store 8 (old + o_next) NULL.

Definition restoreElementsPointers (fuel : nat) (n size : Z) : M unit :=
  restore fuel (fun _ _ => mret tt) n size 1.

Definition restorePagePointers (fuel : nat) (n size : Z) : M unit :=
  restore fuel (restoreElementsPointers fuel) n size 0.

Definition restorePointers (fuel : nat) (n size type : Z) : M unit :=
  if type =? 0 then restorePagePointers fuel n size else restore fuel (fun _ _ => mret tt) n size type.

(** ** The swap file *)

Fixpoint fixSwap_loop (fuel : nat) (node ptr old s max maxSize : Z) : M unit :=
  match fuel with
  | O => p_timeout
  | S f =>
      if (node <? max) && (s <? maxSize) then
        store 8 (node + o_start) ptr;;
        store 8 (node + o_prev) old;;
        (if negb (old =? NULL) then store 8 (old + o_next) node else mret tt);;
        fixSwap_loop f (node + NODE) (ptr + page_size C) node (s + page_size C) max maxSize
      else mret tt
  end.

Definition fixSwapPtrs (fuel : nat) (swap : Z) : M unit :=
  fixSwap_loop fuel swap (swap + SWAP_MEMORY_START C) NULL 0 (swap + SWAP_MEMORY_START C - NODE)
    (SWAP_SIZE C - (SWAP_MEMORY_START C + page_size C)).

Definition getSwap (fuel : nat) (swap : Z) : M Z :=
  s ← p_get;
  match swapfile s with
  | None => mret 1
  | Some (len, b) =>
      copy_out swap b (Z.min len (SWAP_SIZE C));;
      if len <? SWAP_SIZE C then mret 1
      else fixSwapPtrs fuel swap;; mret 0
  end.

Definition writeSwap (swap : Z) : M Z :=
  s ← p_get;
  if swap_wok s then
    b ← copy_in swap (SWAP_SIZE C);
    p_modify (set_swapfile (Some (SWAP_SIZE C, b)));;
    mret 0
  else mret 1.

(** [SWAP_STRATEGY == 0]: the last page that does not belong to [pid] *)
Fixpoint victim_naive (fuel : nat) (pid n : Z) : M Z :=
  match fuel with
  | O => p_timeout
  | S f =>
      if n =? NULL then mret n
      else
        p ← n_pid n;
        if p =? pid then n' ← n_prev n; victim_naive f pid n' else mret n
  end.

(** The loop of the second-chance strategy. *)
Fixpoint victim_loop (fuel : nat) (pid n rounds : Z) : M Z :=
  match fuel with
  | O => p_timeout
  | S f =>
      if n =? NULL then mret n
      else
        p ← n_pid n;
        c ← n_clock n;
        if (p =? pid) && (c <? 3) then
          n' ← n_prev n;
          c' ← n_clock n';
          store 1 (n' + o_clock) (c' + 1);;
          if (n' =? NULL) && (rounds <? 2) then
            n'' ← getLastPage fuel; victim_loop f pid n'' (rounds + 1)
          else victim_loop f pid n' rounds
        else mret n
  end.

Definition getVictimPage (fuel : nat) (pid : Z) : M Z :=
  n ← getLastPage fuel;
  if SWAP_STRATEGY =? 0 then victim_naive fuel pid n else victim_loop fuel pid n 0.

(** The first free node of the swap's page table. *)
Fixpoint free_swap (fuel : nat) (n : Z) : M Z :=
  match fuel with
  | O => p_timeout
  | S f =>
      if n =? NULL then mret n
      else
        fr ← n_free n;
        if fr =? 0 then n' ← n_next n; free_swap f n' else mret n
  end.

Definition movePageToSwap (fuel : nat) (pid : Z) : M Z :=
  evict ← getVictimPage fuel pid;
  if evict =? NULL then mret 1
  else
    let swap := swap_move C in
    g ← getSwap fuel swap;
    if g =? 1 then mret 1
    else
      fsp ← free_swap fuel swap;
      if fsp =? NULL then mret 1
      else
        p ← n_pid evict; store 4 (fsp + o_pid) p;;
        store 4 (fsp + o_free) 0;;
        r ← n_reference evict; store 4 (fsp + o_reference) r;;
        dt ← n_data evict; store 4 (fsp + o_data) dt;;
        sz ← n_size evict; store 4 (fsp + o_size) sz;;
        o ← n_order evict; store 4 (fsp + o_order) o;;
        d ← n_start fsp; src ← n_start evict; memcpy_m d src (page_size C);;
        writeSwap swap;;
        removeSpace evict PAGE;;
        mret 0.

(** ** Pages *)

Definition swapPages (fuel : nat) (p1 p2 : Z) : M Z :=
  if p1 =? p2 then mret 0
  else
    s1 ← n_start p1; buff ← copy_in s1 (page_size C);
    page1 ← copy_in p1 NODE;
    page2 ← copy_in p2 NODE;
    s2 ← n_start p2; memcpy_m s1 s2 (page_size C);;
    memcpy_m p1 p2 NODE;;
    store 8 (p1 + o_start) (ld 8 page1 o_start);;
    store 8 (p1 + o_next) (ld 8 page1 o_next);;
    store 8 (p1 + o_prev) (ld 8 page1 o_prev);;
    s2' ← n_start p2; copy_out s2' buff (page_size C);;
    copy_out p2 page1 NODE;;
    store 8 (p2 + o_start) (ld 8 page2 o_start);;
    store 8 (p2 + o_next) (ld 8 page2 o_next);;
    store 8 (p2 + o_prev) (ld 8 page2 o_prev);;
    a1 ← n_start p1; z1 ← n_size p1; restoreElementsPointers fuel a1 z1;;
    a2 ← n_start p2; z2 ← n_size p2; restoreElementsPointers fuel a2 z2;;
    mret 0.

Fixpoint getFreePage (rec fuel : nat) (size pid : Z) : M Z :=
  match rec with
  | O => p_timeout
  | S r =>
      n ← findFreePage fuel;
      if n =? NULL then
        if USE_SWAP_F =? 0 then mret NULL
        else
          m ← movePageToSwap fuel pid;
          if negb (m =? 0) then mret NULL else getFreePage r fuel size pid
      else
        store 4 (n + o_free) 0;;
        store 4 (n + o_pid) pid;;
        start ← n_start n; sz ← n_size n; initializeSpace start sz;;
        if VIRTUAL_MEMORY then
          first ← getFirstPage;
          swapPages fuel first n;;
          mret first
        else mret n
  end.

(** [pid] and [order] as the [unsigned] and [int] of the parameters *)
Fixpoint findPage_loop (fuel : nat) (n pid order : Z) : M Z :=
  match fuel with
  | O => p_timeout
  | S f =>
      if n =? NULL then mret NULL
      else
        p ← n_pid n;
        o ← n_order n;
        if (pid =? p) && (order =? o) then mret n
        else n' ← getNextSpace n; findPage_loop f n' pid order
  end.

Definition findPage (fuel : nat) (pid order : Z) : M Z :=
  n ← getFirstPage;
  res ← findPage_loop fuel n pid order;
  (if negb (res =? NULL) then store 1 (res + o_clock) 0 else mret tt);;
  mret res.

Fixpoint findSwap_loop (fuel : nat) (n pid order : Z) : M Z :=
  match fuel with
  | O => p_timeout
  | S f =>
      if n =? NULL then mret NULL
      else
        p ← n_pid n;
        o ← n_order n;
        fr ← n_free n;
        if (pid =? p) && (order =? o) && (fr =? 0) then mret n
        else n' ← n_next n; findSwap_loop f n' pid order
  end.

Definition findPageInSwap (rec fuel : nat) (pid order : Z) : M Z :=
  let swap := swap_find C in
  g ← getSwap fuel swap;
  if g =? 1 then mret NULL
  else
    res ← findSwap_loop fuel swap pid order;
    if res =? NULL then mret res
    else
      temp ← getFreePage rec fuel (page_size C) pid;
      r ← n_reference res; store 4 (temp + o_reference) r;;
      store 4 (temp + o_order) order;;
      sz ← n_size res; store 4 (temp + o_size) sz;;
      dt ← n_data res; store 4 (temp + o_data) dt;;
      d ← n_start temp; src ← n_start res; sz' ← n_size res; memcpy_m d src sz';;
      removeSpace res PAGE;;
      writeSwap swap;;
      store 1 (temp + o_clock) 0;;
      mret temp.

Definition findProcessPage (fuel : nat) (pid : Z) : M Z := findPage fuel pid 1.

Definition getFreeElementFrom (fuel : nat) (memory size : Z) : M Z :=
  n ← findFreeSpace fuel memory size;
  if n =? NULL then mret NULL
  else
    c ← createSpace n size;
    if negb (c =? 0) then mret NULL else n_start n.

(** ** Protection *)

(** [mprotect] of the pages that [a, a + len) touches; it refuses an address
    that is not at a page boundary. *)
Definition mprotect (a len : Z) (access : bool) : M Z := fun s =>
  if a `mod` page_size C =? 0 then
    let pages := list_to_set ((fun k => a + k * page_size C) <$>
                   seqZ 0 ((len + page_size C - 1) / page_size C)) : gset Z in
    Ret (0, set_prot (if access then prot s ∖ pages else prot s ∪ pages) s)
  else Ret (-1, s).

(** The loop over the pages of a process, [i] being the order of the next. *)
Fixpoint protect_loop (fuel rounds : nat) (access : bool) (pid p i : Z) : M Z :=
  match rounds with
  | O => p_timeout
  | S r =>
      if p =? NULL then mret 0
      else
        start ← n_start p;
        e ← mprotect start (page_size C) access;
        if negb (e =? 0) then mret 1
        else p' ← findPage fuel pid i; protect_loop fuel r access pid p' (wraps 32 (i + 1))
  end.

Definition memoryProtect (fuel : nat) (pid : Z) : M Z :=
  p ← findPage fuel pid 1; protect_loop fuel fuel false pid p 2.

Definition memoryAllowAll : M Z :=
  m ← p_gets memp;
  e ← mprotect (m + MEMORY_START C) (PHYSICAL_SIZE C - MEMORY_START C - page_size C * 4) true;
  if negb (e =? 0) then mret 1 else mret 0.

Definition memoryAllow (fuel : nat) (pid : Z) : M Z :=
  p ← findPage fuel pid 1; protect_loop fuel fuel true pid p 2.

(** ** Making the pages of a process contiguous *)

Fixpoint contiguous_loop (fuel : nat) (n page : Z) : M Z :=
  match fuel with
  | O => p_timeout
  | S f =>
      if n =? NULL then mret NULL
      else
        a ← n_start n;
        b ← n_start page;
        if a =? b + page_size C then getNextSpace n;; mret n
        else n' ← getNextSpace n; contiguous_loop f n' page
  end.

Definition getContiguousPage (fuel : nat) (page : Z) : M Z :=
  n ← getFirstPage; contiguous_loop fuel n page.

Definition makeContiguous (fuel : nat) (page1 page2 : Z) : M unit :=
  if negb (page1 =? page2) then
    c ← getContiguousPage fuel page1; swapPages fuel c page2;; mret tt
  else mret tt.

(** [findPage], and the swap file where [USE_FIND_IN_SWAP] says so. *)
Definition find_anywhere (rec fuel : nat) (pid order : Z) : M Z :=
  p ← findPage fuel pid order;
  if (p =? NULL) && USE_FIND_IN_SWAP then findPageInSwap rec fuel pid order else mret p.

Fixpoint load_loop (rounds rec fuel : nat) (pid p1 p2 i : Z) : M unit :=
  match rounds with
  | O => p_timeout
  | S r =>
      if negb (p1 =? NULL) && negb (p2 =? NULL) then
        makeContiguous fuel p1 p2;;
        p2' ← find_anywhere rec fuel pid (wraps 32 i);
        load_loop r rec fuel pid p2 p2' (wrapu 32 (i + 1))
      else mret tt
  end.

Definition loadProcessPages (rec fuel : nat) (pid : Z) : M Z :=
  p1 ← find_anywhere rec fuel pid 1;
  first ← getFirstPage;
  swapPages fuel first p1;;
  p1' ← getFirstPage;
  p2 ← find_anywhere rec fuel pid 2;
  load_loop fuel rec fuel pid p1' p2 3;;
  mret 0.

(** ** Growing a process *)

Fixpoint lastElement_loop (fuel : nat) (last e : Z) : M Z :=
  match fuel with
  | O => p_timeout
  | S f => if e =? NULL then mret last else e' ← getNextSpace e; lastElement_loop f e e'
  end.

Definition getLastElement (fuel : nat) (page : Z) : M Z :=
  last ← n_start page;
  e ← getNextSpace last;
  lastElement_loop fuel last e.

Fixpoint lastPage_loop (rounds fuel : nat) (pid last p i : Z) : M Z :=
  match rounds with
  | O => p_timeout
  | S r =>
      if p =? NULL then mret last
      else p' ← findPage fuel pid i; lastPage_loop r fuel pid p p' (wraps 32 (i + 1))
  end.

Definition getLastProcessPage (fuel : nat) (pid : Z) : M Z :=
  last ← findPage fuel pid 1;
  p ← findPage fuel pid 2;
  lastPage_loop fuel fuel pid last p 3.

(** Back to the page the data of the last page start in: [prev] and [p]. *)
Fixpoint dataStart_loop (rounds fuel : nat) (pid prev p i : Z) : M (Z * Z) :=
  match rounds with
  | O => p_timeout
  | S r =>
      if p =? NULL then mret (prev, p)
      else
        dt ← n_data p;
        if negb (dt =? 0) then
          p' ← findPage fuel pid i; dataStart_loop r fuel pid p p' (wraps 32 (i - 1))
        else mret (prev, p)
  end.

Definition joinFreeSpace (fuel : nat) (newPage pid : Z) : M unit :=
  prev0 ← findPage fuel pid 1;
  p0 ← findPage fuel pid 2;
  prev ← lastPage_loop fuel fuel pid prev0 p0 3;
  o ← n_order prev;
  '(prev', p) ← dataStart_loop fuel fuel pid prev prev (wraps 32 (o - 1));
  if negb (prev' =? NULL) then
    dt ← n_data prev';
    if dt =? 0 then
      e ← getLastElement fuel p;
      if negb (e =? NULL) then
        fr ← n_free e;
        if negb (fr =? 0) then
          store 4 (newPage + o_data) 1;;
          es ← n_size e; ns ← n_size newPage; store 4 (e + o_size) (es + ns)
        else mret tt
      else mret tt
    else mret tt
  else mret tt.

Definition reserveAnotherPage (rec fuel : nat) (pid : Z) : M Z :=
  newPage ← getFreePage rec fuel (page_size C) pid;
  if newPage =? NULL then mret 1
  else
    store 4 (newPage + o_order) (-1);;
    joinFreeSpace fuel newPage pid;;
    last ← getLastProcessPage fuel pid;
    o ← n_order last;
    store 4 (newPage + o_order) (o + 1);;
    loadProcessPages rec fuel pid;;
    mret 0.

(** The search for room in the further pages of a process. *)
Fixpoint morePages_loop (rounds fuel : nat) (pid size p n i : Z) : M Z :=
  match rounds with
  | O => p_timeout
  | S r =>
      if negb (p =? NULL) && (n =? NULL) then
        a ← n_start p;
        n' ← findFreeSpace fuel a size;
        p' ← findPage fuel pid i;
        morePages_loop r fuel pid size p' n' (wraps 32 (i + 1))
      else mret n
  end.

Fixpoint getFreeElement (rounds rec fuel : nat) (size : Z) : M Z :=
  match rounds with
  | O => p_timeout
  | S r =>
      s ← p_get;
      let pid := default 1 (running s) in
      loadProcessPages rec fuel pid;;
      p ← getFirstPage;
      if p =? NULL then mret NULL
      else
        store 4 (p + o_reference) 1;;
        a ← n_start p;
        n ← findFreeSpace fuel a size;
        n' ← (if n =? NULL then
                p2 ← findPage fuel pid 2; morePages_loop fuel fuel pid size p2 NULL 3
              else mret n);
        if n' =? NULL then
          e ← reserveAnotherPage rec fuel pid;
          if negb (e =? 0) then mret NULL else getFreeElement r rec fuel size
        else
          c ← createSpace n' size;
          if negb (c =? 0) then mret NULL else n_start n'
  end.

(** ** Initialisation *)

Fixpoint freePages_loop (fuel : nat) (start freeSpace prev : Z) : M unit :=
  match fuel with
  | O => p_timeout
  | S f =>
      if page_size C <=? freeSpace then
        copy_out start (local_node 0 0 1 1 (start + NODE) (page_size C - NODE) NULL prev junk) NODE;;
        (if negb (prev =? NULL) then store 8 (prev + o_next) start else mret tt);;
        freePages_loop f (start + page_size C) (freeSpace - page_size C) start
      else mret tt
  end.

Definition initializeFreePages (fuel : nat) (start freeSpace : Z) : M unit :=
  freePages_loop fuel start freeSpace NULL.

(** The page table: [new] with [start] and [prev] filled in, at each node. *)
Fixpoint table_loop (fuel : nat) (new : bytes) (node ptr old s max maxSize : Z) : M unit :=
  match fuel with
  | O => p_timeout
  | S f =>
      if (node <? max) && (s <? maxSize) then
        (if negb (old =? NULL) then store 8 (old + o_next) node else mret tt);;
        copy_out node (st 8 (st 8 new o_start ptr) o_prev old) NODE;;
        table_loop f new (node + NODE) (ptr + page_size C) node (s + page_size C) max maxSize
      else mret tt
  end.

(** [p] is the address [posix_memalign] returns, NULL when it fails.  The call of
    [setSIGSEGV] between the two tables registers the handler and changes nothing
    of this state; it is defined with the printing functions. *)
Definition init (fuel : nat) (p : Z) : M unit :=
  if p =? NULL then p_halt 1
  else
    p_modify (set_memp p);;
    let sharedSize := page_size C * 4 in
    p_modify (set_shared (p + PHYSICAL_SIZE C - sharedSize));;
    initializeFreePages fuel (p + PHYSICAL_SIZE C - sharedSize) sharedSize;;
    let new := st 4 junk o_free 1 in
    let new := st 8 (st 8 new o_prev NULL) o_next NULL in
    let new := st 4 new o_size (MEMORY_START C - OSRESERVED_START C - NODE) in
    let new := st 8 new o_start (p + OSRESERVED_START C + NODE) in
    let new := st 1 (st 4 (st 4 new o_pid 0) o_order 1) o_clock 0 in
    copy_out (p + OSRESERVED_START C) new NODE;;
    let new := st 4 new o_size (page_size C) in
    let new := st 4 new o_data 0 in
    table_loop fuel new p (p + MEMORY_START C) NULL 0 (p + OSRESERVED_START C - NODE)
      (PHYSICAL_SIZE C - sharedSize - MEMORY_START C);;
    let swap := swap_init C in
    let new := st 4 new o_order 0 in
    table_loop fuel new swap (swap + SWAP_MEMORY_START C) NULL 0 (swap + SWAP_MEMORY_START C - NODE)
      (SWAP_SIZE C - (SWAP_MEMORY_START C + page_size C));;
    writeSwap swap;;
    mret tt.

(** The handler of SIGSEGV at address [addr]; the result is whether the default
    action is restored. *)
Definition handler (rec fuel : nat) (addr : Z) : M bool :=
  s ← p_get;
  if inHandler s =? 1 then p_halt 1
  else
    p_modify (set_inHandler 1);;
    r ← (if (memp s + MEMORY_START C <=? addr) && (addr <? shared s) then
           match running s with
           | None => p_fault
           | Some pid => memoryAllowAll;; loadProcessPages rec fuel pid;; mret false
           end
         else mret true);
    p_modify (set_inHandler 0);;
    mret r.

(** ** The interface *)

(** The requests of [initOS] (my_pthread.c): blocks of OS memory of the given
    sizes, and the page of the main thread (id 1).  The rest of [initOS] is in
    the model of my_pthread.c; allowing all accesses again before each request
    changes nothing after [myallocate] has done so. *)
Definition initOS_requests (fuel rec : nat) (sizes1 sizes2 : list Z) : M unit :=
  mapM (fun z => m ← p_gets memp; getFreeElementFrom fuel (m + OSRESERVED_START C) z) sizes1;;
  getFreePage rec fuel (page_size C) 1;;
  mapM (fun z => m ← p_gets memp; getFreeElementFrom fuel (m + OSRESERVED_START C) z) sizes2;;
  p_modify (set_running (Some 1)).

(** [p] is what [posix_memalign] returns on the first call; the sizes are
    those of the structs [initOS] allocates before and after the page of the
    main thread. *)
Definition myallocate (fuel rec : nat) (p : Z) (sizes1 sizes2 : list Z) (size request : Z) : M Z :=
  s ← p_get;
  (if memp s =? NULL then init fuel p else mret tt);;
  memoryAllowAll;;
  s1 ← p_get;
  if request =? SHALLOC then getFreeElementFrom fuel (shared s1) size
  else if request =? THREADREQ then
    (if bool_decide (running s1 = None) then initOS_requests fuel rec sizes1 sizes2 else mret tt);;
    getFreeElement fuel rec fuel size
  else if request =? OSREQ then getFreeElementFrom fuel (memp s1 + OSRESERVED_START C) size
  else getFreePage rec fuel (page_size C) (wrapu 32 request).

Definition mydeallocate (ptr request : Z) : M unit :=
  (if (request =? THREADREQ) || (request =? OSREQ) then removeSpace ptr ELEMENT
   else removeSpace ptr PAGE);;
  mret tt.

Definition shalloc (fuel rec : nat) (p : Z) (sizes1 sizes2 : list Z) (size : Z) : M Z :=
  myallocate fuel rec p sizes1 sizes2 size SHALLOC.

End Code.
End Vm.
