(* ===== verification/VmSpec.v ===== *)
(** * The memory manager: runs of memory accesses and searches

    Accesses inside memory that may be accessed return; the loops of vm.c that
    walk along [next] compute the first match of the list of nodes in memory. *)

From S2P Require Import Prelude LinkedList ByteMem Vm.
Import Vm.

(** [lia] over addresses of fields. *)
Ltac vlia :=
  unfold NODE, o_pid, o_reference, o_free, o_order, o_start, o_size, o_next, o_prev, o_data, o_clock, NULL in *;
  lia.

(** The area [lo, hi) may be accessed. *)
Definition safe (C : config) (s : vm) (lo hi : Z) : Prop :=
  forall a k, lo <= a -> 0 <= k -> a + k <= hi -> valid C s a k = true.

Section Runs.
Context (C : config).
Implicit Types (s : vm) (m : bytes).

Lemma safe_sub s lo hi lo' hi' : safe C s lo hi -> lo <= lo' -> hi' <= hi -> safe C s lo' hi'.
Proof. intros Hs ?? a k ???. apply Hs; lia. Qed.

Lemma mem_safe s : 0 < memp s -> safe C s (memp s) (memp s + PHYSICAL_SIZE C).
Proof.
  intros Hm a k ???. unfold valid, in_area.
  destruct (Z.ltb_spec 0 (memp s)); [|lia]. destruct (Z.leb_spec (memp s) a); [|lia].
  destruct (Z.leb_spec (a + k) (memp s + PHYSICAL_SIZE C)); [done|lia].
Qed.

Lemma set_ram_id s : set_ram (ram s) s = s.
Proof. by destruct s. Qed.

Lemma memp_set_ram s m : memp (set_ram m s) = memp s.
Proof. done. Qed.

Lemma running_set_ram s m : running (set_ram m s) = running s.
Proof. done. Qed.

Lemma load_at s m n a lo hi :
  safe C s lo hi -> lo <= a -> a + Z.of_nat n <= hi ->
  load C n a (set_ram m s) = Ret (ld n m a, set_ram m s).
Proof. intros Hs ??. unfold load. change (valid C (set_ram m s)) with (valid C s). by rewrite Hs by lia. Qed.

Lemma store_at s m n a v lo hi :
  safe C s lo hi -> lo <= a -> a + Z.of_nat n <= hi ->
  store C n a v (set_ram m s) = Ret (tt, set_ram (st n m a v) s).
Proof. intros Hs ??. unfold store. change (valid C (set_ram m s)) with (valid C s). by rewrite Hs by lia. Qed.

Lemma copy_out_at s m d b n lo hi :
  safe C s lo hi -> lo <= d -> 0 <= n -> d + n <= hi ->
  copy_out C d b n (set_ram m s) = Ret (tt, set_ram (blit (Z.to_nat n) m d b 0) s).
Proof. intros Hs ???. unfold copy_out. change (valid C (set_ram m s)) with (valid C s). by rewrite Hs by lia. Qed.

Lemma copy_in_at s m a n lo hi :
  safe C s lo hi -> lo <= a -> 0 <= n -> a + n <= hi ->
  copy_in C a n (set_ram m s) = Ret (blit (Z.to_nat n) ∅ 0 m a, set_ram m s).
Proof. intros Hs ???. unfold copy_in. change (valid C (set_ram m s)) with (valid C s). by rewrite Hs by lia. Qed.

Lemma memcpy_at s m d src n lo hi lo' hi' :
  safe C s lo hi -> safe C s lo' hi' -> lo <= d -> d + n <= hi -> lo' <= src -> src + n <= hi' -> 0 <= n ->
  memcpy_m C d src n (set_ram m s) = Ret (tt, set_ram (memcpy m d src n) s).
Proof.
  intros Hs Hs' ?????. unfold memcpy_m. change (valid C (set_ram m s)) with (valid C s).
  by rewrite Hs, Hs' by lia.
Qed.

(** The same under a bind. *)
Section Binds.
Context {A : Type}.

Lemma load_bind s m n a lo hi (k : Z -> prog vm A) :
  safe C s lo hi -> lo <= a -> a + Z.of_nat n <= hi ->
  (load C n a ≫= k) (set_ram m s) = k (ld n m a) (set_ram m s).
Proof. intros. by erewrite bind_Ret by by eapply load_at. Qed.

Lemma store_bind s m n a v lo hi (k : unit -> prog vm A) :
  safe C s lo hi -> lo <= a -> a + Z.of_nat n <= hi ->
  (store C n a v ≫= k) (set_ram m s) = k tt (set_ram (st n m a v) s).
Proof. intros. by erewrite bind_Ret by by eapply store_at. Qed.

Lemma copy_out_bind s m d b n lo hi (k : unit -> prog vm A) :
  safe C s lo hi -> lo <= d -> 0 <= n -> d + n <= hi ->
  (copy_out C d b n ≫= k) (set_ram m s) = k tt (set_ram (blit (Z.to_nat n) m d b 0) s).
Proof. intros. by erewrite bind_Ret by by eapply copy_out_at. Qed.

Lemma copy_in_bind s m a n lo hi (k : bytes -> prog vm A) :
  safe C s lo hi -> lo <= a -> 0 <= n -> a + n <= hi ->
  (copy_in C a n ≫= k) (set_ram m s) = k (blit (Z.to_nat n) ∅ 0 m a) (set_ram m s).
Proof. intros. by erewrite bind_Ret by by eapply copy_in_at. Qed.

Lemma memcpy_bind s m d src n lo hi lo' hi' (k : unit -> prog vm A) :
  safe C s lo hi -> safe C s lo' hi' -> lo <= d -> d + n <= hi -> lo' <= src -> src + n <= hi' -> 0 <= n ->
  (memcpy_m C d src n ≫= k) (set_ram m s) = k tt (set_ram (memcpy m d src n) s).
Proof. intros. by erewrite bind_Ret by by eapply (memcpy_at _ _ _ _ _ lo hi lo' hi'). Qed.

End Binds.

Lemma order_bind {A} s m n lo hi (k : Z -> prog vm A) :
  safe C s lo hi -> lo <= n -> n + NODE <= hi ->
  (n_order C n ≫= k) (set_ram m s) = k (wraps 32 (ld 4 m (n + o_order))) (set_ram m s).
Proof.
  intros Hs ??. apply bind_Ret. unfold n_order. rewrite (load_bind s m 4 (n + o_order) _ _ _ Hs) by vlia. done.
Qed.

Lemma clock_bind {A} s m n lo hi (k : Z -> prog vm A) :
  safe C s lo hi -> lo <= n -> n + NODE <= hi ->
  (n_clock C n ≫= k) (set_ram m s) = k (wraps 8 (ld 1 m (n + o_clock))) (set_ram m s).
Proof.
  intros Hs ??. apply bind_Ret. unfold n_clock. rewrite (load_bind s m 1 (n + o_clock) _ _ _ Hs) by vlia. done.
Qed.

Lemma ld8_st m a v : 0 <= v < 2 ^ 64 -> ld 8 (st 8 m a v) a = v.
Proof. intros. rewrite ld_st_same. change (256 ^ Z.of_nat 8) with (2 ^ 64). by apply Z.mod_small. Qed.

Lemma ld4_st m a v : 0 <= v < 2 ^ 32 -> ld 4 (st 4 m a v) a = v.
Proof. intros. rewrite ld_st_same. change (256 ^ Z.of_nat 4) with (2 ^ 32). by apply Z.mod_small. Qed.

Lemma load_fault s m n a : valid C s a (Z.of_nat n) = false -> load C n a (set_ram m s) = Fault.
Proof. intros E. unfold load. change (valid C (set_ram m s)) with (valid C s). by rewrite E. Qed.

Lemma copy_in_fault s m a n : valid C s a n = false -> copy_in C a n (set_ram m s) = Fault.
Proof. intros E. unfold copy_in. change (valid C (set_ram m s)) with (valid C s). by rewrite E. Qed.

(** An access through NULL is a fault. *)
Lemma valid_low s a n :
  a < memp s -> a < swap_move C -> a < swap_find C -> a < swap_init C -> a < swap_print C -> valid C s a n = false.
Proof.
  intros. unfold valid, in_area.
  destruct (Z.leb_spec (memp s) a); [lia|]. destruct (Z.leb_spec (swap_move C) a); [lia|].
  destruct (Z.leb_spec (swap_find C) a); [lia|]. destruct (Z.leb_spec (swap_init C) a); [lia|].
  destruct (Z.leb_spec (swap_print C) a); [lia|]. by rewrite !andb_false_r.
Qed.

(** Nothing is mapped in the first 4096 bytes. *)
Definition null_unmapped s : Prop := forall a n, 0 <= a < 4096 -> valid C s a n = false.

Lemma null_unmapped_low s :
  4096 <= memp s -> 4096 <= swap_move C -> 4096 <= swap_find C -> 4096 <= swap_init C -> 4096 <= swap_print C ->
  null_unmapped s.
Proof. intros ????? a n Ha. apply valid_low; lia. Qed.

(** ** Lists of nodes in memory *)

(** From [n], following [next], there are the nodes [ns] and then NULL. *)
Fixpoint chain m (n : Z) (ns : list Z) : Prop :=
  match ns with
  | [] => n = NULL
  | x :: ns' => n = x /\ x <> NULL /\ chain m (ld 8 m (x + o_next)) ns'
  end.

(** These nodes may be accessed. *)
Definition nodes_ok s (ns : list Z) : Prop := Forall (fun x => safe C s x (x + NODE)) ns.

(** The first node of a list with a property. *)
Fixpoint first (f : Z -> bool) (ns : list Z) : Z :=
  match ns with
  | [] => NULL
  | x :: ns' => if f x then x else first f ns'
  end.

Lemma first_Some f ns : first f ns <> NULL -> first f ns ∈ ns /\ f (first f ns) = true.
Proof.
  induction ns as [|x ns IH]; simpl; [done|]. destruct (f x) eqn:E; [|intros [??]%IH; split; [by right|done]].
  intros _. split; [left|done].
Qed.

Lemma first_NULL f ns : Forall (fun x => f x = false) ns -> first f ns = NULL.
Proof. induction 1 as [|x ns E _ IH]; simpl; [done|]. by rewrite E. Qed.

Lemma first_app f ns x ns' :
  Forall (fun y => f y = false) ns -> f x = true -> first f (ns ++ x :: ns') = x.
Proof. induction 1 as [|y ns E _ IH]; simpl; intros Hx; [by rewrite Hx|]. rewrite E. auto. Qed.

Lemma first_ext f g ns : Forall (fun x => f x = g x) ns -> first f ns = first g ns.
Proof. induction 1 as [|x ns E _ IH]; simpl; [done|]. by rewrite E, IH. Qed.

Lemma chain_null m n ns : chain m n ns -> (n =? NULL) = bool_decide (ns = []).
Proof.
  destruct ns as [|x ns]; simpl; [intros ->; done|]. intros (-> & ? & _).
  by apply Z.eqb_neq.
Qed.

(** ** Predicates on a node in memory *)

Definition is_free m (x : Z) : bool := negb (ld 4 m (x + o_free) =? 0).
Definition fits m (size x : Z) : bool := is_free m x && (size <=? ld 4 m (x + o_size)).
Definition owned m (pid order x : Z) : bool :=
  (pid =? ld 4 m (x + o_pid)) && (order =? wraps 32 (ld 4 m (x + o_order))).

(** One step along the list: the state is kept and the rest of the list is
    reached. *)
Lemma getNextSpace_at s m x :
  x <> NULL -> safe C s x (x + NODE) ->
  getNextSpace C x (set_ram m s) = Ret (ld 8 m (x + o_next), set_ram m s).
Proof.
  intros Hx Hs. unfold getNextSpace. rewrite (proj2 (Z.eqb_neq _ _) Hx).
  unfold n_next. rewrite (load_at s m 8 _ _ _ Hs) by vlia. done.
Qed.

Lemma findFreePage_loop_run ns fuel s m n :
  chain m n ns -> nodes_ok s ns -> (length ns < fuel)%nat ->
  findFreePage_loop C fuel n (set_ram m s) = Ret (first (is_free m) ns, set_ram m s).
Proof.
  revert fuel n. induction ns as [|x ns IH]; intros [|f] n Hc Hok Hf; try (simpl in Hf; lia);
    cbn [findFreePage_loop chain first] in *; [by subst|].
  destruct Hc as (-> & Hx & Hc). apply Forall_cons in Hok as [Hs Hok].
  rewrite (proj2 (Z.eqb_neq _ _) Hx). unfold n_free.
  rewrite (load_bind s m 4 _ _ _ _ Hs) by vlia. unfold is_free at 1.
  destruct (ld 4 m (x + o_free) =? 0); cbn [negb]; [|done].
  erewrite bind_Ret by by apply getNextSpace_at. apply IH; [done|done|simpl in Hf; lia].
Qed.

Lemma findFreeSpace_run ns fuel s m n size :
  chain m n ns -> nodes_ok s ns -> (length ns < fuel)%nat ->
  findFreeSpace C fuel n size (set_ram m s) = Ret (first (fits m size) ns, set_ram m s).
Proof.
  revert fuel n. induction ns as [|x ns IH]; intros [|f] n Hc Hok Hf; try (simpl in Hf; lia);
    cbn [findFreeSpace chain first] in *; [by subst|].
  destruct Hc as (-> & Hx & Hc). apply Forall_cons in Hok as [Hs Hok].
  rewrite (proj2 (Z.eqb_neq _ _) Hx). unfold n_free, n_size.
  rewrite (load_bind s m 4 _ _ _ _ Hs) by vlia. rewrite (load_bind s m 4 _ _ _ _ Hs) by vlia.
  unfold fits at 1, is_free.
  destruct (negb (ld 4 m (x + o_free) =? 0) && (size <=? ld 4 m (x + o_size))); [done|].
  erewrite bind_Ret by by apply getNextSpace_at. apply IH; [done|done|simpl in Hf; lia].
Qed.

Lemma findPage_loop_run ns fuel s m n pid order :
  chain m n ns -> nodes_ok s ns -> (length ns < fuel)%nat ->
  findPage_loop C fuel n pid order (set_ram m s) = Ret (first (owned m pid order) ns, set_ram m s).
Proof.
  revert fuel n. induction ns as [|x ns IH]; intros [|f] n Hc Hok Hf; try (simpl in Hf; lia);
    cbn [findPage_loop chain first] in *; [by subst|].
  destruct Hc as (-> & Hx & Hc). apply Forall_cons in Hok as [Hs Hok].
  rewrite (proj2 (Z.eqb_neq _ _) Hx). unfold n_pid.
  rewrite (load_bind s m 4 _ _ _ _ Hs) by vlia. rewrite (order_bind s m _ _ _ _ Hs) by vlia.
  unfold owned at 1.
  destruct ((pid =? ld 4 m (x + o_pid)) && (order =? wraps 32 (ld 4 m (x + o_order)))); [done|].
  erewrite bind_Ret by by apply getNextSpace_at. apply IH; [done|done|simpl in Hf; lia].
Qed.

Lemma last_loop_run ns fuel s m n prev :
  chain m n ns -> nodes_ok s ns -> (length ns < fuel)%nat ->
  last_loop C fuel n prev (set_ram m s) = Ret (default prev (last ns), set_ram m s).
Proof.
  revert fuel n prev. induction ns as [|x ns IH]; intros [|f] n prev Hc Hok Hf; try (simpl in Hf; lia);
    cbn [last_loop chain] in *; [by subst|].
  destruct Hc as (-> & Hx & Hc). apply Forall_cons in Hok as [Hs Hok].
  rewrite (proj2 (Z.eqb_neq _ _) Hx). erewrite bind_Ret by by apply getNextSpace_at.
  rewrite IH by (done || (simpl in Hf; lia)). rewrite last_cons. by destruct (last ns).
Qed.

Lemma contiguous_loop_run ns fuel s m n page :
  chain m n ns -> nodes_ok s ns -> safe C s page (page + NODE) -> (length ns < fuel)%nat ->
  contiguous_loop C fuel n page (set_ram m s) =
    Ret (first (fun x => ld 8 m (x + o_start) =? ld 8 m (page + o_start) + page_size C) ns, set_ram m s).
Proof.
  intros Hc Hok Hp. revert fuel n Hc Hok. induction ns as [|x ns IH]; intros [|f] n Hc Hok Hf; try (simpl in Hf; lia);
    cbn [contiguous_loop chain first] in *; [by subst|].
  destruct Hc as (-> & Hx & Hc). apply Forall_cons in Hok as [Hs Hok].
  rewrite (proj2 (Z.eqb_neq _ _) Hx). unfold n_start.
  rewrite (load_bind s m 8 _ _ _ _ Hs) by vlia. rewrite (load_bind s m 8 _ _ _ _ Hp) by vlia.
  destruct (ld 8 m (x + o_start) =? ld 8 m (page + o_start) + page_size C);
    (erewrite bind_Ret by by apply getNextSpace_at); [done|]. apply IH; [done|done|simpl in Hf; lia].
Qed.

(** A list survives writes that leave the [next] fields alone. *)
Lemma chain_agree m m' n ns :
  Forall (fun x => ld 8 m' (x + o_next) = ld 8 m (x + o_next)) ns -> chain m n ns -> chain m' n ns.
Proof.
  revert n. induction ns as [|x ns IH]; intros n Hf Hc; [done|]. apply Forall_cons in Hf as [E Hf].
  destruct Hc as (-> & ? & Hc). cbn [chain]. rewrite E. auto.
Qed.

End Runs.
