(* ===== verification/VmElems.v ===== *)
(** * The memory manager: the elements of a page

    The elements of an area follow each other, each as long as its header says.
    [restorePointers] relinks them after the area was moved, whatever the area
    holds, and writes nothing but their links. *)

From S2P Require Import Prelude LinkedList ByteMem Vm VmSpec.
Import Vm.

(** The offsets of the elements of the area of [size] bytes at [n], from
    offset [off] on. *)
Fixpoint elems_from (fuel : nat) (m : bytes) (n off size : Z) : list Z :=
  match fuel with
  | O => []
  | S f =>
      if (off <? size) && (NODE <? size - off)
      then off :: elems_from f m n (off + (NODE + ld 4 m (n + off + o_size))) size
      else []
  end.

Definition elems (m : bytes) (n size : Z) : list Z := elems_from (Z.to_nat size) m n 0 size.

(** Bytes of the link fields ([start], [next], [prev]) of a node at offset [e] *)
Definition link_at (e o : Z) : bool :=
  bool_decide (e + o_start <= o < e + o_start + 8 \/ e + o_next <= o < e + o_prev + 8).

Definition link_byte (es : list Z) (o : Z) : bool := existsb (fun e => link_at e o) es.

(** The elements at [n + e] are linked in both directions, [prev] before the
    first one and, where given, [fin] after the last. *)
Fixpoint linked (m : bytes) (fin : option Z) (n prev : Z) (es : list Z) : Prop :=
  match es with
  | [] => True
  | e :: es' =>
      match es', fin with
      | e' :: _, _ => ld 8 m (n + e + o_next) = n + e'
      | [], Some z => ld 8 m (n + e + o_next) = z
      | [], None => True
      end /\
      ld 8 m (n + e + o_prev) = prev /\ ld 8 m (n + e + o_start) = n + e + NODE /\
      linked m fin n (n + e) es'
  end.

Lemma ld4_nonneg m a : 0 <= ld 4 m a.
Proof. apply ld_range. Qed.

Section Elems.
Implicit Types (m : bytes).

(** More fuel than bytes changes nothing. *)
Lemma elems_from_fuel f f' m n off size :
  (Z.to_nat (size - off) <= f)%nat -> (Z.to_nat (size - off) <= f')%nat ->
  elems_from f m n off size = elems_from f' m n off size.
Proof.
  revert f' off. induction f as [|f IH]; intros f' off Hf Hf'; destruct f' as [|f']; cbn [elems_from]; try done.
  - destruct (Z.ltb_spec off size); [lia|done].
  - destruct (Z.ltb_spec off size); [lia|done].
  - destruct ((off <? size) && (NODE <? size - off)) eqn:E; [|done].
    apply andb_true_iff in E as [E1%Z.ltb_lt E2%Z.ltb_lt]. pose proof (ld4_nonneg m (n + off + o_size)).
    f_equal. apply IH; vlia.
Qed.

(** Elements lie inside the area, at least a header apart. *)
Lemma elems_from_range f m n off size e :
  e ∈ elems_from f m n off size -> off <= e /\ e + NODE < size.
Proof.
  revert off. induction f as [|f IH]; intros off; cbn [elems_from]; [by intros ?%elem_of_nil|].
  destruct ((off <? size) && (NODE <? size - off)) eqn:E; [|by intros ?%elem_of_nil].
  apply andb_true_iff in E as [E1%Z.ltb_lt E2%Z.ltb_lt]. pose proof (ld4_nonneg m (n + off + o_size)).
  intros [->|Hin%IH]%elem_of_cons; vlia.
Qed.

Lemma link_byte_range f m n off size o :
  link_byte (elems_from f m n off size) o = true -> off <= o < size.
Proof.
  intros (e & Hin & He)%existsb_exists. apply list_elem_of_In, elems_from_range in Hin.
  apply bool_decide_eq_true in He. vlia.
Qed.

(** The elements depend only on the contents relative to the area's start. *)
Lemma elems_from_ext f m m' n n' off size :
  0 <= off ->
  (forall o, off <= o < size -> link_byte (elems_from f m n off size) o = false ->
             rd8 m' (n' + o) = rd8 m (n + o)) ->
  elems_from f m' n' off size = elems_from f m n off size.
Proof.
  revert off. induction f as [|f IH]; intros off Hoff Hm; cbn [elems_from] in *; [done|].
  destruct ((off <? size) && (NODE <? size - off)) eqn:E; [|done].
  apply andb_true_iff in E as [E1%Z.ltb_lt E2%Z.ltb_lt].
  pose proof (ld4_nonneg m (n + off + o_size)) as Hnn.
  assert (ld 4 m' (n' + off + o_size) = ld 4 m (n + off + o_size)) as Es.
  { apply ld_ext. intros i Hi. rewrite <- !Z.add_assoc. apply Hm; [vlia|].
    cbn [link_byte existsb]. apply orb_false_iff. split; [apply bool_decide_eq_false; vlia|].
    destruct (existsb _ _) eqn:El; [|done].
    apply link_byte_range in El. vlia. }
  rewrite Es. f_equal. apply IH; [vlia|]. intros o Ho Hl. apply Hm; [vlia|].
  cbn [link_byte existsb]. apply orb_false_iff. split; [apply bool_decide_eq_false; vlia|done].
Qed.

Lemma elems_ext m m' n n' size :
  (forall o, 0 <= o < size -> link_byte (elems m n size) o = false -> rd8 m' (n' + o) = rd8 m (n + o)) ->
  elems m' n' size = elems m n size.
Proof. intros. by apply elems_from_ext. Qed.

Lemma elems_cons m n size : NODE < size -> exists es, elems m n size = 0 :: es.
Proof.
  intros Hsz. unfold elems. destruct (Z.to_nat size) as [|f] eqn:E; [vlia|]. cbn [elems_from].
  destruct (Z.ltb_spec 0 size); [|vlia]. destruct (Z.ltb_spec NODE (size - 0)); [|vlia]. by eexists.
Qed.

End Elems.

(** Links survive writes outside the area. *)
Lemma linked_agree m m' fin n prev size es :
  (forall o, 0 <= o < size -> rd8 m' (n + o) = rd8 m (n + o)) ->
  Forall (fun e => 0 <= e /\ e + NODE <= size) es -> linked m fin n prev es -> linked m' fin n prev es.
Proof.
  intros Hm. revert prev. induction es as [|e es IH]; intros prev Hes Hl; [done|].
  apply Forall_cons in Hes as [He Hes]. cbn [linked] in *.
  assert (forall o, 0 <= o -> o + 8 <= NODE -> ld 8 m' (n + e + o) = ld 8 m (n + e + o)) as Hld.
  { intros o ??. apply ld_ext. intros i Hi. rewrite <- !Z.add_assoc. apply Hm. vlia. }
  rewrite !Hld by vlia. destruct Hl as (? & ? & ? & ?). split_and!; auto.
Qed.

Lemma elems_inside m n size : Forall (fun e => 0 <= e /\ e + NODE <= size) (elems m n size).
Proof. apply Forall_forall. intros e He%elems_from_range. lia. Qed.

Section Restore.
Context (C : config).
Implicit Types (s : vm) (m : bytes).

Lemma restore_loop_run inner fuel s m n prev off size :
  safe C s n (n + size) -> 0 < n -> n + size < 2 ^ 64 -> 0 <= off -> 0 <= prev < 2 ^ 64 ->
  (Z.to_nat (size - off) < fuel)%nat ->
  let es := elems_from fuel m n off size in
  exists m', restore_loop C fuel inner (n + off) prev off size 1 (set_ram m s) =
      Ret (default prev (Z.add n <$> last es), set_ram m' s) /\
    (forall a, link_byte es (a - n) = false -> rd8 m' a = rd8 m a) /\
    linked m' None n prev es.
Proof.
  intros Hs Hn Hmax. revert m prev off. induction fuel as [|f IH]; intros m prev off Hoff Hprev Hf; [lia|].
  cbn [elems_from restore_loop].
  destruct ((off <? size) && (NODE <? size - off)) eqn:E; [|exists m; done].
  apply andb_true_iff in E as [E1%Z.ltb_lt E2%Z.ltb_lt].
  pose proof (ld4_nonneg m (n + off + o_size)) as Hnn. set (z := ld 4 m (n + off + o_size)) in *.
  unfold n_size. rewrite (load_bind C s m 4 _ _ _ _ Hs) by vlia. fold z.
  rewrite 3!(store_bind C s _ 8 _ _ _ _ _ Hs) by vlia.
  set (m1 := st 8 _ (n + off + o_start) _). change (1 =? 0) with false. cbn match.
  rewrite (bind_Ret _ _ _ tt (set_ram m1 s)) by done.
  assert (forall a, link_at off (a - n) = false -> rd8 m1 a = rd8 m a) as Hm1.
  { intros a Ha%bool_decide_eq_false. unfold m1. rewrite !rd8_st, !decide_False by vlia. done. }
  assert (ld 8 m1 (n + off + o_prev) = prev /\ ld 8 m1 (n + off + o_start) = n + off + NODE /\
          ld 8 m1 (n + off + o_next) = (n + off + (NODE + z)) `mod` 2 ^ 64) as (Hp & Hst & Hnx).
  { unfold m1. split_and!.
    - rewrite ld_st_disj by vlia. by apply ld8_st.
    - apply ld8_st. vlia.
    - rewrite !ld_st_disj by vlia. by rewrite ld_st_same. }
  destruct (IH m1 (n + off) (off + (NODE + z))) as (m2 & E2' & Hfr & Hlk); [vlia..|].
  assert (elems_from f m1 n (off + (NODE + z)) size = elems_from f m n (off + (NODE + z)) size) as Eel.
  { apply elems_from_ext; [vlia|]. intros o Ho _. apply Hm1, bool_decide_eq_false. vlia. }
  rewrite Eel in *. set (es := elems_from f m n (off + (NODE + z)) size) in *.
  replace (n + (off + (NODE + z))) with (n + off + (NODE + z)) in E2' by lia.
  exists m2. split_and!.
  - rewrite E2'. do 2 f_equal. rewrite last_cons. by destruct (last es).
  - intros a Ha. cbn [link_byte existsb] in Ha. apply orb_false_iff in Ha as [Ha1 Ha2].
    rewrite Hfr by done. by apply Hm1.
  - assert (forall a, a < n + off + NODE -> rd8 m2 a = rd8 m1 a) as Hhd.
    { intros a Ha. apply Hfr. destruct (link_byte es (a - n)) eqn:El; [|done].
      apply link_byte_range in El. vlia. }
    assert (forall o, o + 8 <= NODE -> ld 8 m2 (n + off + o) = ld 8 m1 (n + off + o)) as Hhd8.
    { intros o Ho. apply ld_ext. intros i Hi. apply Hhd. vlia. }
    cbn [linked]. rewrite (Hhd8 o_prev), (Hhd8 o_start), Hp, Hst by vlia. split_and!; try done.
    destruct es as [|e es'] eqn:Ees; [done|]. rewrite (Hhd8 o_next), Hnx by vlia.
    assert (e = off + (NODE + z) /\ e + NODE < size) as [-> ?].
    { assert (e ∈ es) as Hin by (rewrite Ees; left).
      pose proof (elems_from_range _ _ _ _ _ _ Hin). subst es.
      destruct f as [|f']; cbn [elems_from] in Ees; [discriminate|].
      destruct ((off + (NODE + z) <? size) && (NODE <? size - (off + (NODE + z)))); [|done].
      split; [congruence|lia]. }
    rewrite Z.mod_small by vlia. lia.
Qed.

(** Changing what comes after the last element. *)
Lemma linked_fin m fin v n prev es e :
  last es = Some e -> Forall (fun x => x + NODE <= e) (removelast es) -> 0 <= v < 2 ^ 64 ->
  linked m fin n prev es -> linked (st 8 m (n + e + o_next) v) (Some v) n prev es.
Proof.
  revert prev. induction es as [|x es IH]; intros prev Hl Hr Hv; [done|].
  destruct es as [|y es].
  - injection Hl as ->. cbn [linked]. intros (_ & Hp & Hst & _). split_and!; [by apply ld8_st|..|done].
    + by rewrite ld_st_disj by vlia.
    + by rewrite ld_st_disj by vlia.
  - change (removelast (x :: y :: es)) with (x :: removelast (y :: es)) in Hr.
    apply Forall_cons in Hr as [Hx Hr]. change (last (x :: y :: es)) with (last (y :: es)) in Hl.
    change (linked ?m ?f n prev (x :: y :: es)) with
      (ld 8 m (n + x + o_next) = n + y /\ ld 8 m (n + x + o_prev) = prev /\
       ld 8 m (n + x + o_start) = n + x + NODE /\ linked m f n (n + x) (y :: es)).
    intros (? & ? & ? & Hlk). rewrite !ld_st_disj by vlia. split_and!; [done..|]. by apply IH.
Qed.

Lemma elems_from_last f m n off size e :
  last (elems_from f m n off size) = Some e ->
  Forall (fun x => x + NODE <= e) (removelast (elems_from f m n off size)).
Proof.
  revert off. induction f as [|f IH]; intros off; cbn [elems_from]; [done|].
  destruct ((off <? size) && (NODE <? size - off)); [|done].
  pose proof (ld4_nonneg m (n + off + o_size)).
  destruct (elems_from f m n _ size) as [|y es] eqn:E; [by constructor|].
  rewrite last_cons_cons. change (removelast (off :: y :: es)) with (off :: removelast (y :: es)).
  rewrite <- E. intros Hl. constructor; [|by apply IH].
  apply last_Some in Hl as [es' El]. assert (e ∈ elems_from f m n (off + (NODE + ld 4 m (n + off + o_size))) size) as Hin.
  { rewrite El. apply elem_of_app. right. left. }
  apply elems_from_range in Hin. lia.
Qed.

(** The whole of [restoreElementsPointers], on any contents. *)
Lemma restore_run fuel s m n size :
  safe C s n (n + size) -> 0 < n -> n + size < 2 ^ 64 -> NODE < size -> (Z.to_nat size < fuel)%nat ->
  exists m', restoreElementsPointers C fuel n size (set_ram m s) = Ret (tt, set_ram m' s) /\
    (forall a, link_byte (elems m n size) (a - n) = false -> rd8 m' a = rd8 m a) /\
    linked m' (Some NULL) n NULL (elems m n size).
Proof.
  intros Hs Hn Hmax Hsz Hf. unfold restoreElementsPointers, restore.
  destruct (Z.leb_spec size 0); [vlia|].
  destruct (restore_loop_run (fun _ _ => mret tt) fuel s m n NULL 0 size)
    as (m1 & E1 & Hfr & Hlk); [done|done|done|lia|vlia|lia|].
  assert (elems m n size = elems_from fuel m n 0 size) as Ee by (apply elems_from_fuel; lia).
  rewrite <- Ee in *. destruct (elems_cons m n size Hsz) as [es Ec].
  destruct (last (elems m n size)) as [e|] eqn:El; [|rewrite Ec in El; by apply last_None in El].
  assert (e ∈ elems m n size) as Hin.
  { apply last_Some in El as [es' ->]. apply elem_of_app. right. left. }
  pose proof (elems_from_range _ _ _ _ _ _ Hin) as [??].
  rewrite Z.add_0_r in E1. rewrite (bind_Ret _ _ _ _ _ E1). simpl default.
  rewrite (store_at C s _ 8 _ _ _ _ Hs) by vlia. eexists. split_and!; [reflexivity|..].
  - intros a Ha. rewrite rd8_st. case_decide as Hd; [|by apply Hfr]. exfalso.
    assert (link_byte (elems m n size) (a - n) = true) as Ht; [|congruence].
    apply existsb_exists. exists e. split; [by apply list_elem_of_In|]. apply bool_decide_eq_true. vlia.
  - eapply linked_fin; [done|by apply elems_from_last|vlia|done].
Qed.

End Restore.
