(* ===== verification/VmSwap.v ===== *)
(** * The memory manager: exchanging two pages

    [swapPages] exchanges the contents and the descriptions of two pages of
    the table, leaves every page where it is in the table and in memory, and
    relinks the elements in their new places. *)

From S2P Require Import Prelude LinkedList ByteMem Vm VmSpec VmElems.
Import Vm.

Lemma ld_byte n m a i : 0 <= i < Z.of_nat n -> (ld n m a / 256 ^ i) `mod` 256 = rd8 m (a + i).
Proof.
  revert a i. induction n as [|n IH]; intros a i Hi; [lia|].
  change (ld (S n) m a) with (rd8 m a + 256 * ld n m (a + 1)).
  pose proof (rd8_range m a). destruct (decide (i = 0)) as [->|].
  - rewrite Z.pow_0_r, Z.div_1_r, Z.add_0_r, Z.mul_comm, Z.mod_add by lia. apply Z.mod_small. lia.
  - replace i with (1 + (i - 1)) by lia. rewrite Z.pow_add_r, Z.pow_1_r, <- Z.div_div by lia.
    rewrite Z.mul_comm, Z.div_add, (Z.div_small (rd8 m a)), Z.add_0_l, IH by lia. f_equal. lia.
Qed.

(** Storing a loaded value copies bytes. *)
Lemma rd8_st_ld n m a m' b c :
  rd8 (st n m a (ld n m' b)) c = if decide (a <= c < a + Z.of_nat n) then rd8 m' (b + (c - a)) else rd8 m c.
Proof. rewrite rd8_st. case_decide; [|done]. rewrite ld_byte by lia. done. Qed.

(** Evaluate the outermost write of [rd8 m a] when [lia] knows whether it is
    at [a]. *)
Ltac rd8_step :=
  first [rewrite rd8_st_ld | rewrite rd8_blit | rewrite rd8_memcpy by vlia];
  first [rewrite decide_False by vlia | rewrite decide_True by vlia].
Ltac rd8_eval := repeat rd8_step; try (f_equal; vlia).

(** The fields of a node that describe its page, and those that link it. *)
Definition meta_field (k : nat) (o : Z) : Prop :=
  0 <= o /\ (o + Z.of_nat k <= o_start \/ o_size <= o /\ o + Z.of_nat k <= o_size + 4 \/
             o_data <= o /\ o + Z.of_nat k <= o_clock + 1).
Definition link_field (o : Z) : Prop := o = o_start \/ o = o_next \/ o = o_prev.

Lemma meta_not_link k o i : meta_field k o -> 0 <= i < Z.of_nat k -> link_at 0 (o + i) = false.
Proof. unfold meta_field. intros. apply bool_decide_eq_false. vlia. Qed.

Lemma link_field_at o i : link_field o -> 0 <= i < 8 -> link_at 0 (o + i) = true.
Proof. unfold link_field. intros. apply bool_decide_eq_true. vlia. Qed.

Lemma meta_pid : meta_field 4 o_pid. Proof. unfold meta_field. vlia. Qed.
Lemma meta_reference : meta_field 4 o_reference. Proof. unfold meta_field. vlia. Qed.
Lemma meta_free : meta_field 4 o_free. Proof. unfold meta_field. vlia. Qed.
Lemma meta_order : meta_field 4 o_order. Proof. unfold meta_field. vlia. Qed.
Lemma meta_size : meta_field 4 o_size. Proof. unfold meta_field. vlia. Qed.
Lemma meta_data : meta_field 4 o_data. Proof. unfold meta_field. vlia. Qed.
Lemma meta_clock : meta_field 1 o_clock. Proof. unfold meta_field. vlia. Qed.
Lemma link_start : link_field o_start. Proof. by left. Qed.
Lemma link_next : link_field o_next. Proof. by right; left. Qed.
Lemma link_prev : link_field o_prev. Proof. by right; right. Qed.
#[export] Hint Resolve meta_pid meta_reference meta_free meta_order meta_size meta_data meta_clock
  link_start link_next link_prev : os.

Section Swap.
Context (C : config) (s : vm) (m : bytes) (p1 p2 f1 f2 z1 z2 : Z).
Abbreviation PS := (page_size C).

Definition apart (a k b l : Z) : Prop := a + k <= b \/ b + l <= a.

(** Two different pages of the table: their nodes and frames are accessible
    and do not overlap. *)
Record two_pages : Prop := {
  tp_start1 : ld 8 m (p1 + o_start) = f1;
  tp_start2 : ld 8 m (p2 + o_start) = f2;
  tp_size1 : ld 4 m (p1 + o_size) = z1;
  tp_size2 : ld 4 m (p2 + o_size) = z2;
  tp_z1 : NODE < z1 <= PS;
  tp_z2 : NODE < z2 <= PS;
  tp_safe1 : safe C s p1 (p1 + NODE);
  tp_safe2 : safe C s p2 (p2 + NODE);
  tp_fsafe1 : safe C s f1 (f1 + PS);
  tp_fsafe2 : safe C s f2 (f2 + PS);
  tp_f1 : 0 < f1 /\ f1 + PS < 2 ^ 64;
  tp_f2 : 0 < f2 /\ f2 + PS < 2 ^ 64;
  tp_nodes : apart p1 NODE p2 NODE;
  tp_frames : apart f1 PS f2 PS;
  tp_n1f1 : apart p1 NODE f1 PS;
  tp_n1f2 : apart p1 NODE f2 PS;
  tp_n2f1 : apart p2 NODE f1 PS;
  tp_n2f2 : apart p2 NODE f2 PS
}.

(** The memory before the elements are relinked. *)
Definition exchanged : bytes :=
  let page1 := blit (Z.to_nat NODE) ∅ 0 m p1 in
  let page2 := blit (Z.to_nat NODE) ∅ 0 m p2 in
  let m1 := memcpy (memcpy m f1 f2 PS) p1 p2 NODE in
  let m1 := st 8 m1 (p1 + o_start) (ld 8 page1 o_start) in
  let m1 := st 8 m1 (p1 + o_next) (ld 8 page1 o_next) in
  let m1 := st 8 m1 (p1 + o_prev) (ld 8 page1 o_prev) in
  let m2 := blit (Z.to_nat PS) m1 f2 (blit (Z.to_nat PS) ∅ 0 m f1) 0 in
  let m2 := blit (Z.to_nat NODE) m2 p2 page1 0 in
  let m2 := st 8 m2 (p2 + o_start) (ld 8 page2 o_start) in
  let m2 := st 8 m2 (p2 + o_next) (ld 8 page2 o_next) in
  st 8 m2 (p2 + o_prev) (ld 8 page2 o_prev).

Context (H : two_pages).

Ltac pages :=
  destruct H as [Es1 Es2 Ez1 Ez2 Hz1 Hz2 _ _ _ _ Hf1 Hf2 Hnn Hff Hn1f1 Hn1f2 Hn2f1 Hn2f2];
  unfold apart in *.

Lemma exchanged_node1 o :
  0 <= o < NODE -> rd8 exchanged (p1 + o) = rd8 m ((if link_at 0 o then p1 else p2) + o).
Proof.
  intros Ho. pages. unfold exchanged, link_at. case_bool_decide as Hl; [|by rd8_eval].
  assert (o_start <= o < o_start + 8 \/ o_next <= o < o_next + 8 \/ o_prev <= o < o_prev + 8)
    as [?|[?|?]] by vlia; rd8_eval.
Qed.

Lemma exchanged_node2 o :
  0 <= o < NODE -> rd8 exchanged (p2 + o) = rd8 m ((if link_at 0 o then p2 else p1) + o).
Proof.
  intros Ho. pages. unfold exchanged, link_at. case_bool_decide as Hl; [|by rd8_eval].
  assert (o_start <= o < o_start + 8 \/ o_next <= o < o_next + 8 \/ o_prev <= o < o_prev + 8)
    as [?|[?|?]] by vlia; rd8_eval.
Qed.

Lemma exchanged_frame1 o : 0 <= o < PS -> rd8 exchanged (f1 + o) = rd8 m (f2 + o).
Proof. intros Ho. pages. unfold exchanged. rd8_eval. Qed.

Lemma exchanged_frame2 o : 0 <= o < PS -> rd8 exchanged (f2 + o) = rd8 m (f1 + o).
Proof. intros Ho. pages. unfold exchanged. rd8_eval. Qed.

Lemma exchanged_other a :
  apart a 1 p1 NODE -> apart a 1 p2 NODE -> apart a 1 f1 PS -> apart a 1 f2 PS -> rd8 exchanged a = rd8 m a.
Proof. intros. pages. unfold exchanged. rd8_eval. Qed.

Lemma exchanged_meta1 k o : meta_field k o -> ld k exchanged (p1 + o) = ld k m (p2 + o).
Proof.
  intros Hk. apply ld_ext. intros i Hi. rewrite <- !Z.add_assoc, exchanged_node1 by (unfold meta_field in Hk; vlia).
  by rewrite (meta_not_link k o).
Qed.

Lemma exchanged_meta2 k o : meta_field k o -> ld k exchanged (p2 + o) = ld k m (p1 + o).
Proof.
  intros Hk. apply ld_ext. intros i Hi. rewrite <- !Z.add_assoc, exchanged_node2 by (unfold meta_field in Hk; vlia).
  by rewrite (meta_not_link k o).
Qed.

Lemma exchanged_link1 o : link_field o -> ld 8 exchanged (p1 + o) = ld 8 m (p1 + o).
Proof.
  intros Ho. apply ld_ext. intros i Hi. rewrite <- !Z.add_assoc, exchanged_node1 by (unfold link_field in Ho; vlia).
  by rewrite (link_field_at o).
Qed.

Lemma exchanged_link2 o : link_field o -> ld 8 exchanged (p2 + o) = ld 8 m (p2 + o).
Proof.
  intros Ho. apply ld_ext. intros i Hi. rewrite <- !Z.add_assoc, exchanged_node2 by (unfold link_field in Ho; vlia).
  by rewrite (link_field_at o).
Qed.

(** The elements move with the contents. *)
Lemma elems_exchanged1 : elems exchanged f1 z2 = elems m f2 z2.
Proof. destruct H. apply elems_ext. intros o Ho _. apply exchanged_frame1. lia. Qed.

Lemma elems_exchanged2 : elems exchanged f2 z1 = elems m f1 z1.
Proof. destruct H. apply elems_ext. intros o Ho _. apply exchanged_frame2. lia. Qed.

Lemma swapPages_copies fuel :
  swapPages C fuel p1 p2 (set_ram m s) =
    (restoreElementsPointers C fuel f1 z2;;
     a2 ← n_start C p2; z2' ← n_size C p2; restoreElementsPointers C fuel a2 z2';; mret 0) (set_ram exchanged s).
Proof.
  pose proof H as [Es1 Es2 Ez1 Ez2 Hz1 Hz2 Hs1 Hs2 Hfs1 Hfs2 Hf1 Hf2 Hnn Hff Hn1f1 Hn1f2 Hn2f1 Hn2f2].
  unfold apart in *. unfold swapPages. destruct (Z.eqb_spec p1 p2); [vlia|].
  assert (0 <= PS) by vlia. unfold n_start, n_size.
  rewrite (load_bind C s m 8 _ _ _ _ Hs1), Es1 by vlia.
  rewrite (copy_in_bind C s m _ _ _ _ _ Hfs1) by vlia.
  rewrite (copy_in_bind C s m _ _ _ _ _ Hs1) by vlia. rewrite (copy_in_bind C s m _ _ _ _ _ Hs2) by vlia.
  rewrite (load_bind C s m 8 _ _ _ _ Hs2), Es2 by vlia.
  rewrite (memcpy_bind C s _ _ _ _ _ _ _ _ _ Hfs1 Hfs2) by vlia.
  rewrite (memcpy_bind C s _ _ _ _ _ _ _ _ _ Hs1 Hs2) by vlia.
  rewrite 3!(store_bind C s _ 8 _ _ _ _ _ Hs1) by vlia.
  rewrite (load_bind C s _ 8 _ _ _ _ Hs2) by vlia.
  match goal with |- context [ld 8 ?mm (p2 + o_start)] => replace (ld 8 mm (p2 + o_start)) with f2 end.
  2:{ rewrite <- Es2. symmetry. apply ld_ext. intros i Hi. rd8_eval. }
  rewrite (copy_out_bind C s _ _ _ _ _ _ _ Hfs2) by vlia. rewrite (copy_out_bind C s _ _ _ _ _ _ _ Hs2) by vlia.
  rewrite 3!(store_bind C s _ 8 _ _ _ _ _ Hs2) by vlia.
  match goal with |- _ (set_ram ?mm s) = _ => change mm with exchanged end.
  rewrite (load_bind C s _ 8 _ _ _ _ Hs1), (load_bind C s _ 4 _ _ _ _ Hs1) by vlia.
  rewrite exchanged_link1, exchanged_meta1, Es1, Ez2 by auto with os. done.
Qed.

Lemma swapPages_run fuel :
  (Z.to_nat PS < fuel)%nat ->
  exists m', swapPages C fuel p1 p2 (set_ram m s) = Ret (0, set_ram m' s) /\
    (forall a, link_byte (elems m f2 z2) (a - f1) = false -> link_byte (elems m f1 z1) (a - f2) = false ->
               rd8 m' a = rd8 exchanged a) /\
    linked m' (Some NULL) f1 NULL (elems m f2 z2) /\ linked m' (Some NULL) f2 NULL (elems m f1 z1).
Proof.
  intros Hf. rewrite swapPages_copies.
  pose proof H as [Es1 Es2 Ez1 Ez2 Hz1 Hz2 Hs1 Hs2 Hfs1 Hfs2 Hf1 Hf2 Hnn Hff Hn1f1 Hn1f2 Hn2f1 Hn2f2].
  unfold apart in *.
  destruct (restore_run C fuel s exchanged f1 z2) as (m1 & E1 & Hfr1 & Hlk1);
    [eapply safe_sub; [exact Hfs1|lia|lia]|lia|lia|lia|lia|].
  rewrite elems_exchanged1 in *. rewrite (bind_Ret _ _ _ _ _ E1).
  assert (forall a, ~ (f1 <= a < f1 + PS) -> rd8 m1 a = rd8 exchanged a) as Hout.
  { intros a Ha. apply Hfr1. destruct (link_byte _ (a - f1)) eqn:El; [|done].
    apply link_byte_range in El. lia. }
  unfold n_start, n_size.
  rewrite (load_bind C s _ 8 _ _ _ _ Hs2), (load_bind C s _ 4 _ _ _ _ Hs2) by vlia.
  rewrite !(ld_ext _ m1 exchanged _ _) by (intros; apply Hout; vlia).
  rewrite exchanged_link2, exchanged_meta2, Es2, Ez1 by auto with os.
  destruct (restore_run C fuel s m1 f2 z1) as (m2 & E2 & Hfr2 & Hlk2);
    [eapply safe_sub; [exact Hfs2|lia|lia]|lia|lia|lia|lia|].
  assert (elems m1 f2 z1 = elems m f1 z1) as Eel.
  { rewrite <- elems_exchanged2. apply elems_ext. intros o Ho _. apply Hout. lia. }
  rewrite Eel in *. rewrite (bind_Ret _ _ _ _ _ E2). exists m2. split_and!; [done|..|done].
  - intros a Ha1 Ha2. rewrite Hfr2 by done. by apply Hfr1.
  - apply (linked_agree m1 m2 _ _ _ z2); [|apply elems_inside|done].
    intros o Ho. apply Hfr2. destruct (link_byte _ (f1 + o - f2)) eqn:El; [|done].
    apply link_byte_range in El. lia.
Qed.

End Swap.
