(* ===== verification/VmPages.v ===== *)
(** * The memory manager: the page table

    The table that [init] builds: node [k] describes the frame [k], and the
    nodes are linked in order.  The table is viewed as the list of its pages;
    each operation of vm.c on pages is shown to be an operation on that list. *)

From S2P Require Import Prelude LinkedList ByteMem Vm VmSpec VmElems VmSwap.
Import Vm.

(** A page: its description and the part of its frame that survives a move, that
    is the offsets of the elements [restoreElementsPointers] finds when it walks
    the frame by their sizes, and the bytes of the frame outside the link fields
    of these elements.  [swapPages] rewrites the link fields in every frame, also
    in one that starts with data of a block of the page before
    ([dataStartsAnotherPage]): there the bytes 16 to 23 and 32 to 47, and those
    of the further elements the walk finds, are data, and they are not part of
    what is kept. *)
Record page := mkPage {
  g_pid : Z; g_reference : Z; g_free : Z; g_order : Z; g_size : Z; g_data : Z; g_clock : Z;
  g_body : list Z * list Z
}.

Definition set_owner (pid : Z) (g : page) : page :=
  mkPage pid (g_reference g) 0 (g_order g) (g_size g) (g_data g) (g_clock g) (g_body g).
Definition set_clock (c : Z) (g : page) : page :=
  mkPage (g_pid g) (g_reference g) (g_free g) (g_order g) (g_size g) (g_data g) c (g_body g).
Definition set_body (b : list Z * list Z) (g : page) : page :=
  mkPage (g_pid g) (g_reference g) (g_free g) (g_order g) (g_size g) (g_data g) (g_clock g) b.

(** The bytes outside the link fields found in the frame [f] are those of the
    frame [f'] of the other memory. *)
Definition carried (m m' : bytes) (f f' z PS : Z) : Prop :=
  forall o, 0 <= o < PS -> link_byte (elems m f z) o = false -> rd8 m' (f' + o) = rd8 m (f + o).

Definition body (m : bytes) (f z PS : Z) : list Z * list Z :=
  (elems m f z, (fun o => if link_byte (elems m f z) o then 0 else rd8 m (f + o)) <$> seqZ 0 PS).

Lemma body_ext m m' f f' z PS :
  z <= PS ->
  (forall o, 0 <= o < PS -> link_byte (elems m f z) o = false -> rd8 m' (f' + o) = rd8 m (f + o)) ->
  body m' f' z PS = body m f z PS.
Proof.
  intros Hz Hm. unfold body. rewrite (elems_ext m m' f f' z) by (intros; apply Hm; [lia|done]).
  f_equal. apply list_fmap_ext. intros i o Ho%list_elem_of_lookup_2%elem_of_seqZ.
  destruct (link_byte _ o) eqn:E; [done|]. apply Hm; [lia|done].
Qed.

(** Equal contents are equal byte for byte but for links. *)
Lemma body_inv m m' f f' z z' PS :
  body m' f' z' PS = body m f z PS ->
  elems m' f' z' = elems m f z /\
  forall o, 0 <= o < PS -> link_byte (elems m f z) o = false -> rd8 m' (f' + o) = rd8 m (f + o).
Proof.
  unfold body. intros [= Ee Eb]. rewrite Ee in Eb. split; [done|]. intros o Ho Hl.
  apply (f_equal (lookup (Z.to_nat o))) in Eb. rewrite !list_lookup_fmap, !lookup_seqZ_lt in Eb by lia.
  cbn [fmap option_fmap option_map] in Eb. rewrite Z.add_0_l, Z2Nat.id, Hl in Eb by lia. by injection Eb.
Qed.

Section Table.
Context (C : config).
Implicit Types (s : vm) (m : bytes) (N : nat).
Abbreviation PS := (page_size C).

Definition node s (k : nat) : Z := memp s + NODE * Z.of_nat k.
Definition frame_at s (k : nat) : Z := memp s + MEMORY_START C + PS * Z.of_nat k.
Definition nodes s N : list Z := node s <$> seq 0 N.

(** Where the table, the area of the OS and the frames are. *)
Record layout s N : Prop := {
  l_mem : 0 < memp s;
  l_max : memp s + PHYSICAL_SIZE C < 2 ^ 64;
  l_N : (0 < N)%nat;
  l_nodes : NODE * Z.of_nat N <= OSRESERVED_START C;
  l_os : OSRESERVED_START C <= MEMORY_START C;
  l_frames : MEMORY_START C + PS * Z.of_nat N <= PHYSICAL_SIZE C;
  l_ps : NODE < PS
}.

(** Node [k] of a table of [N] pages. *)
Record entry s N m (k : nat) : Prop := {
  e_start : ld 8 m (node s k + o_start) = frame_at s k;
  e_next : ld 8 m (node s k + o_next) = (if decide (S k = N) then NULL else node s (S k));
  e_prev : ld 8 m (node s k + o_prev) = (if decide (k = 0%nat) then NULL else node s (pred k));
  e_size : NODE < ld 4 m (node s k + o_size) <= PS
}.

Definition table s N m : Prop := forall k, (k < N)%nat -> entry s N m k.

Definition page_at s m (k : nat) : page :=
  let n := node s k in
  mkPage (ld 4 m (n + o_pid)) (ld 4 m (n + o_reference)) (ld 4 m (n + o_free)) (wraps 32 (ld 4 m (n + o_order)))
    (ld 4 m (n + o_size)) (ld 4 m (n + o_data)) (wraps 8 (ld 1 m (n + o_clock)))
    (body m (frame_at s k) (ld 4 m (n + o_size)) PS).

Definition pages s N m : list page := page_at s m <$> seq 0 N.

Lemma pages_lookup s N m k : (k < N)%nat -> pages s N m !! k = Some (page_at s m k).
Proof. intros Hk. unfold pages. rewrite list_lookup_fmap, lookup_seq_lt by done. done. Qed.

Lemma pages_length s N m : length (pages s N m) = N.
Proof. unfold pages. by rewrite length_fmap, length_seq. Qed.

Section Fixed.
Context (s : vm) (N : nat) (L : layout s N).

Lemma node_safe k : (k < N)%nat -> safe C s (node s k) (node s k + NODE).
Proof.
  intros Hk. destruct L. eapply safe_sub; [by apply mem_safe| |]; unfold node; [vlia|].
  assert (NODE * Z.of_nat k + NODE <= NODE * Z.of_nat N) by vlia.
  assert (0 <= PS * Z.of_nat N) by (apply Z.mul_nonneg_nonneg; vlia). vlia.
Qed.

Lemma frame_end k : (k < N)%nat -> frame_at s k + PS <= memp s + PHYSICAL_SIZE C.
Proof. intros Hk. destruct L. unfold frame_at. 
  assert (PS * (Z.of_nat k + 1) <= PS * Z.of_nat N) by (apply Z.mul_le_mono_nonneg_l; vlia). lia. Qed.

Lemma frame_start k : memp s + MEMORY_START C <= frame_at s k.
Proof. destruct L. unfold frame_at. assert (0 <= PS * Z.of_nat k) by (apply Z.mul_nonneg_nonneg; vlia). lia. Qed.

Lemma node_end k : (k < N)%nat -> memp s <= node s k /\ node s k + NODE <= memp s + OSRESERVED_START C.
Proof. intros Hk. destruct L. unfold node. vlia. Qed.

Lemma frame_safe k : (k < N)%nat -> safe C s (frame_at s k) (frame_at s k + PS).
Proof.
  intros Hk. destruct L. pose proof (frame_end k Hk). pose proof (frame_start k).
  eapply safe_sub; [by apply mem_safe|vlia|lia].
Qed.

Lemma nodes_apart i j : i <> j -> apart (node s i) NODE (node s j) NODE.
Proof. intros. unfold apart, node. vlia. Qed.

Lemma frames_apart i j : i <> j -> apart (frame_at s i) PS (frame_at s j) PS.
Proof.
  intros. destruct L. unfold apart, frame_at. assert (i < j \/ j < i)%nat as [?|?] by lia; [left|right].
  - assert (PS * (Z.of_nat i + 1) <= PS * Z.of_nat j) by (apply Z.mul_le_mono_nonneg_l; vlia). lia.
  - assert (PS * (Z.of_nat j + 1) <= PS * Z.of_nat i) by (apply Z.mul_le_mono_nonneg_l; vlia). lia.
Qed.

Lemma node_frame_apart i j : (i < N)%nat -> apart (node s i) NODE (frame_at s j) PS.
Proof. intros Hi. destruct L. pose proof (node_end i Hi). pose proof (frame_start j). unfold apart. lia. Qed.

Lemma node_inj i j : node s i = node s j -> i = j.
Proof. unfold node. vlia. Qed.

Lemma node_pos k : 0 < node s k < 2 ^ 64 \/ (N <= k)%nat.
Proof.
  destruct (decide (k < N)%nat) as [Hk|]; [left|right; lia]. destruct L. pose proof (node_end k Hk).
  assert (0 <= PS * Z.of_nat N) by (apply Z.mul_nonneg_nonneg; vlia). vlia.
Qed.

Lemma node_not_null k : (node s k =? NULL) = false.
Proof. destruct L. apply Z.eqb_neq. unfold node. vlia. Qed.

Lemma nodes_ok_table : nodes_ok C s (nodes s N).
Proof.
  apply Forall_forall. intros x (k & -> & Hk)%list_elem_of_fmap.
  apply elem_of_seq in Hk. apply node_safe. lia.
Qed.

Lemma nodes_length : length (nodes s N) = N.
Proof. unfold nodes. by rewrite length_fmap, length_seq. Qed.

Lemma table_chain_from m j n :
  table s N m -> (j + n = N)%nat ->
  chain m (if decide (j = N) then NULL else node s j) (node s <$> seq j n).
Proof.
  intros Ht. revert j. induction n as [|n IH]; intros j Hj; simpl.
  - by rewrite decide_True by lia.
  - rewrite decide_False by lia. split_and!; [done|apply Z.eqb_neq, node_not_null|].
    rewrite (e_next _ _ _ _ (Ht j ltac:(lia))). apply IH. lia.
Qed.

Lemma table_chain m : table s N m -> chain m (memp s) (nodes s N).
Proof.
  intros Ht. pose proof (table_chain_from m 0 N Ht eq_refl) as Hc. destruct L.
  rewrite decide_False in Hc by lia. replace (memp s) with (node s 0) by (unfold node; vlia). done.
Qed.

Lemma table_two_pages m i j :
  table s N m -> (i < N)%nat -> (j < N)%nat -> i <> j ->
  two_pages C s m (node s i) (node s j) (frame_at s i) (frame_at s j)
    (ld 4 m (node s i + o_size)) (ld 4 m (node s j + o_size)).
Proof.
  intros Ht Hi Hj Hij. destruct (Ht i Hi), (Ht j Hj).
  pose proof (frame_end i Hi). pose proof (frame_end j Hj). pose proof (frame_start i). pose proof (frame_start j).
  destruct L. constructor; try done;
    auto using node_safe, frame_safe, nodes_apart, frames_apart, node_frame_apart; vlia.
Qed.

(** ** Writes to one page *)

(** [m'] differs from [m] only in node [k] and frame [k], the links of node
    [k] are kept and its size stays in range. *)
Record local_change m m' (k : nat) : Prop := {
  lc_out : forall a, apart a 1 (node s k) NODE -> apart a 1 (frame_at s k) PS -> rd8 m' a = rd8 m a;
  lc_link : forall o, link_field o -> ld 8 m' (node s k + o) = ld 8 m (node s k + o);
  lc_size : NODE < ld 4 m' (node s k + o_size) <= PS
}.

Lemma local_fields m m' k i : (k < N)%nat -> (i < N)%nat -> local_change m m' k -> i <> k ->
  forall n o, 0 <= o -> o + Z.of_nat n <= NODE -> ld n m' (node s i + o) = ld n m (node s i + o).
Proof.
  intros Hk Hi Hc Hne n o ??. apply ld_ext. intros x Hx. apply (lc_out _ _ _ Hc).
  - pose proof (nodes_apart i k Hne). unfold apart in *. vlia.
  - pose proof (node_frame_apart i k Hi). unfold apart in *. vlia.
Qed.

Lemma local_table m m' k : (k < N)%nat -> local_change m m' k -> table s N m -> table s N m'.
Proof.
  intros Hk Hc Ht i Hi. destruct (Ht i Hi). destruct (decide (i = k)) as [->|Hne].
  - destruct Hc as [_ Hl ?]. constructor; rewrite ?Hl by auto with os; done.
  - constructor; rewrite (local_fields m m' k i) by (done || vlia); done.
Qed.

Lemma local_page m m' k i :
  (k < N)%nat -> (i < N)%nat -> local_change m m' k -> table s N m -> i <> k -> page_at s m' i = page_at s m i.
Proof.
  intros Hk Hi Hc Ht Hne. unfold page_at. rewrite !(local_fields m m' k i) by (done || vlia). f_equal.
  destruct (Ht i Hi). apply body_ext; [lia|]. intros o Ho _. apply (lc_out _ _ _ Hc).
  - pose proof (node_frame_apart k i Hk). unfold apart in *. vlia.
  - pose proof (frames_apart i k Hne). unfold apart in *. vlia.
Qed.

Lemma local_pages m m' k :
  (k < N)%nat -> local_change m m' k -> table s N m ->
  pages s N m' = <[k := page_at s m' k]> (pages s N m).
Proof.
  intros Hk Hc Ht. apply list_eq. intros i. destruct (decide (i < N)%nat) as [Hi|Hi].
  - rewrite pages_lookup by done. destruct (decide (i = k)) as [->|Hne].
    + rewrite list_lookup_insert_eq by (by rewrite pages_length). done.
    + rewrite list_lookup_insert_ne, pages_lookup by done. by rewrite (local_page m m' k i).
  - rewrite !lookup_ge_None_2; rewrite ?length_insert, ?pages_length; lia || done.
Qed.

(** Storing in a field that describes the page. *)
Lemma local_store m k n o v :
  meta_field n o -> (o + Z.of_nat n <= o_size \/ o_data <= o) -> (k < N)%nat -> table s N m ->
  local_change m (st n m (node s k + o) v) k.
Proof.
  intros Hf Ho Hk Ht. destruct (Ht k Hk) as [_ _ _ Hsz]. unfold meta_field in Hf. constructor.
  - intros a Ha _. unfold apart in Ha. rewrite rd8_st, decide_False by vlia. done.
  - intros o' Ho'. unfold link_field in Ho'. apply ld_st_disj. vlia.
  - rewrite ld_st_disj by vlia. done.
Qed.

End Fixed.
End Table.

(** Tables and pages depend on the state only through the address of memory. *)
Lemma layout_memp C s s' N : memp s' = memp s -> layout C s N -> layout C s' N.
Proof. intros E []. split; rewrite ?E; done. Qed.

Lemma entry_memp C s s' N m k : memp s' = memp s -> entry C s N m k -> entry C s' N m k.
Proof. intros E [E1 E2 E3 E4]. unfold node, frame_at in *. split; unfold node, frame_at; rewrite E; done. Qed.

Lemma table_memp C s s' N m : memp s' = memp s -> table C s N m -> table C s' N m.
Proof. intros E Ht k Hk. by apply (entry_memp C s), Ht. Qed.

Lemma pages_memp C s s' N m : memp s' = memp s -> pages C s' N m = pages C s N m.
Proof. intros E. unfold pages, page_at, node, frame_at. by rewrite E. Qed.
