(* ===== verification/VmPageOps.v ===== *)
(** * The memory manager: operations on pages

    [swapPages], [findPage], [getFreePage] and [loadProcessPages] as operations
    on the list of pages. *)

From S2P Require Import Prelude LinkedList ByteMem Vm VmSpec VmElems VmSwap VmPages.
Import Vm.

(** ** On lists of pages *)

Definition swap_list (i j : nat) (l : list page) : list page :=
  match l !! i, l !! j with
  | Some a, Some b => <[i := b]> (<[j := a]> l)
  | _, _ => l
  end.

(** The index of the first page with a property. *)
Definition index (P : page -> bool) (l : list page) : option nat := fst <$> list_find P l.

Definition owner (pid order : Z) (g : page) : bool := (pid =? g_pid g) && (order =? g_order g).
Definition unused (g : page) : bool := negb (g_free g =? 0).

(** A page that is found loses its clock. *)
Definition touch (i : nat) (l : list page) : list page := alter (set_clock 0) i l.

Lemma alter_insert (f : page -> page) (k : nat) (l : list page) (g : page) : l !! k = Some g -> alter f k l = <[k := f g]> l.
Proof.
  intros Hk. apply list_eq. intros i. destruct (decide (i = k)) as [->|].
  - rewrite list_lookup_alter_eq, list_lookup_insert_eq, Hk by (by eapply lookup_lt_Some). done.
  - by rewrite list_lookup_alter_ne, list_lookup_insert_ne by done.
Qed.

Lemma swap_list_same i l : swap_list i i l = l.
Proof.
  unfold swap_list. destruct (l !! i) as [a|] eqn:E; [|done].
  rewrite list_insert_insert_eq. by apply list_insert_id.
Qed.

Lemma swap_list_length i j l : length (swap_list i j l) = length l.
Proof. unfold swap_list. destruct (l !! i), (l !! j); rewrite ?length_insert; done. Qed.

Lemma swap_list_lookup i j k l :
  (i < length l)%nat -> (j < length l)%nat ->
  swap_list i j l !! k = if decide (k = i) then l !! j else if decide (k = j) then l !! i else l !! k.
Proof.
  intros [a Ha]%lookup_lt_is_Some [b Hb]%lookup_lt_is_Some. unfold swap_list. rewrite Ha, Hb.
  assert (i < length (<[j:=a]> l))%nat by (rewrite length_insert; by eapply lookup_lt_Some).
  case_decide as E1; [subst k; by rewrite list_lookup_insert_eq|]. rewrite list_lookup_insert_ne by done.
  case_decide as E2; [subst k|by rewrite list_lookup_insert_ne by done].
  rewrite list_lookup_insert_eq by (by eapply lookup_lt_Some). done.
Qed.

Lemma swap_list_perm i j l : swap_list i j l ≡ₚ l.
Proof.
  destruct (decide (i = j)) as [->|Hne]; [by rewrite swap_list_same|].
  unfold swap_list. destruct (l !! i) as [a|] eqn:Ha; [|done]. destruct (l !! j) as [b|] eqn:Hb; [|done].
  rewrite <- (list_insert_id l i a Ha) at 2. apply Permutation_inj. split; [by rewrite !length_insert|].
  assert (i < length l /\ j < length l)%nat as [??] by eauto using lookup_lt_Some.
  exists (fun k => if decide (k = i) then j else if decide (k = j) then i else k).
  split; [intros x y; repeat case_decide; lia|]. intros k.
  destruct (decide (k = i)) as [->|]; [|destruct (decide (k = j)) as [->|]].
  - rewrite list_lookup_insert_eq by (by rewrite length_insert).
    rewrite (list_insert_id l i a Ha). done.
  - rewrite list_lookup_insert_ne, list_lookup_insert_eq by done. by rewrite list_lookup_insert_eq.
  - rewrite !list_lookup_insert_ne by done. done.
Qed.

Lemma index_Some P l k : index P l = Some k -> exists g, l !! k = Some g /\ P g = true.
Proof.
  unfold index. destruct (list_find P l) as [[i g]|] eqn:E; [|done]. intros [= <-].
  apply list_find_Some in E as (? & Hp & _). exists g. split; [done|by apply Is_true_true].
Qed.

Section Ops.
Context (C : config) (s : vm) (N : nat) (L : layout C s N).
Implicit Types (m : bytes).
Abbreviation PS := (page_size C).

(** The elements of page [k] are linked; page [k] is as before, but for fields
    of its node that do not say whose page it is. *)
Definition linked_at m k : Prop :=
  linked m (Some NULL) (frame_at C s k) NULL (elems m (frame_at C s k) (ld 4 m (node s k + o_size))).
Definition frame_same m m' k : Prop :=
  (forall o, 0 <= o < PS -> rd8 m' (frame_at C s k + o) = rd8 m (frame_at C s k + o)) /\
  (forall o, o = o_size \/ o = o_pid \/ o = o_order -> ld 4 m' (node s k + o) = ld 4 m (node s k + o)).

(** [m'] has the pages [l], and is [m] outside the table and the frames; the
    elements of a frame that was written are linked. *)
Record shows m (l : list page) m' : Prop := {
  sh_table : table C s N m';
  sh_pages : pages C s N m' = l;
  sh_out : forall a, (forall k, (k < N)%nat -> apart a 1 (node s k) NODE /\ apart a 1 (frame_at C s k) PS) ->
             rd8 m' a = rd8 m a;
  sh_links : forall k, (k < N)%nat -> linked_at m' k \/ frame_same m m' k
}.

Lemma shows_refl m : table C s N m -> shows m (pages C s N m) m.
Proof. intros Ht. split; [done..|]. intros k Hk. by right. Qed.

Lemma frame_same_linked m m' k :
  (k < N)%nat -> table C s N m -> frame_same m m' k -> linked_at m k -> linked_at m' k.
Proof.
  intros Hk Ht [Hf Ez] Hl. destruct (Ht k Hk) as [_ _ _ Hz]. unfold linked_at. rewrite (Ez o_size) by auto.
  rewrite (elems_ext m m' (frame_at C s k) (frame_at C s k)) by (intros; apply Hf; lia).
  eapply linked_agree; [|apply elems_inside|exact Hl]. intros o Ho. apply Hf. lia.
Qed.

Lemma shows_trans m l m1 l' m2 : shows m l m1 -> shows m1 l' m2 -> shows m l' m2.
Proof.
  intros [Ht1 _ H1 Hl1] [?? H2 Hl2]. split; [done|done| |].
  - intros a Ha. by rewrite H2, H1.
  - intros k Hk. destruct (Hl2 k Hk) as [?|Hs2]; [by left|]. destruct (Hl1 k Hk) as [Hk1|Hs1].
    + left. by apply (frame_same_linked m1).
    + right. destruct Hs1 as [Hs1 Ez1], Hs2 as [Hs2 Ez2]. split; [intros; by rewrite Hs2, Hs1|intros; by rewrite Ez2, Ez1].
Qed.

Lemma local_shows m m' k :
  (k < N)%nat -> local_change C s m m' k -> table C s N m -> linked_at m' k \/ frame_same m m' k ->
  shows m (<[k := page_at C s m' k]> (pages C s N m)) m'.
Proof.
  intros Hk Hc Ht Hl. split; [by eapply local_table|by apply local_pages| |].
  - intros a Ha. apply (lc_out _ _ _ _ _ Hc); by apply Ha.
  - intros i Hi. destruct (decide (i = k)) as [->|Hne]; [done|]. right. split.
    + intros o Ho. apply (lc_out _ _ _ _ _ Hc); [pose proof (node_frame_apart C s N L k i Hk)|pose proof (frames_apart C s N L i k Hne)];
        unfold apart in *; vlia.
    + intros o Ho. apply (local_fields C s N L m m' k i Hk Hi Hc Hne 4); vlia.
Qed.

Lemma first_page s' : memp s' = memp s -> getFirstPage s' = Ret (node s 0, s').
Proof. intros E. unfold getFirstPage, p_gets. rewrite E. do 2 f_equal. unfold node. vlia. Qed.

(** ** swapPages *)

Lemma link_out es f n o :
  Forall (fun e => 0 <= e /\ e + NODE <= n) es -> (o < f \/ f + n <= o) -> link_byte es (o - f) = false.
Proof.
  intros Hes Ho. destruct (link_byte es (o - f)) eqn:E; [|done].
  apply existsb_exists in E as (e & Hin%list_elem_of_In & He%bool_decide_eq_true).
  rewrite Forall_forall in Hes. specialize (Hes e Hin). vlia.
Qed.


(** The description and contents of page [j] at place [i]. *)
Definition moved m m' (i j : nat) : Prop :=
  (forall k o, meta_field k o -> ld k m' (node s i + o) = ld k m (node s j + o)) /\
  (forall o, link_field o -> ld 8 m' (node s i + o) = ld 8 m (node s i + o)) /\
  (forall o, 0 <= o < PS -> link_byte (elems m (frame_at C s j) (ld 4 m (node s j + o_size))) o = false ->
     rd8 m' (frame_at C s i + o) = rd8 m (frame_at C s j + o)).

Lemma moved_entry m m' i j :
  table C s N m -> (i < N)%nat -> (j < N)%nat -> moved m m' i j -> entry C s N m' i.
Proof.
  intros Ht Hi Hj (Hmeta & Hlink & _). destruct (Ht i Hi), (Ht j Hj).
  constructor; rewrite ?Hlink, ?Hmeta by auto with os; done.
Qed.

Lemma moved_page m m' i j : table C s N m -> (j < N)%nat -> moved m m' i j -> page_at C s m' i = page_at C s m j.
Proof.
  intros Ht Hj (Hmeta & _ & Hbody). unfold page_at. rewrite !Hmeta by auto with os. f_equal.
  destruct (Ht j Hj). apply body_ext; [lia|done].
Qed.

Lemma swapPages_moved fuel m i j :
  table C s N m -> (i < N)%nat -> (j < N)%nat -> i <> j -> (Z.to_nat PS < fuel)%nat ->
  exists m', swapPages C fuel (node s i) (node s j) (set_ram m s) = Ret (0, set_ram m' s) /\
    moved m m' i j /\ moved m m' j i /\
    (forall a, apart a 1 (node s i) NODE -> apart a 1 (node s j) NODE -> apart a 1 (frame_at C s i) PS ->
       apart a 1 (frame_at C s j) PS -> rd8 m' a = rd8 m a) /\
    linked m' (Some NULL) (frame_at C s i) NULL (elems m (frame_at C s j) (ld 4 m (node s j + o_size))) /\
    linked m' (Some NULL) (frame_at C s j) NULL (elems m (frame_at C s i) (ld 4 m (node s i + o_size))).
Proof.
  intros Ht Hi Hj Hij Hf. pose proof (table_two_pages C s N L m i j Ht Hi Hj Hij) as H2.
  destruct (swapPages_run C s m _ _ _ _ _ _ H2 fuel Hf) as (m' & E & Hm & Hlk1 & Hlk2).
  exists m'. split; [done|]. destruct (Ht i Hi) as [_ _ _ Hzi], (Ht j Hj) as [_ _ _ Hzj].
  pose proof (elems_inside m (frame_at C s i) (ld 4 m (node s i + o_size))) as Hei.
  pose proof (elems_inside m (frame_at C s j) (ld 4 m (node s j + o_size))) as Hej.
  pose proof (frames_apart C s N L i j Hij) as Hff. pose proof (nodes_apart s i j Hij) as Hnn.
  pose proof (fun k => node_frame_apart C s N L i k Hi) as Hni.
  pose proof (fun k => node_frame_apart C s N L j k Hj) as Hnj.
  assert (forall a, apart a 1 (frame_at C s i) PS -> apart a 1 (frame_at C s j) PS ->
            rd8 m' a = rd8 (exchanged C m (node s i) (node s j) (frame_at C s i) (frame_at C s j)) a) as Hout.
  { intros a ??. unfold apart in *. apply Hm; (eapply link_out; [done|lia]). }
  assert (forall k n o, (k = i \/ k = j) -> 0 <= o -> o + Z.of_nat n <= NODE -> ld n m' (node s k + o) =
     ld n (exchanged C m (node s i) (node s j) (frame_at C s i) (frame_at C s j)) (node s k + o)) as Hnode.
  { intros k n o Hk ??. apply ld_ext. intros x Hx.
    pose proof (Hni i). pose proof (Hni j). pose proof (Hnj i). pose proof (Hnj j).
    unfold apart in *. apply Hout; destruct Hk as [->| ->]; vlia. }
  assert (forall k o, meta_field k o -> 0 <= o /\ o + Z.of_nat k <= NODE) as Hmf by (unfold meta_field; intros; vlia).
  assert (forall o, link_field o -> 0 <= o /\ o + 8 <= NODE) as Hlf by (unfold link_field; intros; vlia).
  unfold moved. split_and!.
  - intros k o Hk. pose proof (Hmf _ _ Hk). rewrite Hnode by (auto; lia). by eapply exchanged_meta1.
  - intros o Ho. pose proof (Hlf _ Ho). rewrite Hnode by (auto; lia). by eapply exchanged_link1.
  - intros o Ho Hl. rewrite Hm; [by eapply exchanged_frame1| |].
    + by replace (frame_at C s i + o - frame_at C s i) with o by lia.
    + unfold apart in *. eapply link_out; [done|lia].
  - intros k o Hk. pose proof (Hmf _ _ Hk). rewrite Hnode by (auto; lia). by eapply exchanged_meta2.
  - intros o Ho. pose proof (Hlf _ Ho). rewrite Hnode by (auto; lia). by eapply exchanged_link2.
  - intros o Ho Hl. rewrite Hm; [by eapply exchanged_frame2| |].
    + unfold apart in *. eapply link_out; [done|lia].
    + by replace (frame_at C s j + o - frame_at C s j) with o by lia.
  - intros a ????. rewrite Hout by done. by eapply exchanged_other.
  - done.
  - done.
Qed.

Lemma kept_page m m' k :
  table C s N m -> (k < N)%nat ->
  (forall o, 0 <= o < NODE -> rd8 m' (node s k + o) = rd8 m (node s k + o)) ->
  (forall o, 0 <= o < PS -> rd8 m' (frame_at C s k + o) = rd8 m (frame_at C s k + o)) -> moved m m' k k.
Proof.
  intros Ht Hk Hn Hfr. split_and!.
  - intros n o Ho. unfold meta_field in Ho. apply ld_ext. intros i Hi. rewrite <- !Z.add_assoc. apply Hn. vlia.
  - intros o Ho. unfold link_field in Ho. apply ld_ext. intros i Hi. rewrite <- !Z.add_assoc. apply Hn. vlia.
  - intros o Ho _. by apply Hfr.
Qed.

Lemma moved_linked m m' i j :
  table C s N m -> (j < N)%nat -> moved m m' i j ->
  linked m' (Some NULL) (frame_at C s i) NULL (elems m (frame_at C s j) (ld 4 m (node s j + o_size))) -> linked_at m' i.
Proof.
  intros Ht Hj (Hmeta & _ & Hb) Hl. destruct (Ht j Hj) as [_ _ _ Hz]. unfold linked_at. rewrite Hmeta by auto with os.
  rewrite (elems_ext m m' (frame_at C s j) (frame_at C s i)); [done|]. intros; apply Hb; [lia|done].
Qed.

(** Two exchanged pages, and nothing else, are exchanged in the list. *)
Lemma moved_shows m m' i j :
  table C s N m -> (i < N)%nat -> (j < N)%nat -> i <> j -> moved m m' i j -> moved m m' j i ->
  (forall a, apart a 1 (node s i) NODE -> apart a 1 (node s j) NODE -> apart a 1 (frame_at C s i) PS ->
     apart a 1 (frame_at C s j) PS -> rd8 m' a = rd8 m a) ->
  linked m' (Some NULL) (frame_at C s i) NULL (elems m (frame_at C s j) (ld 4 m (node s j + o_size))) ->
  linked m' (Some NULL) (frame_at C s j) NULL (elems m (frame_at C s i) (ld 4 m (node s i + o_size))) ->
  shows m (swap_list i j (pages C s N m)) m'.
Proof.
  intros Ht Hi Hj Hij Hmi Hmj Hout Hli Hlj.
  assert (forall k, (k < N)%nat -> moved m m' k (if decide (k = i) then j else if decide (k = j) then i else k)) as Hall.
  { intros k Hk. repeat case_decide; subst; [done..|].
    apply kept_page; [done..| |]; intros o Ho; apply Hout;
      pose proof (nodes_apart s k i ltac:(done)); pose proof (nodes_apart s k j ltac:(done));
      pose proof (frames_apart C s N L k i ltac:(done)); pose proof (frames_apart C s N L k j ltac:(done));
      pose proof (node_frame_apart C s N L k i Hk); pose proof (node_frame_apart C s N L k j Hk);
      pose proof (node_frame_apart C s N L i k Hi); pose proof (node_frame_apart C s N L j k Hj);
      unfold apart in *; vlia. }
  split.
  - intros k Hk. eapply moved_entry; [done|done| |by apply Hall]. by repeat case_decide.
  - apply list_eq. intros k. rewrite swap_list_lookup by (by rewrite pages_length).
    destruct (decide (k < N)%nat) as [Hk|Hk].
    + rewrite pages_lookup by done. erewrite (moved_page m m' k); [|done| |by apply Hall]; [|by repeat case_decide].
      repeat case_decide; by rewrite pages_lookup.
    + rewrite !decide_False by lia. rewrite !lookup_ge_None_2 by (rewrite pages_length; lia). done.
  - intros a Ha. destruct (Ha i Hi), (Ha j Hj). by apply Hout.
  - intros k Hk. destruct (decide (k = i)) as [->|Hki]; [left; by apply (moved_linked m m' i j)|].
    destruct (decide (k = j)) as [->|Hkj]; [left; by apply (moved_linked m m' j i)|]. right.
    pose proof (Hall k Hk) as (Hmeta & _ & _). rewrite !decide_False in Hmeta by done. split; [|by intros o [->|[->| ->]]; apply Hmeta; auto with os].
    intros o Ho. pose proof (frames_apart C s N L k i Hki). pose proof (frames_apart C s N L k j Hkj).
    pose proof (node_frame_apart C s N L i k Hi). pose proof (node_frame_apart C s N L j k Hj).
    apply Hout; unfold apart in *; vlia.
Qed.

Lemma swapPages_shows fuel m i j :
  table C s N m -> (i < N)%nat -> (j < N)%nat -> (Z.to_nat PS < fuel)%nat ->
  exists m', swapPages C fuel (node s i) (node s j) (set_ram m s) = Ret (0, set_ram m' s) /\
    shows m (swap_list i j (pages C s N m)) m'.
Proof.
  intros Ht Hi Hj Hf. destruct (decide (i = j)) as [->|Hij].
  { exists m. unfold swapPages. rewrite Z.eqb_refl, swap_list_same. split; [done|by apply shows_refl]. }
  destruct (swapPages_moved fuel m i j) as (m' & E & Hmi & Hmj & Hout & Hl1 & Hl2); [done..|].
  exists m'. split; [done|]. by apply moved_shows.
Qed.

(** ** Storing in a node *)

Lemma body_store m k n o v z :
  (k < N)%nat -> 0 <= o -> o + Z.of_nat n <= NODE -> z <= PS ->
  body (st n m (node s k + o) v) (frame_at C s k) z PS = body m (frame_at C s k) z PS.
Proof.
  intros Hk ???. apply body_ext; [done|]. intros x Hx _. pose proof (node_frame_apart C s N L k k Hk).
  unfold apart in *. rewrite rd8_st, decide_False by vlia. done.
Qed.

(** The page after a store in one of its fields. *)
Ltac page_store :=
  unfold page_at; repeat first [rewrite ld_st_same | rewrite ld_st_disj by vlia];
  rewrite !body_store by (done || vlia).

Lemma store_shows m k n o v (f : page -> page) :
  table C s N m -> (k < N)%nat -> meta_field n o -> o_data <= o ->
  page_at C s (st n m (node s k + o) v) k = f (page_at C s m k) ->
  shows m (alter f k (pages C s N m)) (st n m (node s k + o) v).
Proof.
  intros Ht Hk Hf Ho E. rewrite (alter_insert f k _ (page_at C s m k)) by (by apply pages_lookup). rewrite <- E.
  apply local_shows; [done|apply (local_store C s N); auto|done|]. right. unfold meta_field in Hf. split.
  - intros x Hx. pose proof (node_frame_apart C s N L k k Hk). unfold apart in *. rewrite rd8_st, decide_False by vlia. done.
  - intros o' Ho'. apply ld_st_disj. vlia.
Qed.

Lemma store_clock m k v :
  table C s N m -> (k < N)%nat -> - 2 ^ 7 <= v < 2 ^ 7 ->
  shows m (alter (set_clock v) k (pages C s N m)) (st 1 m (node s k + o_clock) v).
Proof.
  intros Ht Hk Hv. destruct (Ht k Hk). apply store_shows; [done|done|auto with os|vlia|]. page_store.
  change (256 ^ Z.of_nat 1) with (2 ^ 8). rewrite wraps_mod, (wraps_small 8 v) by (simpl; lia). done.
Qed.

(** ** Searches *)

Lemma first_index f P m j n :
  (forall k, (j <= k < j + n)%nat -> f (node s k) = P (page_at C s m k)) ->
  first f (node s <$> seq j n) =
    from_option (fun i => node s (j + i)) NULL (index P (page_at C s m <$> seq j n)).
Proof.
  revert j. induction n as [|n IH]; intros j Hf; [done|]. cbn [seq fmap list_fmap first].
  rewrite Hf by lia. unfold index. cbn [list_find]. destruct (P (page_at C s m j)) eqn:E.
  - rewrite decide_True by done. simpl. f_equal. lia.
  - rewrite decide_False by (by simpl; tauto). rewrite IH by (intros; apply Hf; lia).
    unfold index. destruct (list_find P _) as [[i g]|]; simpl; [f_equal; lia|done].
Qed.

Lemma first_pages f P m :
  (forall k, (k < N)%nat -> f (node s k) = P (page_at C s m k)) ->
  first f (nodes s N) = from_option (node s) NULL (index P (pages C s N m)).
Proof. intros Hf. unfold nodes, pages. rewrite (first_index f P m 0 N) by (intros; apply Hf; lia). done. Qed.

Lemma index_lt P m k : index P (pages C s N m) = Some k -> (k < N)%nat.
Proof. intros (g & Hk & _)%index_Some. apply lookup_lt_Some in Hk. by rewrite pages_length in Hk. Qed.

Definition found (P : page -> bool) (l : list page) : list page :=
  match index P l with Some k => touch k l | None => l end.

Lemma findPage_shows fuel m pid order :
  table C s N m -> (N < fuel)%nat ->
  exists m', findPage C fuel pid order (set_ram m s) =
      Ret (from_option (node s) NULL (index (owner pid order) (pages C s N m)), set_ram m' s) /\
    shows m (found (owner pid order) (pages C s N m)) m'.
Proof.
  intros Ht Hf. unfold findPage. rewrite (bind_Ret _ _ _ _ _ (first_page (set_ram m s) eq_refl)).
  replace (node s 0) with (memp s) by (unfold node; vlia).
  erewrite bind_Ret.
  2:{ apply findPage_loop_run; [by eapply table_chain|by eapply nodes_ok_table|by rewrite nodes_length]. }
  rewrite (first_pages _ (owner pid order) m) by done.
  unfold found. destruct (index (owner pid order) (pages C s N m)) as [k|] eqn:E; cbn [from_option].
  - pose proof (index_lt _ _ _ E) as Hk. rewrite (node_not_null C s N L). cbn [negb].
    rewrite (store_bind C s m 1 _ _ _ _ _ (node_safe C s N L k Hk)) by vlia.
    eexists. split; [done|]. by apply store_clock.
  - exists m. split; [done|by apply shows_refl].
Qed.

End Ops.
