(* ===== verification/VmLoad.v ===== *)
(** * The memory manager: loading the pages of a process

    [loadProcessPages] as an operation on the list of pages, faults included,
    and where the pages of the process are afterwards. *)

From S2P Require Import Prelude LinkedList ByteMem Vm VmSpec VmElems VmSwap VmPages VmPageOps.
Import Vm.

(** ** On lists of pages *)

(** Page [p2] next to page [p1]: exchanged with the page of the following
    frame, a fault after the last. *)
Definition contiguous_list (p1 p2 : nat) (l : list page) : outcome (list page) :=
  if decide (p1 = p2) then Ret l
  else if decide (S p1 < length l)%nat then Ret (swap_list (S p1) p2 l) else Fault.

Fixpoint load_list_loop (rounds : nat) (pid : Z) (p1 : nat) (p2 : option nat) (i : Z) (l : list page) :
  outcome (list page) :=
  match rounds with
  | O => Timeout
  | S r =>
      match p2 with
      | None => Ret l
      | Some p2 =>
          match contiguous_list p1 p2 l with
          | Ret l1 =>
              let P := owner pid (wraps 32 i) in
              load_list_loop r pid p2 (index P l1) (wrapu 32 (i + 1)) (found P l1)
          | _ => Fault
          end
      end
  end.

Definition load_list (rounds : nat) (pid : Z) (l : list page) : outcome (list page) :=
  match index (owner pid 1) l with
  | None => Fault
  | Some i =>
      let l1 := swap_list 0 i (touch i l) in
      load_list_loop rounds pid 0 (index (owner pid 2) l1) 3 (found (owner pid 2) l1)
  end.

Lemma touch_length i l : length (touch i l) = length l.
Proof. apply length_alter. Qed.

Lemma found_length P l : length (found P l) = length l.
Proof. unfold found. destruct (index P l); [apply touch_length|done]. Qed.

Section Load.
Context (C : config) (junk : bytes) (s : vm) (N : nat) (L : layout C s N).
Context (Hnull : null_unmapped C s).
Context (fuel : nat) (HfN : (N < fuel)%nat) (Hf : (Z.to_nat (page_size C) < fuel)%nat).
Implicit Types (m : bytes).
Abbreviation PS := (page_size C).

(** What the code does where the operation on the list gives [o]. *)
Definition refines {A} m (x : outcome (A * vm)) (a : A) (o : outcome (list page)) : Prop :=
  match o with
  | Ret l => exists m', x = Ret (a, set_ram m' s) /\ shows C s N m l m'
  | Fault => x = Fault
  | Halt c => x = Halt c
  | Timeout => x = Timeout
  end.

Lemma getContiguousPage_run m k :
  table C s N m -> (k < N)%nat ->
  getContiguousPage C fuel (node s k) (set_ram m s) =
    Ret (if decide (S k < N)%nat then node s (S k) else NULL, set_ram m s).
Proof.
  intros Ht Hk. unfold getContiguousPage. rewrite (bind_Ret _ _ _ _ _ (first_page s (set_ram m s) eq_refl)).
  replace (node s 0) with (memp s) by (unfold node; vlia).
  rewrite (contiguous_loop_run C (nodes s N)); [|by eapply table_chain|by eapply nodes_ok_table|by eapply node_safe|by rewrite nodes_length].
  do 2 f_equal. destruct (Ht k Hk) as [Esk _ _ _]. rewrite Esk.
  assert (forall i, (i < N)%nat ->
    (ld 8 m (node s i + o_start) =? frame_at C s k + PS) = bool_decide (i = S k)) as Hs.
  { intros i Hi. destruct (Ht i Hi) as [-> _ _ _]. destruct L. case_bool_decide as Hik.
    - subst. apply Z.eqb_eq. unfold frame_at. lia.
    - apply Z.eqb_neq. unfold frame_at. intros E. apply Hik.
      assert (PS * (Z.of_nat i - Z.of_nat k - 1) = 0) as [?|?]%Z.mul_eq_0 by lia; vlia. }
  unfold nodes. case_decide as HSk.
  - replace (seq 0 N) with (seq 0 (S k) ++ S k :: seq (S (S k)) (N - S (S k))).
    2:{ change (S k :: seq (S (S k)) (N - S (S k))) with (seq (S k) (S (N - S (S k)))).
        rewrite <- (seq_app (S k) _ 0). f_equal. lia. }
    rewrite fmap_app. simpl fmap at 2. apply first_app.
    + apply Forall_fmap, Forall_seq. intros i Hi. simpl. rewrite Hs by lia. apply bool_decide_eq_false. lia.
    + rewrite Hs by lia. by apply bool_decide_eq_true.
  - apply first_NULL, Forall_fmap, Forall_seq. intros i Hi. simpl. rewrite Hs by lia. apply bool_decide_eq_false. lia.
Qed.

Lemma swapPages_null1 m p : p <> NULL -> swapPages C fuel NULL p (set_ram m s) = Fault.
Proof.
  intros Hp. unfold swapPages. destruct (Z.eqb_spec NULL p); [done|].
  unfold n_start. apply bind_Fault, load_fault, Hnull. vlia.
Qed.

Lemma swapPages_null2 m k : table C s N m -> (k < N)%nat -> swapPages C fuel (node s k) NULL (set_ram m s) = Fault.
Proof.
  intros Ht Hk. unfold swapPages. rewrite (node_not_null C s N L). unfold n_start.
  pose proof (node_safe C s N L k Hk) as Hs1. pose proof (frame_safe C s N L k Hk) as Hfs. destruct L.
  rewrite (load_bind C s m 8 _ _ _ _ Hs1), (e_start _ _ _ _ _ (Ht k Hk)) by vlia.
  rewrite (copy_in_bind C s m _ _ _ _ _ Hfs), (copy_in_bind C s m _ _ _ _ _ Hs1) by vlia.
  apply bind_Fault, copy_in_fault, Hnull. vlia.
Qed.

Lemma makeContiguous_refines m i j :
  table C s N m -> (i < N)%nat -> (j < N)%nat ->
  refines m (makeContiguous C fuel (node s i) (node s j) (set_ram m s)) tt (contiguous_list i j (pages C s N m)).
Proof.
  intros Ht Hi Hj. unfold contiguous_list, makeContiguous. rewrite pages_length. case_decide as Hij.
  - subst j. rewrite Z.eqb_refl. exists m. split; [done|by apply shows_refl].
  - destruct (Z.eqb_spec (node s i) (node s j)) as [E|_]; [by apply node_inj in E|]. cbn [negb].
    rewrite (bind_Ret _ _ _ _ _ (getContiguousPage_run m i Ht Hi)). case_decide as HSi.
    + destruct (swapPages_shows C s N L fuel m (S i) j) as (m' & E & Hs); [done..|].
      rewrite (bind_Ret _ _ _ _ _ E). by exists m'.
    + apply bind_Fault, swapPages_null1. apply Z.eqb_neq, (node_not_null C s N L).
Qed.

Lemma find_anywhere_run rec m pid order :
  table C s N m ->
  exists m', find_anywhere C junk rec fuel pid order (set_ram m s) =
      Ret (from_option (node s) NULL (index (owner pid order) (pages C s N m)), set_ram m' s) /\
    shows C s N m (found (owner pid order) (pages C s N m)) m'.
Proof.
  intros Ht. destruct (findPage_shows C s N L fuel m pid order Ht HfN) as (m1 & E1 & Hs).
  exists m1. split; [|done]. unfold find_anywhere. rewrite (bind_Ret _ _ _ _ _ E1). by rewrite andb_false_r.
Qed.

Lemma refines_trans {A} m l m1 (x : outcome (A * vm)) a o :
  shows C s N m l m1 -> refines m1 x a o -> refines m x a o.
Proof. intros Hs. destruct o; simpl; [|done..]. intros (m' & ? & ?). exists m'. eauto using shows_trans. Qed.

Lemma refines_bind_ret {A B} m (p : prog vm A) t a (b : B) o :
  refines m (p t) a o -> refines m ((p ≫= fun _ => mret b) t) b o.
Proof.
  destruct o; simpl; [intros (m' & E & ?); exists m'; by rewrite (bind_Ret _ _ _ _ _ E)|..]; intros E.
  - by apply bind_Fault.
  - by apply bind_Halt.
  - by apply bind_Timeout.
Qed.

Lemma load_loop_refines rounds rec m pid p1 p2 i :
  table C s N m -> (p1 < N)%nat -> (forall k, p2 = Some k -> (k < N)%nat) ->
  refines m (load_loop C junk rounds rec fuel pid (node s p1) (from_option (node s) NULL p2) i (set_ram m s)) tt
    (load_list_loop rounds pid p1 p2 i (pages C s N m)).
Proof.
  revert m p1 p2 i. induction rounds as [|r IH]; intros m p1 p2 i Ht Hp1 Hp2; [done|].
  cbn [load_loop load_list_loop]. rewrite (node_not_null C s N L). destruct p2 as [p2|]; cbn [from_option negb andb].
  2:{ exists m. split; [done|by apply shows_refl]. }
  rewrite (node_not_null C s N L). cbn [negb].
  pose proof (makeContiguous_refines m p1 p2 Ht Hp1 (Hp2 _ eq_refl)) as Hc.
  destruct (contiguous_list p1 p2 (pages C s N m)) as [l1| | |] eqn:El; [|by apply bind_Fault|..].
  2,3: unfold contiguous_list in El; repeat case_decide; done.
  destruct Hc as (m1 & E1 & Hs1). pose proof Hs1 as [Ht1 Hl1 _ _]. rewrite (bind_Ret _ _ _ _ _ E1).
  destruct (find_anywhere_run rec m1 pid (wraps 32 i) Ht1) as (m2 & E2 & Hs2). rewrite Hl1 in *.
  rewrite (bind_Ret _ _ _ _ _ E2). pose proof Hs2 as [Ht2 Hl2 _ _]. rewrite <- Hl2.
  eapply refines_trans; [eapply shows_trans; [exact Hs1|exact Hs2]|apply IH; [done|by apply Hp2|]].
  intros k Hk. rewrite <- Hl1 in Hk. by eapply index_lt.
Qed.

Lemma loadProcessPages_refines rec m pid :
  table C s N m ->
  refines m (loadProcessPages C junk rec fuel pid (set_ram m s)) 0 (load_list fuel pid (pages C s N m)).
Proof.
  intros Ht. unfold loadProcessPages, load_list.
  destruct (find_anywhere_run rec m pid 1 Ht) as (m1 & E1 & Hs1). rewrite (bind_Ret _ _ _ _ _ E1).
  rewrite (bind_Ret _ _ _ _ _ (first_page s (set_ram m1 s) eq_refl)).
  pose proof (l_N _ _ _ L) as HN.
  unfold found in Hs1. destruct (index (owner pid 1) (pages C s N m)) as [i|] eqn:Ei; cbn [from_option].
  2:{ apply bind_Fault, swapPages_null2; [apply Hs1|done]. }
  pose proof Hs1 as [Ht1 Hl1 _ _].
  destruct (swapPages_shows C s N L fuel m1 0 i Ht1 HN (index_lt _ _ _ _ _ _ Ei) Hf) as (m2 & E2 & Hs2).
  pose proof Hs2 as [Ht2 Hl2 _ _].
  rewrite (bind_Ret _ _ _ _ _ E2), (bind_Ret _ _ _ _ _ (first_page s (set_ram m2 s) eq_refl)).
  destruct (find_anywhere_run rec m2 pid 2 Ht2) as (m3 & E3 & Hs3).
  pose proof Hs3 as [Ht3 Hl3 _ _]. rewrite (bind_Ret _ _ _ _ _ E3).
  rewrite Hl1 in Hl2. rewrite Hl2 in *. rewrite <- Hl3.
  eapply refines_bind_ret, refines_trans; [eapply shows_trans; [exact Hs1|eapply shows_trans; [exact Hs2|exact Hs3]]|].
  apply load_loop_refines; [done|done|]. intros k Hk. rewrite <- Hl2 in Hk. by eapply index_lt.
Qed.

End Load.
