(* ===== verification/VmPlaces.v ===== *)
(** * The memory manager: where the pages of a process are

    The places of the pages of a process in the table, and what loading does
    to them. *)

From S2P Require Import Prelude LinkedList ByteMem Vm VmSpec VmElems VmSwap VmPages VmPageOps VmLoad.
Import Vm.

(** Pages up to their clock, which every search that finds them resets. *)
Definition erase (l : list page) : list page := set_clock 0 <$> l.

(** [k] is the only place whose page has [P]. *)
Definition sole (P : page -> bool) (l : list page) (k : nat) : Prop :=
  P <$> l !! k = Some true /\ forall k', P <$> l !! k' = Some true -> k' = k.

(** The process [pid] has one page of each order [1 .. length pos], page [j + 1]
    at place [pos !! j], and none of the next order. *)
Record process (pid : Z) (l : list page) (pos : list nat) : Prop := {
  pr_at : forall j k, pos !! j = Some k -> sole (owner pid (Z.of_nat j + 1)) l k;
  pr_end : forall k, owner pid (Z.of_nat (length pos) + 1) <$> l !! k <> Some true
}.

(** The place a place is exchanged with. *)
Definition tr (a b k : nat) : nat := if decide (k = a) then b else if decide (k = b) then a else k.

Lemma tr_tr a b k : tr a b (tr a b k) = k.
Proof. unfold tr. repeat case_decide; lia. Qed.

Lemma tr_second a b : tr a b b = a.
Proof. unfold tr. by repeat case_decide. Qed.

Lemma tr_other a b k : k <> a -> k <> b -> tr a b k = k.
Proof. intros. unfold tr. by rewrite !decide_False by done. Qed.

Lemma swap_list_tr a b l k :
  (a < length l)%nat -> (b < length l)%nat -> swap_list a b l !! k = l !! tr a b k.
Proof. intros. rewrite swap_list_lookup by done. unfold tr. by repeat case_decide. Qed.

Lemma erase_lookup l k : erase l !! k = set_clock 0 <$> l !! k.
Proof. apply list_lookup_fmap. Qed.

Lemma erase_length l : length (erase l) = length l.
Proof. apply length_fmap. Qed.

Lemma erase_touch i l : erase (touch i l) = erase l.
Proof.
  apply list_eq. intros k. rewrite !erase_lookup. unfold touch. destruct (decide (i = k)) as [->|].
  - rewrite list_lookup_alter_eq. by destruct (l !! k).
  - by rewrite list_lookup_alter_ne.
Qed.

Lemma erase_found P l : erase (found P l) = erase l.
Proof. unfold found. destruct (index P l); [apply erase_touch|done]. Qed.

Lemma erase_swap a b l : erase (swap_list a b l) = swap_list a b (erase l).
Proof.
  unfold swap_list. rewrite !erase_lookup. destruct (l !! a) as [x|], (l !! b) as [y|]; try done.
  unfold erase. by rewrite !list_fmap_insert.
Qed.

Lemma owner_erase pid o l k : owner pid o <$> erase l !! k = owner pid o <$> l !! k.
Proof. rewrite erase_lookup. by destruct (l !! k). Qed.

Lemma sole_index P l k : sole P l k -> index P l = Some k.
Proof.
  intros [Hk Hu]. unfold index. destruct (list_find P l) as [[i g]|] eqn:E.
  - apply list_find_Some in E as (Hi & HP & _). simpl. f_equal. apply Hu. rewrite Hi. simpl. f_equal.
    by apply Is_true_true.
  - exfalso. apply list_find_None in E. destruct (l !! k) as [g|] eqn:Eg; [|done].
    injection Hk as Hg. rewrite Forall_lookup in E. apply (E k g Eg). by apply Is_true_true.
Qed.

Lemma none_index (P : page -> bool) l : (forall k, P <$> l !! k <> Some true) -> index P l = None.
Proof.
  intros HP. destruct (index P l) as [k|] eqn:E; [|done]. apply index_Some in E as (g & Hk & Hg).
  exfalso. apply (HP k). rewrite Hk. simpl. by rewrite Hg.
Qed.

(** Pages that are the same keep their bytes outside the link fields. *)
Lemma erase_carried C s N m m' j k :
  (j < N)%nat -> (k < N)%nat -> erase (pages C s N m') !! j = erase (pages C s N m) !! k ->
  carried m m' (frame_at C s k) (frame_at C s j) (ld 4 m (node s k + o_size)) (page_size C).
Proof.
  intros Hj Hk E. rewrite !erase_lookup, !pages_lookup in E by done. apply (inj Some) in E.
  apply (f_equal g_body) in E. cbn [page_at set_clock g_body] in E. by apply body_inv in E as [_ ?].
Qed.

Section Process.
Context (pid : Z).

Lemma load_list_step r p1 p2 i l :
  p1 <> p2 -> (S p1 < length l)%nat ->
  load_list_loop (S r) pid p1 (Some p2) i l =
    let l1 := swap_list (S p1) p2 l in let P := owner pid (wraps 32 i) in
    load_list_loop r pid p2 (index P l1) (wrapu 32 (i + 1)) (found P l1).
Proof. intros. cbn [load_list_loop]. unfold contiguous_list. by rewrite decide_False, decide_True. Qed.

Lemma process_index l pos j :
  process pid l pos -> (j <= length pos)%nat -> index (owner pid (Z.of_nat j + 1)) l = pos !! j.
Proof.
  intros [Hat Hend] Hj. destruct (pos !! j) as [k|] eqn:E; [by apply sole_index, Hat|].
  apply lookup_ge_None in E. replace j with (length pos) by lia. by apply none_index.
Qed.

Lemma process_owner l l' pos :
  (forall o k, owner pid o <$> l' !! k = owner pid o <$> l !! k) -> process pid l pos -> process pid l' pos.
Proof.
  intros Ho [Hat Hend]. split.
  - intros j k Hj. destruct (Hat j k Hj) as [Hk Hu]. split; [by rewrite Ho|]. intros k'. rewrite Ho. apply Hu.
  - intros k. rewrite Ho. apply Hend.
Qed.

Lemma process_erase l l' pos : erase l = erase l' -> process pid l pos -> process pid l' pos.
Proof. intros E. apply process_owner. intros o k. by rewrite <- (owner_erase _ _ l'), <- E, owner_erase. Qed.

Lemma process_swap l pos a b :
  (a < length l)%nat -> (b < length l)%nat -> process pid l pos -> process pid (swap_list a b l) (tr a b <$> pos).
Proof.
  intros Ha Hb [Hat Hend]. split.
  - intros j k. rewrite list_lookup_fmap. destruct (pos !! j) as [k0|] eqn:Ej; [|done]. intros [= <-].
    destruct (Hat j k0 Ej) as [Hk Hu]. split; [by rewrite swap_list_tr, tr_tr by done|].
    intros k'. rewrite swap_list_tr by done. intros ?%Hu. rewrite <- (tr_tr a b k'). by f_equal.
  - intros k. rewrite length_fmap, swap_list_tr by done. apply Hend.
Qed.

Lemma process_lt l pos j k : process pid l pos -> pos !! j = Some k -> (k < length l)%nat.
Proof. intros [Hat _] Hj. destruct (Hat j k Hj) as [Hk _]. destruct (l !! k) eqn:E; [|done]. by eapply lookup_lt_Some. Qed.

(** Pages of different order are at different places. *)
Lemma process_inj l pos i j k : process pid l pos -> pos !! i = Some k -> pos !! j = Some k -> i = j.
Proof.
  intros [Hat _] Hi Hj. destruct (Hat i k Hi) as [Ei _], (Hat j k Hj) as [Ej _].
  destruct (l !! k) as [g|]; [|done]. injection Ei as Ei. injection Ej as Ej. unfold owner in *.
  apply andb_true_iff in Ei as [_ ?%Z.eqb_eq], Ej as [_ ?%Z.eqb_eq]. lia.
Qed.

Lemma process_length l pos : process pid l pos -> (length pos <= length l)%nat.
Proof.
  intros Hp. rewrite <- (length_seq (length l) 0). apply submseteq_length, NoDup_submseteq.
  - apply NoDup_alt. intros i j k. by eapply process_inj.
  - intros k (j & Hj)%list_elem_of_lookup. apply elem_of_seq. pose proof (process_lt _ _ _ _ Hp Hj). lia.
Qed.

(** ** Loading *)

(** Loading exchanges pages: none is lost or doubled. *)
Lemma load_list_loop_perm rounds p1 p2 i l l' :
  load_list_loop rounds pid p1 p2 i l = Ret l' -> erase l' ≡ₚ erase l.
Proof.
  revert p1 p2 i l. induction rounds as [|r IH]; intros p1 p2 i l; [done|]. cbn [load_list_loop].
  destruct p2 as [p2|]; [|by intros [= ->]]. unfold contiguous_list.
  destruct (decide (p1 = p2)); [|destruct (decide (S p1 < length l)%nat); [|done]]; intros E%IH; rewrite E, erase_found.
  - done.
  - rewrite erase_swap. apply swap_list_perm.
Qed.

Lemma load_list_perm rounds l l' : load_list rounds pid l = Ret l' -> erase l' ≡ₚ erase l.
Proof.
  unfold load_list. destruct (index (owner pid 1) l) as [i|]; [|done]. intros E%load_list_loop_perm.
  rewrite E, erase_found, erase_swap, erase_touch. apply swap_list_perm.
Qed.

(** Loading the pages of a process ends. *)
Lemma load_list_loop_ends rounds l pos p1 j :
  process pid l pos -> (length pos - j < rounds)%nat -> (j <= length pos)%nat -> Z.of_nat (length pos) + 2 < 2 ^ 31 ->
  load_list_loop rounds pid p1 (pos !! j) (Z.of_nat j + 2) l <> Timeout.
Proof.
  revert l pos p1 j. induction rounds as [|r IH]; intros l pos p1 j Hp Hr Hj Hmax; [lia|]. cbn [load_list_loop].
  destruct (pos !! j) as [c|] eqn:Ej; [|done]. pose proof (lookup_lt_Some _ _ _ Ej).
  assert (exists l1 pos1, contiguous_list p1 c l = Fault \/ contiguous_list p1 c l = Ret l1 /\ process pid l1 pos1 /\
    length pos1 = length pos) as (l1 & pos1 & [->|(-> & Hp1 & El)]); [|done|].
  { unfold contiguous_list. destruct (decide (p1 = c)); [by exists l, pos; auto|].
    destruct (decide (S p1 < length l)%nat); [|by exists l, pos; auto].
    exists (swap_list (S p1) c l), (tr (S p1) c <$> pos). right. rewrite length_fmap. split_and!; [done| |done].
    apply process_swap; [done|by eapply process_lt|done]. }
  cbn zeta. rewrite wraps_small, wrapu_small by lia.
  replace (Z.of_nat j + 2 + 1) with (Z.of_nat (S j) + 2) by lia.
  replace (Z.of_nat j + 2) with (Z.of_nat (S j) + 1) by lia. rewrite (process_index _ _ _ Hp1) by lia.
  apply IH; [|lia..]. apply (process_erase l1); [by rewrite erase_found|done].
Qed.

Lemma in_place pos : (forall i, (i < length pos)%nat -> pos !! i = Some i) -> pos = seq 0 (length pos).
Proof.
  intros Hin. apply list_eq. intros i. destruct (decide (i < length pos)%nat) as [Hi|].
  - rewrite lookup_seq_lt by done. by apply Hin.
  - rewrite !lookup_ge_None_2; rewrite ?length_seq; lia || done.
Qed.

(** Exchanging the last page with the page at its place. *)
Lemma last_in_place l pos j c :
  process pid l pos -> pos !! j = Some c -> S j = length pos ->
  (forall i, (i < j)%nat -> pos !! i = Some i) -> tr j c <$> pos = seq 0 (length pos).
Proof.
  intros Hp Ej Hj Hin. rewrite (in_place (tr j c <$> pos)); rewrite ?length_fmap; [done|].
  intros i Hi. rewrite list_lookup_fmap. destruct (decide (i = j)) as [->|Hij].
  - rewrite Ej. simpl. unfold tr. repeat case_decide; f_equal; lia.
  - assert (pos !! i = Some i) as Ei by (apply Hin; lia). rewrite Ei. simpl. f_equal. unfold tr.
    rewrite decide_False by done. case_decide as Eic; [|done]. subst i.
    pose proof (process_inj _ _ _ _ _ Hp Ej Ei). lia.
Qed.

(** The pages [0 .. j - 1] are in place; the others are but the last. *)
Lemma load_list_loop_places rounds l pos j :
  process pid l pos -> (1 <= j <= length pos)%nat -> (length pos - j < rounds)%nat ->
  Z.of_nat (length pos) + 2 < 2 ^ 31 ->
  (forall i, (i < j \/ S i < length pos)%nat -> (i < length pos)%nat -> pos !! i = Some i) ->
  exists l', load_list_loop rounds pid (pred j) (pos !! j) (Z.of_nat j + 2) l = Ret l' /\
    process pid l' (seq 0 (length pos)) /\
    (forall i k, pos !! i = Some k -> erase l' !! i = erase l !! k).
Proof.
  revert l j. induction rounds as [|r IH]; intros l j Hp Hj Hr Hmax Hin; [lia|].
  destruct (pos !! j) as [c|] eqn:Ej.
  2:{ apply lookup_ge_None in Ej. assert (pos = seq 0 (length pos)) as E by (apply in_place; intros; apply Hin; lia).
      exists l. rewrite <- E. split_and!; [done|done|]. intros i k Hi. rewrite E in Hi.
      by apply lookup_seq in Hi as [-> _]. }
  pose proof (lookup_lt_Some _ _ _ Ej) as Hlt. pose proof (process_length _ _ Hp) as Hlen.
  pose proof (process_lt _ _ _ _ Hp Ej) as Hc.
  assert (pos !! pred j = Some (pred j)) as Epj by (apply Hin; lia).
  assert (pred j <> c) by (intros E; rewrite <- E in Ej; pose proof (process_inj _ _ _ _ _ Hp Ej Epj); lia).
  rewrite load_list_step by lia. cbn zeta. replace (S (pred j)) with j by lia.
  rewrite wraps_small, wrapu_small by lia.
  replace (Z.of_nat j + 2 + 1) with (Z.of_nat (S j) + 2) by lia.
  replace (Z.of_nat j + 2) with (Z.of_nat (S j) + 1) by lia.
  destruct (decide (S j < length pos)%nat) as [Hmid|Hlast].
  - assert (c = j) as -> by (rewrite Hin in Ej by lia; congruence). rewrite swap_list_same.
    rewrite (process_index _ _ _ Hp) by lia. set (l1 := found _ l).
    assert (erase l1 = erase l) as E1 by apply erase_found.
    destruct (IH l1 (S j)) as (l' & E & Hp' & Hcont); [by apply (process_erase l)|lia..| |].
    { intros i ??. apply Hin; lia. }
    exists l'. split_and!; [done|done|]. rewrite <- E1. done.
  - pose proof (process_swap l pos j c ltac:(lia) Hc Hp) as Hp1.
    assert (tr j c <$> pos = seq 0 (length pos)) as Epos.
    { apply (last_in_place l); [done|done|lia|]. intros; apply Hin; lia. }
    rewrite (process_index _ _ _ Hp1) by (rewrite length_fmap; lia).
    assert ((tr j c <$> pos) !! S j = None) as En by (apply lookup_ge_None_2; rewrite length_fmap; lia).
    rewrite En. unfold found. rewrite (process_index _ _ _ Hp1), En by (rewrite length_fmap; lia).
    destruct r as [|r]; [lia|]. eexists. split_and!; [reflexivity|by rewrite <- Epos|].
    intros i k Hi. rewrite erase_swap, swap_list_tr by (rewrite erase_length; lia). f_equal.
    rewrite <- (tr_tr j c k). f_equal.
    assert ((tr j c <$> pos) !! i = Some (tr j c k)) as E by (by rewrite list_lookup_fmap, Hi).
    rewrite Epos in E. by apply lookup_seq in E as [-> _].
Qed.

(** Page 1 first: the places after the first exchange. *)
Lemma first_in_place l pos i1 :
  process pid l pos -> pos !! 0%nat = Some i1 ->
  process pid (swap_list 0 i1 (touch i1 l)) (tr 0 i1 <$> pos) /\
  (tr 0 i1 <$> pos) !! 0%nat = Some 0%nat /\
  (forall j, pos !! j = Some j -> (tr 0 i1 <$> pos) !! j = Some j).
Proof.
  intros Hp E0. pose proof (process_lt _ _ _ _ Hp E0). split_and!.
  - apply process_swap; rewrite ?touch_length; [lia|lia|].
    apply (process_erase l); [by rewrite erase_touch|done].
  - rewrite list_lookup_fmap, E0. simpl. unfold tr. repeat case_decide; f_equal; lia.
  - intros j Ej. rewrite list_lookup_fmap, Ej. simpl. f_equal. unfold tr.
    destruct (decide (j = 0%nat)) as [->|]; [congruence|]. case_decide as E; [|done]. subst i1.
    by rewrite (process_inj _ _ _ _ _ Hp E0 Ej).
Qed.

(** When the pages between the first and the last are in place, loading puts
    all pages in place. *)
Lemma load_list_places rounds l pos :
  process pid l pos -> (0 < length pos < rounds)%nat -> Z.of_nat (length pos) + 2 < 2 ^ 31 ->
  (forall j, (0 < j)%nat -> (S j < length pos)%nat -> pos !! j = Some j) ->
  exists l', load_list rounds pid l = Ret l' /\ process pid l' (seq 0 (length pos)) /\
    (forall j k, pos !! j = Some k -> erase l' !! j = erase l !! k).
Proof.
  intros Hp Hlen Hmax Hmid. destruct (lookup_lt_is_Some_2 pos 0 ltac:(lia)) as [i1 E0].
  destruct (first_in_place l pos i1 Hp E0) as (Hp1 & E1 & Hkeep).
  pose proof (process_lt _ _ _ _ Hp E0) as Hi1.
  unfold load_list. change (owner pid 1) with (owner pid (Z.of_nat 0 + 1)).
  change (owner pid 2) with (owner pid (Z.of_nat 1 + 1)). rewrite (process_index _ _ 0 Hp), E0 by lia.
  set (l1 := swap_list 0 i1 (touch i1 l)) in *. set (pos1 := tr 0 i1 <$> pos) in *.
  assert (length pos1 = length pos) as El by apply length_fmap.
  rewrite (process_index _ _ 1 Hp1) by lia. set (l2 := found _ l1).
  assert (erase l2 = erase l1) as E2 by apply erase_found.
  destruct (load_list_loop_places rounds l2 pos1 1) as (l' & E & Hp' & Hcont);
    [by apply (process_erase l1)|lia..| |].
  { intros i Hi ?. destruct (decide (i = 0)%nat) as [->|]; [done|]. apply Hkeep, Hmid; lia. }
  rewrite El in Hp'. exists l'. split_and!; [done|done|]. intros j k Hj.
  assert (pos1 !! j = Some (tr 0 i1 k)) as Hj1 by (unfold pos1; by rewrite list_lookup_fmap, Hj).
  rewrite (Hcont _ _ Hj1), E2. unfold l1. rewrite erase_swap, erase_touch, swap_list_tr, tr_tr
    by (rewrite erase_length; lia). done.
Qed.

(** With the second page out of place the third is put next to the place the
    second page came from. *)
Lemma load_list_third rounds l a b :
  process pid l [0; a; b]%nat -> (3 < rounds)%nat -> (2 <= a)%nat -> b <> 1%nat -> (S a < length l)%nat ->
  exists l', load_list rounds pid l = Ret l' /\ process pid l' [0; 1; S a]%nat.
Proof.
  intros Hp Hr Ha Hb Hlen. do 4 (destruct rounds as [|rounds]; [lia|]). clear Hr.
  assert (a <> b /\ b <> 0)%nat as [Hab Hb0].
  { split; intros E; subst b.
    - by pose proof (process_inj _ _ 1 2 _ Hp eq_refl eq_refl).
    - by pose proof (process_inj _ _ 0 2 _ Hp eq_refl eq_refl). }
  pose proof (process_lt _ _ 2 _ Hp eq_refl) as Hbl.
  unfold load_list. change (owner pid 1) with (owner pid (Z.of_nat 0 + 1)).
  change (owner pid 2) with (owner pid (Z.of_nat 1 + 1)). rewrite (process_index _ _ 0 Hp) by (simpl; lia). cbn [lookup list_lookup].
  rewrite swap_list_same. assert (process pid (touch 0 l) [0; a; b]%nat) as Hp1
    by (apply (process_erase l); [by rewrite erase_touch|done]).
  rewrite (process_index _ _ 1 Hp1) by (simpl; lia). set (l1 := found _ (touch 0 l)).
  assert (process pid l1 [0; a; b]%nat) as Hp2 by (apply (process_erase (touch 0 l)); [unfold l1; by rewrite erase_found|done]).
  assert (length l1 = length l) as El1 by (unfold l1; by rewrite found_length, touch_length).
  cbn [lookup list_lookup]. rewrite load_list_step by lia. cbn zeta.
  pose proof (process_swap l1 _ 1 a ltac:(lia) ltac:(lia) Hp2) as Hp3. set (l2 := swap_list 1 a l1) in *.
  assert (tr 1 a <$> [0; a; b] = [0; 1; b])%nat as Epos.
  { simpl. unfold tr. repeat case_decide; repeat f_equal; lia. }
  rewrite Epos in Hp3. change (wraps 32 3) with (Z.of_nat 2 + 1). rewrite (process_index _ _ 2 Hp3) by (simpl; lia).
  set (l3 := found _ l2). assert (process pid l3 [0; 1; b]%nat) as Hp4
    by (apply (process_erase l2); [unfold l3; by rewrite erase_found|done]).
  assert (length l3 = length l) as El3 by (unfold l3, l2; by rewrite found_length, swap_list_length).
  cbn [lookup list_lookup]. rewrite load_list_step by lia. cbn zeta.
  pose proof (process_swap l3 _ (S a) b ltac:(lia) ltac:(lia) Hp4) as Hp5.
  assert (tr (S a) b <$> [0; 1; b] = [0; 1; S a])%nat as Epos'.
  { simpl. unfold tr. repeat case_decide; repeat f_equal; lia. }
  rewrite Epos' in Hp5. change (wraps 32 (wrapu 32 (3 + 1))) with (Z.of_nat 3 + 1).
  rewrite (process_index _ _ 3 Hp5) by (simpl; lia). cbn [lookup list_lookup load_list_loop].
  eexists. split; [reflexivity|]. apply (process_erase (swap_list (S a) b l3)); [by rewrite erase_found|done].
Qed.

Lemma load_list_ends rounds l pos :
  process pid l pos -> (length pos < rounds)%nat -> Z.of_nat (length pos) + 2 < 2 ^ 31 ->
  load_list rounds pid l <> Timeout.
Proof.
  intros Hp Hr Hmax. unfold load_list. change (owner pid 1) with (owner pid (Z.of_nat 0 + 1)).
  change (owner pid 2) with (owner pid (Z.of_nat 1 + 1)). rewrite (process_index _ _ 0 Hp) by lia.
  destruct (pos !! 0%nat) as [i1|] eqn:E0; [|done]. destruct (first_in_place l pos i1 Hp E0) as (Hp1 & _ & _).
  pose proof (lookup_lt_Some _ _ _ E0). rewrite (process_index _ _ 1 Hp1) by (rewrite length_fmap; lia).
  change 3 with (Z.of_nat 1 + 2). apply load_list_loop_ends; rewrite ?length_fmap; [|lia..].
  eapply process_erase; [|exact Hp1]. by rewrite erase_found.
Qed.

End Process.

(** ** Where loading moves the pages of everybody *)

Lemma process_unique pid l pos pos' : process pid l pos -> process pid l pos' -> pos = pos'.
Proof.
  intros Hp Hp'. assert (forall p p', process pid l p -> process pid l p' -> (length p <= length p')%nat) as Hle.
  { intros p p' [Hat _] [_ Hend']. destruct (decide (length p <= length p')%nat) as [|Hgt]; [done|].
    destruct (lookup_lt_is_Some_2 p (length p') ltac:(lia)) as [k Hk]. destruct (Hat _ _ Hk) as [Ho _].
    by destruct (Hend' k). }
  apply (list_eq_same_length _ _ (length pos)); [apply Nat.le_antisymm; by apply Hle|done|].
  intros j k k' _ Hj Hj'. destruct (pr_at _ _ _ Hp j k Hj) as [Ho _]. by apply (pr_at _ _ _ Hp' j k' Hj').
Qed.

(** [f] says where the pages of [l] are in [l']. *)
Record moved (l l' : list page) (f : nat -> nat) : Prop := {
  mv_length : length l' = length l;
  mv_lookup i : (i < length l)%nat -> (f i < length l)%nat /\ erase l' !! f i = erase l !! i;
  mv_process pid pos : process pid l pos -> process pid l' (f <$> pos)
}.

Lemma moved_erase l l' : erase l = erase l' -> moved l l' id.
Proof.
  intros E. split.
  - by rewrite <- erase_length, <- E, erase_length.
  - intros i Hi. by rewrite E.
  - intros pid pos. rewrite list_fmap_id. by apply process_erase.
Qed.

Lemma moved_trans l l1 l2 f g : moved l l1 f -> moved l1 l2 g -> moved l l2 (g ∘ f).
Proof.
  intros [L1 M1 P1] [L2 M2 P2]. split.
  - by rewrite L2.
  - intros i Hi. destruct (M1 i Hi) as [H1 E1]. rewrite L1 in M2. destruct (M2 (f i) H1) as [H2 E2].
    by rewrite <- E1, <- E2.
  - intros pid pos Hp. rewrite list_fmap_compose. auto.
Qed.

Lemma moved_swap l a b : (a < length l)%nat -> (b < length l)%nat -> moved l (swap_list a b l) (tr a b).
Proof.
  intros Ha Hb. split.
  - apply swap_list_length.
  - intros i Hi. split; [unfold tr; repeat case_decide; lia|].
    by rewrite erase_swap, swap_list_tr, tr_tr by (by rewrite erase_length).
  - intros pid pos. by apply process_swap.
Qed.

Lemma index_in P l i : index P l = Some i -> (i < length l)%nat.
Proof. intros (g & Hi & _)%index_Some. by eapply lookup_lt_Some. Qed.

Lemma load_list_loop_moved rounds pid p1 p2 i l l' :
  (forall k, p2 = Some k -> k < length l)%nat ->
  load_list_loop rounds pid p1 p2 i l = Ret l' -> exists f, moved l l' f.
Proof.
  revert p1 p2 i l. induction rounds as [|r IH]; intros p1 p2 i l Hp2; [done|]. cbn [load_list_loop].
  destruct p2 as [p2|]; [|intros [= ->]; by eexists; apply moved_erase]. specialize (Hp2 p2 eq_refl).
  assert (forall l1, contiguous_list p1 p2 l = Ret l1 -> exists f, moved l l1 f) as Hc.
  { intros l1. unfold contiguous_list. destruct (decide (p1 = p2)); [intros [= ->]; by eexists; apply moved_erase|].
    destruct (decide (S p1 < length l)%nat); [|done]. intros [= <-]. eexists. by apply moved_swap. }
  destruct (contiguous_list p1 p2 l) as [l1| | |]; [|done..]. destruct (Hc l1 eq_refl) as [f Hf]. cbn zeta. intros E.
  destruct (IH _ _ _ _ ltac:(intros k Hk; rewrite found_length; by eapply index_in) E) as [g Hg].
  eexists. eapply moved_trans; [exact Hf|]. eapply moved_trans; [|exact Hg]. apply moved_erase. by rewrite erase_found.
Qed.

Lemma load_list_moved rounds pid l l' : load_list rounds pid l = Ret l' -> exists f, moved l l' f.
Proof.
  unfold load_list. destruct (index (owner pid 1) l) as [i|] eqn:Ei; [|done]. apply index_in in Ei. cbn zeta. intros E.
  apply load_list_loop_moved in E as [g Hg]; [|intros k Hk; rewrite found_length; by eapply index_in].
  eexists. apply (moved_trans _ (swap_list 0 i (touch i l)) _ (tr 0 i ∘ id) (g ∘ id)).
  - eapply moved_trans; [apply moved_erase; symmetry; apply erase_touch|].
    apply moved_swap; rewrite touch_length; lia.
  - eapply moved_trans; [apply moved_erase; symmetry; apply erase_found|exact Hg].
Qed.
