(* ===== verification/VmFree.v ===== *)
(** * The memory manager: giving a page to a process *)

From S2P Require Import Prelude LinkedList ByteMem Vm VmSpec VmElems VmSwap VmPages VmPageOps.
Import Vm.

(** The area of [z] bytes at [f] is one free element. *)
Record fresh (m : bytes) (f z : Z) : Prop := {
  fr_elems : elems m f z = [0];
  fr_free : ld 4 m (f + o_free) = 1;
  fr_size : ld 4 m (f + o_size) = z - NODE;
  fr_linked : linked m (Some NULL) f NULL [0]
}.

(** ** The fields of a local struct *)

Section LocalNode.
Context (pid reference free order start size next prev : Z) (b : bytes).
Abbreviation ln := (local_node pid reference free order start size next prev b).
Ltac ln := unfold local_node; repeat first [rewrite ld_st_same | rewrite ld_st_disj by vlia]; done.

Lemma ln_pid : ld 4 ln o_pid = pid `mod` 2 ^ 32. Proof. ln. Qed.
Lemma ln_free : ld 4 ln o_free = free `mod` 2 ^ 32. Proof. ln. Qed.
Lemma ln_start : ld 8 ln o_start = start `mod` 2 ^ 64. Proof. ln. Qed.
Lemma ln_size : ld 4 ln o_size = size `mod` 2 ^ 32. Proof. ln. Qed.
Lemma ln_next : ld 8 ln o_next = next `mod` 2 ^ 64. Proof. ln. Qed.
Lemma ln_prev : ld 8 ln o_prev = prev `mod` 2 ^ 64. Proof. ln. Qed.
End LocalNode.

(** A field of a struct copied to [d]. *)
Lemma ld_copied k m d b o :
  0 <= o -> o + Z.of_nat k <= NODE -> ld k (blit (Z.to_nat NODE) m d b 0) (d + o) = ld k b o.
Proof.
  intros. rewrite ld_blit_in by vlia. f_equal. lia.
Qed.

Section Free.
Context (C : config) (junk : bytes).
Implicit Types (s : vm) (m : bytes).
Abbreviation PS := (page_size C).

(** [initializeSpace] makes an area one free element. *)
Lemma initializeSpace_run s m f z :
  safe C s f (f + z) -> NODE < z < 2 ^ 32 -> 0 < f -> f + z < 2 ^ 64 ->
  exists m', initializeSpace C junk f z (set_ram m s) = Ret (0, set_ram m' s) /\ fresh m' f z /\
    (forall a, apart a 1 f NODE -> rd8 m' a = rd8 m a).
Proof.
  intros Hs Hz Hf Hmax. unfold initializeSpace. rewrite (copy_out_bind C s m _ _ _ _ _ _ Hs) by vlia.
  eexists. split; [reflexivity|]. rewrite wrapu_small by vlia. set (m' := blit _ m f _ 0).
  assert (ld 4 m' (f + o_size) = z - NODE) as Esz.
  { unfold m'. rewrite ld_copied, ln_size by vlia. apply Z.mod_small. vlia. }
  assert (elems m' f z = [0]) as Eel.
  { unfold elems. destruct (Z.to_nat z) as [|n] eqn:En; [vlia|]. cbn [elems_from].
    rewrite Z.add_0_r, Esz. destruct (Z.ltb_spec 0 z); [|vlia]. destruct (Z.ltb_spec NODE (z - 0)); [|vlia].
    cbn [andb]. f_equal. destruct n as [|n]; [done|]. cbn [elems_from].
    destruct (Z.ltb_spec (0 + (NODE + (z - NODE))) z); [vlia|done]. }
  split; [split; try done|].
  - unfold m'. by rewrite ld_copied, ln_free by vlia.
  - cbn [linked]. unfold m'. rewrite Z.add_0_r, !ld_copied, ln_next, ln_prev, ln_start by vlia.
    rewrite !Z.mod_small by vlia. done.
  - intros a Ha. unfold m', apart in *. rewrite rd8_blit, decide_False by vlia. done.
Qed.

Section Page.
Context (s : vm) (N : nat) (L : layout C s N) (fuel : nat).
Context (HfN : (N < fuel)%nat) (Hf : (Z.to_nat PS < fuel)%nat).

Lemma findFreePage_run m :
  table C s N m ->
  findFreePage C fuel (set_ram m s) =
    Ret (from_option (node s) NULL (index unused (pages C s N m)), set_ram m s).
Proof.
  intros Ht. unfold findFreePage. rewrite (bind_Ret _ _ _ _ _ (first_page s (set_ram m s) eq_refl)).
  replace (node s 0) with (memp s) by (unfold node; vlia).
  rewrite (findFreePage_loop_run C (nodes s N)); [|by eapply table_chain|by eapply nodes_ok_table|by rewrite nodes_length].
  do 2 f_equal. by apply first_pages.
Qed.

(** A moved page that is one free element stays one. *)
Lemma fresh_moved m m' i j :
  table C s N m -> (j < N)%nat -> moved C s m m' i j ->
  linked m' (Some NULL) (frame_at C s i) NULL (elems m (frame_at C s j) (ld 4 m (node s j + o_size))) ->
  fresh m (frame_at C s j) (ld 4 m (node s j + o_size)) ->
  fresh m' (frame_at C s i) (ld 4 m (node s j + o_size)).
Proof.
  intros Ht Hj (_ & _ & Hb) Hl [Ee Ef Es _]. destruct (Ht j Hj) as [_ _ _ Hz]. rewrite Ee in *.
  assert (forall o, 0 <= o -> (o + 4 <= o_start \/ o_size <= o /\ o + 4 <= o_next) ->
    ld 4 m' (frame_at C s i + o) = ld 4 m (frame_at C s j + o)) as Hld.
  { intros o ? Ho. apply ld_ext. intros x Hx. rewrite <- !Z.add_assoc. apply Hb; [vlia|].
    cbn [link_byte existsb]. apply orb_false_iff. split; [|done]. apply bool_decide_eq_false. vlia. }
  split; [|by rewrite Hld by vlia|by rewrite Hld by vlia|done].
  rewrite <- Ee. apply elems_ext. intros o Ho Hlo. apply Hb; [vlia|]. by rewrite <- Ee.
Qed.

(** The page [j] after it is reserved for [pid] and initialised. *)
Lemma reserve_local m j pid :
  table C s N m -> (j < N)%nat -> PS < 2 ^ 32 -> 0 <= pid < 2 ^ 32 ->
  let z := ld 4 m (node s j + o_size) in
  exists m', (forall A (k : prog vm A),
      (store C 4 (node s j + o_free) 0;; store C 4 (node s j + o_pid) pid;;
       start ← n_start C (node s j); sz ← n_size C (node s j); initializeSpace C junk start sz;; k) (set_ram m s) =
      k (set_ram m' s)) /\
    local_change C s m m' j /\ fresh m' (frame_at C s j) z /\
    ld 4 m' (node s j + o_size) = z /\
    page_at C s m' j = set_body (g_body (page_at C s m' j)) (set_owner pid (page_at C s m j)).
Proof.
  intros Ht Hj HPS Hpid z. destruct (Ht j Hj) as [Est Enx Epr Hz]. fold z in Hz.
  pose proof (node_safe C s N L j Hj) as Hs. pose proof (frame_safe C s N L j Hj) as Hfs.
  pose proof (frame_start C s N L j). pose proof (frame_end C s N L j Hj).
  pose proof (node_frame_apart C s N L j j Hj) as Hap. unfold apart in Hap.
  pose proof (l_mem _ _ _ L). pose proof (l_max _ _ _ L). pose proof (l_os _ _ _ L). pose proof (l_nodes _ _ _ L).
  set (m2 := st 4 (st 4 m (node s j + o_free) 0) (node s j + o_pid) pid).
  assert (ld 4 m2 (node s j + o_size) = z) as Ez2 by (unfold m2; rewrite !ld_st_disj by vlia; done).
  assert (ld 8 m2 (node s j + o_start) = frame_at C s j) as Es2 by (unfold m2; rewrite !ld_st_disj by vlia; done).
  destruct (initializeSpace_run s m2 (frame_at C s j) z) as (m3 & E3 & Hfr & Hout); [eapply safe_sub; [exact Hfs|vlia|vlia]|vlia..|].
  assert (forall n o, 0 <= o -> o + Z.of_nat n <= NODE -> ld n m3 (node s j + o) = ld n m2 (node s j + o)) as Hn.
  { intros n o ??. apply ld_ext. intros x Hx. apply Hout. unfold apart. vlia. }
  exists m3. split_and!; [|constructor|done|by rewrite Hn by vlia|].
  - intros A k. unfold n_start, n_size. rewrite 2!(store_bind C s _ 4 _ _ _ _ _ Hs) by vlia. fold m2.
    rewrite (load_bind C s m2 8 _ _ _ _ Hs), (load_bind C s m2 4 _ _ _ _ Hs), Es2, Ez2 by vlia.
    by rewrite (bind_Ret _ _ _ _ _ E3).
  - intros a Ha Hb. unfold apart in *. rewrite Hout by (unfold apart; vlia). unfold m2.
    rewrite !rd8_st, !decide_False by vlia. done.
  - intros o Ho. unfold link_field in Ho. rewrite Hn by vlia. unfold m2. rewrite !ld_st_disj by vlia. done.
  - rewrite Hn, Ez2 by vlia. done.
  - unfold page_at, set_body, set_owner. cbn [g_pid g_reference g_free g_order g_size g_data g_clock g_body].
    rewrite !Hn by vlia. unfold m2. repeat first [rewrite ld4_st by done | rewrite ld_st_disj by vlia]. done.
Qed.

(** [getFreePage] when there is a free page. *)
Lemma getFreePage_run rec m size pid j :
  table C s N m -> index unused (pages C s N m) = Some j -> PS < 2 ^ 32 -> 0 <= pid < 2 ^ 32 ->
  exists m' b, getFreePage C junk (S rec) fuel size pid (set_ram m s) = Ret (node s 0, set_ram m' s) /\
    shows C s N m (swap_list 0 j (alter (fun g => set_body b (set_owner pid g)) j (pages C s N m))) m' /\
    fresh m' (frame_at C s 0) (ld 4 m (node s j + o_size)).
Proof.
  intros Ht Hi HPS Hpid. pose proof (index_lt _ _ _ _ _ _ Hi) as Hj. pose proof (l_N _ _ _ L) as HN.
  cbn [getFreePage]. rewrite (bind_Ret _ _ _ _ _ (findFreePage_run m Ht)), Hi. cbn [from_option].
  rewrite (node_not_null C s N L).
  destruct (reserve_local m j pid Ht Hj HPS Hpid) as (m1 & E1 & Hc & Hfr & Ez & Epg). rewrite E1.
  assert (linked_at C s m1 j) as Hlj by (unfold linked_at; rewrite Ez, (fr_elems _ _ _ Hfr); apply Hfr).
  pose proof (local_shows C s N L _ _ _ Hj Hc Ht (or_introl Hlj)) as Hs1.
  set (b := g_body (page_at C s m1 j)) in *. cbn [VIRTUAL_MEMORY].
  rewrite (bind_Ret _ _ _ _ _ (first_page s (set_ram m1 s) eq_refl)).
  pose proof Hs1 as [Ht1 Hl1 _ _].
  assert (alter (fun g => set_body b (set_owner pid g)) j (pages C s N m) = pages C s N m1) as Ealt.
  { rewrite (alter_insert _ j _ (page_at C s m j)) by (by apply pages_lookup). by rewrite <- Epg, Hl1. }
  rewrite <- Hl1 in Hs1. destruct (decide (j = 0%nat)) as [->|Hj0].
  - exists m1, b. unfold swapPages. rewrite Z.eqb_refl, swap_list_same, Ealt. done.
  - destruct (swapPages_moved C s N L fuel m1 0 j) as (m2 & E2 & Hm0 & Hmj & Hout & Hlk & Hlk2); [done..|].
    rewrite (bind_Ret _ _ _ _ _ E2). exists m2, b. rewrite Ealt. split_and!; [done| |].
    + eapply shows_trans; [exact Hs1|]. by apply moved_shows.
    + rewrite <- Ez in *. by apply (fresh_moved m1).
Qed.

End Page.
End Free.
