(* ===== verification/VmInit.v ===== *)
(** * The memory manager: initialisation

    [init] builds the page table, the free element of the OS area, the shared
    pages and the table of the swap file. *)

From S2P Require Import Prelude LinkedList ByteMem Vm VmSpec VmElems VmSwap VmPages VmPageOps VmFree.
Import Vm.

(** ** Tables of nodes *)

Section TableLoop.
Context (C : config) (s : vm) (new : bytes) (base ptr max maxSize : Z).
Abbreviation PS := (page_size C).

Definition nd (k : nat) : Z := base + NODE * Z.of_nat k.
Definition before (k : nat) : Z := if decide (k = 0%nat) then NULL else nd (pred k).

(** Node [k] of a table of [N] nodes is [new] with its own links. *)
Record filled (m : bytes) (N k : nat) : Prop := {
  fi_meta : forall o, 0 <= o < NODE -> link_at 0 o = false -> rd8 m (nd k + o) = rd8 new o;
  fi_start : ld 8 m (nd k + o_start) = ptr + PS * Z.of_nat k;
  fi_prev : ld 8 m (nd k + o_prev) = before k;
  fi_next : ld 8 m (nd k + o_next) = (if decide (S k = N) then NULL else nd (S k))
}.

Context (Hbase : 0 < base) (Hnew : ld 8 new o_next = NULL).

Lemma nd_S k : nd (S k) = nd k + NODE.
Proof. unfold nd. vlia. Qed.

Lemma before_null k : (before k =? NULL) = bool_decide (k = 0%nat).
Proof.
  unfold before. destruct (decide (k = 0%nat)) as [->|]; [done|]. rewrite bool_decide_false by done.
  apply Z.eqb_neq. unfold nd. vlia.
Qed.

(** The copy of [new] made for node [k]. *)
Lemma written_filled m k :
  0 <= ptr + PS * Z.of_nat k < 2 ^ 64 -> nd k < 2 ^ 64 ->
  filled (blit (Z.to_nat NODE) m (nd k) (st 8 (st 8 new o_start (ptr + PS * Z.of_nat k)) o_prev (before k)) 0) (S k) k.
Proof.
  intros Hp Hn. assert (0 <= before k < 2 ^ 64) by (unfold before, nd in *; case_decide; vlia). split.
  - intros o Ho Hl%bool_decide_eq_false. rewrite rd8_blit, decide_True by vlia.
    replace (0 + (nd k + o - nd k)) with o by lia. rewrite !rd8_st, !decide_False by vlia. done.
  - rewrite ld_copied, ld_st_disj by vlia. by apply ld8_st.
  - rewrite ld_copied by vlia. by apply ld8_st.
  - rewrite ld_copied by vlia. rewrite !ld_st_disj by vlia. by rewrite decide_True.
Qed.

(** It stays so while only nodes after it are written, except for [next]. *)
Lemma filled_later m m' N N' k :
  filled m N k -> (forall o, 0 <= o < NODE -> ~ (o_next <= o < o_next + 8) -> rd8 m' (nd k + o) = rd8 m (nd k + o)) ->
  ld 8 m' (nd k + o_next) = (if decide (S k = N') then NULL else nd (S k)) -> filled m' N' k.
Proof.
  intros [Hm Hs Hp _] Hk Hn. split; [| | |done].
  - intros o Ho Hl. rewrite Hk; [by apply Hm|done|]. apply bool_decide_eq_false in Hl. vlia.
  - rewrite <- Hs. apply ld_ext. intros i Hi. rewrite <- !Z.add_assoc. apply Hk; vlia.
  - rewrite <- Hp. apply ld_ext. intros i Hi. rewrite <- !Z.add_assoc. apply Hk; vlia.
Qed.

(** One round. *)
Lemma table_round j f m hi :
  safe C s base hi -> nd (S j) <= hi -> hi < 2 ^ 64 -> 0 <= ptr + PS * Z.of_nat j < 2 ^ 64 ->
  nd j < max -> PS * Z.of_nat j < maxSize ->
  exists m', table_loop C (S f) new (nd j) (ptr + PS * Z.of_nat j) (before j) (PS * Z.of_nat j) max maxSize (set_ram m s) =
      table_loop C f new (nd (S j)) (ptr + PS * Z.of_nat (S j)) (before (S j)) (PS * Z.of_nat (S j)) max maxSize (set_ram m' s) /\
    filled m' (S j) j /\ ((0 < j)%nat -> ld 8 m' (nd (pred j) + o_next) = nd j) /\
    (forall a, apart a 1 (nd j) NODE -> ~ ((0 < j)%nat /\ nd (pred j) + o_next <= a < nd (pred j) + o_next + 8) ->
       rd8 m' a = rd8 m a).
Proof.
  intros Hs Hhi Hmax Hptr H1%Z.ltb_lt H2%Z.ltb_lt. cbn [table_loop]. rewrite H1, H2. cbn [andb].
  rewrite nd_S in *. assert (base <= nd j) by (unfold nd; vlia).
  set (m1 := if bool_decide (j = 0%nat) then m else st 8 m (before j + o_next) (nd j)).
  rewrite (bind_Ret _ _ _ tt (set_ram m1 s)).
  2:{ rewrite before_null. unfold m1. case_bool_decide as Hj; cbn [negb]; [done|].
      unfold before. rewrite decide_False by done. rewrite (store_at C s m 8 _ _ _ _ Hs); unfold nd in *; [done|vlia|vlia]. }
  rewrite (copy_out_bind C s m1 _ _ _ _ _ _ Hs) by vlia. set (m2 := blit _ m1 (nd j) _ 0).
  exists m2. split_and!.
  - f_equal; [lia|lia].
  - apply written_filled; vlia.
  - intros Hj. assert (nd (pred j) + NODE = nd j) by (unfold nd; vlia). unfold m2, m1.
    rewrite bool_decide_false by lia. rewrite ld_blit_disj by vlia. unfold before. rewrite decide_False by lia.
    apply ld8_st. vlia.
  - intros a Ha Hno. unfold m2, apart in *. rewrite rd8_blit, decide_False by vlia. unfold m1.
    case_bool_decide as Hj; [done|]. unfold before. rewrite decide_False by done.
    rewrite rd8_st, decide_False; [done|]. intros ?. apply Hno. split; [lia|done].
Qed.

Lemma table_loop_run n j fuel m :
  safe C s base (nd (j + n)) -> nd (j + n) < 2 ^ 64 -> 0 <= ptr -> 0 < PS -> ptr + PS * Z.of_nat (j + n) < 2 ^ 64 ->
  (forall k, (k < j + n)%nat -> nd k < max /\ PS * Z.of_nat k < maxSize) ->
  (max <= nd (j + n) \/ maxSize <= PS * Z.of_nat (j + n)) -> (n < fuel)%nat ->
  exists m', table_loop C fuel new (nd j) (ptr + PS * Z.of_nat j) (before j) (PS * Z.of_nat j) max maxSize
      (set_ram m s) = Ret (tt, set_ram m' s) /\
    (forall k, (j <= k < j + n)%nat -> filled m' (j + n) k) /\
    ((0 < n)%nat -> (0 < j)%nat -> ld 8 m' (nd (pred j) + o_next) = nd j) /\
    (forall a, apart a 1 (nd j) (NODE * Z.of_nat n) ->
       ~ ((0 < n)%nat /\ (0 < j)%nat /\ nd (pred j) + o_next <= a < nd (pred j) + o_next + 8) -> rd8 m' a = rd8 m a).
Proof.
  intros Hs Hmax Hptr HPS Hpmax. revert j fuel m Hs Hmax Hpmax.
  induction n as [|n IH]; intros j fuel m Hs Hmax Hpmax Hin Hend Hf; (destruct fuel as [|f]; [lia|]); cbn [table_loop].
  { rewrite Nat.add_0_r in *. exists m. split_and!; [|lia|lia|done].
    destruct (Z.ltb_spec (nd j) max), (Z.ltb_spec (PS * Z.of_nat j) maxSize); simpl; try lia; done. }
  assert (nd (S j) <= nd (j + S n)) as Hnd by (unfold nd; vlia).
  assert (0 <= PS * Z.of_nat j <= PS * Z.of_nat (j + S n)) as Hpj.
  { split; [apply Z.mul_nonneg_nonneg; lia|apply Z.mul_le_mono_nonneg_l; lia]. }
  destruct (table_round j f m _ Hs Hnd Hmax) as (m2 & E2 & Hj & Hnx & Hfr); [lia|apply Hin; lia|apply Hin; lia|].
  cbn [table_loop] in E2. rewrite E2. replace (j + S n)%nat with (S j + n)%nat in * by lia.
  destruct (IH (S j) f m2) as (m' & E & Hfill & Hlast & Hout); [done..|lia|]. cbn [pred] in *.
  exists m'. split; [done|].
  assert (nd (S j) = nd j + NODE) as EnS by apply nd_S.
  assert (forall a, a < nd j + NODE -> ~ ((0 < n)%nat /\ nd j + o_next <= a < nd j + o_next + 8) -> rd8 m' a = rd8 m2 a) as Hlow.
  { intros a Ha Hno. apply Hout; [unfold apart; vlia|]. intros (? & _ & ?). by apply Hno. }
  split_and!.
  - intros k Hk. destruct (decide (k = j)) as [->|]; [|apply Hfill; lia].
    eapply filled_later; [exact Hj| |].
    + intros o Ho Hno. apply Hlow; vlia.
    + case_decide as Hlt; [|apply Hlast; lia]. assert (n = 0%nat) as -> by lia.
      destruct Hj as [_ _ _ Hjn]. rewrite decide_True in Hjn by done. rewrite <- Hjn.
      apply ld_ext. intros i Hi. apply Hlow; vlia.
  - intros _ Hj0. rewrite <- (Hnx Hj0). assert (nd (pred j) + NODE = nd j) by (unfold nd; vlia).
    apply ld_ext. intros i Hi. apply Hlow; vlia.
  - intros a Ha Hno. unfold apart in Ha. rewrite Hout.
    + apply Hfr; [unfold apart; vlia|]. intros [??]. apply Hno. split_and!; [lia|lia|vlia..].
    + unfold apart. vlia.
    + intros (_ & _ & ?). vlia.
Qed.

End TableLoop.

Lemma filled_ld C new base ptr m N k n o :
  filled C new base ptr m N k -> meta_field n o -> ld n m (nd base k + o) = ld n new o.
Proof.
  intros [Hm _ _ _] Ho. apply ld_ext. intros i Hi. rewrite <- Z.add_assoc. apply Hm.
  - unfold meta_field in Ho. vlia.
  - by apply (meta_not_link n o).
Qed.

(** ** The shared pages *)

Section FreePages.
Context (C : config) (junk : bytes) (s : vm) (base : Z).
Abbreviation PS := (page_size C).
Definition sp (k : nat) : Z := base + PS * Z.of_nat k.

(** Page [k] of [N] is one free element, followed by page [k + 1]. *)
Record shared_page (m : bytes) (N k : nat) : Prop := {
  sp_free : ld 4 m (sp k + o_free) = 1;
  sp_size : ld 4 m (sp k + o_size) = PS - NODE;
  sp_start : ld 8 m (sp k + o_start) = sp k + NODE;
  sp_next : ld 8 m (sp k + o_next) = (if decide (S k = N) then NULL else sp (S k))
}.

Context (Hbase : 0 < base) (HPS : NODE < PS < 2 ^ 32).

Lemma sp_S k : sp (S k) = sp k + PS.
Proof. unfold sp. lia. Qed.

Lemma written_shared m k prev :
  0 <= sp k -> sp k + NODE < 2 ^ 64 ->
  shared_page (blit (Z.to_nat NODE) m (sp k) (local_node 0 0 1 1 (sp k + NODE) (PS - NODE) NULL prev junk) 0) (S k) k.
Proof.
  intros ??. split.
  - by rewrite ld_copied, ln_free by vlia.
  - rewrite ld_copied, ln_size by vlia. apply Z.mod_small. vlia.
  - rewrite ld_copied, ln_start by vlia. apply Z.mod_small. vlia.
  - rewrite ld_copied, ln_next by vlia. by rewrite decide_True.
Qed.

Lemma shared_later m m' N N' k :
  shared_page m N k -> (forall o, 0 <= o < o_next -> rd8 m' (sp k + o) = rd8 m (sp k + o)) ->
  ld 8 m' (sp k + o_next) = (if decide (S k = N') then NULL else sp (S k)) -> shared_page m' N' k.
Proof.
  intros [E1 E2 E3 _] Hm Hn.
  assert (forall n o, 0 <= o -> o + Z.of_nat n <= o_next -> ld n m' (sp k + o) = ld n m (sp k + o)) as Hld.
  { intros n o ??. apply ld_ext. intros i Hi. rewrite <- !Z.add_assoc. apply Hm. lia. }
  split; rewrite ?Hld by vlia; done.
Qed.

Definition sp_before (k : nat) : Z := if decide (k = 0%nat) then NULL else sp (pred k).

Lemma sp_pred k : (0 < k)%nat -> sp (pred k) + PS = sp k /\ base <= sp (pred k).
Proof.
  intros. replace k with (S (pred k)) at 2 by lia. rewrite sp_S. split; [done|]. unfold sp.
  assert (0 <= PS * Z.of_nat (pred k)) by (apply Z.mul_nonneg_nonneg; vlia). lia.
Qed.

Lemma shared_round j f m free hi :
  safe C s base hi -> sp (S j) <= hi -> hi < 2 ^ 64 -> PS <= free ->
  exists m', freePages_loop C junk (S f) (sp j) free (sp_before j) (set_ram m s) =
      freePages_loop C junk f (sp (S j)) (free - PS) (sp_before (S j)) (set_ram m' s) /\
    shared_page m' (S j) j /\ ((0 < j)%nat -> ld 8 m' (sp (pred j) + o_next) = sp j) /\
    (forall a, ~ (sp j <= a < sp j + NODE) ->
       ~ ((0 < j)%nat /\ sp (pred j) + o_next <= a < sp (pred j) + o_next + 8) -> rd8 m' a = rd8 m a).
Proof.
  intros Hs Hhi Hmax Hfree. rewrite sp_S in *. cbn [freePages_loop].
  assert (base <= sp j) by (unfold sp; assert (0 <= PS * Z.of_nat j) by (apply Z.mul_nonneg_nonneg; vlia); lia).
  destruct (Z.leb_spec PS free); [|lia]. rewrite (copy_out_bind C s m _ _ _ _ _ _ Hs) by vlia.
  set (m1 := blit _ m (sp j) _ 0).
  assert (shared_page m1 (S j) j) as Hj by (apply written_shared; vlia).
  assert (forall a, ~ (sp j <= a < sp j + NODE) -> rd8 m1 a = rd8 m a) as Hm1.
  { intros a Ha. unfold m1. rewrite rd8_blit, decide_False by vlia. done. }
  destruct (decide (j = 0%nat)) as [->|Hj0].
  - exists m1. split_and!; [done|done|lia|]. intros a Ha _. by apply Hm1.
  - destruct (sp_pred j ltac:(lia)) as [Epj Hpj]. unfold sp_before. rewrite !decide_False by lia.
    destruct (Z.eqb_spec (sp (pred j)) NULL); [vlia|]. cbn [negb pred].
    rewrite (store_bind C s m1 8 _ _ _ _ _ Hs) by vlia. eexists. split_and!; [reflexivity|..].
    + eapply shared_later; [exact Hj| |].
      * intros o Ho. rewrite rd8_st, decide_False by vlia. done.
      * rewrite ld_st_disj by vlia. apply Hj.
    + intros _. apply ld8_st. vlia.
    + intros a Ha Hno. rewrite rd8_st, decide_False; [by apply Hm1|]. intros ?. apply Hno. split; [lia|done].
Qed.

Lemma freePages_loop_run n j fuel m free :
  safe C s base (sp (j + n)) -> sp (j + n) < 2 ^ 64 -> PS * Z.of_nat n <= free < PS * (Z.of_nat n + 1) -> (n < fuel)%nat ->
  exists m', freePages_loop C junk fuel (sp j) free (sp_before j) (set_ram m s) = Ret (tt, set_ram m' s) /\
    (forall k, (j <= k < j + n)%nat -> shared_page m' (j + n) k) /\
    ((0 < n)%nat -> (0 < j)%nat -> ld 8 m' (sp (pred j) + o_next) = sp j) /\
    (forall a, ~ (sp j <= a < sp (j + n)) ->
       ~ ((0 < n)%nat /\ (0 < j)%nat /\ sp (pred j) + o_next <= a < sp (pred j) + o_next + 8) -> rd8 m' a = rd8 m a).
Proof.
  revert j fuel m free. induction n as [|n IH]; intros j fuel m free Hs Hmax Hfree Hf; (destruct fuel as [|f]; [lia|]).
  { rewrite Nat.add_0_r in *. exists m. split_and!; [|lia|lia|done]. cbn [freePages_loop].
    destruct (Z.leb_spec PS free); [vlia|done]. }
  assert (PS * Z.of_nat (S n) = PS + PS * Z.of_nat n) as EPS by lia.
  assert (0 <= PS * Z.of_nat n) as Hn0 by (apply Z.mul_nonneg_nonneg; vlia).
  assert (sp (j + S n) = sp (S j) + PS * Z.of_nat n) as Eend by (unfold sp; lia). pose proof (sp_S j) as ES.
  destruct (shared_round j f m free _ Hs ltac:(lia) Hmax ltac:(lia)) as (m2 & E2 & Hj & Hnx & Hfr). rewrite E2.
  replace (j + S n)%nat with (S j + n)%nat in * by lia.
  destruct (IH (S j) f m2 (free - PS)) as (m' & E & Hfill & Hlast & Hout); [done|done|lia|lia|]. cbn [pred] in *.
  exists m'. split; [done|].
  assert (forall a, a < sp j + PS -> ~ ((0 < n)%nat /\ sp j + o_next <= a < sp j + o_next + 8) -> rd8 m' a = rd8 m2 a) as Hlow.
  { intros a Ha Hno. apply Hout; [lia|]. intros (? & _ & ?). by apply Hno. }
  split_and!.
  - intros k Hk. destruct (decide (k = j)) as [->|]; [|apply Hfill; lia]. eapply shared_later; [exact Hj| |].
    + intros o Ho. apply Hlow; vlia.
    + case_decide as Hlt; [|apply Hlast; lia]. assert (n = 0%nat) as -> by lia.
      destruct Hj as [_ _ _ Hjn]. rewrite decide_True in Hjn by done. rewrite <- Hjn.
      apply ld_ext. intros i Hi. apply Hlow; vlia.
  - intros _ Hj0. rewrite <- (Hnx Hj0). destruct (sp_pred j Hj0). apply ld_ext. intros i Hi. apply Hlow; vlia.
  - intros a Ha Hno. rewrite Hout by vlia. apply Hfr; [vlia|]. intros [??]. apply Hno. split_and!; [lia|lia|vlia..].
Qed.

End FreePages.

(** ** init *)

(** The sizes fit together, for a memory at [p]. *)
Record config_ok (C : config) (p : Z) : Prop := {
  ok_p : 0 < p;
  ok_max : p + PHYSICAL_SIZE C < 2 ^ 64;
  ok_page : NODE < page_size C < 2 ^ 32;
  ok_table : NODE < OSRESERVED_START C;
  ok_os : OSRESERVED_START C + NODE <= MEMORY_START C;
  ok_os_size : MEMORY_START C - OSRESERVED_START C < 2 ^ 32;
  ok_memory : MEMORY_START C + 4 * page_size C < PHYSICAL_SIZE C;
  ok_swap : 0 < swap_init C;
  ok_swap_max : swap_init C + SWAP_SIZE C < 2 ^ 64;
  ok_swap_table : NODE < SWAP_MEMORY_START C;
  ok_swap_memory : SWAP_MEMORY_START C + page_size C < SWAP_SIZE C;
  ok_apart : apart p (PHYSICAL_SIZE C) (swap_init C) (SWAP_SIZE C)
}.

(** How many rounds the loop over a table makes: nodes fit in [room] bytes,
    pages start in [space] bytes. *)
Definition rounds (C : config) (room space : Z) : nat :=
  Z.to_nat (Z.min ((room + NODE - 1) / NODE) ((space + page_size C - 1) / page_size C)).

(** The number of pages. *)
Definition page_count (C : config) : nat :=
  rounds C (OSRESERVED_START C - NODE) (PHYSICAL_SIZE C - page_size C * 4 - MEMORY_START C).
Definition swap_count (C : config) : nat :=
  rounds C (SWAP_MEMORY_START C - NODE) (SWAP_SIZE C - (SWAP_MEMORY_START C + page_size C)).

Lemma ceil_spec x d k : 0 < d -> k < (x + d - 1) / d <-> d * k < x.
Proof.
  intros Hd. pose proof (Z.div_mod (x + d - 1) d ltac:(lia)). pose proof (Z.mod_pos_bound (x + d - 1) d Hd).
  set (q := (x + d - 1) / d) in *. split; intros Hk; [|apply Z.nle_gt; intros ?]; nia.
Qed.

Section Rounds.
Context (C : config) (room space : Z).
Context (HPS : 0 < page_size C) (Hroom : 0 < room) (Hspace : 0 < space).

Lemma rounds_in k : (k < rounds C room space)%nat <-> NODE * Z.of_nat k < room /\ page_size C * Z.of_nat k < space.
Proof.
  unfold rounds. rewrite <- (ceil_spec room), <- (ceil_spec space) by vlia.
  pose proof (proj2 (ceil_spec room NODE 0 ltac:(vlia)) ltac:(lia)).
  pose proof (proj2 (ceil_spec space (page_size C) 0 ltac:(lia)) ltac:(lia)). lia.
Qed.

Lemma rounds_pos : (0 < rounds C room space)%nat.
Proof. apply rounds_in. lia. Qed.

Lemma rounds_end : room <= NODE * Z.of_nat (rounds C room space) \/ space <= page_size C * Z.of_nat (rounds C room space).
Proof.
  destruct (Z.le_gt_cases room (NODE * Z.of_nat (rounds C room space))); [by left|].
  destruct (Z.le_gt_cases space (page_size C * Z.of_nat (rounds C room space))); [by right|].
  exfalso. apply (Nat.lt_irrefl (rounds C room space)). apply rounds_in. lia.
Qed.

Lemma rounds_room : NODE * Z.of_nat (rounds C room space) < room + NODE.
Proof.
  pose proof rounds_pos. pose proof (proj1 (rounds_in (pred (rounds C room space))) ltac:(lia)) as [? _]. vlia.
Qed.

Lemma rounds_space : page_size C * Z.of_nat (rounds C room space) < space + page_size C.
Proof.
  pose proof rounds_pos. pose proof (proj1 (rounds_in (pred (rounds C room space))) ltac:(lia)) as [_ ?].
  replace (Z.of_nat (rounds C room space)) with (Z.of_nat (pred (rounds C room space)) + 1) by lia. lia.
Qed.
End Rounds.

(** A table whose nodes and pages are inside an area [base .. base + len). *)
Lemma table_loop_area C s new base off room space len m fuel :
  0 < base -> base + len < 2 ^ 64 -> NODE < page_size C -> 0 < room -> 0 < space -> 0 <= off ->
  room + NODE <= off -> off + space + page_size C <= len -> safe C s base (base + len) -> ld 8 new o_next = NULL ->
  (rounds C room space < fuel)%nat ->
  exists m', table_loop C fuel new base (base + off) NULL 0 (base + room) space (set_ram m s) = Ret (tt, set_ram m' s) /\
    (forall k, (k < rounds C room space)%nat -> filled C new base (base + off) m' (rounds C room space) k) /\
    (forall a, ~ (base <= a < base + room + NODE) -> rd8 m' a = rd8 m a).
Proof.
  intros Hb Hmax HPS Hr Hsp Hoff Hro Hlen Hs Hnew Hf. set (n := rounds C room space) in *.
  pose proof (rounds_room C room space ltac:(vlia) Hr Hsp) as Hrr. pose proof (rounds_space C room space ltac:(vlia) Hr Hsp) as Hrs.
  fold n in Hrr, Hrs.
  destruct (table_loop_run C s new base (base + off) (base + room) space Hb Hnew n 0 fuel m) as (m' & E & Hfi & _ & Hout).
  - simpl. unfold nd. eapply safe_sub; [exact Hs|vlia|vlia].
  - simpl. unfold nd. vlia.
  - lia.
  - vlia.
  - simpl. lia.
  - intros k Hk. apply (rounds_in C room space) in Hk; [|vlia..]. unfold nd. lia.
  - simpl. unfold nd. destruct (rounds_end C room space ltac:(vlia) Hr Hsp) as [He|He]; fold n in He; [left|right]; lia.
  - done.
  - simpl Nat.add in *. unfold nd at 1, before in E. rewrite decide_True in E by done.
    rewrite !Z.mul_0_r, !Z.add_0_r in E. exists m'. split_and!; [done| |].
    + intros k Hk. apply Hfi. lia.
    + intros a Ha. apply Hout; [unfold apart, nd; vlia|lia].
Qed.

(** The struct [new] of [init] when the page table is filled, and the table of
    the swap file. *)
Definition init_new (C : config) (junk : bytes) (p : Z) : bytes :=
  let new := st 4 junk o_free 1 in
  let new := st 8 (st 8 new o_prev NULL) o_next NULL in
  let new := st 4 new o_size (MEMORY_START C - OSRESERVED_START C - NODE) in
  let new := st 8 new o_start (p + OSRESERVED_START C + NODE) in
  st 1 (st 4 (st 4 new o_pid 0) o_order 1) o_clock 0.

(** The state [init] leaves. *)
Record initialised (C : config) (p : Z) (s : vm) : Prop := {
  in_mem : memp s = p;
  in_shared : shared s = p + PHYSICAL_SIZE C - page_size C * 4;
  in_layout : layout C s (page_count C);
  in_table : table C s (page_count C) (ram s);
  (** every page is free, of order 1 and of the size of a page *)
  in_pages : forall k, (k < page_count C)%nat ->
    let g := page_at C s (ram s) k in
    g_pid g = 0 /\ g_free g = 1 /\ g_order g = 1 /\ g_size g = page_size C /\ g_data g = 0 /\ g_clock g = 0;
  (** the OS area is one free element *)
  in_os : let n := p + OSRESERVED_START C in
    ld 4 (ram s) (n + o_free) = 1 /\ ld 4 (ram s) (n + o_size) = MEMORY_START C - OSRESERVED_START C - NODE /\
    ld 8 (ram s) (n + o_start) = n + NODE /\ ld 8 (ram s) (n + o_next) = NULL /\ ld 8 (ram s) (n + o_prev) = NULL;
  (** there are four shared pages *)
  in_shared_pages : forall k, (k < 4)%nat -> shared_page C (shared s) (ram s) 4 k
}.

Ltac ld_fields := unfold init_new; repeat first [rewrite ld_st_same | rewrite ld_st_disj by vlia].

Lemma filled_agree C new base ptr m m' N k :
  filled C new base ptr m N k -> (forall o, 0 <= o < NODE -> rd8 m' (nd base k + o) = rd8 m (nd base k + o)) ->
  filled C new base ptr m' N k.
Proof.
  intros Hf Hm. eapply filled_later; [exact Hf|intros; by apply Hm|]. rewrite <- (fi_next _ _ _ _ _ _ _ Hf).
  apply ld_ext. intros i Hi. rewrite <- !Z.add_assoc. apply Hm. vlia.
Qed.

Lemma swap_init_safe C s : 0 < swap_init C -> safe C s (swap_init C) (swap_init C + SWAP_SIZE C).
Proof.
  intros ? a k ???. unfold valid, in_area. destruct (Z.ltb_spec 0 (swap_init C)); [|lia].
  destruct (Z.leb_spec (swap_init C) a); [|lia]. destruct (Z.leb_spec (a + k) (swap_init C + SWAP_SIZE C)); [|lia].
  by rewrite !orb_true_r.
Qed.

Lemma writeSwap_run C swap s m :
  safe C s swap (swap + SWAP_SIZE C) -> 0 <= SWAP_SIZE C ->
  exists r, writeSwap C swap (set_ram m s) =
    Ret (r, if swap_wok s then set_swapfile (Some (SWAP_SIZE C, blit (Z.to_nat (SWAP_SIZE C)) ∅ 0 m swap)) (set_ram m s)
            else set_ram m s).
Proof.
  intros Hs Hz. unfold writeSwap. rewrite (bind_Ret _ _ _ (set_ram m s) (set_ram m s)) by done.
  change (swap_wok (set_ram m s)) with (swap_wok s). destruct (swap_wok s); [|by eexists].
  rewrite (copy_in_bind C s m _ _ _ _ _ Hs) by lia. by eexists.
Qed.

Section Init.
Context (C : config) (junk : bytes) (p : Z) (Hok : config_ok C p).
Abbreviation PS := (page_size C).

(** A table of pages filled as [init] does it. *)
Lemma filled_table new s m :
  memp s = p -> ld 4 new o_size = PS ->
  (forall k, (k < page_count C)%nat -> filled C new p (p + MEMORY_START C) m (page_count C) k) ->
  table C s (page_count C) m.
Proof.
  intros Hm Hz Hf k Hk. destruct (Hf k Hk) as [_ Es Ep En]. pose proof (filled_ld _ _ _ _ _ _ _ 4 o_size (Hf k Hk)) as Ez.
  unfold nd, before in *. destruct Hok. split; unfold node, frame_at; rewrite ?Hm.
  - done.
  - done.
  - done.
  - rewrite Ez by auto with os. vlia.
Qed.

Lemma init_layout s : memp s = p -> layout C s (page_count C).
Proof.
  intros Hm. destruct Hok.
  pose proof (rounds_room C (OSRESERVED_START C - NODE) (PHYSICAL_SIZE C - PS * 4 - MEMORY_START C)).
  pose proof (rounds_space C (OSRESERVED_START C - NODE) (PHYSICAL_SIZE C - PS * 4 - MEMORY_START C)).
  pose proof (rounds_pos C (OSRESERVED_START C - NODE) (PHYSICAL_SIZE C - PS * 4 - MEMORY_START C)).
  fold (page_count C) in *. split; rewrite ?Hm; vlia.
Qed.

Abbreviation sh := (p + PHYSICAL_SIZE C - PS * 4).
Abbreviation new := (st 4 (st 4 (init_new C junk p) o_size PS) o_data 0).

Lemma sh_end : sp C sh 4 = p + PHYSICAL_SIZE C.
Proof. unfold sp. change (Z.of_nat 4) with 4. lia. Qed.

(** What the steps of [init] establish, put together. *)
Lemma initialised_intro s mA mC m :
  memp s = p -> shared s = sh -> (forall k, (k < 4)%nat -> shared_page C sh mA 4 k) ->
  let mB := blit (Z.to_nat NODE) mA (p + OSRESERVED_START C) (init_new C junk p) 0 in
  (forall k, (k < page_count C)%nat -> filled C new p (p + MEMORY_START C) mC (page_count C) k) ->
  (forall a, ~ (p <= a < p + OSRESERVED_START C) -> rd8 mC a = rd8 mB a) ->
  (forall a, p <= a < p + PHYSICAL_SIZE C -> rd8 m a = rd8 mC a) ->
  initialised C p (set_ram m s).
Proof.
  intros Hmp Hsh HA mB HC HoutC HD. destruct Hok as [Hp Hmax HPS Htab Hos Hosz Hmem _ _ _ _ _].
  pose proof (init_layout s Hmp) as L.
  assert (forall k, (k < page_count C)%nat -> filled C new p (p + MEMORY_START C) m (page_count C) k) as Hfm.
  { intros k Hk. eapply filled_agree; [by apply HC|]. intros o Ho. apply HD.
    pose proof (node_end C s _ L k Hk) as Hn. unfold node, nd in *. rewrite Hmp in Hn. vlia. }
  assert (forall k o, 0 <= o -> o + Z.of_nat k <= NODE ->
    ld k m (p + OSRESERVED_START C + o) = ld k (init_new C junk p) o) as Hosf.
  { intros k o ??. rewrite <- (ld_copied k mA (p + OSRESERVED_START C) (init_new C junk p) o) by lia.
    apply ld_ext. intros i Hi. rewrite HD by vlia. apply HoutC. vlia. }
  split; try done.
  - by apply init_layout.
  - apply filled_table with new; [done| |done]. rewrite ld_st_disj, ld4_st by vlia. done.
  - intros k Hk g. pose proof (Hfm k Hk) as Hf. unfold g, page_at, node. cbn [g_pid g_free g_order g_size g_data g_clock].
    change (memp (set_ram m s)) with (memp s). rewrite Hmp. fold (nd p k). change (ram (set_ram m s)) with m.
    rewrite !(filled_ld _ _ _ _ _ _ _ _ _ Hf) by auto with os. ld_fields.
    rewrite (Z.mod_small PS) by (change (256 ^ Z.of_nat 4) with (2 ^ 32); vlia). done.
  - cbn zeta. change (ram (set_ram m s)) with m. rewrite !Hosf by vlia. ld_fields.
    split_and!; [done|apply Z.mod_small|apply Z.mod_small|done|done].
    + change (256 ^ Z.of_nat 4) with (2 ^ 32). vlia.
    + change (256 ^ Z.of_nat 8) with (2 ^ 64). vlia.
  - intros k Hk. change (shared (set_ram m s)) with (shared s). change (ram (set_ram m s)) with m. rewrite Hsh.
    pose proof (HA k Hk) as Ha. assert (0 <= PS * Z.of_nat k /\ PS * Z.of_nat k <= PS * 3)
      by (split; [apply Z.mul_nonneg_nonneg|apply Z.mul_le_mono_nonneg_l]; vlia).
    assert (forall a, sp C sh k <= a < sp C sh k + NODE -> rd8 m a = rd8 mA a) as Hk'.
    { intros a Ha'. unfold sp in Ha'. rewrite HD, HoutC by vlia. unfold mB. rewrite rd8_blit, decide_False by vlia. done. }
    eapply shared_later; [exact Ha| |].
    + intros o Ho. apply Hk'. vlia.
    + rewrite <- (sp_next _ _ _ _ _ Ha). apply ld_ext. intros i Hi. apply Hk'. vlia.
Qed.

(** The memory [init] leaves, before the swap file is written. *)
Lemma init_memory fuel s :
  (page_count C < fuel)%nat -> (swap_count C < fuel)%nat -> (4 < fuel)%nat ->
  let s1 := set_shared (p + PHYSICAL_SIZE C - PS * 4) (set_memp p s) in
  exists m, init C junk fuel p s = (writeSwap C (swap_init C);; mret tt) (set_ram m s1) /\
    initialised C p (set_ram m s1).
Proof.
  intros Hf1 Hf2 Hf3 s1. pose proof Hok as [Hp Hmax HPS Htab Hos Hosz Hmem Hsw Hswmax Hswt Hswm Hap].
  assert (safe C s1 p (p + PHYSICAL_SIZE C)) as Hs by (apply (mem_safe C s1); done).
  assert (safe C s1 (swap_init C) (swap_init C + SWAP_SIZE C)) as Hss by (by apply swap_init_safe).
  unfold init. destruct (Z.eqb_spec p NULL); [vlia|].
  rewrite (bind_Ret _ _ _ tt (set_memp p s)), (bind_Ret _ _ _ tt (set_ram (ram s) s1)) by done.
  destruct (freePages_loop_run C junk s1 sh ltac:(vlia) HPS 4 0 fuel (ram s) (PS * 4)) as (mA & EA & HA & _ & HoutA).
  1-2: change (0 + 4)%nat with 4%nat; rewrite sh_end. { eapply safe_sub; [exact Hs|vlia|lia]. } { lia. }
  { change (Z.of_nat 4) with 4. vlia. } { lia. }
  unfold sp_before, sp in EA. simpl Z.of_nat in EA. rewrite Z.mul_0_r, Z.add_0_r in EA.
  unfold initializeFreePages. rewrite (bind_Ret _ _ _ _ _ EA).
  fold (init_new C junk p). cbn zeta.
  rewrite (copy_out_bind C s1 mA _ _ _ _ _ _ Hs) by vlia. set (mB := blit _ mA _ _ 0).
  destruct (table_loop_area C s1 new p (MEMORY_START C) (OSRESERVED_START C - NODE)
    (PHYSICAL_SIZE C - PS * 4 - MEMORY_START C) (PHYSICAL_SIZE C) mB fuel) as (mC & EC & HC & HoutC);
    [vlia..|done|ld_fields; done|done|].
  rewrite Z.add_sub_assoc in EC. rewrite (bind_Ret _ _ _ _ _ EC).
  destruct (table_loop_area C s1 (st 4 new o_order 0) (swap_init C) (SWAP_MEMORY_START C) (SWAP_MEMORY_START C - NODE)
    (SWAP_SIZE C - (SWAP_MEMORY_START C + PS)) (SWAP_SIZE C) mC fuel) as (mD & ED & _ & HoutD);
    [vlia..|done|ld_fields; done|done|].
  rewrite Z.add_sub_assoc in ED. rewrite (bind_Ret _ _ _ _ _ ED).
  exists mD. split; [done|]. apply (initialised_intro s1 mA mC); [done|done|..].
  - intros k Hk. apply HA. lia.
  - done.
  - intros a Ha. apply HoutC. lia.
  - intros a Ha. apply HoutD. unfold apart in Hap. vlia.
Qed.

(** The swap file plays no part in it. *)
Lemma initialised_swapfile x s : initialised C p s -> initialised C p (set_swapfile x s).
Proof.
  intros [? ? [] Ht ? ? ?]. split; try done. intros k Hk. by destruct (Ht k Hk).
Qed.

(** [init] returns, and leaves the memory initialised. *)
Lemma init_run fuel s :
  (page_count C < fuel)%nat -> (swap_count C < fuel)%nat -> (4 < fuel)%nat ->
  exists s', init C junk fuel p s = Ret (tt, s') /\ initialised C p s' /\ running s' = running s /\ prot s' = prot s.
Proof.
  intros H1 H2 H3. destruct (init_memory fuel s H1 H2 H3) as (m & E & Hi). rewrite E.
  set (s1 := set_shared sh (set_memp p s)) in *.
  assert (safe C s1 (swap_init C) (swap_init C + SWAP_SIZE C)) as Hss by (apply swap_init_safe, Hok).
  destruct (writeSwap_run C (swap_init C) s1 m) as (r & E'); [done|destruct Hok; vlia|].
  rewrite (bind_Ret _ _ _ _ _ E'). destruct (swap_wok s1); eexists; split_and!; try reflexivity; try done.
  by apply initialised_swapfile.
Qed.

End Init.
