(* ===== verification/VmArena.v ===== *)
(** * The memory manager: allocating elements

    First-fit allocation in an area of elements: used elements followed by a
    free one, the way the requests of the OS find it. *)

From S2P Require Import Prelude LinkedList ByteMem Vm VmSpec VmElems VmSwap VmPages VmFree.
Import Vm.

(** From [n]: used elements of the sizes [zs], then a free element that claims
    [r] bytes, the last. *)
Fixpoint arena (m : bytes) (prev n : Z) (zs : list Z) (r : Z) : Prop :=
  match zs with
  | [] =>
      ld 4 m (n + o_free) = 1 /\ ld 4 m (n + o_size) = r /\ ld 8 m (n + o_start) = n + NODE /\
      ld 8 m (n + o_next) = NULL /\ ld 8 m (n + o_prev) = prev
  | z :: zs' =>
      ld 4 m (n + o_free) = 0 /\ ld 4 m (n + o_size) = z /\ ld 8 m (n + o_start) = n + NODE /\
      ld 8 m (n + o_next) = n + NODE + z /\ ld 8 m (n + o_prev) = prev /\ 0 <= z /\
      arena m n (n + NODE + z) zs' r
  end.

(** The nodes of such an area, and its last one. *)
Fixpoint arena_nodes (n : Z) (zs : list Z) : list Z :=
  match zs with
  | [] => [n]
  | z :: zs' => n :: arena_nodes (n + NODE + z) zs'
  end.

Fixpoint arena_last (n : Z) (zs : list Z) : Z :=
  match zs with
  | [] => n
  | z :: zs' => arena_last (n + NODE + z) zs'
  end.

(** Where the blocks of the sizes [zs] are placed. *)
Fixpoint blocks (n : Z) (zs : list Z) : list Z :=
  match zs with
  | [] => []
  | z :: zs' => (n + NODE) :: blocks (n + NODE + z) zs'
  end.

Lemma arena_last_app n zs zs' : arena_last n (zs ++ zs') = arena_last (arena_last n zs) zs'.
Proof. revert n. induction zs as [|z zs IH]; intros n; simpl; [done|apply IH]. Qed.

Lemma arena_last_ge m prev n zs r : arena m prev n zs r -> n <= arena_last n zs.
Proof.
  revert prev n. induction zs as [|z zs IH]; intros prev n; cbn [arena arena_last]; [lia|].
  intros (_ & _ & _ & _ & _ & ? & ?%IH). vlia.
Qed.

Lemma arena_nodes_length n zs : length (arena_nodes n zs) = S (length zs).
Proof. revert n. induction zs as [|z zs IH]; intros n; simpl; [done|by rewrite IH]. Qed.

Lemma arena_nodes_in m prev n zs r x :
  arena m prev n zs r -> x ∈ arena_nodes n zs -> n <= x <= arena_last n zs.
Proof.
  revert prev n. induction zs as [|z zs IH]; intros prev n; cbn [arena arena_nodes arena_last].
  - by intros _ ->%list_elem_of_singleton.
  - intros (_ & _ & _ & _ & _ & ? & Ha) [->|Hx]%elem_of_cons.
    + apply arena_last_ge in Ha. vlia.
    + apply (IH _ _ Ha) in Hx. vlia.
Qed.

Lemma arena_chain m prev n zs r : 0 < n -> arena m prev n zs r -> chain m n (arena_nodes n zs).
Proof.
  revert prev n. induction zs as [|z zs IH]; intros prev n Hn; cbn [arena arena_nodes chain].
  - intros (_ & _ & _ & En & _). split_and!; [done|vlia|done].
  - intros (_ & _ & _ & En & _ & ? & Ha). split_and!; [done|vlia|]. rewrite En. eapply IH; [vlia|done].
Qed.

(** The only free element is the last. *)
Lemma arena_first m prev n zs r size :
  arena m prev n zs r -> size <= r -> first (fits m size) (arena_nodes n zs) = arena_last n zs.
Proof.
  intros Ha Hr. revert prev n Ha. induction zs as [|z zs IH]; intros prev n; cbn [arena arena_nodes arena_last first].
  - intros (Ef & Ez & _). unfold fits, is_free. rewrite Ef, Ez. destruct (Z.leb_spec size r); [done|lia].
  - intros (Ef & _ & _ & _ & _ & _ & Ha). unfold fits, is_free. rewrite Ef. simpl. eauto.
Qed.

(** Writes after the last node, or inside blocks, leave the area as it is. *)
Lemma arena_agree m m' prev n zs r :
  (forall x o, x ∈ arena_nodes n zs -> 0 <= o < NODE -> rd8 m' (x + o) = rd8 m (x + o)) ->
  arena m prev n zs r -> arena m' prev n zs r.
Proof.
  revert prev n. induction zs as [|z zs IH]; intros prev n Hm; cbn [arena arena_nodes] in *.
  - assert (forall k o, 0 <= o -> o + Z.of_nat k <= NODE -> ld k m' (n + o) = ld k m (n + o)) as Hld.
    { intros k o ??. apply ld_ext. intros i Hi. rewrite <- !Z.add_assoc. apply Hm; [left|lia]. }
    by rewrite !Hld by vlia.
  - assert (forall k o, 0 <= o -> o + Z.of_nat k <= NODE -> ld k m' (n + o) = ld k m (n + o)) as Hld.
    { intros k o ??. apply ld_ext. intros i Hi. rewrite <- !Z.add_assoc. apply Hm; [left|lia]. }
    rewrite !Hld by vlia. intros (? & ? & ? & ? & ? & ? & ?). split_and!; try done.
    apply IH; [|done]. intros x o Hx. apply Hm. by right.
Qed.

(** The last node is split. *)
Lemma arena_split m m' prev n zs r size :
  arena m prev n zs r -> 0 <= size ->
  (forall a, ~ (arena_last n zs <= a < arena_last n zs + NODE + size + NODE) -> rd8 m' a = rd8 m a) ->
  (forall pv, arena m pv (arena_last n zs) [] r -> arena m' pv (arena_last n zs) [size] (r - size)) ->
  arena m' prev n (zs ++ [size]) (r - size).
Proof.
  intros Ha Hs. revert prev n Ha. induction zs as [|z zs IH]; intros prev n Ha Hm Hl; cbn [app arena_last] in *.
  - by apply Hl.
  - cbn [arena] in *. destruct Ha as (? & ? & ? & ? & ? & ? & Ha). pose proof (arena_last_ge _ _ _ _ _ Ha).
    assert (forall k o, 0 <= o -> o + Z.of_nat k <= NODE -> ld k m' (n + o) = ld k m (n + o)) as Hld.
    { intros k o ??. apply ld_ext. intros i Hi. apply Hm. vlia. }
    rewrite !Hld by vlia. split_and!; try done. by apply IH.
Qed.

Section Alloc.
Context (C : config) (junk : bytes) (s : vm).

(** Splitting a free element: the rest keeps all of the size that is left,
    without the room of its own node. *)
Lemma createSpace_split m n z size :
  ld 4 m (n + o_free) = 1 -> ld 4 m (n + o_size) = z -> ld 8 m (n + o_start) = n + NODE -> ld 8 m (n + o_next) = NULL ->
  0 <= size -> size + NODE < z < 2 ^ 31 -> 0 < n -> n + NODE + size + NODE < 2 ^ 64 ->
  safe C s n (n + NODE + size + NODE) ->
  exists m', createSpace C junk n size (set_ram m s) = Ret (0, set_ram m' s) /\
    (forall pv, ld 8 m (n + o_prev) = pv -> arena m' pv n [size] (z - size)) /\
    (forall a, ~ (n <= a < n + NODE) -> ~ (n + NODE + size <= a < n + NODE + size + NODE) -> rd8 m' a = rd8 m a).
Proof.
  intros Ef Ez Est Enx Hsz Hz Hn Hmax Hs. unfold createSpace, n_free, n_size, n_next, n_start.
  rewrite (load_bind C s m 4 _ _ _ _ Hs), Ef by vlia. change (1 =? 0) with false. cbn match.
  rewrite (store_bind C s m 4 _ _ _ _ _ Hs) by vlia.
  rewrite (load_bind C s _ 4 _ _ _ _ Hs), ld_st_disj, Ez by vlia. rewrite (store_bind C s _ 4 _ _ _ _ _ Hs) by vlia.
  rewrite (wraps_small 32 (z - size)), (wrapu_small 64 (z - size)) by vlia.
  destruct (Z.ltb_spec NODE (z - size)); [|lia].
  set (m1 := st 4 (st 4 m _ 0) _ size).
  assert (ld 8 m1 (n + o_next) = NULL) as Enx1 by (unfold m1; rewrite !ld_st_disj by vlia; done).
  assert (ld 8 m1 (n + o_start) = n + NODE) as Est1 by (unfold m1; rewrite !ld_st_disj by vlia; done).
  set (m2 := blit (Z.to_nat NODE) m1 (n + NODE + size)
    (local_node 0 0 1 1 (n + NODE + size + NODE) (z - size) NULL n junk) 0).
  exists (st 8 m2 (n + o_next) (n + NODE + size)). split_and!.
  - unfold mbind at 1, prog_bind, p_bind at 1.
    rewrite (load_bind C s m1 8 _ _ _ _ Hs), (load_bind C s m1 8 _ _ _ _ Hs), Enx1, Est1 by vlia.
    rewrite (copy_out_bind C s m1 _ _ _ _ _ _ Hs) by vlia. fold m2.
    rewrite (store_at C s m2 8 _ _ _ _ Hs) by vlia. done.
  - intros pv Epv. cbn [arena]. rewrite ld8_st by vlia.
    assert (forall k o, 0 <= o -> o + Z.of_nat k <= NODE -> ld k m2 (n + o) = ld k m1 (n + o)) as Hlo.
    { intros k o ??. unfold m2. rewrite ld_blit_disj by vlia. done. }
    rewrite !(ld_st_disj 8) by vlia. rewrite !Hlo by vlia. unfold m2. rewrite !ld_copied by vlia.
    rewrite ln_free, ln_size, ln_start, ln_next, ln_prev, !Z.mod_small by vlia. unfold m1.
    repeat first [rewrite ld4_st by vlia | rewrite ld_st_disj by vlia]. split_and!; try done; vlia.
  - intros a Ha1 Ha2. rewrite rd8_st, decide_False by vlia. unfold m2. rewrite rd8_blit, decide_False by vlia.
    unfold m1. rewrite !rd8_st, !decide_False by vlia. done.
Qed.

Lemma arena_at_last m prev n zs r : arena m prev n zs r -> exists pv, arena m pv (arena_last n zs) [] r.
Proof.
  revert prev n. induction zs as [|z zs IH]; intros prev n; cbn [arena arena_last]; [by eauto|].
  intros (_ & _ & _ & _ & _ & _ & ?%IH). done.
Qed.

(** One request: the block is at the start of the free element. *)
Lemma getFreeElementFrom_run fuel m n zs r size hi :
  arena m NULL n zs r -> 0 <= size -> size + NODE < r < 2 ^ 31 -> 0 < n -> hi < 2 ^ 64 ->
  arena_last n zs + NODE + size + NODE <= hi -> safe C s n hi -> (length zs + 1 < fuel)%nat ->
  exists m', getFreeElementFrom C junk fuel n size (set_ram m s) = Ret (arena_last n zs + NODE, set_ram m' s) /\
    arena m' NULL n (zs ++ [size]) (r - size) /\
    (forall a, ~ (n <= a < hi) -> rd8 m' a = rd8 m a).
Proof.
  intros Ha Hsz Hr Hn Hmax Hhi Hs Hf. pose proof (arena_last_ge _ _ _ _ _ Ha) as Hge.
  destruct (arena_at_last _ _ _ _ _ Ha) as (pv & Ef & Ez & Est & Enx & Epv).
  unfold getFreeElementFrom. erewrite bind_Ret.
  2:{ eapply findFreeSpace_run; [by eapply arena_chain| |rewrite arena_nodes_length; lia].
      apply Forall_forall. intros x Hx. eapply arena_nodes_in in Hx; [|done]. eapply safe_sub; [exact Hs|lia|vlia]. }
  rewrite (arena_first _ _ _ _ _ _ Ha) by vlia. set (x := arena_last n zs) in *.
  destruct (Z.eqb_spec x NULL); [vlia|].
  destruct (createSpace_split m x r size) as (m' & E & Hsp & Hout); [done..|vlia|vlia| |].
  { eapply safe_sub; [exact Hs|lia|lia]. }
  rewrite (bind_Ret _ _ _ _ _ E). change (negb (0 =? 0)) with false. cbn match. unfold n_start.
  destruct (Hsp pv Epv) as (_ & _ & Est' & _).
  rewrite (load_at C s m' 8 _ _ _ Hs), Est' by vlia. exists m'. split_and!; [done| |].
  - apply (arena_split m); [done|done| |].
    + intros a Ha'. apply Hout; fold x in Ha'; vlia.
    + intros pv' (_ & _ & _ & _ & Epv'). by apply Hsp.
  - intros a Ha'. apply Hout; vlia.
Qed.

End Alloc.

(** ** Requests of the OS *)

Definition total (zs : list Z) : Z := foldr Z.add 0 zs.

Lemma total_nonneg zs : Forall (fun z => 0 <= z) zs -> 0 <= total zs.
Proof. induction 1; simpl; lia. Qed.

Lemma total_app zs zs' : total (zs ++ zs') = total zs + total zs'.
Proof. induction zs as [|z zs IH]; [done|]. change (z + total (zs ++ zs') = z + total zs + total zs'). lia. Qed.

Lemma arena_last_total n zs : arena_last n zs = n + total zs + NODE * Z.of_nat (length zs).
Proof.
  revert n. induction zs as [|z zs IH]; intros n; [simpl; lia|]. cbn [arena_last length]. rewrite IH.
  change (total (z :: zs)) with (z + total zs). lia.
Qed.

(** Blocks do not overlap: there is a node between them. *)
Lemma blocks_apart n zs i j x y z :
  Forall (fun z => 0 <= z) zs -> (i < j)%nat -> blocks n zs !! i = Some x -> zs !! i = Some z -> blocks n zs !! j = Some y ->
  x + z + NODE <= y.
Proof.
  assert (forall n zs j y, Forall (fun z => 0 <= z) zs -> blocks n zs !! j = Some y -> n + NODE <= y) as Hlow.
  { clear. intros n zs. revert n. induction zs as [|z zs IH]; intros n [|j] y Hz; cbn [blocks]; try done.
    - intros [= <-]. lia.
    - apply Forall_cons in Hz as [Hz Hzs]. intros Hj. change (blocks (n + NODE + z) zs !! j = Some y) in Hj.
      pose proof (IH _ _ _ Hzs Hj). vlia. }
  intros Hz. revert n i j Hz. induction zs as [|z0 zs IH]; intros n i j Hz Hij; [done|].
  apply Forall_cons in Hz as [Hz0 Hzs]. destruct j as [|j]; [lia|].
  change (blocks n (z0 :: zs) !! S j) with (blocks (n + NODE + z0) zs !! j). destruct i as [|i].
  - cbn [blocks]. intros [= <-] [= <-] Hy. pose proof (Hlow _ _ _ _ Hzs Hy). lia.
  - change (blocks n (z0 :: zs) !! S i) with (blocks (n + NODE + z0) zs !! i).
    change ((z0 :: zs) !! S i) with (zs !! i). apply IH; [done|lia].
Qed.

Lemma blocks_length n zs : length (blocks n zs) = length zs.
Proof. revert n. induction zs as [|z zs IH]; intros n; simpl; [done|by rewrite IH]. Qed.

Lemma blocks_lookup n zs i : blocks n zs !! i = if decide (i < length zs)%nat then Some (arena_last n (take i zs) + NODE) else None.
Proof.
  revert n i. induction zs as [|z zs IH]; intros n i; [by rewrite decide_False by (simpl; lia)|].
  destruct i as [|i]; [done|]. change (blocks n (z :: zs) !! S i) with (blocks (n + NODE + z) zs !! i). rewrite IH.
  simpl length. repeat case_decide; (lia || done).
Qed.

(** The OS area of state [s]: blocks of the sizes [zs], [r] bytes claimed by
    the free element. *)
Definition os_area (C : config) (s : vm) (zs : list Z) (r : Z) : Prop :=
  arena (ram s) NULL (memp s + OSRESERVED_START C) zs r.

Section Requests.
Context (C : config) (junk : bytes) (fuel rec : nat) (p : Z) (sizes1 sizes2 : list Z).

Abbreviation request := (fun z => myallocate C junk fuel rec p sizes1 sizes2 z OSREQ).

(** Allowing accesses changes only the protection. *)
Lemma memoryAllowAll_run s : exists e P, memoryAllowAll C s = Ret (e, set_prot P s).
Proof.
  unfold memoryAllowAll. rewrite (bind_Ret _ _ _ (memp s) s) by done. unfold mprotect.
  destruct ((memp s + MEMORY_START C) `mod` page_size C =? 0).
  - erewrite bind_Ret by done. by do 2 eexists.
  - erewrite bind_Ret by done. exists 1, (prot s). by destruct s.
Qed.

Lemma os_request_run s zs r size :
  os_area C s zs r -> 0 <= size -> size + NODE < r < 2 ^ 31 -> 0 < memp s -> 0 <= OSRESERVED_START C ->
  memp s + PHYSICAL_SIZE C < 2 ^ 64 -> arena_last (OSRESERVED_START C) zs + NODE + size + NODE <= PHYSICAL_SIZE C ->
  (length zs + 1 < fuel)%nat ->
  exists s', request size s = Ret (arena_last (memp s + OSRESERVED_START C) zs + NODE, s') /\
    os_area C s' (zs ++ [size]) (r - size) /\ memp s' = memp s.
Proof.
  intros Ha Hsz Hr Hm Hos Hmax Hend Hf. unfold myallocate. rewrite (bind_Ret _ _ _ s s) by done.
  destruct (Z.eqb_spec (memp s) NULL); [vlia|]. rewrite (bind_Ret _ _ _ tt s) by done.
  destruct (memoryAllowAll_run s) as (e & P & E). rewrite (bind_Ret _ _ _ _ _ E).
  rewrite (bind_Ret _ _ _ (set_prot P s) (set_prot P s)) by done.
  change (OSREQ =? SHALLOC) with false. change (OSREQ =? THREADREQ) with false. change (OSREQ =? OSREQ) with true.
  cbn match. change (memp (set_prot P s)) with (memp s).
  destruct (getFreeElementFrom_run C junk (set_prot P s) fuel (ram s) (memp s + OSRESERVED_START C) zs r size
    (memp s + PHYSICAL_SIZE C)) as (m' & E' & Ha' & _); try done; [lia| | |].
  - rewrite !arena_last_total in *. lia.
  - eapply safe_sub; [by apply (mem_safe C (set_prot P s))|simpl; lia|simpl; lia].
  - change (set_ram (ram s) (set_prot P s)) with (set_prot P s) in E'.
    exists (set_ram m' (set_prot P s)). split_and!; [|done|done]. by destruct s.
Qed.

(** The first request initialises the memory. *)
Lemma first_request s s' z :
  memp s = NULL -> init C junk fuel p s = Ret (tt, s') -> memp s' <> NULL -> request z s = request z s'.
Proof.
  intros Hm Ei Hm'. unfold myallocate. rewrite (bind_Ret _ _ _ s s), (bind_Ret _ _ _ s' s') by done.
  rewrite Hm. change (NULL =? NULL) with true. cbn match. rewrite (bind_Ret _ _ _ _ _ Ei).
  destruct (Z.eqb_spec (memp s') NULL); [done|]. by rewrite (bind_Ret _ _ _ tt s') by done.
Qed.

(** A series of requests gets consecutive blocks. *)
Lemma os_requests_run reqs : forall s zs r,
  os_area C s zs r -> Forall (fun z => 0 <= z) reqs -> total reqs + NODE < r < 2 ^ 31 -> 0 < memp s ->
  0 <= OSRESERVED_START C -> memp s + PHYSICAL_SIZE C < 2 ^ 64 ->
  arena_last (OSRESERVED_START C) (zs ++ reqs) + NODE <= PHYSICAL_SIZE C ->
  (length zs + length reqs < fuel)%nat ->
  exists s', mapM request reqs s = Ret (blocks (arena_last (memp s + OSRESERVED_START C) zs) reqs, s') /\
    os_area C s' (zs ++ reqs) (r - total reqs) /\ memp s' = memp s.
Proof.
  induction reqs as [|z reqs IH]; intros s zs r Ha Hz Hr Hm Hos Hmax Hend Hf.
  - exists s. rewrite app_nil_r. simpl total. by rewrite Z.sub_0_r.
  - apply Forall_cons in Hz as [Hz Hzs]. pose proof (total_nonneg _ Hzs).
    change (total (z :: reqs)) with (z + total reqs) in *. cbn [mapM blocks length] in *.
    destruct (os_request_run s zs r z) as (s1 & E1 & Ha1 & Hm1); [done|done|lia|done|done|done| |lia|].
    { rewrite arena_last_total, total_app, length_app in *. change (total (z :: reqs)) with (z + total reqs) in *.
      cbn [length] in Hend. vlia. }
    rewrite (bind_Ret _ _ _ _ _ E1).
    destruct (IH s1 (zs ++ [z]) (r - z)) as (s2 & E2 & Ha2 & Hm2); rewrite ?Hm1, <- ?app_assoc; try done; [lia|rewrite length_app; simpl; lia|].
    rewrite Hm1, arena_last_app in E2. rewrite (bind_Ret _ _ _ _ _ E2). exists s2. split_and!; [done| |congruence].
    rewrite <- app_assoc in Ha2. by replace (r - (z + total reqs)) with (r - z - total reqs) by lia.
Qed.

End Requests.

(** ** Freeing *)

Section Freeing.
Context (C : config) (s : vm).

(** Freeing the only block joins it with the free element, which keeps its own
    size and the room of a node, but not the size of the block. *)
Lemma removeSpace_only m n z r hi :
  arena m NULL n [z] r -> 0 < n -> n + NODE + z + NODE <= hi -> hi < 2 ^ 64 -> 0 <= r -> r + NODE < 2 ^ 32 ->
  safe C s n hi ->
  exists m', removeSpace C (n + NODE) ELEMENT (set_ram m s) = Ret (0, set_ram m' s) /\ arena m' NULL n [] (r + NODE).
Proof.
  intros (Ef & Ez & Est & Enx & Epv & Hz & Ef' & Er & _ & Enx' & _) Hn Hhi Hmax Hr Hr2 Hs.
  unfold removeSpace. change (ELEMENT =? PAGE) with false. cbn match. replace (n + NODE - NODE) with n by lia.
  unfold n_free, n_prev, n_next. rewrite (load_bind C s m 4 _ _ _ _ Hs), Ef by vlia. change (negb (0 =? 0)) with false. cbn match.
  rewrite (load_bind C s m 8 _ _ _ _ Hs), Epv by vlia. rewrite (load_bind C s m 8 _ _ _ _ Hs), Enx by vlia.
  rewrite 2!(store_bind C s _ 4 _ _ _ _ _ Hs) by vlia. cbn [negb]. set (b := n + NODE + z) in *.
  set (m1 := st 4 (st 4 m (n + o_free) 1) (n + o_pid) 0).
  assert (forall k o, 0 <= o -> ld k m1 (b + o) = ld k m (b + o)) as Hb.
  { intros k o ?. unfold m1. rewrite !ld_st_disj by (unfold b; vlia). done. }
  set (m2 := st 4 m1 (n + o_size) (r + NODE)).
  assert (forall k o, 0 <= o -> ld k m2 (b + o) = ld k m1 (b + o)) as Hb2.
  { intros k o ?. unfold m2. rewrite !ld_st_disj by (unfold b; vlia). done. }
  exists (st 8 m2 (n + o_next) NULL). split.
  - unfold merge, n_free, n_size, n_next. change (NULL =? NULL) with true.
    destruct (Z.eqb_spec b NULL); [unfold b in *; vlia|]. cbn [andb negb].
    erewrite bind_Ret; [done|]. rewrite (load_bind C s m1 4 _ _ _ _ Hs), Hb, Ef' by (unfold b; vlia).
    change (negb (1 =? 0)) with true. cbn match.
    rewrite (load_bind C s m1 4 _ _ _ _ Hs), Hb, Er by (unfold b; vlia).
    rewrite (store_bind C s m1 4 _ _ _ _ _ Hs) by vlia. fold m2.
    rewrite (load_bind C s m2 8 _ _ _ _ Hs), Hb2, Hb, Enx' by (unfold b; vlia).
    rewrite (store_at C s m2 8 _ _ _ _ Hs) by vlia. done.
  - cbn [arena]. unfold m2, m1. repeat first [rewrite ld8_st by vlia | rewrite ld4_st by vlia | rewrite ld_st_disj by vlia].
    done.
Qed.

End Freeing.
