(* ===== verification/VmVictim.v ===== *)
(** * The memory manager: choosing a page to evict *)

From S2P Require Import Prelude LinkedList ByteMem Vm VmSpec VmElems VmSwap VmPages VmPageOps.
Import Vm.

(** The clock of page [k] ticks. *)
Definition tick (k : nat) (l : list page) : list page := alter (fun g => set_clock (g_clock g + 1) g) k l.

(** The clocks of the pages [k .. j - 1], the last first. *)
Definition ticks (k j : nat) (l : list page) : list page := foldr tick l (seq k (j - k)).

(** The process owns page [k], whose clock is below [c]. *)
Definition held (pid c : Z) (l : list page) (k : nat) : Prop :=
  exists g, l !! k = Some g /\ g_pid g = pid /\ - 2 ^ 7 <= g_clock g < c.

Lemma tick_length k l : length (tick k l) = length l.
Proof. apply length_alter. Qed.

Lemma held_tick pid c l k i : held pid c l k -> k <> i -> held pid c (tick i l) k.
Proof. intros (g & Hg & ?) Hne. exists g. unfold tick. by rewrite list_lookup_alter_ne. Qed.

Lemma held_ticked pid c l k : held pid c l k -> c <= 2 -> held pid 3 (tick k l) k.
Proof.
  intros (g & Hg & ? & ?) Hc. eexists. split; [unfold tick; rewrite list_lookup_alter_eq, Hg; done|]. simpl. split; [done|lia].
Qed.

Section Victim.
Context (C : config) (s : vm) (N : nat) (L : layout C s N) (pid : Z).
Context (Hnull : null_unmapped C s).
Implicit Types (m : bytes).

Lemma getLastPage_run fuel m :
  table C s N m -> (N < fuel)%nat -> getLastPage C fuel (set_ram m s) = Ret (node s (pred N), set_ram m s).
Proof.
  intros Ht Hf. unfold getLastPage. rewrite (bind_Ret _ _ _ _ _ (first_page s (set_ram m s) eq_refl)).
  replace (node s 0) with (memp s) by (unfold node; vlia).
  rewrite (last_loop_run C (nodes s N)); [|by eapply table_chain|by eapply nodes_ok_table|by rewrite nodes_length].
  do 2 f_equal. unfold nodes. pose proof (l_N _ _ _ L). replace N with (S (pred N)) at 1 by lia.
  rewrite seq_S, fmap_app, last_app. done.
Qed.

(** The page at hand, read from the list. *)
Lemma page_fields m k g :
  (k < N)%nat -> pages C s N m !! k = Some g ->
  ld 4 m (node s k + o_pid) = g_pid g /\ wraps 8 (ld 1 m (node s k + o_clock)) = g_clock g.
Proof. intros Hk Hg. rewrite pages_lookup in Hg by done. by injection Hg as <-. Qed.

Lemma victim_stop f m k :
  table C s N m -> (k < N)%nat -> g_pid (page_at C s m k) <> pid ->
  victim_loop C (S f) pid (node s k) 0 (set_ram m s) = Ret (node s k, set_ram m s).
Proof.
  intros Ht Hk Hg. cbn [victim_loop]. rewrite (node_not_null C s N L). unfold n_pid.
  pose proof (node_safe C s N L k Hk) as Hs. rewrite (load_bind C s m 4 _ _ _ _ Hs) by vlia.
  rewrite (clock_bind C s m _ _ _ _ Hs) by lia.
  destruct (Z.eqb_spec (ld 4 m (node s k + o_pid)) pid); [done|]. done.
Qed.

(** One step back, which makes the clock of the page before tick. *)
Lemma victim_back f m k :
  table C s N m -> (S k < N)%nat -> held pid 3 (pages C s N m) (S k) ->
  g_clock (page_at C s m k) < 2 ^ 7 - 1 ->
  exists m', victim_loop C (S f) pid (node s (S k)) 0 (set_ram m s) =
      victim_loop C f pid (node s k) 0 (set_ram m' s) /\ shows C s N m (tick k (pages C s N m)) m'.
Proof.
  intros Ht Hk (g & Hg & Hpid & Hc) Hc'. cbn [victim_loop]. rewrite (node_not_null C s N L).
  set (g' := page_at C s m k) in *. pose proof (pages_lookup C s N m k ltac:(lia)) as Hg'. fold g' in Hg'.
  assert (- 2 ^ 7 <= g_clock g') by (apply (wraps_range 8); lia).
  destruct (page_fields m (S k) g Hk Hg) as [E1 E2]. destruct (page_fields m k g' ltac:(lia) Hg') as [_ E3].
  pose proof (node_safe C s N L (S k) Hk) as Hs. pose proof (node_safe C s N L k ltac:(lia)) as Hs'.
  unfold n_pid, n_prev. rewrite (load_bind C s m 4 _ _ _ _ Hs), E1 by vlia. rewrite (clock_bind C s m _ _ _ _ Hs), E2 by lia.
  destruct (Z.eqb_spec (g_pid g) pid); [|done]. destruct (Z.ltb_spec (g_clock g) 3); [|lia]. cbn [andb].
  rewrite (load_bind C s m 8 _ _ _ _ Hs) by vlia. destruct (Ht (S k) Hk) as [_ _ -> _].
  rewrite decide_False by lia. cbn [pred]. rewrite (clock_bind C s m _ _ _ _ Hs'), E3 by lia.
  rewrite (store_bind C s m 1 _ _ _ _ _ Hs') by vlia. rewrite (node_not_null C s N L). cbn [andb].
  eexists. split; [done|]. unfold tick. rewrite (alter_insert _ k _ g' Hg').
  change (set_clock (g_clock g' + 1) g') with ((fun h => set_clock (g_clock g' + 1) h) g').
  rewrite <- (alter_insert _ k _ g' Hg'). apply store_clock; [done|done|lia|lia].
Qed.

Lemma shows_page m l m' k g : shows C s N m l m' -> (k < N)%nat -> l !! k = Some g -> page_at C s m' k = g.
Proof. intros [_ El _ _] Hk Hg. rewrite <- El, pages_lookup in Hg by done. by injection Hg. Qed.

Lemma held_page m c k : (k < N)%nat -> held pid c (pages C s N m) k -> g_clock (page_at C s m k) < c.
Proof. intros Hk (g & Hg & _ & ?). rewrite pages_lookup in Hg by done. injection Hg as <-. lia. Qed.

Lemma ticks_S k j l : (k <= j)%nat -> ticks k (S j) l = ticks k j (tick j l).
Proof.
  intros. unfold ticks. replace (S j - k)%nat with (S (j - k)) by lia. rewrite seq_S, foldr_app.
  by replace (k + (j - k))%nat with j by lia.
Qed.

(** Back to the last page [k] of another process. *)
Lemma victim_found j k fuel m :
  table C s N m -> (k <= j < N)%nat -> (j - k < fuel)%nat ->
  g_pid (page_at C s m k) <> pid -> ((k < j)%nat -> g_clock (page_at C s m k) < 2 ^ 7 - 1) ->
  (forall i, (k < i < j)%nat -> held pid 2 (pages C s N m) i) -> ((k < j)%nat -> held pid 3 (pages C s N m) j) ->
  exists m', victim_loop C fuel pid (node s j) 0 (set_ram m s) = Ret (node s k, set_ram m' s) /\
    shows C s N m (ticks k j (pages C s N m)) m'.
Proof.
  revert fuel m. induction j as [|j IH]; intros fuel m Ht Hkj Hf Hp Hc Hmid Hlast; (destruct fuel as [|f]; [lia|]).
  - assert (k = 0)%nat as -> by lia. exists m. split; [|by apply shows_refl]. apply victim_stop; [done|lia|done].
  - destruct (decide (k = S j)) as [->|Hne].
    { exists m. unfold ticks. rewrite Nat.sub_diag. split; [|by apply shows_refl]. apply victim_stop; [done|lia|done]. }
    assert (g_clock (page_at C s m j) < 2 ^ 7 - 1) as Hcj.
    { destruct (decide (k = j)) as [->|]; [apply Hc; lia|].
      pose proof (held_page m 2 j ltac:(lia) (Hmid j ltac:(lia))). lia. }
    destruct (victim_back f m j Ht ltac:(lia) (Hlast ltac:(lia)) Hcj) as (m1 & E1 & Hs1). rewrite E1, ticks_S by lia.
    pose proof Hs1 as [Ht1 Hl1 _ _]. rewrite <- Hl1.
    assert (page_at C s m1 k = if decide (k = j) then set_clock (g_clock (page_at C s m k) + 1) (page_at C s m k)
                               else page_at C s m k) as Ek.
    { eapply shows_page; [exact Hs1|lia|]. unfold tick. case_decide as E.
      - subst k. by rewrite list_lookup_alter_eq, pages_lookup by lia.
      - by rewrite list_lookup_alter_ne, pages_lookup by lia. }
    destruct (IH f m1) as (m2 & E2 & Hs2); [done|lia|lia|..].
    + rewrite Ek. by case_decide.
    + intros ?. rewrite Ek, decide_False by lia. apply Hc. lia.
    + intros i Hi. rewrite Hl1. apply held_tick; [apply Hmid; lia|lia].
    + intros ?. rewrite Hl1. apply (held_ticked pid 2); [apply Hmid; lia|lia].
    + exists m2. split; [done|]. by eapply shows_trans.
Qed.

(** When every page is the process's, the search runs over the front of the
    table. *)
Lemma victim_none j fuel m :
  table C s N m -> (j < N)%nat -> (j < fuel)%nat ->
  (forall i, (i < j)%nat -> held pid 2 (pages C s N m) i) -> held pid 3 (pages C s N m) j ->
  victim_loop C fuel pid (node s j) 0 (set_ram m s) = Fault.
Proof.
  revert fuel m. induction j as [|j IH]; intros fuel m Ht Hj Hf Hall Hlast; (destruct fuel as [|f]; [lia|]).
  - destruct Hlast as (g & Hg & Hp & Hc). cbn [victim_loop]. rewrite (node_not_null C s N L).
    destruct (page_fields m 0 g Hj Hg) as [E1 E2]. pose proof (node_safe C s N L 0 Hj) as Hs.
    unfold n_pid, n_prev. rewrite (load_bind C s m 4 _ _ _ _ Hs), E1 by vlia.
    rewrite (clock_bind C s m _ _ _ _ Hs), E2 by lia.
    destruct (Z.eqb_spec (g_pid g) pid); [|done]. destruct (Z.ltb_spec (g_clock g) 3); [|lia]. cbn [andb].
    rewrite (load_bind C s m 8 _ _ _ _ Hs) by vlia. destruct (Ht 0%nat Hj) as [_ _ -> _]. rewrite decide_True by done.
    apply bind_Fault. unfold n_clock. apply bind_Fault, load_fault, Hnull. vlia.
  - pose proof (held_page m 2 j ltac:(lia) (Hall j ltac:(lia))).
    destruct (victim_back f m j Ht Hj Hlast ltac:(lia)) as (m1 & E1 & [Ht1 Hl1 _ _]). rewrite E1.
    apply IH; [done|lia|lia|..]; rewrite Hl1.
    + intros i Hi. apply held_tick; [apply Hall; lia|lia].
    + apply (held_ticked pid 2); [apply Hall; lia|lia].
Qed.

End Victim.
