(* ===== verification/VmMalloc.v ===== *)
(** * The memory manager: requests of threads

    The elements of a page as used elements followed by a free one, and
    [getFreeElement], which loads the pages of the running thread and allocates
    in the first. *)

From S2P Require Import Prelude LinkedList ByteMem Vm VmSpec VmElems VmSwap VmPages VmPageOps VmLoad VmPlaces VmFree VmArena.
Import Vm.

(** ** Elements and arenas *)

(** An area of [z] bytes at [f] that holds used elements and then a free one,
    which reaches the end of the area. *)
Record page_arena (m : bytes) (f z : Z) (zs : list Z) (r : Z) : Prop := {
  pa_arena : arena m NULL f zs r;
  pa_fits : arena_last 0 zs + NODE < z;
  pa_end : z <= arena_last 0 zs + NODE + r + NODE;
  pa_rest : 0 <= r
}.

Lemma arena_nodes_shift n d zs : arena_nodes (n + d) zs = Z.add n <$> arena_nodes d zs.
Proof.
  revert d. induction zs as [|z zs IH]; intros d; cbn [arena_nodes fmap list_fmap]; [done|].
  f_equal. rewrite <- IH. f_equal. lia.
Qed.

Lemma arena_last_shift n d zs : arena_last (n + d) zs = n + arena_last d zs.
Proof. rewrite !arena_last_total. lia. Qed.

(** Following the sizes finds the elements. *)
Lemma arena_elems_from m f zs r z prev off fuel :
  arena m prev (f + off) zs r -> 0 <= r -> arena_last off zs + NODE < z -> z <= arena_last off zs + NODE + r + NODE ->
  0 <= off -> (length zs < fuel)%nat -> elems_from fuel m f off z = arena_nodes off zs.
Proof.
  intros Ha Hr. revert prev off fuel Ha. induction zs as [|y zs IH]; intros prev off fuel Ha Hlo Hhi Hoff Hf;
    (destruct fuel as [|n]; [simpl in Hf; lia|]); cbn [elems_from arena_nodes arena_last] in *.
  - destruct Ha as (_ & Er & _). destruct (Z.ltb_spec off z); [|vlia]. destruct (Z.ltb_spec NODE (z - off)); [|vlia].
    cbn [andb]. f_equal. rewrite Er. destruct n as [|n]; [done|]. cbn [elems_from].
    destruct (Z.ltb_spec (off + (NODE + r)) z), (Z.ltb_spec NODE (z - (off + (NODE + r)))); cbn [andb]; try done. vlia.
  - destruct Ha as (_ & Ey & _ & _ & _ & Hy & Ha). pose proof (arena_last_ge _ _ _ _ _ Ha) as Hge.
    replace (f + off + NODE + y) with (f + (off + NODE + y)) in * by lia. rewrite arena_last_shift in Hge.
    destruct (Z.ltb_spec off z); [|vlia]. destruct (Z.ltb_spec NODE (z - off)); [|vlia]. cbn [andb]. f_equal.
    rewrite Ey. replace (off + (NODE + y)) with (off + NODE + y) by lia.
    eapply IH; [exact Ha|done|done|vlia|simpl in Hf; lia].
Qed.

Lemma arena_last_count m prev n zs r : arena m prev n zs r -> Z.of_nat (length zs) * NODE <= arena_last n zs - n.
Proof.
  revert prev n. induction zs as [|z zs IH]; intros prev n; cbn [arena arena_last length]; [lia|].
  intros (_ & _ & _ & _ & _ & ? & Ha%IH). vlia.
Qed.

Lemma page_arena_elems m f z zs r : page_arena m f z zs r -> elems m f z = arena_nodes 0 zs.
Proof.
  intros [Ha ???]. unfold elems. apply (arena_elems_from m f zs r z NULL 0); try done; [by rewrite Z.add_0_r|].
  pose proof (arena_last_count _ _ _ _ _ Ha) as Hc. rewrite <- (Z.add_0_r f) in Hc at 1.
  rewrite arena_last_shift in Hc. vlia.
Qed.

(** The sizes and marks of the elements, read elsewhere, and links make an
    arena. *)
Lemma linked_arena m m' f f' zs r prev prev' off :
  arena m prev' (f + off) zs r -> linked m' (Some NULL) f' prev (arena_nodes off zs) ->
  (forall e o, e ∈ arena_nodes off zs -> (o = o_free \/ o = o_size) -> ld 4 m' (f' + e + o) = ld 4 m (f + e + o)) ->
  arena m' prev (f' + off) zs r.
Proof.
  revert prev prev' off. induction zs as [|z zs IH]; intros prev prev' off; cbn [arena arena_nodes].
  - intros (Ef & Ez & _) (En & Ep & Es & _) Hm. rewrite !Hm by (auto; left; done). done.
  - intros (Ef & Ez & _ & _ & _ & Hz & Ha) Hl Hm.
    assert (exists e es, arena_nodes (off + NODE + z) zs = e :: es /\ e = off + NODE + z) as (e & es & Ee & Eoff).
    { destruct zs; simpl; eauto. }
    assert (ld 8 m' (f' + off + o_next) = f' + e /\ ld 8 m' (f' + off + o_prev) = prev /\
      ld 8 m' (f' + off + o_start) = f' + off + NODE /\ linked m' (Some NULL) f' (f' + off) (arena_nodes (off + NODE + z) zs))
      as (En & Ep & Es & Hl') by (rewrite Ee in *; exact Hl).
    rewrite !Hm by (auto; left; done). split_and!; try done; [rewrite En, Eoff; lia|].
    replace (f' + off + NODE + z) with (f' + (off + NODE + z)) by lia. eapply IH.
    + replace (f + off + NODE + z) with (f + (off + NODE + z)) in Ha by lia. exact Ha.
    + done.
    + intros e' o He'. apply Hm. by right.
Qed.

(** Headers of elements are no links of others. *)
Lemma arena_header m prev n zs r off e o k :
  arena m prev (n + off) zs r -> e ∈ arena_nodes off zs -> (o = o_free \/ o = o_size) -> 0 <= k < 4 ->
  link_byte (arena_nodes off zs) (e + o + k) = false.
Proof.
  revert prev off. induction zs as [|z zs IH]; intros prev off; cbn [arena arena_nodes link_byte existsb].
  - intros _ ->%list_elem_of_singleton Ho Hk. rewrite orb_false_r. apply bool_decide_eq_false. vlia.
  - intros (_ & _ & _ & _ & _ & Hz & Ha) He Ho Hk. replace (n + off + NODE + z) with (n + (off + NODE + z)) in Ha by lia.
    apply orb_false_iff. apply elem_of_cons in He as [->|He]; split.
    + apply bool_decide_eq_false. vlia.
    + destruct (existsb _ _) eqn:E; [|done]. apply existsb_exists in E as (x & Hx%list_elem_of_In & Hb%bool_decide_eq_true).
      assert (n + x ∈ arena_nodes (n + (off + NODE + z)) zs) as Hx' by (rewrite arena_nodes_shift; by apply list_elem_of_fmap_2).
      apply (arena_nodes_in _ _ _ _ _ _ Ha) in Hx'. vlia.
    + assert (n + e ∈ arena_nodes (n + (off + NODE + z)) zs) as Hx' by (rewrite arena_nodes_shift; by apply list_elem_of_fmap_2).
      apply (arena_nodes_in _ _ _ _ _ _ Ha) in Hx'. apply bool_decide_eq_false. vlia.
    + by eapply IH.
Qed.

(** A page with the same contents elsewhere, whose elements are linked, holds
    the same arena. *)
Lemma page_arena_moved m m' f f' z PS zs r :
  page_arena m f z zs r -> z <= PS -> body m' f' z PS = body m f z PS -> linked m' (Some NULL) f' NULL (elems m' f' z) ->
  page_arena m' f' z zs r.
Proof.
  intros Hp Hz Hb Hl. pose proof Hp as [Ha ? ? ?]. apply body_inv in Hb as [Ee Hb].
  rewrite Ee, (page_arena_elems _ _ _ _ _ Hp) in *. split; try done.
  rewrite <- (Z.add_0_r f'). rewrite <- (Z.add_0_r f) in Ha. eapply linked_arena; [exact Ha|done|].
  intros e o He Ho. apply ld_ext. intros i Hi. rewrite <- !Z.add_assoc. apply Hb.
  - assert (f + e ∈ arena_nodes (f + 0) zs) as He' by (rewrite arena_nodes_shift; by apply list_elem_of_fmap_2).
    apply (arena_nodes_in _ _ _ _ _ _ Ha) in He'. rewrite arena_last_shift in He'. vlia.
  - rewrite Z.add_assoc. by eapply arena_header.
Qed.

Lemma arena_last_at f zs : arena_last f zs = f + arena_last 0 zs.
Proof. rewrite <- arena_last_shift. f_equal. lia. Qed.

(** ** Pages that move *)

Section Carried.
Context (C : config) (s : vm) (N : nat).
Implicit Types (m : bytes).

Lemma page_arena_same m m' f z zs r :
  (forall o, 0 <= o < z -> rd8 m' (f + o) = rd8 m (f + o)) -> page_arena m f z zs r -> page_arena m' f z zs r.
Proof.
  intros Hm [Ha Hlo Hhi Hr]. split; try done. eapply arena_agree; [|exact Ha]. intros x o Hx Ho.
  apply (arena_nodes_in _ _ _ _ _ _ Ha) in Hx. replace (arena_last f zs) with (f + arena_last 0 zs) in Hx
    by (rewrite <- arena_last_shift; f_equal; lia).
  replace (x + o) with (f + (x - f + o)) by lia. apply Hm. vlia.
Qed.

(** The bytes before the free element, links apart, are those of another
    place. *)
Definition same_data m m' f f' zs : Prop :=
  forall o, 0 <= o < arena_last 0 zs -> link_byte (arena_nodes 0 zs) o = false -> rd8 m' (f' + o) = rd8 m (f + o).

Lemma same_data_trans m1 m2 m3 f1 f2 f3 zs :
  same_data m1 m2 f1 f2 zs -> same_data m2 m3 f2 f3 zs -> same_data m1 m3 f1 f3 zs.
Proof. intros H1 H2 o Ho Hl. by rewrite H2, H1. Qed.

(** The elements of the first page of the process after it came from place
    [k] to place [i]. *)
Lemma carried_arena m m' l pid i k z zs r :
  shows C s N m l m' -> table C s N m -> (i < N)%nat -> (k < N)%nat -> sole (owner pid 1) (pages C s N m) k ->
  erase (pages C s N m') !! i = erase (pages C s N m) !! k -> ld 4 m (node s k + o_size) = z ->
  page_arena m (frame_at C s k) z zs r ->
  page_arena m' (frame_at C s i) z zs r /\ ld 4 m' (node s i + o_size) = z /\ owner pid 1 (page_at C s m' i) = true /\
  same_data m m' (frame_at C s k) (frame_at C s i) zs.
Proof.
  intros Hs Ht Hi Hk [Hown Hsole] Epg Ez Hp.
  rewrite !erase_lookup, !pages_lookup in Epg by done. apply (inj Some) in Epg.
  pose proof (f_equal g_pid Epg) as Epid. pose proof (f_equal g_order Epg) as Eord.
  pose proof (f_equal g_size Epg) as Esz. pose proof (f_equal g_body Epg) as Ebody.
  cbn [set_clock page_at g_pid g_order g_size g_body] in Epid, Eord, Esz, Ebody.
  assert (owner pid 1 (page_at C s m' i) = true) as Hown'.
  { rewrite pages_lookup in Hown by done. injection Hown as Hown. rewrite <- Hown. unfold owner. simpl. by rewrite Epid, Eord. }
  rewrite Ez in Esz. rewrite Esz, Ez in Ebody. destruct (Ht k Hk) as [_ _ _ Hz]. rewrite Ez in Hz. split_and!; [|done|done|].
  - destruct (sh_links _ _ _ _ _ _ Hs i Hi) as [Hl|[Hfr Hid]].
    + unfold linked_at in Hl. rewrite Esz in Hl. eapply page_arena_moved; [exact Hp|apply Hz|exact Ebody|exact Hl].
    + assert (i = k) as <-.
      { apply Hsole. rewrite pages_lookup by done. simpl. f_equal. rewrite <- Hown'. unfold owner. simpl.
        by rewrite !Hid by auto. }
      eapply page_arena_same; [|exact Hp]. intros o Ho. apply Hfr. lia.
  - apply body_inv in Ebody as [_ Hb]. rewrite (page_arena_elems _ _ _ _ _ Hp) in Hb. destruct Hp.
    intros o Ho Hl. apply Hb; [vlia|done].
Qed.

End Carried.

(** ** getFreeElement *)

Section Malloc.
Context (C : config) (junk : bytes) (s : vm) (N : nat) (L : layout C s N) (Hnull : null_unmapped C s).
Context (fuel : nat) (HfN : (N < fuel)%nat) (Hf : (Z.to_nat (page_size C) < fuel)%nat).
Implicit Types (m : bytes).
Abbreviation PS := (page_size C).

(** Splitting the free element of a frame. *)
Lemma split_in_frame m f z zs r size :
  safe C s f (f + z) -> 0 < f -> f + z < 2 ^ 64 -> page_arena m f z zs r ->
  0 <= size -> size + NODE < r < 2 ^ 31 -> arena_last 0 zs + NODE + size + NODE < z ->
  let x := f + arena_last 0 zs in
  exists m', createSpace C junk x size (set_ram m s) = Ret (0, set_ram m' s) /\
    n_start C x (set_ram m' s) = Ret (x + NODE, set_ram m' s) /\
    page_arena m' f z (zs ++ [size]) (r - size) /\
    (forall a, ~ (f + arena_last 0 zs <= a < f + z) -> rd8 m' a = rd8 m a).
Proof.
  intros Hs Hf0 Hmax [Ha Hlo Hhi Hr0] Hsz Hr Hfit x. pose proof (arena_last_ge _ _ _ _ _ Ha) as Hge.
  destruct (arena_at_last _ _ _ _ _ Ha) as (pv & Ef & Er & Estx & Enx & Epv). rewrite (arena_last_at f) in *. fold x in Hge, Ef, Er, Estx, Enx, Epv.
  assert (safe C s x (x + NODE + size + NODE)) as Hsx by (eapply safe_sub; [exact Hs|lia|unfold x; lia]).
  destruct (createSpace_split C junk s m x r size) as (m3 & E3 & Hsp & Hout); [done..|vlia|unfold x in *; vlia|done|].
  exists m3. split_and!; [done| | |].
  - destruct (Hsp pv Epv) as (_ & _ & Est & _). unfold n_start. rewrite (load_at C s m3 8 _ _ _ Hsx), Est by vlia. done.
  - assert (arena_last 0 (zs ++ [size]) = arena_last 0 zs + NODE + size) as El by (by rewrite arena_last_app).
    split; rewrite ?El; [|vlia..].
    apply (arena_split m); [done|done| |]; rewrite (arena_last_at f); fold x.
    + intros a Ha'. apply Hout; vlia.
    + intros pv' (_ & _ & _ & _ & Epv'). by apply Hsp.
  - intros a Ha'. apply Hout; unfold x in *; vlia.
Qed.

(** Frames follow each other. *)
Lemma frames_end n : (0 < n <= N)%nat -> frame_at C s 0 + PS * Z.of_nat n <= memp s + PHYSICAL_SIZE C.
Proof.
  intros Hn. pose proof (frame_end C s N L (pred n) ltac:(lia)) as He. unfold frame_at in *.
  replace (Z.of_nat n) with (Z.of_nat (pred n) + 1) by lia. lia.
Qed.

Lemma frames_span n : (0 < n <= N)%nat -> safe C s (frame_at C s 0) (frame_at C s 0 + PS * Z.of_nat n).
Proof.
  intros Hn. pose proof (frame_start C s N L 0). pose proof (frames_end n Hn) as He.
  pose proof (l_mem _ _ _ L). pose proof (l_os _ _ _ L). pose proof (l_nodes _ _ _ L). pose proof (l_ps _ _ _ L).
  eapply safe_sub; [by apply mem_safe|vlia|lia].
Qed.

(** A table depends on its nodes only. *)
Lemma nodes_table m m' :
  (forall k n o, (k < N)%nat -> 0 <= o -> o_start <= o -> o + Z.of_nat n <= NODE -> ld n m' (node s k + o) = ld n m (node s k + o)) ->
  table C s N m -> table C s N m'.
Proof. intros Hn Ht k Hk. destruct (Ht k Hk). split; rewrite !Hn by (done || vlia); done. Qed.

(** Allocating in the first page once it is loaded; its free element may reach
    over [n] frames. *)
Lemma allocate_first m n w zs r size :
  table C s N m -> (0 < n <= N)%nat -> w <= PS * Z.of_nat n -> page_arena m (frame_at C s 0) w zs r ->
  (S (length zs) < fuel)%nat ->
  0 <= size -> size + NODE < r < 2 ^ 31 -> arena_last 0 zs + NODE + size + NODE < w ->
  let x := frame_at C s 0 + arena_last 0 zs in let m2 := st 4 m (node s 0 + o_reference) 1 in
  exists m', findFreeSpace C fuel (frame_at C s 0) size (set_ram m2 s) = Ret (x, set_ram m2 s) /\
    createSpace C junk x size (set_ram m2 s) = Ret (0, set_ram m' s) /\
    n_start C x (set_ram m' s) = Ret (x + NODE, set_ram m' s) /\
    table C s N m' /\ page_arena m' (frame_at C s 0) w (zs ++ [size]) (r - size) /\
    (forall a, ~ (x <= a < frame_at C s 0 + w) -> ~ (node s 0 + o_reference <= a < node s 0 + o_reference + 4) -> rd8 m' a = rd8 m a).
Proof.
  intros Ht Hn Hw Hp Hfz Hsz Hr Hfit x m2. pose proof (l_N _ _ _ L) as HN. pose proof (l_mem _ _ _ L). pose proof (l_max _ _ _ L).
  pose proof (frame_start C s N L 0) as Hfs. pose proof (frames_end n Hn) as Hend. pose proof (l_os _ _ _ L).
  pose proof (l_nodes _ _ _ L). pose proof (frames_span n Hn) as Hsafe.
  pose proof (node_end C s N L 0 HN) as Hn0.
  assert (page_arena m2 (frame_at C s 0) w zs r) as Hp2.
  { eapply page_arena_same; [|exact Hp]. intros o Ho. unfold m2. rewrite rd8_st, decide_False by vlia. done. }
  pose proof (pa_arena _ _ _ _ _ Hp2) as Ha.
  destruct (split_in_frame m2 (frame_at C s 0) w zs r size) as (m3 & E3 & En & Hp3 & Hout);
    [eapply safe_sub; [exact Hsafe|lia|lia]|vlia|lia|done..|].
  pose proof (arena_last_ge _ _ _ _ _ Ha) as Hge. rewrite arena_last_at in Hge.
  assert (forall a, ~ (x <= a < frame_at C s 0 + w) -> ~ (node s 0 + o_reference <= a < node s 0 + o_reference + 4) ->
    rd8 m3 a = rd8 m a) as Hm3.
  { intros a Hx Hnr. rewrite Hout by done. unfold m2. rewrite rd8_st, decide_False by vlia. done. }
  exists m3. split_and!; [|done|done| |done|done].
  - rewrite (findFreeSpace_run C (arena_nodes (frame_at C s 0) zs)).
    + rewrite (arena_first _ _ _ _ _ _ Ha) by vlia. by rewrite arena_last_at.
    + eapply arena_chain; [vlia|exact Ha].
    + apply Forall_forall. intros y Hy. apply (arena_nodes_in _ _ _ _ _ _ Ha) in Hy. rewrite arena_last_at in Hy.
      eapply safe_sub; [exact Hsafe|lia|vlia].
    + by rewrite arena_nodes_length.
  - eapply nodes_table; [|exact Ht]. intros k n' o Hk ???. apply ld_ext. intros i Hi.
    pose proof (node_end C s N L k Hk). apply Hm3; [vlia|]. unfold node. vlia.
Qed.

(** The used elements of a frame are fewer than its bytes. *)
Lemma arena_fuel m f z zs r : page_arena m f z zs r -> z <= PS -> (S (length zs) < fuel)%nat.
Proof.
  intros [Ha ???] Hz. pose proof (arena_last_count _ _ _ _ _ Ha) as Hcnt. rewrite arena_last_at in Hcnt. vlia.
Qed.

(** [getFreeElement] once the pages are loaded. *)
Lemma getFreeElement_loaded rounds rec m m1 pid size :
  default 1 (running s) = pid -> table C s N m1 ->
  loadProcessPages C junk rec fuel pid (set_ram m s) = Ret (0, set_ram m1 s) ->
  getFreeElement C junk (S rounds) rec fuel size (set_ram m s) =
    (n ← findFreeSpace C fuel (frame_at C s 0) size;
     n' ← (if n =? NULL then p2 ← findPage C fuel pid 2; morePages_loop C fuel fuel pid size p2 NULL 3 else mret n);
     if n' =? NULL then
       e ← reserveAnotherPage C junk rec fuel pid;
       if negb (e =? 0) then mret NULL else getFreeElement C junk rounds rec fuel size
     else
       c ← createSpace C junk n' size;
       if negb (c =? 0) then mret NULL else n_start C n')
      (set_ram (st 4 m1 (node s 0 + o_reference) 1) s).
Proof.
  intros Hpid Ht1 E1. pose proof (l_N _ _ _ L) as HN. cbn [getFreeElement].
  rewrite (bind_Ret _ _ _ (set_ram m s) (set_ram m s)) by done.
  change (running (set_ram m s)) with (running s). rewrite Hpid. cbn zeta. rewrite (bind_Ret _ _ _ _ _ E1).
  rewrite (bind_Ret _ _ _ _ _ (first_page s (set_ram m1 s) eq_refl)), (node_not_null C s N L).
  pose proof (node_safe C s N L 0 HN) as Hns. rewrite (store_bind C s m1 4 _ _ _ _ _ Hns) by vlia.
  assert (n_start C (node s 0) (set_ram (st 4 m1 (node s 0 + o_reference) 1) s) =
    Ret (frame_at C s 0, set_ram (st 4 m1 (node s 0 + o_reference) 1) s)) as Es.
  { unfold n_start. rewrite (load_at C s _ 8 _ _ _ Hns), ld_st_disj by vlia. by destruct (Ht1 0%nat HN) as [-> _ _ _]. }
  by rewrite (bind_Ret _ _ _ _ _ Es).
Qed.

(** The first page has room, over [n] frames. *)
Lemma allocate_loaded rounds rec m m1 pid n w zs r size :
  default 1 (running s) = pid -> loadProcessPages C junk rec fuel pid (set_ram m s) = Ret (0, set_ram m1 s) ->
  table C s N m1 -> (0 < n <= N)%nat -> w <= PS * Z.of_nat n -> page_arena m1 (frame_at C s 0) w zs r ->
  (S (length zs) < fuel)%nat ->
  0 <= size -> size + NODE < r < 2 ^ 31 -> arena_last 0 zs + NODE + size + NODE < w ->
  exists m', getFreeElement C junk (S rounds) rec fuel size (set_ram m s) =
      Ret (frame_at C s 0 + arena_last 0 zs + NODE, set_ram m' s) /\
    table C s N m' /\ page_arena m' (frame_at C s 0) w (zs ++ [size]) (r - size) /\
    same_data m1 m' (frame_at C s 0) (frame_at C s 0) zs /\
    (forall i o, (i < N)%nat -> o = o_pid \/ o = o_order -> ld 4 m' (node s i + o) = ld 4 m1 (node s i + o)) /\
    (forall i, (n <= i < N)%nat -> page_at C s m' i = page_at C s m1 i).
Proof.
  intros Hpid E1 Ht1 Hn Hw Hp1 Hfz Hsz Hr Hfit. pose proof (l_N _ _ _ L) as HN.
  destruct (allocate_first m1 n w zs r size) as (m3 & Ef & Ec & En & Ht3 & Hp3 & Hout); [done..|].
  pose proof (frame_start C s N L 0) as Hfs. pose proof (l_os _ _ _ L). pose proof (l_mem _ _ _ L). pose proof (l_nodes _ _ _ L).
  pose proof (arena_last_ge _ _ _ _ _ (pa_arena _ _ _ _ _ Hp1)) as Hge. rewrite arena_last_at in Hge.
  pose proof (node_end C s N L 0 HN) as Hn0.
  exists m3. split_and!; [|done|done|..].
  - rewrite (getFreeElement_loaded rounds rec m m1 pid size Hpid Ht1 E1), (bind_Ret _ _ _ _ _ Ef).
    set (x := frame_at C s 0 + arena_last 0 zs) in *. destruct (Z.eqb_spec x NULL); [vlia|].
    rewrite (bind_Ret _ _ _ x (set_ram (st 4 m1 (node s 0 + o_reference) 1) s)) by done.
    destruct (Z.eqb_spec x NULL); [vlia|]. by rewrite (bind_Ret _ _ _ _ _ Ec).
  - intros o Ho _. apply Hout; vlia.
  - intros i o Hi Ho. apply ld_ext. intros x Hx. pose proof (node_end C s N L i Hi).
    apply Hout; [vlia|]. unfold node. vlia.
  - intros i Hi. pose proof (frames_end n Hn) as Hend. destruct (Ht1 i ltac:(lia)) as [_ _ _ Hz].
    assert (frame_at C s 0 + PS * Z.of_nat n <= frame_at C s i) as Hfi.
    { unfold frame_at. pose proof (l_ps _ _ _ L). assert (PS * Z.of_nat n <= PS * Z.of_nat i) by (apply Z.mul_le_mono_nonneg_l; vlia). lia. }
    pose proof (node_end C s N L i ltac:(lia)).
    assert (forall k o, 0 <= o -> o + Z.of_nat k <= NODE -> ld k m3 (node s i + o) = ld k m1 (node s i + o)) as Hni.
    { intros k o ??. apply ld_ext. intros x Hx. apply Hout; [vlia|]. unfold node. vlia. }
    unfold page_at. rewrite !Hni by vlia. f_equal. apply body_ext; [lia|]. intros o Ho _. apply Hout; vlia.
Qed.

(** The whole of [getFreeElement], for a process whose pages can be loaded and
    whose first page has room. *)
Lemma getFreeElement_run rounds rec m pid pos k z zs r size :
  table C s N m -> default 1 (running s) = pid ->
  process pid (pages C s N m) pos -> pos !! 0%nat = Some k -> Z.of_nat (length pos) + 2 < 2 ^ 31 ->
  (forall j, (0 < j)%nat -> (S j < length pos)%nat -> pos !! j = Some j) ->
  ld 4 m (node s k + o_size) = z -> page_arena m (frame_at C s k) z zs r ->
  0 <= size -> size + NODE < r < 2 ^ 31 -> arena_last 0 zs + NODE + size + NODE < z ->
  exists m', getFreeElement C junk (S rounds) rec fuel size (set_ram m s) =
      Ret (frame_at C s 0 + arena_last 0 zs + NODE, set_ram m' s) /\
    table C s N m' /\ page_arena m' (frame_at C s 0) z (zs ++ [size]) (r - size) /\
    owner pid 1 (page_at C s m' 0) = true /\ same_data m m' (frame_at C s k) (frame_at C s 0) zs.
Proof.
  intros Ht Hpid Hproc E0 Hmax Hmid Ez Hp Hsz Hr Hfit. pose proof (l_N _ _ _ L) as HN.
  pose proof (process_length _ _ _ Hproc) as Hle. rewrite pages_length in Hle. pose proof (lookup_lt_Some _ _ _ E0).
  pose proof (process_lt _ _ _ _ _ Hproc E0) as Hk. rewrite pages_length in Hk.
  pose proof (loadProcessPages_refines C junk s N L Hnull fuel HfN Hf rec m pid Ht) as Hload.
  destruct (load_list_places pid fuel _ pos Hproc ltac:(lia) Hmax Hmid) as (l' & E & _ & Hcont).
  rewrite E in Hload. destruct Hload as (m1 & E1 & Hs1). pose proof Hs1 as [Ht1 Hl1 _ _].
  specialize (Hcont _ _ E0). rewrite <- Hl1 in Hcont.
  destruct (carried_arena C s N m m1 l' pid 0 k z zs r Hs1 Ht HN Hk (pr_at _ _ _ Hproc _ _ E0) Hcont Ez Hp) as (Hp1 & Ez1 & Ho1 & Hd1).
  destruct (Ht1 0%nat HN) as [_ _ _ Hz]. rewrite Ez1 in Hz.
  destruct (allocate_loaded rounds rec m m1 pid 1 z zs r size Hpid E1 Ht1) as (m3 & E3 & Ht3 & Hp3 & Hd3 & Hid & _);
    [lia|lia|done|by eapply arena_fuel; [exact Hp1|lia]|done..|].
  exists m3. split_and!; [done..| |by eapply same_data_trans].
  rewrite <- Ho1. unfold owner, page_at. cbn [g_pid g_order]. by rewrite !Hid by auto.
Qed.

End Malloc.

(** A fresh page has room for anything but its node. *)
Lemma fresh_arena m f z : fresh m f z -> NODE < z -> page_arena m f z [] (z - NODE).
Proof.
  intros [_ Ef Ez (En & Ep & Es & _)] Hz. rewrite Z.add_0_r in *. split; simpl; [done|vlia..].
Qed.
