(* ===== verification/VmProtect.v ===== *)
(** * The memory manager: protection

    [memoryProtect] and [memoryAllow] change the access to the frames of one
    process, [memoryAllowAll] to all frames. *)

From S2P Require Import Prelude LinkedList ByteMem Vm VmSpec VmElems VmSwap VmPages VmPageOps VmLoad VmPlaces.
Import Vm.

Section Protect.
Context (C : config) (N : nat) (pid : Z).
Abbreviation PS := (page_size C).

(** Adding frames to the protected ones, or removing them. *)
Definition protect (access : bool) (frames P : gset Z) : gset Z := if access then P ∖ frames else P ∪ frames.

Definition frames s (pos : list nat) : gset Z := list_to_set (frame_at C s <$> pos).

Lemma protect_union access F F' P : protect access F' (protect access F P) = protect access (F ∪ F') P.
Proof. destruct access; unfold protect; set_solver. Qed.

Lemma protect_empty access P : protect access ∅ P = P.
Proof. destruct access; unfold protect; set_solver. Qed.

(** One aligned frame. *)
Lemma mprotect_frame s a access :
  NODE < PS -> a `mod` PS = 0 -> mprotect C a PS access s = Ret (0, set_prot (protect access {[a]} (prot s)) s).
Proof.
  intros HPS Ha. unfold mprotect. rewrite Ha. change (0 =? 0) with true. cbn match.
  assert ((PS + PS - 1) / PS = 1) as ->.
  { replace (PS + PS - 1) with (PS - 1 + 1 * PS) by lia. rewrite Z.div_add, Z.div_small by vlia. done. }
  assert (list_to_set ((fun k => a + k * PS) <$> seqZ 0 1) = ({[a]} : gset Z)) as ->.
  { change (seqZ 0 1) with [0]. simpl. rewrite Z.add_0_r. set_solver. }
  by destruct access.
Qed.

Lemma protect_loop_run fuel access pos rounds : forall s m j,
  layout C s N -> (memp s + MEMORY_START C) `mod` PS = 0 -> table C s N m -> process pid (pages C s N m) pos ->
  (N < fuel)%nat -> (j <= length pos)%nat -> (length pos - j < rounds)%nat -> Z.of_nat (length pos) + 3 < 2 ^ 31 ->
  exists m', protect_loop C fuel rounds access pid (from_option (node s) NULL (pos !! j)) (Z.of_nat j + 2) (set_ram m s) =
      Ret (0, set_ram m' (set_prot (protect access (frames s (drop j pos)) (prot s)) s)) /\
    table C s N m' /\ erase (pages C s N m') = erase (pages C s N m).
Proof.
  induction rounds as [|r IH]; intros s m j L Hal Ht Hp HN Hj Hr Hmax; [lia|]. cbn [protect_loop].
  destruct (pos !! j) as [k|] eqn:Ej; cbn [from_option].
  2:{ apply lookup_ge_None in Ej. change (NULL =? NULL) with true. cbn match. exists m.
      rewrite drop_ge by lia. unfold frames. simpl. rewrite protect_empty. by destruct s. }
  pose proof (process_lt _ _ _ _ _ Hp Ej) as Hk. rewrite pages_length in Hk.
  rewrite (node_not_null C s N L). unfold n_start. pose proof (node_safe C s N L k Hk) as Hns.
  rewrite (load_bind C s m 8 _ _ _ _ Hns), (e_start _ _ _ _ _ (Ht k Hk)) by vlia.
  pose proof (l_ps _ _ _ L) as HPS. rewrite (bind_Ret _ _ _ _ _ (mprotect_frame (set_ram m s) (frame_at C s k) access HPS
    ltac:(unfold frame_at; rewrite (Z.mul_comm PS), Z.mod_add by vlia; done))).
  change (negb (0 =? 0)) with false. cbn match. change (prot (set_ram m s)) with (prot s).
  set (s1 := set_prot (protect access {[frame_at C s k]} (prot s)) s).
  change (set_prot _ (set_ram m s)) with (set_ram m s1).
  pose proof (layout_memp C s s1 N eq_refl L) as L1.
  destruct (findPage_shows C s1 N L1 fuel m pid (Z.of_nat j + 2) (table_memp C s s1 N m eq_refl Ht) HN) as (m1 & E1 & [Ht1 Hl1 _ _]).
  rewrite (bind_Ret _ _ _ _ _ E1). rewrite (pages_memp C s s1) in * by done.
  assert (process pid (pages C s1 N m1) pos) as Hp1.
  { apply (process_erase _ (pages C s N m)); [by rewrite (pages_memp C s s1), Hl1, erase_found|done]. }
  replace (Z.of_nat j + 2) with (Z.of_nat (S j) + 1) by lia. pose proof (lookup_lt_Some _ _ _ Ej).
  rewrite (process_index _ _ _ _ Hp) by lia. rewrite wraps_small by lia.
  replace (Z.of_nat (S j) + 1 + 1) with (Z.of_nat (S j) + 2) by lia.
  destruct (IH s1 m1 (S j) L1 Hal Ht1 Hp1 HN ltac:(lia) ltac:(lia) Hmax) as (m2 & E2 & Ht2 & Ee2).
  exists m2. split_and!; [|by apply (table_memp C s1)|].
  - rewrite E2. do 3 f_equal. unfold s1. cbn [prot set_prot].
    change (frames (set_prot _ s)) with (frames s). rewrite protect_union.
    rewrite (drop_S pos k j Ej). done.
  - rewrite !(pages_memp C s s1) in Ee2 by done. by rewrite Ee2, Hl1, erase_found.
Qed.

Lemma protect_run fuel access s m pos :
  layout C s N -> (memp s + MEMORY_START C) `mod` PS = 0 -> table C s N m -> process pid (pages C s N m) pos ->
  (N < fuel)%nat -> Z.of_nat (length pos) + 3 < 2 ^ 31 ->
  exists m', (p ← findPage C fuel pid 1; protect_loop C fuel fuel access pid p 2) (set_ram m s) =
      Ret (0, set_ram m' (set_prot (protect access (frames s pos) (prot s)) s)) /\
    table C s N m' /\ erase (pages C s N m') = erase (pages C s N m).
Proof.
  intros L Hal Ht Hp HN Hmax.
  destruct (findPage_shows C s N L fuel m pid 1 Ht HN) as (m1 & E1 & [Ht1 Hl1 _ _]). rewrite (bind_Ret _ _ _ _ _ E1).
  change (owner pid 1) with (owner pid (Z.of_nat 0 + 1)) in *. rewrite (process_index _ _ _ 0 Hp) by lia.
  assert (process pid (pages C s N m1) pos) as Hp1.
  { apply (process_erase _ (pages C s N m)); [by rewrite Hl1, erase_found|done]. }
  pose proof (process_length _ _ _ Hp) as Hle. rewrite pages_length in Hle.
  destruct (protect_loop_run fuel access pos fuel s m1 0 L Hal Ht1 Hp1 HN ltac:(lia) ltac:(lia) Hmax) as (m2 & E2 & Ht2 & Ee2).
  exists m2. split_and!; [exact E2|done|]. by rewrite Ee2, Hl1, erase_found.
Qed.

End Protect.
