(* ===== verification/VmThms.v ===== *)
(** * The memory manager: theorems

    What the functions of vm.c do to the page table, to the pages of a process
    and to the area of the OS. *)

From S2P Require Import Prelude LinkedList ByteMem Vm VmSpec VmElems VmSwap VmPages VmPageOps VmLoad VmPlaces VmFree VmInit VmArena VmVictim VmMalloc VmProtect.
Import Vm.

(** ** A small memory

    Four pages of 64 bytes, for the examples; the state after [init] and pages
    given to process 5 in it. *)

Definition small : config := mkConfig 1024 256 256 128 512 64 16384 12288 8192 20480.
Definition off_state : vm := mkVm NULL ∅ NULL ∅ None true (Some 5) 0.
Definition end_state {A} (x : outcome (A * vm)) : vm := match x with Ret (_, s) => s | _ => off_state end.
Definition boot_state : vm := end_state (init small ∅ 10 4096 off_state).

(** Page [k] is given to a process as its page [o]. *)
Definition give_to (pid o : Z) (k : nat) (s : vm) : vm :=
  let m := st 4 (ram s) (node s k + o_pid) pid in
  set_ram (st 4 (st 4 m (node s k + o_free) 0) (node s k + o_order) o) s.
Abbreviation give := (give_to 5).

Lemma small_ok : config_ok small 4096.
Proof. split; try (simpl; vlia). by left. Qed.

Lemma small_pages : page_count small = 4%nat.
Proof. reflexivity. Qed.

Lemma boot_initialised : initialised small 4096 boot_state.
Proof.
  destruct (init_run small ∅ 4096 small_ok 10 off_state) as (s' & E & Hi & _); [vm_compute; lia..|].
  unfold boot_state. by rewrite E.
Qed.

Lemma boot_layout : layout small boot_state 4.
Proof. apply boot_initialised. Qed.

Lemma boot_table : table small boot_state 4 (ram boot_state).
Proof. apply boot_initialised. Qed.

Lemma small_null s : memp s = 4096 -> null_unmapped small s.
Proof. intros E. apply null_unmapped_low; rewrite ?E; simpl; lia. Qed.

Lemma small_layout s : memp s = 4096 -> layout small s 4.
Proof. apply (init_layout small 4096 small_ok). Qed.

Lemma give_table_at C N pid o k s :
  layout C s N -> (k < N)%nat -> table C s N (ram s) -> table C (give_to pid o k s) N (ram (give_to pid o k s)).
Proof.
  intros L Hk Ht. apply (table_memp C s); [done|]. unfold give_to. cbn [ram set_ram].
  set (m1 := st 4 (ram s) _ pid). assert (table C s N m1) as Ht1.
  { eapply (local_table C s N L (ram s)); [exact Hk| |done]. apply (local_store C s N); auto with os; vlia. }
  set (m2 := st 4 m1 _ 0). assert (table C s N m2) as Ht2.
  { eapply (local_table C s N L m1); [exact Hk| |done]. apply (local_store C s N); auto with os; vlia. }
  eapply (local_table C s N L m2); [exact Hk| |done]. apply (local_store C s N); auto with os; vlia.
Qed.

Lemma give_table pid o k s :
  memp s = 4096 -> (k < 4)%nat -> table small s 4 (ram s) ->
  table small (give_to pid o k s) 4 (ram (give_to pid o k s)).
Proof. intros Hm. by apply give_table_at, small_layout. Qed.

(** Process 5 with two and with three pages, not in place. *)
Definition two_state : vm := give 2 2 (give 1 0 boot_state).
Definition three_state : vm := give 3 3 two_state.

Lemma boot_memp : memp boot_state = 4096.
Proof. apply boot_initialised. Qed.

Lemma give_memp pid o k s : memp (give_to pid o k s) = memp s.
Proof. done. Qed.

Lemma two_memp : memp two_state = 4096.
Proof. unfold two_state. rewrite !give_memp. exact boot_memp. Qed.

Lemma three_memp : memp three_state = 4096.
Proof. unfold three_state. rewrite give_memp. exact two_memp. Qed.

Lemma two_table : table small two_state 4 (ram two_state).
Proof.
  unfold two_state. apply give_table; [by rewrite give_memp, boot_memp|lia|].
  apply give_table; [exact boot_memp|lia|exact boot_table].
Qed.

Lemma three_table : table small three_state 4 (ram three_state).
Proof. unfold three_state. apply give_table; [exact two_memp|lia|exact two_table]. Qed.

(** Owner and order of the pages, which is all that [process] depends on. *)
Definition owners (l : list page) : list (Z * Z) := (fun g => (g_pid g, g_order g)) <$> l.

Lemma owners_lookup pid o l k :
  owner pid o <$> l !! k = (fun x => (pid =? fst x) && (o =? snd x)) <$> owners l !! k.
Proof. unfold owners. rewrite list_lookup_fmap. by destruct (l !! k). Qed.

Lemma two_owners : owners (pages small two_state 4 (ram two_state)) = [(5, 1); (0, 1); (5, 2); (0, 1)].
Proof. vm_compute. reflexivity. Qed.

Lemma three_owners : owners (pages small three_state 4 (ram three_state)) = [(5, 1); (0, 1); (5, 2); (5, 3)].
Proof. vm_compute. reflexivity. Qed.

Lemma two_process : process 5 (pages small two_state 4 (ram two_state)) [0; 2]%nat.
Proof.
  split.
  - intros [|[|j]] k [= <-]; (split; [by rewrite owners_lookup, two_owners|]);
      intros [|[|[|[|k']]]]; rewrite owners_lookup, two_owners; done.
  - intros [|[|[|[|k']]]]; rewrite owners_lookup, two_owners; done.
Qed.

Lemma three_process : process 5 (pages small three_state 4 (ram three_state)) [0; 2; 3]%nat.
Proof.
  split.
  - intros [|[|[|j]]] k [= <-]; (split; [by rewrite owners_lookup, three_owners|]);
      intros [|[|[|[|k']]]]; rewrite owners_lookup, three_owners; done.
  - intros [|[|[|[|k']]]]; rewrite owners_lookup, three_owners; done.
Qed.

(** ** The page table *)

(** C13: [init] terminates and builds a well-formed memory: every page of the
    table is free, of order 1 and of the size of a page, node [k] describes
    frame [k] and is linked to its neighbours in both directions, the OS area
    is one free element and there are four linked shared pages, whatever the
    memory and the uninitialised struct held before. *)
Theorem init_well_formed C junk p fuel s :
  config_ok C p -> (page_count C < fuel)%nat -> (swap_count C < fuel)%nat -> (4 < fuel)%nat ->
  exists s', init C junk fuel p s = Ret (tt, s') /\ initialised C p s'.
Proof.
  intros Hok H1 H2 H3. destruct (init_run C junk p Hok fuel s H1 H2 H3) as (s' & E & Hi & _). by exists s'.
Qed.

Lemma init_well_formed_witness :
  exists s', init small ∅ 10 4096 off_state = Ret (tt, s') /\ initialised small 4096 s'.
Proof. apply init_well_formed; [exact small_ok|vm_compute; lia..]. Defined.

(** C12: [swapPages] on two pages of the table exchanges their descriptions and
    the bytes of their frames, except the link fields of the elements it finds by
    walking each frame by the sizes from its start: these are rewritten for the
    new place, whatever the page holds there (in a page that starts with data
    they are data, which is lost).  The table stays well-formed and nothing
    outside the table and the frames is written. *)
Theorem swap_exchanges C s N fuel i j :
  layout C s N -> table C s N (ram s) -> (i < N)%nat -> (j < N)%nat -> (Z.to_nat (page_size C) < fuel)%nat ->
  exists m', swapPages C fuel (node s i) (node s j) s = Ret (0, set_ram m' s) /\
    shows C s N (ram s) (swap_list i j (pages C s N (ram s))) m' /\
    carried (ram s) m' (frame_at C s j) (frame_at C s i) (ld 4 (ram s) (node s j + o_size)) (page_size C) /\
    carried (ram s) m' (frame_at C s i) (frame_at C s j) (ld 4 (ram s) (node s i + o_size)) (page_size C) /\
    (i <> j ->
     linked m' (Some NULL) (frame_at C s i) NULL (elems (ram s) (frame_at C s j) (ld 4 (ram s) (node s j + o_size))) /\
     linked m' (Some NULL) (frame_at C s j) NULL (elems (ram s) (frame_at C s i) (ld 4 (ram s) (node s i + o_size)))).
Proof.
  intros L Ht Hi Hj Hf. destruct (swapPages_shows C s N L fuel (ram s) i j Ht Hi Hj Hf) as (m' & E & Hs).
  exists m'. rewrite set_ram_id in E. pose proof (sh_pages _ _ _ _ _ _ Hs) as Hl.
  split_and!; [done|done| | |].
  - apply (erase_carried C s N); [done..|]. rewrite Hl, erase_swap, swap_list_tr by (rewrite erase_length, pages_length; lia).
    f_equal. unfold tr. by rewrite decide_True.
  - apply (erase_carried C s N); [done..|]. rewrite Hl, erase_swap, swap_list_tr by (rewrite erase_length, pages_length; lia).
    f_equal. unfold tr. repeat case_decide; congruence.
  - intros Hij. destruct (swapPages_moved C s N L fuel (ram s) i j Ht Hi Hj Hij Hf) as (m2 & E2 & _ & _ & _ & H1 & H2).
    rewrite set_ram_id, E in E2. injection E2 as <-. done.
Qed.

Lemma swap_exchanges_witness :
  exists m', swapPages small 100 (node boot_state 0) (node boot_state 2) boot_state = Ret (0, set_ram m' boot_state) /\
    shows small boot_state 4 (ram boot_state) (swap_list 0 2 (pages small boot_state 4 (ram boot_state))) m'.
Proof.
  destruct (swap_exchanges small boot_state 4 100 0 2) as (m' & E & Hs & _);
    [exact boot_layout|exact boot_table|lia|lia|simpl; lia|].
  exists m'. split; [exact E|exact Hs].
Defined.

(** C22: [restoreElementsPointers] terminates on an area of more than a node
    whatever the area holds: the elements, found by their sizes, are linked to
    each other in both directions and to their own data, and no other byte
    changes. *)
Theorem restore_relinks C s n size fuel :
  safe C s n (n + size) -> 0 < n -> n + size < 2 ^ 64 -> NODE < size -> (Z.to_nat size < fuel)%nat ->
  exists m', restoreElementsPointers C fuel n size s = Ret (tt, set_ram m' s) /\
    linked m' (Some NULL) n NULL (elems (ram s) n size) /\ elems m' n size = elems (ram s) n size /\
    (forall a, link_byte (elems (ram s) n size) (a - n) = false -> rd8 m' a = rd8 (ram s) a).
Proof.
  intros Hs Hn Hmax Hsz Hf. destruct (restore_run C fuel s (ram s) n size Hs Hn Hmax Hsz Hf) as (m' & E & Hm & Hl).
  rewrite set_ram_id in E. exists m'. split_and!; [done|done| |done].
  apply elems_ext. intros o Ho Hlo. apply Hm. by replace (n + o - n) with o by lia.
Qed.

Lemma restore_relinks_witness :
  exists m', restoreElementsPointers small 200 4608 64 boot_state = Ret (tt, set_ram m' boot_state) /\
    linked m' (Some NULL) 4608 NULL (elems (ram boot_state) 4608 64) /\
    elems m' 4608 64 = elems (ram boot_state) 4608 64 /\
    (forall a, link_byte (elems (ram boot_state) 4608 64) (a - 4608) = false -> rd8 m' a = rd8 (ram boot_state) a).
Proof.
  apply restore_relinks; [|lia|lia|vlia|lia]. apply (frame_safe small boot_state 4 boot_layout 0). lia.
Defined.

(** [findPage] is the search of the library for the first page of the
    process with the order; it returns NULL when there is none, and the only
    change is that the clock of the page it finds is reset. *)
Theorem find_page_first C s N fuel pid order :
  layout C s N -> table C s N (ram s) -> (N < fuel)%nat ->
  let l := pages C s N (ram s) in
  let r := list_find (owner pid order) l in
  exists m', findPage C fuel pid order s = Ret (from_option (fun x => node s (fst x)) NULL r, set_ram m' s) /\
    shows C s N (ram s) (from_option (fun x => <[fst x := set_clock 0 (snd x)]> l) l r) m'.
Proof.
  intros L Ht Hf l r. destruct (findPage_shows C s N L fuel (ram s) pid order Ht Hf) as (m' & E & Hs).
  rewrite set_ram_id in E. exists m'. unfold found, index in *. fold l in E, Hs. fold r in E, Hs.
  destruct r as [[k g]|] eqn:Er; cbn [fmap option_fmap option_map from_option fst snd] in *; [|done].
  split; [done|]. apply list_find_Some in Er as (Hk & _). unfold touch in Hs. by rewrite (alter_insert _ _ _ _ Hk) in Hs.
Qed.

Lemma find_page_first_witness :
  exists m', findPage small 10 0 1 boot_state =
    Ret (from_option (fun x => node boot_state (fst x)) NULL
      (list_find (owner 0 1) (pages small boot_state 4 (ram boot_state))), set_ram m' boot_state) /\
    shows small boot_state 4 (ram boot_state)
      (from_option (fun x => <[fst x := set_clock 0 (snd x)]> (pages small boot_state 4 (ram boot_state)))
         (pages small boot_state 4 (ram boot_state)) (list_find (owner 0 1) (pages small boot_state 4 (ram boot_state)))) m'.
Proof. apply find_page_first; [exact boot_layout|exact boot_table|lia]. Defined.

(** ** The pages of a process *)

(** C16: When a page is free, [getFreePage] returns the first page of the table:
    the first free page was given to the process and exchanged with the first
    page, its frame is one free element, every other page keeps its
    description and contents, and the table stays well-formed. *)
Theorem get_page C junk s N fuel rec size pid j :
  layout C s N -> table C s N (ram s) -> (N < fuel)%nat -> (Z.to_nat (page_size C) < fuel)%nat ->
  page_size C < 2 ^ 32 -> 0 <= pid < 2 ^ 32 -> index unused (pages C s N (ram s)) = Some j ->
  exists m' b, getFreePage C junk (S rec) fuel size pid s = Ret (node s 0, set_ram m' s) /\
    shows C s N (ram s) (swap_list 0 j (alter (fun g => set_body b (set_owner pid g)) j (pages C s N (ram s)))) m' /\
    fresh m' (frame_at C s 0) (ld 4 (ram s) (node s j + o_size)).
Proof.
  intros L Ht HN Hf HPS Hpid Hj.
  destruct (getFreePage_run C junk s N L fuel HN Hf rec (ram s) size pid j Ht Hj HPS Hpid) as (m' & b & E & Hs & Hfr).
  rewrite set_ram_id in E. by exists m', b.
Qed.

Lemma get_page_witness :
  exists m' b, getFreePage small ∅ 1 100 64 5 boot_state = Ret (node boot_state 0, set_ram m' boot_state) /\
    shows small boot_state 4 (ram boot_state)
      (swap_list 0 0 (alter (fun g => set_body b (set_owner 5 g)) 0%nat (pages small boot_state 4 (ram boot_state)))) m' /\
    fresh m' (frame_at small boot_state 0) (ld 4 (ram boot_state) (node boot_state 0 + o_size)).
Proof.
  apply (get_page small ∅ boot_state 4 100 0); [exact boot_layout|exact boot_table|simpl; lia..|].
  vm_compute. reflexivity.
Defined.

(** C7: [loadProcessPages] is the operation [load_list] on the list of pages,
    including the cases in which the code dereferences NULL, and it only moves
    pages: none is lost, doubled or changed but for its clock.  For a process
    with one page of each order it terminates. *)
Theorem load_refines C junk s N fuel rec pid :
  layout C s N -> null_unmapped C s -> table C s N (ram s) -> (N < fuel)%nat -> (Z.to_nat (page_size C) < fuel)%nat ->
  refines C s N (ram s) (loadProcessPages C junk rec fuel pid s) 0 (load_list fuel pid (pages C s N (ram s))) /\
  (forall l', load_list fuel pid (pages C s N (ram s)) = Ret l' -> erase l' ≡ₚ erase (pages C s N (ram s))) /\
  (forall pos, process pid (pages C s N (ram s)) pos -> Z.of_nat (length pos) + 2 < 2 ^ 31 ->
     loadProcessPages C junk rec fuel pid s <> Timeout).
Proof.
  intros L Hnull Ht HN Hf.
  pose proof (loadProcessPages_refines C junk s N L Hnull fuel HN Hf rec (ram s) pid Ht) as Hr. rewrite set_ram_id in Hr.
  split_and!; [done|intros l'; apply load_list_perm|]. intros pos Hp Hmax.
  pose proof (process_length _ _ _ Hp) as Hle. rewrite pages_length in Hle.
  pose proof (load_list_ends pid fuel _ pos Hp ltac:(lia) Hmax) as Hne.
  destruct (load_list fuel pid (pages C s N (ram s))) as [l| | |]; [destruct Hr as (m' & -> & _); done| | |done];
    simpl in Hr; by rewrite Hr.
Qed.

Lemma load_refines_witness :
  let l := pages small two_state 4 (ram two_state) in
  refines small two_state 4 (ram two_state) (loadProcessPages small ∅ 1 100 5 two_state) 0 (load_list 100 5 l) /\
  (forall l', load_list 100 5 l = Ret l' -> erase l' ≡ₚ erase l) /\
  (forall pos, process 5 l pos -> Z.of_nat (length pos) + 2 < 2 ^ 31 -> loadProcessPages small ∅ 1 100 5 two_state <> Timeout).
Proof.
  apply load_refines;
    [apply small_layout; exact two_memp|apply small_null; exact two_memp|exact two_table|simpl; lia..].
Defined.

(** C8: When only the first and the last page of a process are out of place,
    which is how a new page is added, [loadProcessPages] returns with page [j]
    of the process in frame [j] for all its pages, for every number of pages:
    with their descriptions and the bytes of their frames outside the link fields
    of the elements that the relinking of a moved page finds there.  In a page
    that starts with data of the page before, those link fields are data, and
    moving the page does not keep them. *)
Theorem load_in_place C junk s N fuel rec pid pos :
  layout C s N -> null_unmapped C s -> table C s N (ram s) -> (N < fuel)%nat -> (Z.to_nat (page_size C) < fuel)%nat ->
  process pid (pages C s N (ram s)) pos -> (0 < length pos)%nat -> Z.of_nat (length pos) + 2 < 2 ^ 31 ->
  (forall j, (0 < j)%nat -> (S j < length pos)%nat -> pos !! j = Some j) ->
  exists m', loadProcessPages C junk rec fuel pid s = Ret (0, set_ram m' s) /\ table C s N m' /\
    process pid (pages C s N m') (seq 0 (length pos)) /\
    (forall j k, pos !! j = Some k -> erase (pages C s N m') !! j = erase (pages C s N (ram s)) !! k /\
       carried (ram s) m' (frame_at C s k) (frame_at C s j) (ld 4 (ram s) (node s k + o_size)) (page_size C)).
Proof.
  intros L Hnull Ht HN Hf Hp Hlen Hmax Hmid. pose proof (process_length _ _ _ Hp) as Hle. rewrite pages_length in Hle.
  pose proof (loadProcessPages_refines C junk s N L Hnull fuel HN Hf rec (ram s) pid Ht) as Hr.
  destruct (load_list_places pid fuel _ pos Hp ltac:(lia) Hmax Hmid) as (l' & E & Hp' & Hcont).
  rewrite E, set_ram_id in Hr. destruct Hr as (m' & E' & [Ht' Hl' _ _]). exists m'. rewrite <- Hl' in *.
  split_and!; [done..|]. intros j k Hj. split; [by apply Hcont|].
  pose proof (lookup_lt_Some _ _ _ Hj). pose proof (process_lt _ _ _ _ _ Hp Hj) as Hk. rewrite pages_length in Hk.
  apply (erase_carried C s N); [lia|done|by apply Hcont].
Qed.

Lemma load_in_place_witness :
  exists m', loadProcessPages small ∅ 1 100 5 two_state = Ret (0, set_ram m' two_state) /\ table small two_state 4 m' /\
    process 5 (pages small two_state 4 m') (seq 0 2) /\
    (forall j k, [0; 2]%nat !! j = Some k -> erase (pages small two_state 4 m') !! j =
       erase (pages small two_state 4 (ram two_state)) !! k /\
       carried (ram two_state) m' (frame_at small two_state k) (frame_at small two_state j)
         (ld 4 (ram two_state) (node two_state k + o_size)) 64).
Proof.
  apply (load_in_place small ∅ two_state 4 100 1 5 [0; 2]%nat);
    [apply small_layout; exact two_memp|apply small_null; exact two_memp|exact two_table|simpl; lia|simpl; lia
    |exact two_process|simpl; lia|simpl; lia|simpl; intros; lia].
Defined.

(** A request of the running thread gives the access to all pages back and
    looks for room in the pages of the thread. *)
Lemma myallocate_thread C junk p fuel rec sizes1 sizes2 s pid size :
  memp s <> NULL -> running s = Some pid ->
  exists P, myallocate C junk fuel rec p sizes1 sizes2 size THREADREQ s =
    getFreeElement C junk fuel rec fuel size (set_prot P s).
Proof.
  intros Hm Hrun. unfold myallocate. rewrite (bind_Ret _ _ _ s s) by done. destruct (Z.eqb_spec (memp s) NULL); [done|].
  rewrite (bind_Ret _ _ _ tt s) by done. destruct (memoryAllowAll_run C s) as (e & P & E). rewrite (bind_Ret _ _ _ _ _ E).
  exists P. set (s1 := set_prot P s). rewrite (bind_Ret _ _ _ s1 s1) by done.
  change (THREADREQ =? SHALLOC) with false. change (THREADREQ =? THREADREQ) with true. cbn match.
  change (running s1) with (running s). rewrite Hrun, bool_decide_false by done. by rewrite (bind_Ret _ _ _ tt s1) by done.
Qed.

(** C9: malloc: a request of the running thread that fits, with a node to spare,
    in the free element of its first page and in the page returns the first bytes
    of that element, after the pages of the thread were loaded (those between the
    first and the last are in place): the block is in frame 0, which belongs to
    the thread, behind the blocks allocated before, which keep their sizes and
    contents, wherever that page was in memory.  A request of size 0 is served in
    the same way. *)
Theorem malloc_allocates C junk p fuel rec sizes1 sizes2 s N pid pos k z zs r size :
  layout C s N -> null_unmapped C s -> table C s N (ram s) -> (N < fuel)%nat -> (Z.to_nat (page_size C) < fuel)%nat ->
  running s = Some pid -> process pid (pages C s N (ram s)) pos -> pos !! 0%nat = Some k ->
  Z.of_nat (length pos) + 2 < 2 ^ 31 -> (forall j, (0 < j)%nat -> (S j < length pos)%nat -> pos !! j = Some j) ->
  g_size (page_at C s (ram s) k) = z -> page_arena (ram s) (frame_at C s k) z zs r ->
  0 <= size -> size + NODE < r < 2 ^ 31 -> arena_last 0 zs + NODE + size + NODE < z ->
  exists s', myallocate C junk fuel rec p sizes1 sizes2 size THREADREQ s =
      Ret (frame_at C s 0 + arena_last 0 zs + NODE, s') /\
    memp s' = memp s /\ table C s' N (ram s') /\ owner pid 1 (page_at C s' (ram s') 0) = true /\
    page_arena (ram s') (frame_at C s 0) z (zs ++ [size]) (r - size) /\
    same_data (ram s) (ram s') (frame_at C s k) (frame_at C s 0) zs.
Proof.
  intros L Hnull Ht HN Hf Hrun Hp E0 Hmax Hmid Ez Ha Hsz Hr Hfit.
  destruct (myallocate_thread C junk p fuel rec sizes1 sizes2 s pid size) as [P ->]; [destruct L; vlia|done|].
  set (s1 := set_prot P s). destruct fuel as [|fuel']; [lia|].
  destruct (getFreeElement_run C junk s1 N (layout_memp C s s1 N eq_refl L) Hnull (S fuel') HN Hf fuel' rec (ram s) pid pos k z zs r size)
    as (m' & E' & Ht' & Ha' & Ho' & Hd'); try done.
  - by apply (table_memp C s).
  - change (running s1) with (running s). by rewrite Hrun.
  - rewrite (set_ram_id s1 : set_ram (ram s) s1 = s1) in E'. exists (set_ram m' s1). split_and!; try done.
    by apply (table_memp C s1).
Qed.

(** Pages of 256 bytes, and process 5 with a page there. *)
Definition medium : config := mkConfig 2560 640 256 128 512 256 16384 12288 8192 20480.
Definition medium_boot : vm := end_state (init medium ∅ 10 4096 off_state).
Definition medium_state : vm := end_state (getFreePage medium ∅ 1 300 256 5 medium_boot).

Lemma medium_ok : config_ok medium 4096.
Proof. split; try (simpl; vlia). by left. Qed.

Lemma medium_initialised : initialised medium 4096 medium_boot /\ running medium_boot = Some 5.
Proof.
  destruct (init_run medium ∅ 4096 medium_ok 10 off_state) as (s' & E & Hi & Hr & _); [vm_compute; lia..|].
  unfold medium_boot. by rewrite E.
Qed.

Lemma medium_page :
  exists m', medium_state = set_ram m' medium_boot /\ table medium medium_state 4 (ram medium_state) /\
    fresh (ram medium_state) (frame_at medium medium_state 0) 256.
Proof.
  destruct medium_initialised as [[Hm _ L Ht Hpg _ _] _].
  destruct (getFreePage_run medium ∅ medium_boot 4 L 300 ltac:(lia) ltac:(simpl; lia) 0 (ram medium_boot) 256 5 0 Ht)
    as (m' & b & E & Hs & Hfr); [by vm_compute|simpl; lia|lia|].
  rewrite set_ram_id in E. unfold medium_state. rewrite E. cbn [end_state]. exists m'. split_and!; [done| |].
  - apply (table_memp medium medium_boot); [apply memp_set_ram|]. apply Hs.
  - unfold frame_at. rewrite memp_set_ram. destruct (Hpg 0%nat ltac:(vm_compute; lia)) as (_ & _ & _ & Ez & _). cbn [page_at g_size] in Ez. rewrite Ez in Hfr. exact Hfr.
Qed.

Lemma medium_process : process 5 (pages medium medium_state 4 (ram medium_state)) [0]%nat.
Proof.
  assert (owners (pages medium medium_state 4 (ram medium_state)) = [(5, 1); (0, 1); (0, 1); (0, 1)]) as E by (vm_compute; reflexivity).
  split.
  - intros [|j] k [= <-]; (split; [by rewrite owners_lookup, E|]); intros [|[|[|[|k']]]]; rewrite owners_lookup, E; done.
  - intros [|[|[|[|k']]]]; rewrite owners_lookup, E; done.
Qed.

Lemma medium_memp : memp medium_state = 4096 /\ running medium_state = Some 5.
Proof.
  destruct medium_page as (m' & -> & _). destruct medium_initialised as [Hi Hr].
  rewrite memp_set_ram, running_set_ram. split; [apply Hi|exact Hr].
Qed.

Lemma malloc_allocates_witness :
  exists s', myallocate medium ∅ 300 1 4096 [] [] 32 THREADREQ medium_state =
      Ret (frame_at medium medium_state 0 + arena_last 0 [] + NODE, s') /\
    memp s' = memp medium_state /\ table medium s' 4 (ram s') /\ owner 5 1 (page_at medium s' (ram s') 0) = true /\
    page_arena (ram s') (frame_at medium medium_state 0) 256 ([] ++ [32]) (256 - NODE - 32) /\
    same_data (ram medium_state) (ram s') (frame_at medium medium_state 0) (frame_at medium medium_state 0) [].
Proof.
  destruct medium_memp as [Hm Hr]. destruct medium_page as (m' & _ & Ht & Hfr).
  apply (malloc_allocates medium ∅ 4096 300 1 [] [] medium_state 4 5 [0]%nat 0 256 [] (256 - NODE) 32);
    [by apply (init_layout medium 4096 medium_ok)|apply null_unmapped_low; rewrite ?Hm; simpl; lia|exact Ht|lia|simpl; lia
    |exact Hr|exact medium_process|done|simpl; lia|simpl; intros; lia|vm_compute; reflexivity
    |apply fresh_arena; [exact Hfr|vlia]|lia|vlia|simpl; vlia].
Defined.

(** C37: A process with three pages whose second page is out of place gets its
    third page in the frame after the place the second page came from, not in
    the third frame: its pages are not contiguous. *)
Theorem load_scatters C junk s N fuel rec pid a b :
  layout C s N -> null_unmapped C s -> table C s N (ram s) -> (N < fuel)%nat -> (Z.to_nat (page_size C) < fuel)%nat ->
  process pid (pages C s N (ram s)) [0; a; b]%nat -> (2 <= a)%nat -> b <> 1%nat -> (S a < N)%nat ->
  exists m', loadProcessPages C junk rec fuel pid s = Ret (0, set_ram m' s) /\
    process pid (pages C s N m') [0; 1; S a]%nat.
Proof.
  intros L Hnull Ht HN Hf Hp Ha Hb HSa.
  pose proof (loadProcessPages_refines C junk s N L Hnull fuel HN Hf rec (ram s) pid Ht) as Hr.
  destruct (load_list_third pid fuel _ a b Hp ltac:(lia) Ha Hb ltac:(by rewrite pages_length)) as (l' & E & Hp').
  rewrite E, set_ram_id in Hr. destruct Hr as (m' & E' & [_ Hl' _ _]). exists m'. by rewrite Hl'.
Qed.

Lemma load_scatters_witness :
  exists m', loadProcessPages small ∅ 1 100 5 three_state = Ret (0, set_ram m' three_state) /\
    process 5 (pages small three_state 4 m') [0; 1; 3]%nat.
Proof.
  apply (load_scatters small ∅ three_state 4 100 1 5 2 3);
    [apply small_layout; exact three_memp|apply small_null; exact three_memp|exact three_table|simpl; lia|simpl; lia
    |exact three_process|lia..].
Defined.

(** A process none of whose pages has order 1 in the table, for example because
    that page was evicted, cannot be loaded. *)
Theorem load_missing_faults C junk s N fuel rec pid :
  layout C s N -> null_unmapped C s -> table C s N (ram s) -> (N < fuel)%nat -> (Z.to_nat (page_size C) < fuel)%nat ->
  index (owner pid 1) (pages C s N (ram s)) = None ->
  loadProcessPages C junk rec fuel pid s = Fault.
Proof.
  intros L Hnull Ht HN Hf Hi.
  pose proof (loadProcessPages_refines C junk s N L Hnull fuel HN Hf rec (ram s) pid Ht) as Hr.
  unfold load_list in Hr. by rewrite Hi, set_ram_id in Hr.
Qed.

(** Moving a page writes over the bytes 16 to 23 of its frame, also when it
    holds data that started in another page. *)
Theorem swap_overwrites_data C s N fuel i j :
  layout C s N -> table C s N (ram s) -> (i < N)%nat -> (j < N)%nat -> i <> j -> (Z.to_nat (page_size C) < fuel)%nat ->
  exists m', swapPages C fuel (node s i) (node s j) s = Ret (0, set_ram m' s) /\
    ld 8 m' (frame_at C s i + o_start) = frame_at C s i + NODE.
Proof.
  intros L Ht Hi Hj Hij Hf.
  destruct (swapPages_moved C s N L fuel (ram s) i j Ht Hi Hj Hij Hf) as (m' & E & _ & _ & _ & Hl & _).
  rewrite set_ram_id in E. exists m'. split; [done|]. destruct (Ht j Hj) as [_ _ _ Hz].
  destruct (elems_cons (ram s) (frame_at C s j) (ld 4 (ram s) (node s j + o_size)) ltac:(lia)) as [es Ee].
  rewrite Ee in Hl. destruct Hl as (_ & _ & Hst & _). by rewrite Z.add_0_r in Hst.
Qed.

(** ** The area of the OS *)

Lemma initialised_os C p s :
  initialised C p s -> os_area C s [] (MEMORY_START C - OSRESERVED_START C - NODE).
Proof. intros Hi. unfold os_area. rewrite (in_mem _ _ _ Hi). apply Hi. Qed.

Section OsRequests.
Context (C : config) (junk : bytes) (p : Z) (fuel rec : nat) (sizes1 sizes2 : list Z).
Abbreviation request := (fun z => myallocate C junk fuel rec p sizes1 sizes2 z OSREQ).
Abbreviation room := (MEMORY_START C - OSRESERVED_START C - NODE).

(** Requests in a memory that is not initialised. *)
Lemma boot_requests s reqs :
  config_ok C p -> memp s = NULL -> reqs <> [] -> Forall (fun z => 0 <= z) reqs -> total reqs + NODE < room < 2 ^ 31 ->
  arena_last (OSRESERVED_START C) reqs + NODE <= PHYSICAL_SIZE C ->
  (page_count C < fuel)%nat -> (swap_count C < fuel)%nat -> (4 < fuel)%nat -> (length reqs < fuel)%nat ->
  exists s', mapM request reqs s = Ret (blocks (p + OSRESERVED_START C) reqs, s') /\
    os_area C s' reqs (room - total reqs) /\ memp s' = p.
Proof.
  intros Hok Hm Hne Hz Htot Hend H1 H2 H3 H4. destruct (init_run C junk p Hok fuel s H1 H2 H3) as (s1 & Ei & Hi & _).
  pose proof (in_mem _ _ _ Hi) as Hm1. pose proof Hok as []. destruct reqs as [|z reqs]; [done|].
  assert (mapM request (z :: reqs) s = mapM request (z :: reqs) s1) as ->.
  { cbn [mapM]. unfold mbind, prog_bind, p_bind. rewrite (first_request C junk fuel rec p sizes1 sizes2 s s1 z Hm Ei); [done|vlia]. }
  destruct (os_requests_run C junk fuel rec p sizes1 sizes2 (z :: reqs) s1 [] room) as (s' & E & Ha & Hm');
    [by apply (initialised_os C p)|done|done|lia|vlia|lia|done|done|].
  rewrite Hm1 in E, Hm'. by exists s'.
Qed.
End OsRequests.

(** C17: From a memory that is not initialised, any series of OS requests whose
    sizes fit returns: the first one initialises the memory, the blocks follow
    each other from the start of the OS area with a node between any two, and
    the area stays a list of used elements followed by one free one. *)
Theorem os_blocks C junk p fuel rec sizes1 sizes2 s reqs :
  config_ok C p -> memp s = NULL -> reqs <> [] -> Forall (fun z => 0 <= z) reqs ->
  total reqs + NODE < MEMORY_START C - OSRESERVED_START C - NODE < 2 ^ 31 ->
  arena_last (OSRESERVED_START C) reqs + NODE <= PHYSICAL_SIZE C ->
  (page_count C < fuel)%nat -> (swap_count C < fuel)%nat -> (4 < fuel)%nat -> (length reqs < fuel)%nat ->
  exists xs s', mapM (fun z => myallocate C junk fuel rec p sizes1 sizes2 z OSREQ) reqs s = Ret (xs, s') /\
    length xs = length reqs /\
    (forall i x, xs !! i = Some x -> p + OSRESERVED_START C + NODE <= x) /\
    (forall i j x y z, (i < j)%nat -> xs !! i = Some x -> reqs !! i = Some z -> xs !! j = Some y -> x + z + NODE <= y) /\
    os_area C s' reqs (MEMORY_START C - OSRESERVED_START C - NODE - total reqs).
Proof.
  intros Hok Hm Hne Hz Htot Hend H1 H2 H3 H4.
  destruct (boot_requests C junk p fuel rec sizes1 sizes2 s reqs) as (s' & E & Ha & _); [done..|].
  do 2 eexists. split; [exact E|]. split_and!; [apply blocks_length| | |done].
  - intros i x Hx. rewrite blocks_lookup in Hx. case_decide; [|done]. injection Hx as <-.
    rewrite arena_last_total. pose proof (total_nonneg (take i reqs) ltac:(by apply Forall_take)). vlia.
  - intros i j x y z Hij Hx Hz' Hy. by eapply blocks_apart.
Qed.

Lemma os_blocks_witness :
  exists xs s', mapM (fun z => myallocate small ∅ 10 1 4096 [] [] z OSREQ) [8; 16] off_state = Ret (xs, s') /\
    length xs = length [8; 16] /\
    (forall i x, xs !! i = Some x -> 4096 + OSRESERVED_START small + NODE <= x) /\
    (forall i j x y z, (i < j)%nat -> xs !! i = Some x -> [8; 16] !! i = Some z -> xs !! j = Some y -> x + z + NODE <= y) /\
    os_area small s' [8; 16] (MEMORY_START small - OSRESERVED_START small - NODE - total [8; 16]).
Proof.
  apply os_blocks; [exact small_ok|done|done|repeat constructor; lia|vm_compute; done|vm_compute; done|vm_compute; lia..].
Defined.

Lemma total_replicate n z : total (replicate n z) = z * Z.of_nat n.
Proof. induction n as [|n IH]; [simpl; lia|]. change (z + total (replicate n z) = z * Z.of_nat (S n)). lia. Qed.

Section VmH.
Context (a1 a2 a3 a4 : Z).

Lemma vm_h_pages : Z.of_nat (page_count (vm_h a1 a2 a3 a4)) = 1438.
Proof. unfold page_count, rounds. rewrite Z2Nat.id by done. reflexivity. Qed.

Lemma vm_h_swap_pages : Z.of_nat (swap_count (vm_h a1 a2 a3 a4)) = 732.
Proof. unfold swap_count, rounds. rewrite Z2Nat.id by done. reflexivity. Qed.
End VmH.

(** With the sizes of vm.h, the frame of the last page reaches 3584 bytes into
    the shared memory. *)
Theorem last_page_overlaps_shared junk p fuel a1 a2 a3 a4 s :
  let C := vm_h a1 a2 a3 a4 in
  config_ok C p -> (Z.to_nat 2000 < fuel)%nat ->
  exists s', init C junk fuel p s = Ret (tt, s') /\
    frame_at C s' (pred (page_count C)) + page_size C = shared s' + 3584.
Proof.
  intros C Hok Hf. pose proof (vm_h_pages a1 a2 a3 a4) as Hp. fold C in Hp. pose proof (vm_h_swap_pages a1 a2 a3 a4) as Hsw. fold C in Hsw.
  destruct (init_run C junk p Hok fuel s) as (s' & E & Hi & _); [lia..|].
  exists s'. split; [done|]. rewrite (in_shared _ _ _ Hi). unfold frame_at. rewrite (in_mem _ _ _ Hi).
  replace (Z.of_nat (pred (page_count C))) with 1437 by lia. simpl. lia.
Qed.

(** C38: With the sizes of vm.h, [createSpace] gives the free element that
    remains room it does not have, a node for each split: 9144 requests of 64
    bytes of OS memory all succeed although the area ends after 9142 of them,
    and the last block is in the frame of the first page. *)
Theorem os_area_overrun junk p fuel rec sizes1 sizes2 a1 a2 a3 a4 s :
  let C := vm_h a1 a2 a3 a4 in
  config_ok C p -> memp s = NULL -> (Z.to_nat 10000 < fuel)%nat ->
  exists xs s' x, mapM (fun z => myallocate C junk fuel rec p sizes1 sizes2 z OSREQ) (replicate (Z.to_nat 9144) 64) s = Ret (xs, s') /\
    last xs = Some x /\ frame_at C s' 0 <= x < frame_at C s' 0 + page_size C.
Proof.
  intros C Hok Hm Hf. pose proof (vm_h_pages a1 a2 a3 a4) as Hp. fold C in Hp.
  pose proof (vm_h_swap_pages a1 a2 a3 a4) as Hsw. fold C in Hsw. set (reqs := replicate (Z.to_nat 9144) 64).
  assert (total reqs = 585216) as Et by (unfold reqs; rewrite total_replicate, Z2Nat.id; lia).
  assert (Z.of_nat (length reqs) = 9144) as El by (unfold reqs; rewrite length_replicate, Z2Nat.id; lia).
  destruct (boot_requests C junk p fuel rec sizes1 sizes2 s reqs) as (s' & E & _ & Hm');
    [done|done|by intros E; rewrite E in El|by apply Forall_replicate|rewrite Et; simpl; vlia
    |rewrite arena_last_total, Et, El; simpl; vlia|lia..|].
  exists (blocks (p + OSRESERVED_START C) reqs), s', (p + OSRESERVED_START C + 1097216).
  split_and!; [done| | |]; [|unfold frame_at; rewrite Hm'; simpl; lia..].
  rewrite last_lookup, blocks_length, blocks_lookup, decide_True by lia. f_equal.
  unfold reqs. rewrite take_replicate, arena_last_total, total_replicate, length_replicate.
  rewrite length_replicate. vlia.
Qed.

(** The memory of vm.h at an address, for the example. *)
Abbreviation repo_config := (vm_h 33554432 50331648 67108864 83886080).

Lemma repo_ok : config_ok repo_config 16777216.
Proof. split; try (simpl; vlia). left. simpl. lia. Qed.

Lemma os_area_overrun_witness :
  exists xs s' x, mapM (fun z => myallocate repo_config ∅ (Z.to_nat 20000) 1 16777216 [] [] z OSREQ)
      (replicate (Z.to_nat 9144) 64) off_state = Ret (xs, s') /\
    last xs = Some x /\ frame_at repo_config s' 0 <= x < frame_at repo_config s' 0 + page_size repo_config.
Proof. apply (os_area_overrun ∅ 16777216); [exact repo_ok|reflexivity|lia]. Defined.

(** C39: [removeSpace] loses the size of the element it frees: a block of [z]
    bytes that is allocated and freed again leaves an OS area whose only free
    element is [z] bytes smaller, up to the room of a node. *)
Theorem free_loses_size C junk p fuel rec sizes1 sizes2 s r z :
  os_area C s [] r -> 0 <= z -> z + NODE < r < 2 ^ 31 -> 0 < memp s -> 0 <= OSRESERVED_START C ->
  memp s + PHYSICAL_SIZE C < 2 ^ 64 -> OSRESERVED_START C + NODE + z + NODE <= PHYSICAL_SIZE C -> (1 < fuel)%nat ->
  exists x s1 s2, myallocate C junk fuel rec p sizes1 sizes2 z OSREQ s = Ret (x, s1) /\
    mydeallocate C x OSREQ s1 = Ret (tt, s2) /\ os_area C s2 [] (r - z + NODE).
Proof.
  intros Ha Hz Hr Hm Hos Hmax Hend Hf.
  destruct (os_request_run C junk fuel rec p sizes1 sizes2 s [] r z) as (s1 & E1 & Ha1 & Hm1); try done.
  unfold os_area in Ha1. rewrite Hm1 in Ha1. cbn [app arena_last] in *.
  destruct (removeSpace_only C s1 (ram s1) (memp s + OSRESERVED_START C) z (r - z) (memp s + PHYSICAL_SIZE C))
    as (m2 & E2 & Ha2); [done|lia|lia|lia|vlia|vlia| |].
  { eapply safe_sub; [by apply (mem_safe C s1); rewrite Hm1|lia|lia]. }
  rewrite set_ram_id in E2. exists (memp s + OSRESERVED_START C + NODE), s1, (set_ram m2 s1). split_and!; [done| |].
  - unfold mydeallocate. change (OSREQ =? THREADREQ) with false. change (OSREQ =? OSREQ) with true. cbn [orb].
    by rewrite (bind_Ret _ _ _ _ _ E2).
  - unfold os_area. change (memp (set_ram m2 s1)) with (memp s1). by rewrite Hm1.
Qed.

Lemma boot_os : os_area small boot_state [] 200.
Proof. exact (initialised_os _ _ _ boot_initialised). Qed.

Lemma free_loses_size_witness :
  exists x s1 s2, myallocate small ∅ 10 1 4096 [] [] 100 OSREQ boot_state = Ret (x, s1) /\
    mydeallocate small x OSREQ s1 = Ret (tt, s2) /\ os_area small s2 [] (200 - 100 + NODE).
Proof.
  apply free_loses_size; [exact boot_os|lia|vlia|rewrite boot_memp; lia|simpl; lia|rewrite boot_memp; simpl; lia|simpl; vlia|lia].
Defined.

(** ** Choosing a page to evict *)

(** [getVictimPage] returns the last page of the table that belongs to
    another process, when the clocks of the pages after it are below the limit
    of three passes; the clocks of the pages it passes tick. *)
Theorem victim_last_foreign C s N fuel pid k :
  layout C s N -> table C s N (ram s) -> (N < fuel)%nat -> (k < N)%nat ->
  g_pid (page_at C s (ram s) k) <> pid -> g_clock (page_at C s (ram s) k) < 2 ^ 7 - 1 ->
  (forall i, (k < i < N)%nat -> held pid 2 (pages C s N (ram s)) i) ->
  exists m', getVictimPage C fuel pid s = Ret (node s k, set_ram m' s) /\
    shows C s N (ram s) (ticks k (pred N) (pages C s N (ram s))) m'.
Proof.
  intros L Ht HN Hk Hp Hc Hh. unfold getVictimPage.
  pose proof (getLastPage_run C s N L fuel (ram s) Ht HN) as El. rewrite set_ram_id in El. rewrite (bind_Ret _ _ _ _ _ El).
  change (SWAP_STRATEGY =? 0) with false. cbn match.
  destruct (victim_found C s N L pid (pred N) k fuel (ram s)) as (m' & E & Hs); [done|lia|lia|done|done| | |].
  - intros i Hi. apply Hh. lia.
  - intros ?. destruct (Hh (pred N)) as (g & ? & ? & ?); [lia|]. exists g. split_and!; [done|done|lia|lia].
  - rewrite set_ram_id in E. by exists m'.
Qed.

(** When all pages belong to the process, it dereferences NULL instead. *)
Theorem victim_all_own_faults C s N fuel pid :
  layout C s N -> null_unmapped C s -> table C s N (ram s) -> (N < fuel)%nat ->
  (forall i, (i < N)%nat -> held pid 2 (pages C s N (ram s)) i) ->
  getVictimPage C fuel pid s = Fault.
Proof.
  intros L Hnull Ht HN Hh. unfold getVictimPage.
  pose proof (getLastPage_run C s N L fuel (ram s) Ht HN) as El. rewrite set_ram_id in El. rewrite (bind_Ret _ _ _ _ _ El).
  change (SWAP_STRATEGY =? 0) with false. cbn match. pose proof (l_N _ _ _ L).
  rewrite <- (set_ram_id s). apply (victim_none C s N L pid Hnull); [done|lia|lia|..].
  - intros i Hi. apply Hh. lia.
  - destruct (Hh (pred N)) as (g & ? & ? & ?); [lia|]. exists g. split_and!; [done|done|lia|lia].
Qed.

Lemma victim_last_foreign_witness :
  exists m', getVictimPage small 10 5 three_state = Ret (node three_state 1, set_ram m' three_state) /\
    shows small three_state 4 (ram three_state) (ticks 1 3 (pages small three_state 4 (ram three_state))) m'.
Proof.
  apply (victim_last_foreign small three_state 4 10 5 1);
    [apply small_layout; exact three_memp|exact three_table|lia|lia|vm_compute; congruence|vm_compute; reflexivity|].
  intros i Hi. assert (i = 2 \/ i = 3)%nat as [->| ->] by lia; eexists; split_and!;
    [vm_compute; reflexivity|vm_compute; reflexivity|vm_compute; congruence|vm_compute; reflexivity
    |vm_compute; reflexivity|vm_compute; reflexivity|vm_compute; congruence|vm_compute; reflexivity].
Defined.

(** ** Protection *)

(** C23: [memoryProtect] takes the access to exactly the frames of the pages of
    the process away, [memoryAllow] gives exactly these back; both return 0,
    terminate, and move no page. *)
Theorem protect_exact C s N fuel pid pos :
  layout C s N -> (memp s + MEMORY_START C) `mod` page_size C = 0 -> table C s N (ram s) ->
  process pid (pages C s N (ram s)) pos -> (N < fuel)%nat -> Z.of_nat (length pos) + 3 < 2 ^ 31 ->
  exists m1 m2,
    memoryProtect C fuel pid s = Ret (0, set_ram m1 (set_prot (prot s ∪ frames C s pos) s)) /\
    memoryAllow C fuel pid (set_ram m1 (set_prot (prot s ∪ frames C s pos) s)) =
      Ret (0, set_ram m2 (set_prot (prot s ∖ frames C s pos) s)) /\
    table C s N m2 /\ erase (pages C s N m2) = erase (pages C s N (ram s)).
Proof.
  intros L Hal Ht Hp HN Hmax.
  destruct (protect_run C N pid fuel false s (ram s) pos L Hal Ht Hp HN Hmax) as (m1 & E1 & Ht1 & Ee1).
  rewrite set_ram_id in E1. cbn [protect] in E1. set (s1 := set_prot (prot s ∪ frames C s pos) s) in *.
  assert (process pid (pages C s1 N m1) pos) as Hp1.
  { apply (process_erase _ (pages C s N (ram s))); [by rewrite (pages_memp C s s1)|done]. }
  destruct (protect_run C N pid fuel true s1 m1 pos (layout_memp C s s1 N eq_refl L) Hal (table_memp C s s1 N m1 eq_refl Ht1)
    Hp1 HN Hmax) as (m2 & E2 & Ht2 & Ee2).
  exists m1, m2. split_and!; [exact E1| |by apply (table_memp C s1)|].
  - change (memoryAllow C fuel pid (set_ram m1 s1)) with
      ((p ← findPage C fuel pid 1; protect_loop C fuel fuel true pid p 2) (set_ram m1 s1)). rewrite E2.
    assert (protect true (frames C s1 pos) (prot s1) = prot s ∖ frames C s pos) as ->; [|done].
    change (frames C s1 pos) with (frames C s pos). unfold s1, protect. cbn [prot set_prot]. set_solver.
  - rewrite !(pages_memp C s s1) in Ee2 by done. congruence.
Qed.

Lemma protect_exact_witness :
  exists m1 m2,
    memoryProtect small 100 5 two_state = Ret (0, set_ram m1 (set_prot (prot two_state ∪ frames small two_state [0; 2]%nat) two_state)) /\
    memoryAllow small 100 5 (set_ram m1 (set_prot (prot two_state ∪ frames small two_state [0; 2]%nat) two_state)) =
      Ret (0, set_ram m2 (set_prot (prot two_state ∖ frames small two_state [0; 2]%nat) two_state)) /\
    table small two_state 4 m2 /\ erase (pages small two_state 4 m2) = erase (pages small two_state 4 (ram two_state)).
Proof.
  apply protect_exact; [apply small_layout; exact two_memp|rewrite two_memp; reflexivity|exact two_table|exact two_process|lia|simpl; lia].
Defined.
