(* ===== verification/VmGrow.v ===== *)
(** * The memory manager: growing a process

    A request that does not fit in the only page of a process: the process gets
    a second page, whose room is joined to the free element at the end of the
    first, and both pages are put in the first two frames. *)

From S2P Require Import Prelude LinkedList ByteMem Vm VmSpec VmElems VmSwap VmPages VmPageOps VmLoad VmPlaces VmFree VmArena VmInit VmMalloc VmThms.
Import Vm.

(** ** The last element of a page *)

Lemma last_arena_nodes n zs : last (arena_nodes n zs) = Some (arena_last n zs).
Proof.
  revert n. induction zs as [|z zs IH]; intros n; cbn [arena_nodes arena_last]; [done|].
  rewrite last_cons, IH. done.
Qed.

Lemma lastElement_loop_run C ns fuel s m last e :
  chain m e ns -> nodes_ok C s ns -> (length ns < fuel)%nat ->
  lastElement_loop C fuel last e (set_ram m s) = Ret (default last (list.last ns), set_ram m s).
Proof.
  revert fuel last e. induction ns as [|x ns IH]; intros [|f] last e Hc Hok Hf; try (simpl in Hf; lia);
    cbn [lastElement_loop chain] in *; [by subst|].
  destruct Hc as (-> & Hx & Hc). apply Forall_cons in Hok as [Hs Hok].
  rewrite (proj2 (Z.eqb_neq _ _) Hx). erewrite bind_Ret by by apply getNextSpace_at.
  rewrite IH by (done || (simpl in Hf; lia)). rewrite last_cons. by destruct (list.last ns).
Qed.

(** The free element at the end changes its size. *)
Lemma arena_resize m prev n zs r v :
  arena m prev n zs r -> 0 <= v < 2 ^ 32 -> arena (st 4 m (arena_last n zs + o_size) v) prev n zs v.
Proof.
  intros Ha Hv. revert prev n Ha. induction zs as [|z zs IH]; intros prev n; cbn [arena arena_last].
  - intros (? & _ & ? & ? & ?). rewrite ld4_st by done. rewrite !ld_st_disj by vlia. done.
  - intros (? & ? & ? & ? & ? & ? & Ha). pose proof (arena_last_ge _ _ _ _ _ Ha).
    rewrite !ld_st_disj by vlia. split_and!; try done. by apply IH.
Qed.

(** ** Pages of a process *)

Definition set_order (o : Z) (g : page) : page :=
  mkPage (g_pid g) (g_reference g) (g_free g) o (g_size g) (g_data g) (g_clock g) (g_body g).
Definition set_reference (v : Z) (g : page) : page :=
  mkPage (g_pid g) v (g_free g) (g_order g) (g_size g) (g_data g) (g_clock g) (g_body g).
Definition set_data (v : Z) (g : page) : page :=
  mkPage (g_pid g) (g_reference g) (g_free g) (g_order g) (g_size g) v (g_clock g) (g_body g).

Section Pages.
Context (pid : Z).
Implicit Types (l : list page).

(** The pages of the process and their orders: exactly [ps]. *)
Definition placed l (ps : list (nat * Z)) : Prop :=
  forall i o, (exists g, l !! i = Some g /\ g_pid g = pid /\ g_order g = o) <-> (i, o) ∈ ps.

(** A page in use of another process; pages of others are kept, descriptions
    and contents. *)
Definition foreign (g : page) : Prop := g_pid g <> pid /\ g_free g = 0.
Definition keeps l l' : Prop := forall g, foreign g -> g ∈ erase l -> g ∈ erase l'.

#[export] Instance keeps_preorder : PreOrder keeps.
Proof. split; unfold keeps; [by intros l g|by intros l1 l2 l3 H1 H2 g Hg ?; apply H2, H1]. Qed.

Lemma keeps_perm l l' : erase l' ≡ₚ erase l -> keeps l l'.
Proof. intros E g _. by rewrite E. Qed.

Lemma keeps_alter f i l : (forall g, l !! i = Some g -> ~ foreign g) -> keeps l (alter f i l).
Proof.
  intros Hi g Hg (k & Hk)%list_elem_of_lookup. apply list_elem_of_lookup. exists k.
  rewrite erase_lookup in *. rewrite list_lookup_alter_ne; [done|]. intros <-.
  destruct (l !! i) as [h|] eqn:E; [|done]. injection Hk as <-. by apply (Hi h eq_refl).
Qed.

Lemma owner_spec o g : owner pid o g = true <-> g_pid g = pid /\ g_order g = o.
Proof. unfold owner. rewrite andb_true_iff, !Z.eqb_eq. split; intros [? ?]; split; congruence. Qed.

Lemma placed_owner l ps i o : placed l ps -> owner pid o <$> l !! i = Some true <-> (i, o) ∈ ps.
Proof.
  intros Hp. rewrite <- (Hp i o). split.
  - destruct (l !! i) as [g|]; [|done]. intros [= ?%owner_spec]. eauto.
  - intros (g & -> & Hg). simpl. f_equal. by apply owner_spec.
Qed.

Lemma placed_sole l ps k o : placed l ps -> (forall i, (i, o) ∈ ps <-> i = k) -> sole (owner pid o) l k.
Proof.
  intros Hp Hps. split; [by apply (placed_owner l ps), Hps|]. intros i ?%(placed_owner l ps); [by apply Hps|done].
Qed.

Lemma placed_index l ps k o : placed l ps -> (forall i, (i, o) ∈ ps <-> i = k) -> index (owner pid o) l = Some k.
Proof. intros Hp Hps. by apply sole_index, (placed_sole l ps). Qed.

Lemma placed_none l ps o : placed l ps -> (forall i, (i, o) ∉ ps) -> index (owner pid o) l = None.
Proof. intros Hp Hps. apply none_index. intros k ?%(placed_owner l ps); [by apply (Hps k)|done]. Qed.

Lemma placed_erase l l' ps : erase l' = erase l -> placed l ps -> placed l' ps.
Proof.
  intros E Hp i o. rewrite <- (Hp i o).
  assert (forall l, (exists g, l !! i = Some g /\ g_pid g = pid /\ g_order g = o) <->
    exists g, erase l !! i = Some g /\ g_pid g = pid /\ g_order g = o) as Hl.
  { intros l0. setoid_rewrite erase_lookup. destruct (l0 !! i) as [g|]; [|by split; intros (? & ? & _)].
    split; [intros (? & [= <-] & ? & ?)|intros (? & [= <-] & ? & ?)]; eexists; done. }
  by rewrite (Hl l'), (Hl l), E.
Qed.

Lemma placed_alter f i l ps :
  (forall g, g_pid (f g) = g_pid g /\ g_order (f g) = g_order g) -> placed l ps -> placed (alter f i l) ps.
Proof.
  intros Hg Hp k o. rewrite <- (Hp k o). destruct (decide (i = k)) as [->|]; [|by rewrite list_lookup_alter_ne].
  rewrite list_lookup_alter_eq. destruct (l !! k) as [g|]; [|done]. destruct (Hg g) as [E1 E2].
  split; intros (h & [= <-] & ? & ?); eexists; (split; [done|]); by rewrite ?E1, ?E2 in *.
Qed.

(** A page of the process may change. *)
Lemma keeps_own f i o l ps : placed l ps -> (i, o) ∈ ps -> keeps l (alter f i l).
Proof.
  intros Hp (g & Eg & Epid & _)%Hp. apply keeps_alter. intros h Eh [Hf _]. congruence.
Qed.

Lemma placed_process l ps pos :
  placed l ps -> (forall i j, (i, Z.of_nat j + 1) ∈ ps <-> pos !! j = Some i) -> process pid l pos.
Proof.
  intros Hp Hps. split.
  - intros j k Hj. apply (placed_sole l ps); [done|]. intros i. rewrite Hps, Hj. naive_solver.
  - intros k. rewrite (placed_owner l ps) by done. rewrite Hps, lookup_ge_None_2 by lia. done.
Qed.

End Pages.

Lemma placed_reserved pid j b l :
  placed pid l [(0%nat, 1)] -> (0 < j < length l)%nat ->
  placed pid (alter (set_order (-1)) 0%nat (swap_list 0 j (alter (fun g => set_body b (set_owner pid g)) j l)))
    [(0%nat, -1); (j, 1)].
Proof.
  intros Hp Hj i o. assert (0 < length l)%nat as H0 by lia.
  destruct (lookup_lt_is_Some_2 l j ltac:(lia)) as [gj Ej].
  assert (forall i, swap_list 0 j (alter (fun g => set_body b (set_owner pid g)) j l) !! i =
    if decide (i = 0%nat) then Some (set_body b (set_owner pid gj)) else if decide (i = j) then l !! 0%nat else l !! i) as El.
  { intros i'. rewrite swap_list_lookup by (rewrite length_alter; lia). repeat case_decide; subst.
    - by rewrite list_lookup_alter_eq, Ej.
    - by rewrite list_lookup_alter_ne by done.
    - by rewrite list_lookup_alter_ne by done. }
  destruct (decide (i = 0%nat)) as [->|Hi].
  - rewrite list_lookup_alter_eq, El, decide_True by done. rewrite !elem_of_cons, elem_of_nil. split.
    + intros (g & [= <-] & _ & <-). by left.
    + intros [[= ->]|[[= E]|[]]]; [|lia]. by eexists.
  - rewrite list_lookup_alter_ne, El, decide_False by done. rewrite !elem_of_cons, elem_of_nil. case_decide as Hij.
    + subst j. rewrite (Hp 0%nat o), list_elem_of_singleton. naive_solver.
    + rewrite (Hp i o), list_elem_of_singleton. naive_solver.
Qed.

Lemma placed_second pid j l :
  placed pid l [(0%nat, -1); (j, 1)] -> j <> 0%nat -> placed pid (alter (set_order 2) 0%nat l) [(0%nat, 2); (j, 1)].
Proof.
  intros Hp Hj i o. pose proof (Hp i o) as Ho. rewrite !elem_of_cons, elem_of_nil in *.
  destruct (decide (i = 0%nat)) as [->|Hi].
  - rewrite list_lookup_alter_eq. pose proof (proj2 (Hp 0%nat (-1)) ltac:(left)) as (g & Eg & Epid & _).
    rewrite Eg. split; [intros (h & [= <-] & _ & <-); by left|]. intros [[= ->]|[[= E]|[]]]; [|congruence]. by eexists.
  - rewrite list_lookup_alter_ne, Ho by done. naive_solver.
Qed.

(** Loading a process that has one page. *)
Lemma load_list_single pid rounds l k :
  process pid l [k] -> (0 < rounds)%nat -> load_list rounds pid l = Ret (swap_list 0 k (touch k l)).
Proof.
  intros Hp Hr. destruct (first_in_place pid l [k] k Hp eq_refl) as (Hp1 & _ & _). unfold load_list, found.
  change (owner pid 1) with (owner pid (Z.of_nat 0 + 1)). rewrite (process_index pid l [k] 0 Hp) by (simpl; lia).
  cbn [lookup list_lookup]. change (owner pid 2) with (owner pid (Z.of_nat 1 + 1)).
  rewrite (process_index _ _ _ 1 Hp1) by (simpl; lia). destruct rounds; [lia|done].
Qed.

Lemma placed_swap pid k l :
  placed pid l [(k, 1)] -> (k < length l)%nat -> placed pid (swap_list 0 k (touch k l)) [(0%nat, 1)].
Proof.
  intros Hp Hk. apply (placed_erase pid (swap_list 0 k l)); [by rewrite !erase_swap, erase_touch|].
  intros i o. rewrite swap_list_tr by lia. pose proof (Hp (tr 0 k i) o) as Ho. rewrite Ho, !list_elem_of_singleton.
  unfold tr. repeat case_decide; naive_solver lia.
Qed.

Lemma index_unused l : (exists g, g ∈ erase l /\ unused g = true) -> exists j, index unused l = Some j.
Proof.
  intros (g & (i & Hi)%list_elem_of_lookup & Hg). destruct (index unused l) as [j|] eqn:E; [eauto|].
  exfalso. unfold index in E. destruct (list_find unused l) as [[]|] eqn:El; [done|]. apply list_find_None in El.
  rewrite erase_lookup in Hi. destruct (l !! i) as [h|] eqn:Eh; [|done]. injection Hi as <-.
  rewrite Forall_lookup in El. apply (El i h Eh). by apply Is_true_true.
Qed.

Lemma arena_none m prev n zs r size :
  arena m prev n zs r -> r < size -> first (fits m size) (arena_nodes n zs) = NULL.
Proof.
  intros Ha Hr. revert prev n Ha. induction zs as [|z zs IH]; intros prev n; cbn [arena arena_nodes first].
  - intros (_ & Ez & _). unfold fits. rewrite Ez. destruct (Z.leb_spec size r); [lia|]. by rewrite andb_false_r.
  - intros (Ef & _ & _ & _ & _ & _ & Ha). unfold fits, is_free. rewrite Ef. simpl. eauto.
Qed.

Section Grow.
Context (C : config) (junk : bytes) (s : vm) (N : nat) (L : layout C s N) (Hnull : null_unmapped C s).
Context (fuel : nat) (HfN : (N < fuel)%nat) (Hf : (Z.to_nat (page_size C) < fuel)%nat) (pid : Z).
Implicit Types (m : bytes).
Abbreviation PS := (page_size C).

(** Page [k] holds used elements and then a free one, and starts with them. *)
Record page_one m (k : nat) (zs : list Z) (r : Z) : Prop := {
  po_arena : page_arena m (frame_at C s k) PS zs r;
  po_size : ld 4 m (node s k + o_size) = PS;
  po_data : ld 4 m (node s k + o_data) = 0;
  po_used : ld 4 m (node s k + o_free) = 0
}.

Lemma first_carried m m' l i k zs r :
  shows C s N m l m' -> table C s N m -> (i < N)%nat -> (k < N)%nat -> sole (owner pid 1) (pages C s N m) k ->
  erase (pages C s N m') !! i = erase (pages C s N m) !! k -> page_one m k zs r ->
  page_one m' i zs r /\ same_data m m' (frame_at C s k) (frame_at C s i) zs.
Proof.
  intros Hs Ht Hi Hk Hsole Epg [Ha Hz Hd Hu].
  destruct (carried_arena C s N m m' l pid i k PS zs r Hs Ht Hi Hk Hsole Epg Hz Ha) as (Ha' & Hz' & _ & Hsd).
  rewrite !erase_lookup, !pages_lookup in Epg by done. apply (inj Some) in Epg. split; [|done]. split; [done|done|..].
  - etrans; [exact (f_equal g_data Epg)|done].
  - etrans; [exact (f_equal g_free Epg)|done].
Qed.

(** Writes outside node and frame of a page do not change it. *)
Lemma first_same m m' k zs r :
  (forall a, node s k <= a < node s k + NODE \/ frame_at C s k <= a < frame_at C s k + PS -> rd8 m' a = rd8 m a) ->
  page_one m k zs r -> page_one m' k zs r /\ same_data m m' (frame_at C s k) (frame_at C s k) zs.
Proof.
  intros Hm [Ha Hz Hd Hu].
  assert (forall o, 0 <= o -> o + 4 <= NODE -> ld 4 m' (node s k + o) = ld 4 m (node s k + o)) as Hn
    by (intros o ??; apply ld_ext; intros i Hi; apply Hm; vlia).
  split; [split; rewrite ?Hn by vlia; try done|].
  - eapply page_arena_same; [|exact Ha]. intros o Ho. apply Hm. lia.
  - intros o Ho _. apply Hm. destruct Ha. vlia.
Qed.

(** A store in a field of node [i]. *)
Lemma node_store m i n o v (f : page -> page) :
  meta_field n o -> (o + Z.of_nat n <= o_size \/ o_data <= o) -> (i < N)%nat -> table C s N m ->
  page_at C s (st n m (node s i + o) v) i = f (page_at C s m i) ->
  table C s N (st n m (node s i + o) v) /\ pages C s N (st n m (node s i + o) v) = alter f i (pages C s N m).
Proof.
  intros Hmf Ho Hi Ht E. pose proof (local_store C s N m i n o v Hmf Ho Hi Ht) as Hc. split.
  - by apply (local_table C s N L m _ i Hi Hc).
  - rewrite (local_pages C s N L m _ i Hi Hc Ht), E. by rewrite (alter_insert f i _ (page_at C s m i)) by (by apply pages_lookup).
Qed.

Ltac page_store :=
  unfold page_at; repeat first [rewrite ld_st_same | rewrite ld_st_disj by vlia];
  rewrite !(body_store C s N L) by (done || vlia).

Lemma store_order m i v :
  table C s N m -> (i < N)%nat -> - 2 ^ 31 <= v < 2 ^ 31 ->
  table C s N (st 4 m (node s i + o_order) v) /\
  pages C s N (st 4 m (node s i + o_order) v) = alter (set_order v) i (pages C s N m).
Proof.
  intros Ht Hi Hv. destruct (Ht i Hi) as [_ _ _ Hz]. apply node_store; [auto with os|vlia|done|done|]. page_store.
  change (256 ^ Z.of_nat 4) with (2 ^ 32). by rewrite wraps_mod, (wraps_small 32 v) by (simpl; lia).
Qed.

Lemma store_reference m i :
  table C s N m -> (i < N)%nat ->
  table C s N (st 4 m (node s i + o_reference) 1) /\
  pages C s N (st 4 m (node s i + o_reference) 1) = alter (set_reference 1) i (pages C s N m).
Proof.
  intros Ht Hi. destruct (Ht i Hi) as [_ _ _ Hz]. apply node_store; [auto with os|vlia|done|done|]. page_store. done.
Qed.

Lemma store_data m i :
  table C s N m -> (i < N)%nat ->
  table C s N (st 4 m (node s i + o_data) 1) /\
  pages C s N (st 4 m (node s i + o_data) 1) = alter (set_data 1) i (pages C s N m).
Proof.
  intros Ht Hi. destruct (Ht i Hi) as [_ _ _ Hz]. apply node_store; [auto with os|vlia|done|done|]. page_store. done.
Qed.

(** ** The steps of a growth *)

(** The process has the pages [ps]; the first of them is at place [k], with the
    elements [zs] and [r] free bytes, and the contents it had at [f0] in [m0];
    the pages of the others are those of [m0]. *)
Context (m0 : bytes) (f0 : Z).

Record tracked m (ps : list (nat * Z)) (k : nat) (zs : list Z) (r : Z) : Prop := {
  tk_table : table C s N m;
  tk_placed : placed pid (pages C s N m) ps;
  tk_lt : (k < N)%nat;
  tk_only : forall i, (i, 1) ∈ ps <-> i = k;
  tk_first : page_one m k zs r;
  tk_data : same_data m0 m f0 (frame_at C s k) zs;
  tk_kept : keeps pid (pages C s N m0) (pages C s N m);
  tk_sizes : Forall (fun g => g_size g = PS) (pages C s N m)
}.

Lemma sizes_erase l l' : erase l' ≡ₚ erase l -> Forall (fun g => g_size g = PS) l -> Forall (fun g => g_size g = PS) l'.
Proof.
  intros E Hl. assert (Forall (fun g => g_size g = PS) (erase l')) as He.
  { rewrite E. apply Forall_fmap. eapply Forall_impl; [exact Hl|done]. }
  apply Forall_fmap in He. eapply Forall_impl; [exact He|done].
Qed.

Lemma sizes_alter f i l :
  (forall g, g_size (f g) = g_size g) -> Forall (fun g => g_size g = PS) l -> Forall (fun g => g_size g = PS) (alter f i l).
Proof. intros Hg Hl. apply Forall_alter; [done|]. intros g _ Hz. by rewrite Hg. Qed.

(** The search for a page of the process. *)
Lemma find_step m ps k zs r o :
  tracked m ps k zs r ->
  exists m', findPage C fuel pid o (set_ram m s) =
      Ret (from_option (node s) NULL (index (owner pid o) (pages C s N m)), set_ram m' s) /\
    tracked m' ps k zs r /\ erase (pages C s N m') = erase (pages C s N m).
Proof.
  intros [Ht Hp Hk Hon Hfp Hd Hke Hsz]. destruct (findPage_shows C s N L fuel m pid o Ht HfN) as (m' & E & Hs).
  exists m'. split; [done|]. pose proof Hs as [Ht' Hl' _ _].
  assert (erase (pages C s N m') = erase (pages C s N m)) as Ee by (rewrite Hl'; apply erase_found).
  destruct (first_carried m m' _ k k zs r Hs Ht Hk Hk (placed_sole pid _ _ _ _ Hp Hon) ltac:(by rewrite Ee) Hfp) as [Hfp' Hd'].
  split; [|done]. split; try done.
  - by eapply placed_erase.
  - by eapply same_data_trans.
  - etrans; [exact Hke|]. apply keeps_perm. by rewrite Ee.
  - eapply sizes_erase; [|exact Hsz]. by rewrite Ee.
Qed.

Lemma find_some m ps k zs r : tracked m ps k zs r -> index (owner pid 1) (pages C s N m) = Some k.
Proof. intros [? Hp ? Hon ? ? ? ?]. by eapply placed_index. Qed.

Lemma find_none m ps k zs r : tracked m ps k zs r -> (forall i, (i, 2) ∉ ps) -> index (owner pid 2) (pages C s N m) = None.
Proof. intros [? Hp ? ? ? ? ? ?] Hps. by eapply placed_none. Qed.

(** The last page of a process that has no page of order 2. *)
Lemma last_step m ps k zs r :
  tracked m ps k zs r -> (forall i, (i, 2) ∉ ps) ->
  exists m', getLastProcessPage C fuel pid (set_ram m s) = Ret (node s k, set_ram m' s) /\ tracked m' ps k zs r.
Proof.
  intros Htk Hps. unfold getLastProcessPage.
  destruct (find_step _ _ _ _ _ 1 Htk) as (m1 & E1 & Htk1 & _). rewrite (bind_Ret _ _ _ _ _ E1), (find_some _ _ _ _ _ Htk).
  destruct (find_step _ _ _ _ _ 2 Htk1) as (m2 & E2 & Htk2 & _). rewrite (bind_Ret _ _ _ _ _ E2), (find_none _ _ _ _ _ Htk1 Hps).
  exists m2. split; [|done]. destruct fuel as [|f]; [lia|]. done.
Qed.

(** A store in the node of another page of the process. *)
Lemma side_step m n o v f i q ps ps' k zs r :
  let m' := st n m (node s i + o) v in
  tracked m ps k zs r -> (i < N)%nat -> i <> k -> (i, q) ∈ ps -> 0 <= o -> o + Z.of_nat n <= NODE ->
  table C s N m' /\ pages C s N m' = alter f i (pages C s N m) -> (forall g, g_size (f g) = g_size g) ->
  placed pid (alter f i (pages C s N m)) ps' -> (forall x, (x, 1) ∈ ps' <-> x = k) ->
  tracked m' ps' k zs r.
Proof.
  intros m' [Ht Hp Hk Hon Hfp Hd Hke Hsz] Hi Hik Hq Ho1 Ho2 [Ht' Hl'] Hgz Hp' Hon'.
  destruct (first_same m m' k zs r) as [Hfp' Hd']; [|done|].
  { intros a Ha. unfold m'. rewrite rd8_st, decide_False; [done|].
    pose proof (nodes_apart s i k Hik). pose proof (node_frame_apart C s N L i k Hi). unfold apart in *. lia. }
  split; rewrite ?Hl'; try done.
  - by eapply same_data_trans.
  - etrans; [exact Hke|]. by eapply keeps_own.
  - by apply sizes_alter.
Qed.

(** The free element at the end of the first page grows. *)
Lemma resize_step m ps k zs r r' :
  tracked m ps k zs r -> r <= r' < 2 ^ 32 ->
  tracked (st 4 m (frame_at C s k + arena_last 0 zs + o_size) r') ps k zs r'.
Proof.
  intros [Ht Hp Hk Hon [Ha Hz Hda Hu] Hd Hke Hsz] Hr. destruct (Ha) as [Har Hlo Hhi Hr0].
  pose proof (arena_last_ge _ _ _ _ _ Har) as Hge. pose proof (arena_resize _ _ _ _ _ r' Har ltac:(lia)) as Har'.
  rewrite arena_last_at in Hge, Har'.
  set (m' := st 4 m _ r') in *. pose proof (node_frame_apart C s N L k k Hk) as Hap. unfold apart in Hap.
  assert (forall n o, 0 <= o -> o + Z.of_nat n <= NODE -> ld n m' (node s k + o) = ld n m (node s k + o)) as Hn
    by (intros n o ??; unfold m'; apply ld_st_disj; vlia).
  assert (local_change C s m m' k) as Hc.
  { split.
    - intros a _ Hfr. unfold m', apart in *. rewrite rd8_st, decide_False by vlia. done.
    - intros o Ho. unfold link_field in Ho. apply Hn; vlia.
    - rewrite Hn by vlia. apply (Ht k Hk). }
  assert (pages C s N m' = alter (set_body (g_body (page_at C s m' k))) k (pages C s N m)) as Hl'.
  { rewrite (local_pages C s N L m m' k Hk Hc Ht). rewrite (alter_insert _ k _ (page_at C s m k)) by (by apply pages_lookup).
    f_equal. unfold page_at, set_body. cbn [g_pid g_reference g_free g_order g_size g_data g_clock g_body].
    by rewrite !Hn by vlia. }
  split; rewrite ?Hl'; try done.
  - by apply (local_table C s N L m m' k).
  - by apply placed_alter.
  - split; rewrite ?Hn by vlia; try done. split; [done|done|vlia|lia].
  - eapply same_data_trans; [exact Hd|]. intros o Ho _. unfold m'. rewrite rd8_st, decide_False by vlia. done.
  - etrans; [exact Hke|]. eapply keeps_own; [done|by apply Hon].
  - by apply sizes_alter.
Qed.

(** [getLastElement] on the first page. *)
Lemma last_element m ps k zs r :
  tracked m ps k zs r ->
  getLastElement C fuel (node s k) (set_ram m s) = Ret (frame_at C s k + arena_last 0 zs, set_ram m s).
Proof.
  intros [Ht _ Hk _ [Ha _ _ _] _ _ _]. unfold getLastElement, n_start.
  pose proof (l_mem _ _ _ L). pose proof (l_os _ _ _ L). pose proof (l_nodes _ _ _ L). pose proof (frame_start C s N L k).
  rewrite (load_bind C s m 8 _ _ _ _ (node_safe C s N L k Hk)) by vlia. destruct (Ht k Hk) as [-> _ _ _].
  pose proof (pa_arena _ _ _ _ _ Ha) as Har. pose proof (arena_chain m NULL (frame_at C s k) zs r ltac:(vlia) Har) as Hc.
  assert (nodes_ok C s (arena_nodes (frame_at C s k) zs)) as Hok.
  { apply Forall_forall. intros y Hy. apply (arena_nodes_in _ _ _ _ _ _ Har) in Hy. rewrite arena_last_at in Hy.
    destruct Ha. eapply safe_sub; [exact (frame_safe C s N L k Hk)|lia|vlia]. }
  pose proof (arena_fuel C N fuel HfN Hf _ _ _ _ _ Ha ltac:(done)) as Hfz. rewrite <- (arena_nodes_length (frame_at C s k) zs) in Hfz.
  pose proof (last_arena_nodes (frame_at C s k) zs) as Hl. rewrite arena_last_at in Hl.
  destruct (arena_nodes (frame_at C s k) zs) as [|x ns] eqn:En; [by destruct zs|].
  assert (x = frame_at C s k) as -> by (destruct zs; simpl in En; congruence).
  destruct Hc as (_ & Hx & Hc). apply Forall_cons in Hok as [Hs Hok].
  rewrite (bind_Ret _ _ _ _ _ (getNextSpace_at C s m _ Hx Hs)).
  rewrite (lastElement_loop_run C ns) by (done || (simpl in Hfz; lia)). rewrite last_cons in Hl.
  destruct (list.last ns); injection Hl as Hl; simpl; by rewrite <- Hl.
Qed.

(** [joinFreeSpace] for the page at the front, not yet numbered: the room of
    the new page is added to the free element at the end of the first page. *)
Lemma join_step m j zs r :
  tracked m [(0%nat, -1); (j, 1)] j zs r -> j <> 0%nat -> r + PS < 2 ^ 31 ->
  exists m', joinFreeSpace C fuel (node s 0) pid (set_ram m s) = Ret (tt, set_ram m' s) /\
    tracked m' [(0%nat, -1); (j, 1)] j zs (r + PS).
Proof.
  intros Htk Hj Hr. set (ps := [(0%nat, -1); (j, 1)]) in *. unfold joinFreeSpace.
  assert (forall i, (i, 2) ∉ ps) as Hps by (unfold ps; intros i; rewrite !elem_of_cons, elem_of_nil; naive_solver).
  destruct (find_step _ _ _ _ _ 1 Htk) as (m1 & E1 & Htk1 & _). rewrite (bind_Ret _ _ _ _ _ E1), (find_some _ _ _ _ _ Htk).
  destruct (find_step _ _ _ _ _ 2 Htk1) as (m2 & E2 & Htk2 & _). rewrite (bind_Ret _ _ _ _ _ E2), (find_none _ _ _ _ _ Htk1 Hps).
  cbn [from_option]. rewrite (bind_Ret _ _ _ (node s j) (set_ram m2 s)) by (destruct fuel; [lia|done]).
  pose proof Htk2 as [Ht Hp Hk Hon [Ha Hz Hda Hu] _ _ Hsz]. pose proof (node_safe C s N L j Hk) as Hsj.
  pose proof (l_N _ _ _ L) as HN. pose proof (node_safe C s N L 0 HN) as Hs0.
  rewrite (order_bind C s m2 _ _ _ _ Hsj) by lia.
  rewrite (bind_Ret _ _ _ (node s j, node s j) (set_ram m2 s)).
  2:{ destruct fuel; [lia|]. cbn [dataStart_loop]. rewrite (node_not_null C s N L). unfold n_data.
      rewrite (load_bind C s m2 4 _ _ _ _ Hsj), Hda by vlia. done. }
  rewrite (node_not_null C s N L). cbn [negb]. unfold n_data. rewrite (load_bind C s m2 4 _ _ _ _ Hsj), Hda by vlia.
  change (0 =? 0) with true. cbn match. rewrite (bind_Ret _ _ _ _ _ (last_element _ _ _ _ _ Htk2)).
  destruct Ha as [Har Hlo Hhi Hr0]. pose proof (arena_last_ge _ _ _ _ _ Har) as Hge. rewrite arena_last_at in Hge.
  destruct (arena_at_last _ _ _ _ _ Har) as (pv & Ef & Er & _). rewrite arena_last_at in Ef, Er.
  set (e := frame_at C s j + arena_last 0 zs) in *.
  pose proof (frame_start C s N L j). pose proof (l_mem _ _ _ L). pose proof (l_os _ _ _ L). pose proof (l_nodes _ _ _ L).
  assert (safe C s e (e + NODE)) as Hse by (eapply safe_sub; [exact (frame_safe C s N L j Hk)|lia|unfold e; lia]).
  destruct (Z.eqb_spec e NULL); [unfold e in *; vlia|]. cbn [negb]. unfold n_free, n_size.
  rewrite (load_bind C s m2 4 _ _ _ _ Hse), Ef by vlia. change (negb (1 =? 0)) with true. cbn match.
  rewrite (store_bind C s m2 4 _ _ _ _ _ Hs0) by vlia.
  set (m3 := st 4 m2 (node s 0 + o_data) 1).
  assert (tracked m3 ps j zs r) as Htk3.
  { apply (side_step m2 4 o_data 1 (set_data 1) 0 (-1) ps ps); try done; [by left|vlia..|by apply store_data|].
    by apply placed_alter. }
  assert (ld 4 m3 (e + o_size) = r) as Er3.
  { pose proof Htk3 as [_ _ _ _ [Ha3 _ _ _] _ _ _]. destruct (arena_at_last _ _ _ _ _ (pa_arena _ _ _ _ _ Ha3)) as (? & _ & E & _).
    by rewrite arena_last_at in E. }
  assert (ld 4 m3 (node s 0 + o_size) = PS) as Ez3.
  { pose proof (tk_sizes _ _ _ _ _ Htk3) as Hsz3. rewrite Forall_lookup in Hsz3.
    exact (Hsz3 0%nat _ (pages_lookup C s N m3 0 HN)). }
  rewrite (load_bind C s m3 4 _ _ _ _ Hse), Er3 by vlia. rewrite (load_bind C s m3 4 _ _ _ _ Hs0), Ez3 by vlia.
  rewrite (store_at C s m3 4 _ _ _ _ Hse) by vlia. eexists. split; [done|].
  apply (resize_step m3 ps j zs r); [done|]. pose proof (l_ps _ _ _ L). vlia.
Qed.

(** Taking a free page for the process, before it has a number. *)
Lemma take_step rec m j zs r :
  tracked m [(0%nat, 1)] 0 zs r -> index unused (pages C s N m) = Some j -> PS < 2 ^ 32 -> 0 <= pid < 2 ^ 32 ->
  exists m', getFreePage C junk (S rec) fuel PS pid (set_ram m s) = Ret (node s 0, set_ram m' s) /\
    let m1 := st 4 m' (node s 0 + o_order) (-1) in j <> 0%nat /\ tracked m1 [(0%nat, -1); (j, 1)] j zs r.
Proof.
  intros [Ht Hp _ Hon Hfp Hd Hke Hsz] Hj HPS Hpid. pose proof (l_N _ _ _ L) as HN. pose proof (index_lt _ _ _ _ _ _ Hj) as HjN.
  assert (j <> 0%nat) as Hj0.
  { intros ->. apply index_Some in Hj as (g & Eg & Hg). rewrite pages_lookup in Eg by done. injection Eg as <-.
    unfold unused in Hg. cbn [page_at g_free] in Hg. by rewrite (po_used _ _ _ _ Hfp) in Hg. }
  destruct (getFreePage_run C junk s N L fuel HfN Hf rec m PS pid j Ht Hj HPS Hpid) as (m' & b & E & Hs & _).
  exists m'. split; [done|]. cbn zeta. split; [done|]. pose proof Hs as [Ht' Hl' _ _].
  set (l4 := alter _ j (pages C s N m)) in *. assert (length l4 = N) as El4 by (unfold l4; by rewrite length_alter, pages_length).
  assert (keeps pid (pages C s N m) l4) as Hk4.
  { apply keeps_alter. intros g Eg [_ Hu]. apply index_Some in Hj as (g' & Eg' & Hg'). unfold unused in Hg'.
    assert (g' = g) as -> by congruence. by rewrite Hu in Hg'. }
  assert (erase (pages C s N m') !! j = erase (pages C s N m) !! 0%nat) as Ej.
  { rewrite Hl', erase_swap, swap_list_tr by (rewrite erase_length, El4; lia). unfold tr.
    rewrite decide_False, decide_True by done. rewrite !erase_lookup. unfold l4. by rewrite list_lookup_alter_ne by done. }
  destruct (first_carried m m' _ j 0 zs r Hs Ht HjN HN (placed_sole pid _ _ _ _ Hp Hon) Ej Hfp) as [Hfp' Hd'].
  destruct (store_order m' 0 (-1) Ht' HN ltac:(lia)) as [Ht5 Hl5]. set (m5 := st 4 m' (node s 0 + o_order) (-1)) in *.
  destruct (first_same m' m5 j zs r) as [Hfp5 Hd5]; [|done|].
  { intros a Ha. unfold m5. rewrite rd8_st, decide_False; [done|].
    pose proof (nodes_apart s 0 j ltac:(done)). pose proof (node_frame_apart C s N L 0 j HN). unfold apart in *. vlia. }
  assert (placed pid (pages C s N m5) [(0%nat, -1); (j, 1)]) as Hp5.
  { rewrite Hl5, Hl'. apply placed_reserved; [done|]. rewrite pages_length. lia. }
  assert (erase (swap_list 0 j l4) ≡ₚ erase l4) as Epm by (rewrite erase_swap; apply swap_list_perm).
  split; try done.
  - intros i. rewrite !elem_of_cons, elem_of_nil. naive_solver.
  - eapply same_data_trans; [exact Hd|]. by eapply same_data_trans.
  - etrans; [exact Hke|]. etrans; [exact Hk4|]. etrans; [apply keeps_perm, Epm|]. rewrite Hl5, Hl'.
    apply keeps_alter. intros g. rewrite swap_list_lookup by (rewrite El4; lia). rewrite decide_True by done.
    unfold l4. rewrite list_lookup_alter_eq. destruct (pages C s N m !! j); [|done]. intros [= <-] [Hf' _]. by apply Hf'.
  - rewrite Hl5, Hl'. apply sizes_alter; [done|]. eapply sizes_erase; [exact Epm|]. by apply sizes_alter.
Qed.

(** A store in the reference mark of the first page. *)
Lemma reference_step m ps k zs r :
  tracked m ps k zs r ->
  tracked (st 4 m (node s k + o_reference) 1) ps k zs r /\
  pages C s N (st 4 m (node s k + o_reference) 1) = alter (set_reference 1) k (pages C s N m).
Proof.
  intros [Ht Hp Hk Hon [Ha Hz Hda Hu] Hd Hke Hsz]. destruct (store_reference m k Ht Hk) as [Ht' Hl'].
  split; [|done]. set (m' := st 4 m _ 1) in *.
  assert (forall o, 0 <= o < PS -> rd8 m' (frame_at C s k + o) = rd8 m (frame_at C s k + o)) as Hfr.
  { intros o Ho. pose proof (node_frame_apart C s N L k k Hk) as Hap. unfold m', apart in *.
    rewrite rd8_st, decide_False by vlia. done. }
  split; rewrite ?Hl'; try done.
  - by apply placed_alter.
  - split; [by eapply page_arena_same|unfold m'; rewrite ld_st_disj by vlia; done..].
  - eapply same_data_trans; [exact Hd|]. intros o Ho _. apply Hfr. destruct Ha. vlia.
  - etrans; [exact Hke|]. eapply keeps_own; [done|by apply Hon].
  - by apply sizes_alter.
Qed.

(** Loading, for the first page of the process. *)
Lemma load_first rec m pos k zs r :
  table C s N m -> process pid (pages C s N m) pos -> pos !! 0%nat = Some k -> Z.of_nat (length pos) + 2 < 2 ^ 31 ->
  (forall j, (0 < j)%nat -> (S j < length pos)%nat -> pos !! j = Some j) -> page_one m k zs r ->
  exists m', loadProcessPages C junk rec fuel pid (set_ram m s) = Ret (0, set_ram m' s) /\
    load_list fuel pid (pages C s N m) = Ret (pages C s N m') /\ table C s N m' /\
    process pid (pages C s N m') (seq 0 (length pos)) /\ page_one m' 0 zs r /\
    same_data m m' (frame_at C s k) (frame_at C s 0) zs /\ erase (pages C s N m') ≡ₚ erase (pages C s N m).
Proof.
  intros Ht Hp E0 Hmax Hmid Hfp. pose proof (l_N _ _ _ L) as HN. pose proof (lookup_lt_Some _ _ _ E0).
  pose proof (process_length _ _ _ Hp) as Hle. rewrite pages_length in Hle.
  pose proof (process_lt _ _ _ _ _ Hp E0) as Hk. rewrite pages_length in Hk.
  pose proof (loadProcessPages_refines C junk s N L Hnull fuel HfN Hf rec m pid Ht) as Hload.
  destruct (load_list_places pid fuel _ pos Hp ltac:(lia) Hmax Hmid) as (l' & E & Hp' & Hcont).
  rewrite E in Hload. destruct Hload as (m1 & E1 & Hs1). pose proof Hs1 as [Ht1 Hl1 _ _].
  specialize (Hcont _ _ E0). rewrite <- Hl1 in *. exists m1.
  destruct (first_carried m m1 _ 0 k zs r Hs1 Ht HN Hk (pr_at _ _ _ Hp _ _ E0) Hcont Hfp) as [Hfp' Hd'].
  split_and!; try done. by apply (load_list_perm pid fuel).
Qed.

(** The whole of [reserveAnotherPage]. *)
Lemma reserve_run rec m j zs r :
  tracked m [(0%nat, 1)] 0 zs r -> index unused (pages C s N m) = Some j -> 0 <= pid < 2 ^ 32 -> r + PS < 2 ^ 31 ->
  exists m', reserveAnotherPage C junk (S rec) fuel pid (set_ram m s) = Ret (0, set_ram m' s) /\ table C s N m' /\
    process pid (pages C s N m') [0; 1]%nat /\ page_one m' 0 zs (r + PS) /\
    same_data m0 m' f0 (frame_at C s 0) zs /\ keeps pid (pages C s N m0) (pages C s N m').
Proof.
  intros Htk Hj Hpid Hr. pose proof (pa_rest _ _ _ _ _ (po_arena _ _ _ _ (tk_first _ _ _ _ _ Htk))) as Hr0.
  pose proof (l_N _ _ _ L) as HN. pose proof (node_safe C s N L 0 HN) as Hs0. unfold reserveAnotherPage.
  destruct (take_step rec m j zs r Htk Hj ltac:(lia) Hpid) as (m1 & E1 & Hj0 & Htk1). rewrite (bind_Ret _ _ _ _ _ E1).
  rewrite (node_not_null C s N L). rewrite (store_bind C s m1 4 _ _ _ _ _ Hs0) by vlia.
  destruct (join_step _ j zs r Htk1 Hj0 Hr) as (m2 & E2 & Htk2). rewrite (bind_Ret _ _ _ _ _ E2).
  destruct (last_step _ _ _ _ _ Htk2) as (m3 & E3 & Htk3).
  { intros i. rewrite !elem_of_cons, elem_of_nil. naive_solver. }
  rewrite (bind_Ret _ _ _ _ _ E3). pose proof Htk3 as [Ht3 Hp3 Hk3 Hon3 _ _ _ _].
  rewrite (order_bind C s m3 _ _ _ _ (node_safe C s N L j Hk3)) by lia.
  assert (wraps 32 (ld 4 m3 (node s j + o_order)) = 1) as ->.
  { destruct (proj2 (Hp3 j 1) ltac:(right; left)) as (g & Eg & _ & Eo). rewrite pages_lookup in Eg by done.
    injection Eg as <-. exact Eo. }
  change (1 + 1) with 2. rewrite (store_bind C s m3 4 _ _ _ _ _ Hs0) by vlia.
  set (m4 := st 4 m3 (node s 0 + o_order) 2).
  assert (tracked m4 [(0%nat, 2); (j, 1)] j zs (r + PS)) as Htk4.
  { apply (side_step m3 4 o_order 2 (set_order 2) 0 (-1) [(0%nat, -1); (j, 1)]); try done; [by left|vlia..| | |].
    - apply store_order; [done|done|lia].
    - by apply placed_second.
    - intros x. rewrite !elem_of_cons, elem_of_nil. naive_solver. }
  pose proof Htk4 as [Ht4 Hp4 _ _ Hfp4 Hd4 Hk4 _].
  destruct (load_first (S rec) m4 [j; 0]%nat j zs (r + PS) Ht4) as (m5 & E5 & _ & Ht5 & Hp5 & Hfp5 & Hd5 & Hpm); try done.
  { eapply placed_process; [exact Hp4|]. intros i [|[|x]]; simpl; rewrite !elem_of_cons, elem_of_nil; naive_solver lia. }
  { simpl. lia. }
  rewrite (bind_Ret _ _ _ _ _ E5). exists m5. split_and!; try done.
  - by eapply same_data_trans.
  - etrans; [exact Hk4|]. by apply keeps_perm.
Qed.

End Grow.

Section Malloc.
Context (C : config) (junk : bytes) (s : vm) (N : nat) (L : layout C s N) (Hnull : null_unmapped C s).
Context (fuel : nat) (HfN : (N < fuel)%nat) (Hf : (Z.to_nat (page_size C) < fuel)%nat) (pid : Z).
Implicit Types (m : bytes).
Abbreviation PS := (page_size C).

(** The round of [getFreeElement] in which the process gets its second page. *)
Lemma grow_round rounds rec m k zs r size :
  table C s N m -> default 1 (running s) = pid -> 0 <= pid < 2 ^ 32 -> (k < N)%nat ->
  placed pid (pages C s N m) [(k, 1)] -> page_one C s m k zs r ->
  Forall (fun g => g_size g = PS) (pages C s N m) -> (exists g, g ∈ erase (pages C s N m) /\ unused g = true) ->
  r < size -> r + PS < 2 ^ 31 ->
  exists m', getFreeElement C junk (S rounds) (S rec) fuel size (set_ram m s) =
      getFreeElement C junk rounds (S rec) fuel size (set_ram m' s) /\ table C s N m' /\
    process pid (pages C s N m') [0; 1]%nat /\ page_one C s m' 0 zs (r + PS) /\
    same_data m m' (frame_at C s k) (frame_at C s 0) zs /\ keeps pid (pages C s N m) (pages C s N m').
Proof.
  intros Ht Hpid Hpr Hk Hp Hfp Hsz Hsp Hr HPS. pose proof (l_N _ _ _ L) as HN. set (f0 := frame_at C s k).
  assert (process pid (pages C s N m) [k]) as Hpro.
  { eapply placed_process; [exact Hp|]. intros i [|x]; simpl; rewrite list_elem_of_singleton; naive_solver lia. }
  destruct (load_first C junk s N L Hnull fuel HfN Hf pid (S rec) m [k] k zs r Ht Hpro)
    as (m1 & E1 & El1 & Ht1 & _ & Hfp1 & Hd1 & Hpm1); [done|simpl; lia|simpl; intros; lia|done|].
  rewrite (load_list_single pid fuel _ k Hpro) in El1 by lia. injection El1 as El1.
  assert (tracked C s N pid m f0 m1 [(0%nat, 1)] 0 zs r) as Htk1.
  { split; try done.
    - rewrite <- El1. apply placed_swap; [done|by rewrite pages_length].
    - intros i. rewrite list_elem_of_singleton. naive_solver.
    - by apply keeps_perm.
    - by eapply sizes_erase. }
  rewrite (getFreeElement_loaded C junk s N L fuel HfN Hf rounds (S rec) m m1 pid size Hpid Ht1 E1).
  destruct (reference_step C s N L fuel HfN Hf pid m f0 _ _ _ _ _ Htk1) as [Htk2 El2]. set (m2 := st 4 m1 _ 1) in *.
  pose proof Htk2 as [_ _ _ _ [Ha2 _ _ _] _ _ _]. pose proof (pa_arena _ _ _ _ _ Ha2) as Har.
  pose proof (frame_start C s N L 0). pose proof (l_mem _ _ _ L). pose proof (l_os _ _ _ L). pose proof (l_nodes _ _ _ L).
  assert (findFreeSpace C fuel (frame_at C s 0) size (set_ram m2 s) = Ret (NULL, set_ram m2 s)) as Ef.
  { rewrite (findFreeSpace_run C (arena_nodes (frame_at C s 0) zs)).
    - by rewrite (arena_none _ _ _ _ _ _ Har Hr).
    - eapply arena_chain; [vlia|exact Har].
    - apply Forall_forall. intros y Hy. apply (arena_nodes_in _ _ _ _ _ _ Har) in Hy. rewrite arena_last_at in Hy.
      destruct Ha2. eapply safe_sub; [exact (frame_safe C s N L 0 HN)|lia|vlia].
    - rewrite arena_nodes_length. by eapply (arena_fuel C N fuel HfN Hf); [exact Ha2|]. }
  rewrite (bind_Ret _ _ _ _ _ Ef). change (NULL =? NULL) with true. cbn match.
  destruct (find_step C s N L fuel HfN pid m f0 _ _ _ _ _ 2 Htk2) as (m3 & E3 & Htk3 & Ee3).
  rewrite (find_none C s N pid m f0 _ _ _ _ _ Htk2) in E3 by (intros i; rewrite list_elem_of_singleton; naive_solver).
  rewrite (bind_Ret _ _ _ NULL (set_ram m3 s)).
  2:{ rewrite (bind_Ret _ _ _ _ _ E3). destruct fuel; [lia|done]. }
  destruct (index_unused (pages C s N m3)) as [j Hj].
  { rewrite Ee3, El2. destruct Hsp as (g & Hg & Hu). rewrite <- Hpm1 in Hg. apply list_elem_of_lookup in Hg as [i Hi].
    exists (if decide (i = 0%nat) then set_reference 1 g else g). split; [|by case_decide].
    apply list_elem_of_lookup. exists i. rewrite erase_lookup in *. case_decide as Hi0.
    - subst i. rewrite list_lookup_alter_eq. destruct (pages C s N m1 !! 0%nat); [|done]. by injection Hi as <-.
    - by rewrite list_lookup_alter_ne by done. }
  destruct (reserve_run C junk s N L Hnull fuel HfN Hf pid m f0 rec m3 j zs r Htk3 Hj Hpr HPS)
    as (m4 & E4 & Ht4 & Hp4 & Hfp4 & Hd4 & Hk4).
  exists m4. split_and!; try done. change (NULL =? NULL) with true. cbn match. by rewrite (bind_Ret _ _ _ _ _ E4).
Qed.

(** The whole of [getFreeElement] for a request that needs a second page. *)
Lemma getFreeElement_grows rounds rec m k zs r size :
  table C s N m -> default 1 (running s) = pid -> 0 <= pid < 2 ^ 32 -> (k < N)%nat ->
  placed pid (pages C s N m) [(k, 1)] -> page_one C s m k zs r ->
  Forall (fun g => g_size g = PS) (pages C s N m) -> (exists g, g ∈ erase (pages C s N m) /\ unused g = true) ->
  r < size -> size + NODE < r + PS < 2 ^ 31 -> arena_last 0 zs + NODE + size + NODE < 2 * PS ->
  exists m', getFreeElement C junk (S (S rounds)) (S rec) fuel size (set_ram m s) =
      Ret (frame_at C s 0 + arena_last 0 zs + NODE, set_ram m' s) /\
    table C s N m' /\ process pid (pages C s N m') [0; 1]%nat /\
    page_arena m' (frame_at C s 0) (2 * PS) (zs ++ [size]) (r + PS - size) /\
    same_data m m' (frame_at C s k) (frame_at C s 0) zs /\ keeps pid (pages C s N m) (pages C s N m').
Proof.
  intros Ht Hpid Hpr Hk Hp Hfp Hsz Hsp Hr HPS Hfit.
  pose proof (pa_rest _ _ _ _ _ (po_arena _ _ _ _ _ _ Hfp)) as Hr0.
  destruct (grow_round (S rounds) rec m k zs r size) as (m1 & -> & Ht1 & Hp1 & Hfp1 & Hd1 & Hk1); [done..|lia|].
  destruct (load_first C junk s N L Hnull fuel HfN Hf pid (S rec) m1 [0; 1]%nat 0 zs (r + PS) Ht1 Hp1)
    as (m2 & E2 & _ & Ht2 & Hp2 & Hfp2 & Hd2 & Hpm2); [done|simpl; lia|simpl; intros; lia|done|].
  pose proof (process_length _ _ _ Hp2) as HN2. rewrite pages_length in HN2. simpl in HN2.
  pose proof (po_arena _ _ _ _ _ _ Hfp2) as Ha2.
  destruct (allocate_loaded C junk s N L fuel HfN Hf rounds (S rec) m1 m2 pid 2 (2 * PS) zs (r + PS) size Hpid E2 Ht2)
    as (m3 & E3 & Ht3 & Ha3 & Hd3 & Hid & Hpg);
    [lia|lia| |by eapply (arena_fuel C N fuel HfN Hf); [exact Ha2|]|lia|lia|lia|].
  { destruct Ha2 as [??? ?]. pose proof (po_arena _ _ _ _ _ _ Hfp) as []. split; try done; vlia. }
  exists m3. assert (forall i o, (i < N)%nat -> owner pid o (page_at C s m3 i) = owner pid o (page_at C s m2 i)) as Ho.
  { intros i o Hi. unfold owner, page_at. cbn [g_pid g_order]. by rewrite !Hid by auto. }
  split_and!; [done|done| |done| |].
  - apply (process_owner pid (pages C s N m2)); [|done]. intros o i. destruct (decide (i < N)%nat) as [Hi|Hi].
    + rewrite !pages_lookup by done. simpl. by rewrite Ho.
    + rewrite !lookup_ge_None_2; [done|rewrite pages_length; lia..].
  - eapply same_data_trans; [|exact Hd3]. by eapply same_data_trans.
  - etrans; [exact Hk1|]. etrans; [by apply keeps_perm|]. intros g Hg (i & Hi)%list_elem_of_lookup.
    apply list_elem_of_lookup. exists i. pose proof (lookup_lt_Some _ _ _ Hi) as Hlt. rewrite erase_length, pages_length in Hlt.
    rewrite erase_lookup, !pages_lookup in * by done. injection Hi as <-.
    destruct (decide (2 <= i)%nat) as [Hi2|Hi2]; [by rewrite Hpg by lia|]. exfalso. apply (proj1 Hg).
    destruct (pr_at _ _ _ Hp2 i i) as [Hoi _]; [destruct i as [|[|i]]; [done..|lia]|].
    rewrite pages_lookup in Hoi by done. injection Hoi as Hoi%owner_spec. apply Hoi.
Qed.

End Malloc.

(** ** Theorems *)

(** C10: malloc grows a process: when the request of the running thread does not
    fit in its only page and a page is free, the thread gets a second page, both
    pages are brought to the first two frames, and the block returned starts
    where the free element of the first page started and may reach into the
    second frame.  The blocks allocated before keep their sizes and contents,
    and the used pages of the other processes their descriptions and the bytes of
    their frames outside the link fields of the elements found there: in a page
    that starts with data of the page before those are data, which a move of the
    page overwrites. *)
Theorem malloc_grows C junk p fuel rec sizes1 sizes2 s N pid k zs r size :
  layout C s N -> null_unmapped C s -> table C s N (ram s) -> (N < fuel)%nat -> (Z.to_nat (page_size C) < fuel)%nat ->
  running s = Some pid -> 0 <= pid < 2 ^ 32 -> (k < N)%nat ->
  placed pid (pages C s N (ram s)) [(k, 1)] -> page_one C s (ram s) k zs r ->
  Forall (fun g => g_size g = page_size C) (pages C s N (ram s)) ->
  (exists g, g ∈ erase (pages C s N (ram s)) /\ unused g = true) ->
  r < size -> size + NODE < r + page_size C < 2 ^ 31 -> arena_last 0 zs + NODE + size + NODE < 2 * page_size C ->
  exists s', myallocate C junk fuel (S rec) p sizes1 sizes2 size THREADREQ s =
      Ret (frame_at C s 0 + arena_last 0 zs + NODE, s') /\
    memp s' = memp s /\ table C s N (ram s') /\ process pid (pages C s N (ram s')) [0; 1]%nat /\
    page_arena (ram s') (frame_at C s 0) (2 * page_size C) (zs ++ [size]) (r + page_size C - size) /\
    same_data (ram s) (ram s') (frame_at C s k) (frame_at C s 0) zs /\
    keeps pid (pages C s N (ram s)) (pages C s N (ram s')).
Proof.
  intros L Hnull Ht HN Hf Hrun Hpid Hk Hp Hfp Hsz Hsp Hr HPS Hfit.
  destruct (myallocate_thread C junk p fuel (S rec) sizes1 sizes2 s pid size) as [P ->]; [destruct L; vlia|done|].
  set (s1 := set_prot P s). destruct fuel as [|[|fuel']]; [lia|destruct L; lia|].
  destruct (getFreeElement_grows C junk s1 N (layout_memp C s s1 N eq_refl L) Hnull (S (S fuel')) HN Hf pid fuel' rec (ram s) k zs r size)
    as (m' & E' & Ht' & Hp' & Ha' & Hd' & Hk'); rewrite ?(pages_memp C s s1); try done.
  - by apply (table_memp C s).
  - change (running s1) with (running s). by rewrite Hrun.
  - by destruct Hfp.
  - rewrite (set_ram_id s1 : set_ram (ram s) s1 = s1) in E'. rewrite !(pages_memp C s s1) in * by done.
    exists (set_ram m' s1). split_and!; try done. by apply (table_memp C s1).
Qed.

(** Pages of which only the first is of process 5. *)
Lemma owners_placed l : owners l = [(5, 1); (0, 1); (0, 1); (0, 1)] -> placed 5 l [(0%nat, 1)].
Proof.
  intros E i o. rewrite list_elem_of_singleton.
  assert ((fun g => (g_pid g, g_order g)) <$> l !! i = [(5, 1); (0, 1); (0, 1); (0, 1)] !! i) as Hi
    by (rewrite <- E; unfold owners; by rewrite list_lookup_fmap).
  split.
  - intros (g & Eg & Hg & <-). rewrite Eg in Hi. simpl in Hi. rewrite Hg in Hi.
    destruct i as [|[|[|[|i]]]]; simpl in Hi; try discriminate. by injection Hi as ->.
  - intros [= -> ->]. destruct (l !! 0%nat) as [g|]; [|done]. injection Hi as ??. by exists g.
Qed.

Lemma malloc_grows_witness :
  exists s', myallocate medium ∅ 300 2 4096 [] [] 220 THREADREQ medium_state =
      Ret (frame_at medium medium_state 0 + arena_last 0 [] + NODE, s') /\
    memp s' = memp medium_state /\ table medium medium_state 4 (ram s') /\
    process 5 (pages medium medium_state 4 (ram s')) [0; 1]%nat /\
    page_arena (ram s') (frame_at medium medium_state 0) (2 * 256) ([] ++ [220]) (256 - NODE + 256 - 220) /\
    same_data (ram medium_state) (ram s') (frame_at medium medium_state 0) (frame_at medium medium_state 0) [] /\
    keeps 5 (pages medium medium_state 4 (ram medium_state)) (pages medium medium_state 4 (ram s')).
Proof.
  destruct medium_memp as [Hm Hr]. destruct medium_page as (m' & _ & Ht & Hfr).
  apply (malloc_grows medium ∅ 4096 300 1 [] [] medium_state 4 5 0 [] (256 - NODE) 220);
    [by apply (init_layout medium 4096 medium_ok)|apply null_unmapped_low; rewrite ?Hm; simpl; lia|exact Ht|lia|simpl; lia
    |exact Hr|lia|lia|apply owners_placed; vm_compute; reflexivity| | | |vlia|simpl; vlia|simpl; vlia].
  - split; [apply fresh_arena; [exact Hfr|vlia]|vm_compute; reflexivity..].
  - unfold pages. cbn [seq fmap list_fmap]. repeat constructor; vm_compute; reflexivity.
  - exists (set_clock 0 (page_at medium medium_state (ram medium_state) 1)). split; [|vm_compute; reflexivity].
    unfold pages. cbn [seq fmap list_fmap erase]. right. left.
Defined.
