(* ===== verification/VmSwapFile.v ===== *)
(** * The memory manager: the swap file

    The swap file is a page table of its own with the pages behind it: the
    description of a memory by its list of pages serves for it too, with other
    sizes and another base address.  [getSwap] brings it to memory with its
    links adapted to the place. *)

From S2P Require Import Prelude LinkedList ByteMem Vm VmSpec VmElems VmSwap VmPages VmPageOps VmLoad VmPlaces VmFree VmInit VmVictim.
Import Vm.

(** ** fixSwapPtrs *)

Section FixLoop.
Context (C : config) (s : vm) (base ptr max maxSize : Z) (Hbase : 0 < base).
Abbreviation PS := (page_size C).
Abbreviation nd := (nd base).
Abbreviation before := (before base).

(** [a] is in a link of node [k]. *)
Definition linked_byte (k : nat) (a : Z) : Prop :=
  nd k + o_start <= a < nd k + o_start + 8 \/ nd k + o_next <= a < nd k + o_next + 16.

Lemma fix_round j f m hi :
  safe C s base hi -> nd (S j) <= hi -> hi < 2 ^ 64 -> 0 <= ptr + PS * Z.of_nat j < 2 ^ 64 ->
  nd j < max -> PS * Z.of_nat j < maxSize ->
  exists m', fixSwap_loop C (S f) (nd j) (ptr + PS * Z.of_nat j) (before j) (PS * Z.of_nat j) max maxSize (set_ram m s) =
      fixSwap_loop C f (nd (S j)) (ptr + PS * Z.of_nat (S j)) (before (S j)) (PS * Z.of_nat (S j)) max maxSize (set_ram m' s) /\
    ld 8 m' (nd j + o_start) = ptr + PS * Z.of_nat j /\ ld 8 m' (nd j + o_prev) = before j /\
    ld 8 m' (nd j + o_next) = ld 8 m (nd j + o_next) /\
    ((0 < j)%nat -> ld 8 m' (nd (pred j) + o_next) = nd j) /\
    (forall a, ~ linked_byte j a -> ~ ((0 < j)%nat /\ nd (pred j) + o_next <= a < nd (pred j) + o_next + 8) ->
       rd8 m' a = rd8 m a).
Proof.
  intros Hs Hhi Hmax Hptr H1%Z.ltb_lt H2%Z.ltb_lt. cbn [fixSwap_loop]. rewrite H1, H2. cbn [andb].
  rewrite nd_S in *. assert (base <= nd j) by (unfold VmInit.nd; vlia).
  assert (0 <= before j < 2 ^ 64) by (unfold VmInit.before, VmInit.nd in *; case_decide; vlia).
  rewrite 2!(store_bind C s _ 8 _ _ _ _ _ Hs) by vlia.
  set (m1 := st 8 (st 8 m (nd j + o_start) _) (nd j + o_prev) (before j)).
  set (m2 := if bool_decide (j = 0%nat) then m1 else st 8 m1 (before j + o_next) (nd j)).
  rewrite (bind_Ret _ _ _ tt (set_ram m2 s)).
  2:{ rewrite before_null by done. unfold m2. case_bool_decide as Hj; cbn [negb]; [done|].
      unfold VmInit.before. rewrite decide_False by done.
      rewrite (store_at C s m1 8 _ _ _ _ Hs); unfold VmInit.nd in *; [done|vlia|vlia]. }
  assert (forall n a, (nd j <= a /\ 0 <= Z.of_nat n) -> ld n m2 a = ld n m1 a) as Hm2.
  { intros n a Ha. unfold m2. case_bool_decide as Hj; [done|]. unfold VmInit.before. rewrite decide_False by done.
    assert (nd (pred j) + NODE = nd j) by (unfold VmInit.nd; vlia). apply ld_st_disj. vlia. }
  exists m2. split_and!.
  - f_equal; lia.
  - rewrite Hm2 by vlia. unfold m1. rewrite ld_st_disj by vlia. by apply ld8_st.
  - rewrite Hm2 by vlia. by apply ld8_st.
  - rewrite Hm2 by vlia. unfold m1. by rewrite !ld_st_disj by vlia.
  - intros Hj. unfold m2. rewrite bool_decide_false by lia. unfold VmInit.before. rewrite decide_False by lia.
    apply ld8_st. vlia.
  - intros a Ha Hno. unfold linked_byte in Ha. transitivity (rd8 m1 a).
    + unfold m2. case_bool_decide as Hj; [done|]. unfold VmInit.before. rewrite decide_False by done.
      rewrite rd8_st, decide_False; [done|]. intros ?. apply Hno. split; [lia|done].
    + unfold m1. rewrite !rd8_st, !decide_False by vlia. done.
Qed.

Lemma fixSwap_loop_run n j fuel m :
  safe C s base (nd (j + n)) -> nd (j + n) < 2 ^ 64 -> 0 <= ptr -> 0 < PS -> ptr + PS * Z.of_nat (j + n) < 2 ^ 64 ->
  (forall k, (k < j + n)%nat -> nd k < max /\ PS * Z.of_nat k < maxSize) ->
  (max <= nd (j + n) \/ maxSize <= PS * Z.of_nat (j + n)) -> (n < fuel)%nat ->
  exists m', fixSwap_loop C fuel (nd j) (ptr + PS * Z.of_nat j) (before j) (PS * Z.of_nat j) max maxSize
      (set_ram m s) = Ret (tt, set_ram m' s) /\
    (forall k, (j <= k < j + n)%nat ->
       ld 8 m' (nd k + o_start) = ptr + PS * Z.of_nat k /\ ld 8 m' (nd k + o_prev) = before k /\
       ld 8 m' (nd k + o_next) = if decide (S k = (j + n)%nat) then ld 8 m (nd k + o_next) else nd (S k)) /\
    ((0 < n)%nat -> (0 < j)%nat -> ld 8 m' (nd (pred j) + o_next) = nd j) /\
    (forall a, (forall k, (j <= k < j + n)%nat -> ~ linked_byte k a) ->
       ~ ((0 < n)%nat /\ (0 < j)%nat /\ nd (pred j) + o_next <= a < nd (pred j) + o_next + 8) -> rd8 m' a = rd8 m a).
Proof.
  intros Hs Hmax Hptr HPS Hpmax. revert j fuel m Hs Hmax Hpmax.
  induction n as [|n IH]; intros j fuel m Hs Hmax Hpmax Hin Hend Hf; (destruct fuel as [|f]; [lia|]); cbn [fixSwap_loop].
  { rewrite Nat.add_0_r in *. exists m. split_and!; [|lia|lia|done].
    destruct (Z.ltb_spec (nd j) max), (Z.ltb_spec (PS * Z.of_nat j) maxSize); simpl; try lia; done. }
  assert (nd (S j) <= nd (j + S n)) as Hnd by (unfold VmInit.nd; vlia).
  assert (0 <= PS * Z.of_nat j <= PS * Z.of_nat (j + S n)) as Hpj.
  { split; [apply Z.mul_nonneg_nonneg; lia|apply Z.mul_le_mono_nonneg_l; lia]. }
  destruct (fix_round j f m _ Hs Hnd Hmax) as (m2 & E2 & Hst & Hpr & Hnx & Hprev & Hfr); [lia|apply Hin; lia|apply Hin; lia|].
  cbn [fixSwap_loop] in E2. rewrite E2. replace (j + S n)%nat with (S j + n)%nat in * by lia.
  destruct (IH (S j) f m2) as (m' & E & Hall & Hlast & Hout); [done..|lia|]. cbn [pred] in *.
  exists m'. split; [done|].
  assert (nd (S j) = nd j + NODE) as EnS by apply nd_S.
  assert (forall k, (S j <= k)%nat -> nd j + NODE <= nd k) as Hafter by (intros; unfold VmInit.nd; vlia).
  assert (forall a, a < nd j + NODE -> ~ ((0 < n)%nat /\ nd j + o_next <= a < nd j + o_next + 8) -> rd8 m' a = rd8 m2 a) as Hlow.
  { intros a Ha Hno. apply Hout; [intros k Hk; pose proof (Hafter k ltac:(lia)); unfold linked_byte; vlia|].
    intros (? & _ & ?). by apply Hno. }
  assert (forall o, o = o_start \/ o = o_prev -> ld 8 m' (nd j + o) = ld 8 m2 (nd j + o)) as Hj.
  { intros o Ho. apply ld_ext. intros i Hi. apply Hlow; vlia. }
  split_and!.
  - intros k Hk. destruct (decide (k = j)) as [->|].
    + rewrite !Hj by auto. split_and!; [done|done|]. case_decide as Hlt; [|apply Hlast; lia].
      rewrite <- Hnx. apply ld_ext. intros i Hi. apply Hlow; vlia.
    + destruct (Hall k) as (? & ? & Hn); [lia|]. split_and!; [done|done|]. rewrite Hn. case_decide; [|done].
      pose proof (Hafter k ltac:(lia)). apply ld_ext. intros i Hi. apply Hfr; [unfold linked_byte; vlia|].
      intros [? ?]. assert (nd (pred j) + NODE = nd j) by (unfold VmInit.nd; vlia). vlia.
  - intros _ Hj0. rewrite <- (Hprev Hj0). assert (nd (pred j) + NODE = nd j) by (unfold VmInit.nd; vlia).
    apply ld_ext. intros i Hi. apply Hlow; vlia.
  - intros a Ha Hno. rewrite Hout.
    + apply Hfr; [apply Ha; lia|]. intros [??]. apply Hno. split_and!; [lia|lia|vlia..].
    + intros k Hk. apply Ha. lia.
    + intros (? & _ & ?). apply (Ha j); [lia|]. unfold linked_byte. vlia.
Qed.

End FixLoop.

(** ** The swap as a table of pages *)

(** The sizes of the swap, as those of a memory, and an address for it. *)
Definition swap_sizes (C : config) : config :=
  mkConfig (SWAP_SIZE C) (SWAP_SIZE C) (SWAP_MEMORY_START C) (SWAP_MEMORY_START C) (SWAP_MEMORY_START C)
    (page_size C) (swap_move C) (swap_find C) (swap_init C) (swap_print C).

Definition at_base (B : Z) : vm := mkVm B ∅ NULL ∅ None true None 0.

(** The pages of a swap at address [B]; of the file at address 0. *)
Definition swapped (C : config) (B : Z) (m : bytes) : list page :=
  pages (swap_sizes C) (at_base B) (swap_count C) m.

(** What the operations need of a swap file. *)
Record swap_ok (C : config) (b : bytes) : Prop := {
  so_size : forall k, (k < swap_count C)%nat -> NODE < ld 4 b (NODE * Z.of_nat k + o_size) <= page_size C;
  so_last : ld 8 b (NODE * Z.of_nat (pred (swap_count C)) + o_next) = NULL
}.

(** The sizes fit together, for an array at [B]. *)
Record swap_fits (C : config) (B : Z) : Prop := {
  sf_base : 0 < B;
  sf_max : B + SWAP_SIZE C < 2 ^ 64;
  sf_page : NODE < page_size C;
  sf_table : NODE < SWAP_MEMORY_START C;
  sf_memory : SWAP_MEMORY_START C + page_size C < SWAP_SIZE C
}.

(** Memories that agree on the descriptions and contents of their pages. *)
Lemma pages_same C s s' N m m' :
  (forall k o, (k < N)%nat -> 0 <= o < NODE -> link_at 0 o = false -> rd8 m' (node s' k + o) = rd8 m (node s k + o)) ->
  (forall k o, (k < N)%nat -> 0 <= o < page_size C -> rd8 m' (frame_at C s' k + o) = rd8 m (frame_at C s k + o)) ->
  (forall k, (k < N)%nat -> ld 4 m (node s k + o_size) <= page_size C) ->
  pages C s' N m' = pages C s N m.
Proof.
  intros Hn Hfr Hz. unfold pages. apply list_fmap_ext. intros i k Hk%list_elem_of_lookup_2%elem_of_seq.
  assert (forall n o, meta_field n o -> ld n m' (node s' k + o) = ld n m (node s k + o)) as Hld.
  { intros n o Ho. apply ld_ext. intros x Hx. rewrite <- !Z.add_assoc. apply Hn; [lia|unfold meta_field in Ho; vlia|].
    by apply (meta_not_link n o). }
  unfold page_at. rewrite !Hld by auto with os. f_equal.
  apply body_ext; [apply Hz; lia|]. intros o Ho _. apply Hfr; [lia|done].
Qed.

Section Swap.
Context (C : config) (B : Z) (Hfit : swap_fits C B).
Abbreviation PS := (page_size C).
Abbreviation SC := (swap_sizes C).
Abbreviation sB := (at_base B).
Abbreviation N := (swap_count C).

Lemma swap_rounds :
  (0 < N)%nat /\ NODE * Z.of_nat N < SWAP_MEMORY_START C /\
  PS * Z.of_nat N < SWAP_SIZE C - SWAP_MEMORY_START C.
Proof using Hfit.
  destruct Hfit. pose proof (rounds_pos C (SWAP_MEMORY_START C - NODE) (SWAP_SIZE C - (SWAP_MEMORY_START C + PS))).
  pose proof (rounds_room C (SWAP_MEMORY_START C - NODE) (SWAP_SIZE C - (SWAP_MEMORY_START C + PS))).
  pose proof (rounds_space C (SWAP_MEMORY_START C - NODE) (SWAP_SIZE C - (SWAP_MEMORY_START C + PS))).
  fold (swap_count C) in *. vlia.
Qed.

Lemma swap_layout : layout SC sB N.
Proof using Hfit. pose proof swap_rounds. destruct Hfit. split; simpl; vlia. Qed.

(** [fixSwapPtrs] makes a table of what was read. *)
Lemma fixSwapPtrs_run s m fuel :
  safe C s B (B + SWAP_SIZE C) -> (N < fuel)%nat ->
  (forall k, (k < N)%nat -> NODE < ld 4 m (node sB k + o_size) <= PS) ->
  ld 8 m (node sB (pred N) + o_next) = NULL ->
  exists m', fixSwapPtrs C fuel B (set_ram m s) = Ret (tt, set_ram m' s) /\
    table SC sB N m' /\ pages SC sB N m' = pages SC sB N m /\
    (forall a, ~ (B <= a < B + SWAP_SIZE C) -> rd8 m' a = rd8 m a).
Proof using Hfit.
  intros Hs Hf Hz Hlast. pose proof swap_rounds as (HN & Hr & Hsp). pose proof swap_layout as L. pose proof Hfit as [Hb Hmax HPS Ht Hm].
  assert (0 <= PS * Z.of_nat N) by (apply Z.mul_nonneg_nonneg; vlia).
  destruct (fixSwap_loop_run C s B (B + SWAP_MEMORY_START C) (B + SWAP_MEMORY_START C - NODE)
    (SWAP_SIZE C - (SWAP_MEMORY_START C + PS)) Hb N 0 fuel m) as (m' & E & Hall & _ & Hout).
  - simpl. unfold nd. eapply safe_sub; [exact Hs|vlia|vlia].
  - simpl. unfold nd. vlia.
  - vlia.
  - vlia.
  - simpl. vlia.
  - intros k Hk. apply (rounds_in C) in Hk; [|vlia..]. unfold nd. lia.
  - simpl. unfold nd.
    destruct (rounds_end C (SWAP_MEMORY_START C - NODE) (SWAP_SIZE C - (SWAP_MEMORY_START C + PS))) as [He|He];
      [vlia..| |]; fold N in He; [left|right]; lia.
  - done.
  - simpl Nat.add in *. unfold nd at 1, before in E. rewrite decide_True in E by done.
    rewrite !Z.mul_0_r, !Z.add_0_r in E. exists m'. unfold fixSwapPtrs. rewrite E.
    change (nd B) with (node sB) in *.
    assert (forall k o, (k < N)%nat -> 0 <= o < NODE -> link_at 0 o = false ->
      rd8 m' (node sB k + o) = rd8 m (node sB k + o)) as Hmeta.
    { intros k o Hk Ho Hl%bool_decide_eq_false. apply Hout; [|lia]. intros i Hi. unfold linked_byte, nd, node. simpl memp.
      destruct (decide (i = k)) as [->|]; [vlia|]. assert (i < k \/ k < i)%nat as [?|?] by lia; vlia. }
    assert (forall k n o, (k < N)%nat -> meta_field n o -> ld n m' (node sB k + o) = ld n m (node sB k + o)) as Hld.
    { intros k n o Hk Ho. apply ld_ext. intros x Hx. rewrite <- !Z.add_assoc.
      apply Hmeta; [done|unfold meta_field in Ho; vlia|]. by apply (meta_not_link n o). }
    assert (forall a, B + SWAP_MEMORY_START C <= a \/ a < B -> rd8 m' a = rd8 m a) as Hfar.
    { intros a Ha. apply Hout; [|lia]. intros i Hi. unfold linked_byte, nd. vlia. }
    split_and!; [done| | |].
    + intros k Hk. destruct (Hall k ltac:(lia)) as (Es & Ep & En). split.
      * rewrite Es. done.
      * rewrite En. case_decide; [|done]. rewrite <- Hlast. by replace (pred N) with k by lia.
      * rewrite Ep. done.
      * rewrite Hld by auto with os. by apply Hz.
    + apply pages_same; [done| |].
      * intros k o Hk Ho. apply Hfar. left. unfold frame_at. simpl.
        assert (0 <= PS * Z.of_nat k) by (apply Z.mul_nonneg_nonneg; vlia). simpl in Ho. lia.
      * intros k Hk. by apply Hz.
    + intros a Ha. apply Hfar. vlia.
Qed.

(** The swap file in memory. *)
Lemma getSwap_run s m b fuel :
  safe C s B (B + SWAP_SIZE C) -> swapfile s = Some (SWAP_SIZE C, b) -> swap_ok C b -> (N < fuel)%nat ->
  exists m', getSwap C fuel B (set_ram m s) = Ret (0, set_ram m' s) /\
    table SC sB N m' /\ swapped C B m' = swapped C 0 b /\
    (forall a, ~ (B <= a < B + SWAP_SIZE C) -> rd8 m' a = rd8 m a).
Proof using Hfit.
  intros Hs Hfile [Hz Hlast] Hf. pose proof swap_rounds as (HN & Hr & Hsp). pose proof Hfit as [Hb Hmax HPS Ht Hm].
  assert (0 <= PS * Z.of_nat N) by (apply Z.mul_nonneg_nonneg; vlia).
  unfold getSwap. rewrite (bind_Ret _ _ _ (set_ram m s) (set_ram m s)) by done.
  change (swapfile (set_ram m s)) with (swapfile s). rewrite Hfile, Z.min_id.
  rewrite (copy_out_bind C s m _ _ _ _ _ _ Hs) by vlia. rewrite Z.ltb_irrefl. cbn match.
  set (m1 := blit _ m B b 0).
  assert (forall a, 0 <= a < SWAP_SIZE C -> rd8 m1 (B + a) = rd8 b a) as Hm1.
  { intros a Ha. unfold m1. rewrite rd8_blit, decide_True by lia. f_equal. lia. }
  assert (forall k n o, (k < N)%nat -> 0 <= o -> o + Z.of_nat n <= NODE ->
    ld n m1 (node sB k + o) = ld n b (NODE * Z.of_nat k + o)) as Hld.
  { intros k n o Hk ??. apply ld_ext. intros x Hx. unfold node. simpl memp. rewrite <- !Z.add_assoc. apply Hm1. vlia. }
  destruct (fixSwapPtrs_run s m1 fuel Hs Hf) as (m' & E & Ht' & Hp' & Hout).
  { intros k Hk. rewrite Hld by (done || vlia). by apply Hz. }
  { rewrite Hld by (lia || vlia). done. }
  exists m'. rewrite (bind_Ret _ _ _ _ _ E). split_and!; [done|done| |].
  - unfold swapped. rewrite Hp'. apply pages_same.
    + intros k o Hk Ho _. unfold node. simpl memp. rewrite <- !Z.add_assoc. rewrite Hm1 by vlia. f_equal. 
    + intros k o Hk Ho. unfold frame_at. simpl in *. assert (0 <= PS * Z.of_nat k) by (apply Z.mul_nonneg_nonneg; vlia).
      assert (PS * (Z.of_nat k + 1) <= PS * Z.of_nat N) by (apply Z.mul_le_mono_nonneg_l; vlia).
      rewrite <- !Z.add_assoc. rewrite Hm1 by vlia. f_equal.
    + intros k Hk. unfold node. simpl memp. rewrite Z.add_0_l. apply Hz. done.
  - intros a Ha. rewrite Hout by done. unfold m1. rewrite rd8_blit, decide_False by lia. done.
Qed.

End Swap.
