(* ===== verification/VmEvict.v ===== *)
(** * The memory manager: eviction

    [movePageToSwap] writes the description and the contents of the victim in
    the first free page of the swap file and frees its page. *)

From S2P Require Import Prelude LinkedList ByteMem Vm VmSpec VmElems VmSwap VmPages VmPageOps VmLoad VmPlaces VmFree VmInit VmVictim VmSwapFile.
Import Vm.

(** ** Memories that agree *)

(** Nothing in the memory at [memp s] differs. *)
Definition memory_same (C : config) (s : vm) (m m' : bytes) : Prop :=
  forall a, memp s <= a < memp s + PHYSICAL_SIZE C -> rd8 m' a = rd8 m a.

Lemma memory_same_node C s N m m' k n o :
  layout C s N -> memory_same C s m m' -> (k < N)%nat -> 0 <= o -> o + Z.of_nat n <= NODE ->
  ld n m' (node s k + o) = ld n m (node s k + o).
Proof.
  intros L Hm Hk ??. apply ld_ext. intros x Hx. apply Hm. pose proof (node_end C s N L k Hk). destruct L.
  assert (0 <= page_size C * Z.of_nat N) by (apply Z.mul_nonneg_nonneg; vlia). vlia.
Qed.

Lemma memory_same_table C s N m m' : layout C s N -> memory_same C s m m' -> table C s N m -> table C s N m'.
Proof.
  intros L Hm Ht k Hk. destruct (Ht k Hk). split; rewrite (memory_same_node C s N m) by (done || vlia); done.
Qed.

Lemma memory_same_pages C s N m m' :
  layout C s N -> memory_same C s m m' -> table C s N m -> pages C s N m' = pages C s N m.
Proof.
  intros L Hm Ht. apply pages_same.
  - intros k o Hk Ho _. apply Hm. pose proof (node_end C s N L k Hk). destruct L.
    assert (0 <= page_size C * Z.of_nat N) by (apply Z.mul_nonneg_nonneg; vlia). vlia.
  - intros k o Hk Ho. apply Hm. pose proof (frame_end C s N L k Hk). pose proof (frame_start C s N L k). destruct L. vlia.
  - intros k Hk. destruct (Ht k Hk). lia.
Qed.

Lemma memory_same_trans C s m1 m2 m3 : memory_same C s m1 m2 -> memory_same C s m2 m3 -> memory_same C s m1 m3.
Proof. intros H1 H2 a Ha. by rewrite H2, H1. Qed.

(** ** Searches along a table *)

Lemma free_swap_run C ns fuel s m n :
  chain m n ns -> nodes_ok C s ns -> (length ns < fuel)%nat ->
  free_swap C fuel n (set_ram m s) = Ret (first (is_free m) ns, set_ram m s).
Proof.
  revert fuel n. induction ns as [|x ns IH]; intros [|f] n Hc Hok Hf; try (simpl in Hf; lia);
    cbn [free_swap chain first] in *; [by subst|].
  destruct Hc as (-> & Hx & Hc). apply Forall_cons in Hok as [Hs Hok].
  rewrite (proj2 (Z.eqb_neq _ _) Hx). unfold n_free, n_next.
  rewrite (load_bind C s m 4 _ _ _ _ Hs) by vlia. unfold is_free at 1.
  destruct (ld 4 m (x + o_free) =? 0); cbn [negb]; [|done].
  rewrite (load_bind C s m 8 _ _ _ _ Hs) by vlia. apply IH; [done|done|simpl in Hf; lia].
Qed.

(** ** The pages involved *)

(** Page [g] as it is written to the swap, over an entry [h]. *)
Definition stored (g h : page) : page :=
  mkPage (g_pid g) (g_reference g) 0 (g_order g) (g_size g) (g_data g) (g_clock h) (g_body g).

Definition freed (g : page) : page :=
  mkPage 0 (g_reference g) 1 (g_order g) (g_size g) (g_data g) (g_clock g) (g_body g).

(** Freeing a page of a table. *)
Lemma removePage_run C s N m k :
  layout C s N -> table C s N m -> (k < N)%nat -> ld 4 m (node s k + o_free) = 0 ->
  exists m', removeSpace C (node s k) PAGE (set_ram m s) = Ret (0, set_ram m' s) /\
    table C s N m' /\ pages C s N m' = alter freed k (pages C s N m) /\
    (forall a, apart a 1 (node s k) NODE -> rd8 m' a = rd8 m a).
Proof.
  intros L Ht Hk Hfree. pose proof (node_safe C s N L k Hk) as Hs. unfold removeSpace. cbn [Z.eqb PAGE].
  unfold n_free, n_prev, n_next. rewrite (load_bind C s m 4 _ _ _ _ Hs), Hfree by vlia.
  change (negb (0 =? 0)) with false. cbn match.
  rewrite 2!(load_bind C s m 8 _ _ _ _ Hs) by vlia. rewrite 2!(store_bind C s _ 4 _ _ _ _ _ Hs) by vlia.
  eexists. split; [reflexivity|]. set (m1 := st 4 m (node s k + o_free) 1). set (m2 := st 4 m1 (node s k + o_pid) 0).
  pose proof (local_store C s N m k 4 o_free 1 ltac:(auto with os) ltac:(vlia) Hk Ht) as Hc1. fold m1 in Hc1.
  pose proof (local_table C s N L m m1 k Hk Hc1 Ht) as Ht1.
  pose proof (local_store C s N m1 k 4 o_pid 0 ltac:(auto with os) ltac:(vlia) Hk Ht1) as Hc2. fold m2 in Hc2.
  split_and!.
  - by apply (local_table C s N L m1 m2 k).
  - rewrite (local_pages C s N L m1 m2 k Hk Hc2 Ht1), (local_pages C s N L m m1 k Hk Hc1 Ht), list_insert_insert_eq.
    rewrite (alter_insert freed k _ (page_at C s m k)) by (by apply pages_lookup). f_equal.
    destruct (Ht k Hk). unfold freed, page_at, m2, m1. cbn [g_reference g_order g_size g_data g_clock g_body].
    repeat first [rewrite ld4_st by done | rewrite ld_st_disj by vlia].
    rewrite !(body_store C s N L) by (done || vlia). done.
  - intros a Ha. unfold apart, m2, m1 in *. rewrite !rd8_st, !decide_False by vlia. done.
Qed.

(** ** Writing to the swap *)

Section Save.
Context (C : config) (s : vm) (N : nat) (B : Z).
Context (L : layout C s N) (Hfit : swap_fits C B) (Hs : safe C s B (B + SWAP_SIZE C)).
Context (Hap : apart (memp s) (PHYSICAL_SIZE C) B (SWAP_SIZE C)).
Implicit Types (m : bytes).
Abbreviation PS := (page_size C).
Abbreviation SC := (swap_sizes C).
Abbreviation sB := (at_base B).
Abbreviation M := (swap_count C).

Lemma swap_node_in j : (j < M)%nat -> B <= node sB j /\ node sB j + NODE <= B + SWAP_SIZE C.
Proof using Hfit.
  intros Hj. pose proof (node_end SC sB M (swap_layout C B Hfit) j Hj) as Hn. simpl in Hn. destruct Hfit. vlia.
Qed.

Lemma swap_frame_in j : (j < M)%nat -> B <= frame_at SC sB j /\ frame_at SC sB j + PS <= B + SWAP_SIZE C.
Proof using Hfit.
  intros Hj. pose proof (frame_end SC sB M (swap_layout C B Hfit) j Hj) as He.
  pose proof (frame_start SC sB M (swap_layout C B Hfit) j) as Hb. simpl in He, Hb. destruct Hfit. vlia.
Qed.

Lemma swap_node_safe j : (j < M)%nat -> safe C s (node sB j) (node sB j + NODE).
Proof using Hfit Hs. intros Hj. pose proof (swap_node_in j Hj). eapply safe_sub; [exact Hs|lia|lia]. Qed.

Lemma swap_nodes_ok : nodes_ok C s (nodes sB M).
Proof using Hfit Hs.
  apply Forall_forall. intros x (k & -> & Hk)%list_elem_of_fmap. apply elem_of_seq in Hk.
  apply swap_node_safe. lia.
Qed.

(** Nodes and frames of memory are outside the swap. *)
Lemma main_node_out k : (k < N)%nat -> node s k + NODE <= B \/ B + SWAP_SIZE C <= node s k.
Proof using L Hap.
  intros Hk. pose proof (node_end C s N L k Hk). pose proof (frame_end C s N L k Hk). pose proof (frame_start C s N L k).
  destruct L. unfold apart in Hap. vlia.
Qed.

Lemma main_frame_out k : (k < N)%nat -> frame_at C s k + PS <= B \/ B + SWAP_SIZE C <= frame_at C s k.
Proof using L Hap.
  intros Hk. pose proof (frame_end C s N L k Hk). pose proof (frame_start C s N L k). destruct L. unfold apart in Hap. vlia.
Qed.

Lemma swap_store_same m j n o v :
  (j < M)%nat -> 0 <= o -> o + Z.of_nat n <= NODE -> memory_same C s m (st n m (node sB j + o) v).
Proof using Hfit Hap.
  intros Hj ?? a Ha. pose proof (swap_node_in j Hj). unfold apart in Hap. rewrite rd8_st, decide_False by lia. done.
Qed.

(** The memory after the description and the contents of page [k] were written
    in entry [j]. *)
Definition saved m (k j : nat) : bytes :=
  let n := node s k in let f := node sB j in
  let m1 := st 4 m (f + o_pid) (ld 4 m (n + o_pid)) in
  let m2 := st 4 m1 (f + o_free) 0 in
  let m3 := st 4 m2 (f + o_reference) (ld 4 m (n + o_reference)) in
  let m4 := st 4 m3 (f + o_data) (ld 4 m (n + o_data)) in
  let m5 := st 4 m4 (f + o_size) (ld 4 m (n + o_size)) in
  let m6 := st 4 m5 (f + o_order) (wraps 32 (ld 4 m (n + o_order))) in
  memcpy m6 (frame_at SC sB j) (frame_at C s k) PS.

Lemma saved_run {A} m k j (K : prog vm A) :
  table C s N m -> table SC sB M m -> (k < N)%nat -> (j < M)%nat ->
  (p ← n_pid C (node s k); store C 4 (node sB j + o_pid) p;;
   store C 4 (node sB j + o_free) 0;;
   r ← n_reference C (node s k); store C 4 (node sB j + o_reference) r;;
   dt ← n_data C (node s k); store C 4 (node sB j + o_data) dt;;
   sz ← n_size C (node s k); store C 4 (node sB j + o_size) sz;;
   o ← n_order C (node s k); store C 4 (node sB j + o_order) o;;
   d ← n_start C (node sB j); src ← n_start C (node s k); memcpy_m C d src PS;; K) (set_ram m s) =
  K (set_ram (saved m k j) s).
Proof using L Hfit Hs Hap.
  intros Ht HtB Hk Hj. pose proof (node_safe C s N L k Hk) as Hns. pose proof (swap_node_safe j Hj) as Hbs.
  pose proof (frame_safe C s N L k Hk) as Hfs. pose proof (swap_frame_in j Hj) as Hfj. pose proof (l_ps _ _ _ L) as HPS.
  pose proof (swap_node_in j Hj) as Hnj. pose proof (main_node_out k Hk) as Hno.
  assert (safe C s (frame_at SC sB j) (frame_at SC sB j + PS)) as Hfb by (eapply safe_sub; [exact Hs|lia|lia]).
  unfold n_pid, n_reference, n_data, n_size, n_start.
  rewrite (load_bind C s m 4 _ _ _ _ Hns) by vlia. rewrite 2!(store_bind C s _ 4 _ _ _ _ _ Hbs) by vlia.
  rewrite (load_bind C s _ 4 _ _ _ _ Hns), (store_bind C s _ 4 _ _ _ _ _ Hbs) by vlia.
  rewrite (load_bind C s _ 4 _ _ _ _ Hns), (store_bind C s _ 4 _ _ _ _ _ Hbs) by vlia.
  rewrite (load_bind C s _ 4 _ _ _ _ Hns), (store_bind C s _ 4 _ _ _ _ _ Hbs) by vlia.
  rewrite (order_bind C s _ _ _ _ _ Hns), (store_bind C s _ 4 _ _ _ _ _ Hbs) by vlia.
  rewrite !(ld_st_disj 4 4) by vlia.
  rewrite (load_bind C s _ 8 _ _ _ _ Hbs), (load_bind C s _ 8 _ _ _ _ Hns) by vlia.
  rewrite !(ld_st_disj 4 8) by vlia.
  rewrite (e_start _ _ _ _ _ (HtB j Hj)), (e_start _ _ _ _ _ (Ht k Hk)).
  rewrite (memcpy_bind C s _ _ _ _ _ _ _ _ _ Hfb Hfs) by vlia. done.
Qed.

(** Fields and contents of the entry. *)
Lemma saved_field m k j n o :
  (k < N)%nat -> (j < M)%nat -> 0 <= o -> o + Z.of_nat n <= NODE ->
  ld n (saved m k j) (node sB j + o) =
    ld n (st 4 (st 4 (st 4 (st 4 (st 4 (st 4 m (node sB j + o_pid) (ld 4 m (node s k + o_pid)))
      (node sB j + o_free) 0) (node sB j + o_reference) (ld 4 m (node s k + o_reference)))
      (node sB j + o_data) (ld 4 m (node s k + o_data))) (node sB j + o_size) (ld 4 m (node s k + o_size)))
      (node sB j + o_order) (wraps 32 (ld 4 m (node s k + o_order)))) (node sB j + o).
Proof using L Hfit Hap.
  intros Hk Hj ??. pose proof (node_frame_apart SC sB M (swap_layout C B Hfit) j j Hj) as Hnf. simpl in Hnf.
  pose proof (l_ps _ _ _ L). unfold saved, memcpy. cbn zeta. apply ld_blit_disj. unfold apart in Hnf. vlia.
Qed.

Lemma saved_outside m k j a : (k < N)%nat -> (j < M)%nat ->
  apart a 1 (node sB j) NODE -> apart a 1 (frame_at SC sB j) PS -> rd8 (saved m k j) a = rd8 m a.
Proof using L.
  intros Hk Hj H1 H2. pose proof (l_ps _ _ _ L). unfold saved, apart in *. cbn zeta.
  rewrite rd8_memcpy, decide_False by vlia. rewrite !rd8_st, !decide_False by vlia. done.
Qed.

Lemma saved_memory m k j : (k < N)%nat -> (j < M)%nat -> memory_same C s m (saved m k j).
Proof using L Hfit Hap.
  intros Hk Hj a Ha. pose proof (swap_node_in j Hj). pose proof (swap_frame_in j Hj). pose proof (l_ps _ _ _ L).
  apply saved_outside; [done|done|..]; unfold apart in *; vlia.
Qed.

Lemma saved_frame m k j o : (k < N)%nat -> (j < M)%nat -> 0 <= o < PS ->
  rd8 (saved m k j) (frame_at SC sB j + o) = rd8 m (frame_at C s k + o).
Proof using L Hfit Hap.
  intros Hk Hj Ho. pose proof (swap_node_in j Hj). pose proof (main_frame_out k Hk). unfold saved. cbn zeta.
  rewrite rd8_memcpy, decide_True by lia. replace (frame_at C s k + (frame_at SC sB j + o - frame_at SC sB j)) with (frame_at C s k + o) by lia.
  rewrite !rd8_st, !decide_False by vlia. done.
Qed.

Lemma saved_local m k j :
  table C s N m -> table SC sB M m -> (k < N)%nat -> (j < M)%nat -> local_change SC sB m (saved m k j) j.
Proof using L Hfit Hap.
  intros Ht HtB Hk Hj. destruct (Ht k Hk) as [_ _ _ Hz]. pose proof (ld_range 4 m (node s k + o_size)). constructor.
  - intros a Ha Hb. by apply saved_outside.
  - intros o Ho. unfold link_field in Ho. rewrite saved_field by (done || vlia). by rewrite !ld_st_disj by vlia.
  - rewrite saved_field by (done || vlia). rewrite ld_st_disj, ld4_st by vlia. done.
Qed.

Lemma saved_page m k j :
  table C s N m -> table SC sB M m -> (k < N)%nat -> (j < M)%nat ->
  page_at SC sB (saved m k j) j = stored (page_at C s m k) (page_at SC sB m j).
Proof using L Hfit Hap.
  intros Ht HtB Hk Hj. destruct (Ht k Hk) as [_ _ _ Hz].
  assert (forall o, 0 <= ld 4 m (node s k + o) < 2 ^ 32) as H4 by (intros; apply (ld_range 4)).
  unfold stored, page_at. cbn [g_pid g_reference g_free g_order g_size g_data g_clock g_body].
  assert (ld 4 (saved m k j) (node sB j + o_size) = ld 4 m (node s k + o_size)) as Esz.
  { rewrite saved_field by (done || vlia). rewrite ld_st_disj by vlia. by rewrite ld4_st. }
  rewrite Esz. f_equal.
  - rewrite saved_field by (done || vlia). rewrite !ld_st_disj by vlia. by rewrite ld4_st.
  - rewrite saved_field by (done || vlia). do 3 rewrite ld_st_disj by vlia. by rewrite ld4_st.
  - rewrite saved_field by (done || vlia). do 4 rewrite ld_st_disj by vlia. by rewrite ld4_st.
  - rewrite saved_field by (done || vlia). rewrite ld_st_same. change (256 ^ Z.of_nat 4) with (2 ^ 32).
    rewrite wraps_mod by lia. apply wraps_small; [done|]. by apply (wraps_range 32).
  - rewrite saved_field by (done || vlia). do 2 rewrite ld_st_disj by vlia. by rewrite ld4_st.
  - rewrite saved_field by (done || vlia). by rewrite !ld_st_disj by vlia.
  - apply body_ext; [simpl; lia|]. intros o Ho _. by apply saved_frame.
Qed.

Lemma saved_swapped m k j :
  table C s N m -> table SC sB M m -> (k < N)%nat -> (j < M)%nat ->
  table SC sB M (saved m k j) /\
  swapped C B (saved m k j) = <[j := stored (page_at C s m k) (page_at SC sB m j)]> (swapped C B m).
Proof using L Hfit Hap.
  intros Ht HtB Hk Hj. pose proof (saved_local m k j Ht HtB Hk Hj) as Hc. pose proof (swap_layout C B Hfit) as LB. split.
  - by apply (local_table SC sB M LB m _ j).
  - unfold swapped. rewrite (local_pages SC sB M LB m _ j Hj Hc HtB). by rewrite saved_page.
Qed.

(** The file written from a swap in memory. *)
Lemma written_file m :
  table SC sB M m ->
  let b := blit (Z.to_nat (SWAP_SIZE C)) ∅ 0 m B in swap_ok C b /\ swapped C 0 b = swapped C B m.
Proof using Hfit.
  intros HtB b. pose proof (swap_rounds C B Hfit) as (HM & Hr & Hsp). pose proof Hfit as [Hb Hmax HPS Ht Hm].
  assert (0 <= PS * Z.of_nat M) by (apply Z.mul_nonneg_nonneg; vlia).
  assert (forall a, 0 <= a < SWAP_SIZE C -> rd8 b a = rd8 m (B + a)) as Hb'.
  { intros a Ha. unfold b. rewrite rd8_blit, decide_True by lia. f_equal. lia. }
  assert (forall k n o, (k < M)%nat -> 0 <= o -> o + Z.of_nat n <= NODE ->
    ld n b (NODE * Z.of_nat k + o) = ld n m (node sB k + o)) as Hld.
  { intros k n o Hk ??. apply ld_ext. intros x Hx. rewrite Hb' by vlia. f_equal. unfold node. simpl memp. lia. }
  split; [split|].
  - intros k Hk. rewrite Hld by (done || vlia). apply (HtB k Hk).
  - rewrite Hld by (lia || vlia). rewrite (e_next _ _ _ _ _ (HtB (pred M) ltac:(lia))). by rewrite decide_True by lia.
  - apply pages_same.
    + intros k o Hk Ho _. unfold node. simpl memp. rewrite Z.add_0_l. rewrite Hb' by vlia. f_equal. lia.
    + intros k o Hk Ho. unfold frame_at. simpl in *. assert (0 <= PS * Z.of_nat k) by (apply Z.mul_nonneg_nonneg; vlia).
      assert (PS * (Z.of_nat k + 1) <= PS * Z.of_nat M) by (apply Z.mul_le_mono_nonneg_l; vlia).
      rewrite Hb' by vlia. f_equal. lia.
    + intros k Hk. apply (HtB k Hk).
Qed.

End Save.

(** ** movePageToSwap *)

Section Evict.
Context (C : config) (s : vm) (N : nat).
Context (L : layout C s N) (Hfit : swap_fits C (swap_move C)).
Context (Hap : apart (memp s) (PHYSICAL_SIZE C) (swap_move C) (SWAP_SIZE C)).
Implicit Types (m b : bytes).
Abbreviation PS := (page_size C).
Abbreviation SC := (swap_sizes C).
Abbreviation sB := (at_base (swap_move C)).
Abbreviation M := (swap_count C).

Lemma swap_move_safe : safe C s (swap_move C) (swap_move C + SWAP_SIZE C).
Proof using Hfit.
  pose proof (sf_base _ _ Hfit). intros a k ???. unfold valid, in_area. destruct (Z.ltb_spec 0 (swap_move C)); [|lia].
  destruct (Z.leb_spec (swap_move C) a); [|lia]. destruct (Z.leb_spec (a + k) (swap_move C + SWAP_SIZE C)); [|lia].
  by rewrite !orb_true_r.
Qed.

(** The first free entry of the swap in memory. *)
Lemma free_entry fuel m :
  table SC sB M m -> (M < fuel)%nat ->
  free_swap C fuel (swap_move C) (set_ram m s) =
    Ret (from_option (node sB) NULL (index unused (swapped C (swap_move C) m)), set_ram m s).
Proof using Hfit.
  intros HtB Hf. pose proof (swap_layout C _ Hfit) as LB.
  rewrite (free_swap_run C (nodes sB M)); [|exact (table_chain SC sB M LB m HtB)|apply swap_nodes_ok; [done|exact swap_move_safe]|by rewrite nodes_length].
  do 2 f_equal. by apply (first_pages SC sB M).
Qed.

Lemma memory_same_outside m m' :
  (forall a, ~ (swap_move C <= a < swap_move C + SWAP_SIZE C) -> rd8 m' a = rd8 m a) -> memory_same C s m m'.
Proof using Hap. intros Hm a Ha. apply Hm. unfold apart in Hap. lia. Qed.

Lemma movePageToSwap_run fuel pid m m1 b k j :
  getVictimPage C fuel pid (set_ram m s) = Ret (node s k, set_ram m1 s) ->
  table C s N m1 -> (k < N)%nat -> g_free (page_at C s m1 k) = 0 ->
  swapfile s = Some (SWAP_SIZE C, b) -> swap_wok s = true -> swap_ok C b -> (M < fuel)%nat ->
  index unused (swapped C 0 b) = Some j ->
  exists m' b', movePageToSwap C fuel pid (set_ram m s) =
      Ret (0, set_ram m' (set_swapfile (Some (SWAP_SIZE C, b')) s)) /\
    table C s N m' /\ pages C s N m' = alter freed k (pages C s N m1) /\
    swap_ok C b' /\ swapped C 0 b' = alter (stored (page_at C s m1 k)) j (swapped C 0 b).
Proof using L Hfit Hap.
  intros Ev Ht1 Hk Hg Hfile Hwok Hok Hf Hj. pose proof swap_move_safe as Hs. pose proof (swap_layout C _ Hfit) as LB.
  unfold movePageToSwap. rewrite (bind_Ret _ _ _ _ _ Ev), (node_not_null C s N L).
  destruct (getSwap_run C _ Hfit s m1 b fuel Hs Hfile Hok Hf) as (m2 & E2 & HtB & Hp2 & Hout2).
  cbn zeta. rewrite (bind_Ret _ _ _ _ _ E2). change (0 =? 1) with false. cbn match.
  rewrite (bind_Ret _ _ _ _ _ (free_entry fuel m2 HtB Hf)), Hp2, Hj. cbn [from_option].
  rewrite (node_not_null SC sB M LB).
  assert (j < M)%nat as HjM.
  { apply index_Some in Hj as (h & Hh & _). apply lookup_lt_Some in Hh. unfold swapped in Hh. by rewrite pages_length in Hh. }
  pose proof (memory_same_outside m1 m2 Hout2) as Hsame.
  pose proof (memory_same_table C s N m1 m2 L Hsame Ht1) as Ht2.
  rewrite (saved_run C s N _ L Hfit Hs Hap) by done. set (m3 := saved C s _ m2 k j).
  pose proof (saved_memory C s N _ L Hfit Hap m2 k j Hk HjM) as Hsame3. fold m3 in Hsame3.
  destruct (saved_swapped C s N _ L Hfit Hap m2 k j Ht2 HtB Hk HjM) as [HtB3 Hsw3]. fold m3 in HtB3, Hsw3.
  pose proof (memory_same_table C s N m2 m3 L Hsame3 Ht2) as Ht3.
  destruct (writeSwap_run C (swap_move C) s m3 Hs) as (r & E4); [destruct Hfit; vlia|]. rewrite Hwok in E4.
  rewrite (bind_Ret _ _ _ _ _ E4). set (b' := blit _ ∅ 0 m3 _).
  destruct (written_file C _ Hfit m3 HtB3) as [Hok' Hfile']. fold b' in Hok', Hfile'.
  set (s' := set_swapfile (Some (SWAP_SIZE C, b')) s). change (set_swapfile _ (set_ram m3 s)) with (set_ram m3 s').
  pose proof (layout_memp C s s' N eq_refl L) as L'.
  assert (forall n o, 0 <= o -> o + Z.of_nat n <= NODE -> ld n m3 (node s k + o) = ld n m1 (node s k + o)) as Hnode.
  { intros n o ??. rewrite (memory_same_node C s N m2) by done. by apply (memory_same_node C s N m1). }
  destruct (removePage_run C s' N m3 k L' (table_memp C s s' N m3 eq_refl Ht3) Hk) as (m4 & E5 & Ht4 & Hp4 & _).
  { change (node s' k) with (node s k). rewrite Hnode by vlia. exact Hg. }
  change (node s' k) with (node s k) in E5. rewrite (bind_Ret _ _ _ _ _ E5).
  exists m4, b'. split_and!; [done|by apply (table_memp C s')| |done|].
  - rewrite (pages_memp C s s') in Hp4 by done. rewrite (pages_memp C s s') in Hp4 by done. rewrite Hp4. f_equal.
    rewrite (memory_same_pages C s N m2 m3) by done. by apply memory_same_pages.
  - rewrite Hfile', Hsw3, Hp2. assert (page_at C s m2 k = page_at C s m1 k) as Epk.
    { pose proof (memory_same_pages C s N m1 m2 L Hsame Ht1) as Ep.
      apply (f_equal (lookup k)) in Ep. rewrite !pages_lookup in Ep by done. congruence. }
    rewrite Epk. symmetry. apply alter_insert. rewrite <- Hp2. unfold swapped. by apply pages_lookup.
Qed.

End Evict.

(** ** getFreePage when no page is free *)

Lemma index_None P l : index P l = None <-> Forall (fun g => P g = false) l.
Proof.
  unfold index. destruct (list_find P l) as [[i g]|] eqn:E.
  - split; [done|]. apply list_find_Some in E as (Hi & Hp & _). intros Hf.
    rewrite Forall_lookup in Hf. specialize (Hf i g Hi). simpl in Hf. by rewrite Hf in Hp.
  - split; [|done]. intros _. rewrite list_find_None in E. eapply Forall_impl; [exact E|].
    intros g Hg. by apply Is_true_false.
Qed.

Lemma index_first P l k g :
  l !! k = Some g -> P g = true -> (forall i h, (i < k)%nat -> l !! i = Some h -> P h = false) -> index P l = Some k.
Proof.
  intros Hk Hp Hlt. unfold index. assert (list_find P l = Some (k, g)) as ->; [|done].
  apply list_find_Some. split_and!; [done|by apply Is_true_true|]. intros i h Hi Hik.
  rewrite (Hlt i h Hik Hi). by intros [].
Qed.

Lemma index_freed l k : index unused l = None -> (k < length l)%nat -> index unused (alter freed k l) = Some k.
Proof.
  intros Hl%index_None [g Hg]%lookup_lt_is_Some. rewrite Forall_lookup in Hl.
  apply (index_first unused _ k (freed g)).
  - by rewrite list_lookup_alter_eq, Hg.
  - done.
  - intros i h Hi Hh. rewrite list_lookup_alter_ne in Hh by lia. by apply (Hl i).
Qed.

Lemma tick_free l k i : g_free <$> tick k l !! i = g_free <$> l !! i.
Proof.
  unfold tick. destruct (decide (i = k)) as [->|].
  - rewrite list_lookup_alter_eq. by destruct (l !! k).
  - by rewrite list_lookup_alter_ne.
Qed.

Lemma ticks_free l k j i : g_free <$> ticks k j l !! i = g_free <$> l !! i.
Proof. unfold ticks. induction (seq k (j - k)) as [|x xs IH]; simpl; [done|]. by rewrite tick_free. Qed.

Lemma ticks_used l k j : index unused l = None -> index unused (ticks k j l) = None.
Proof.
  rewrite !index_None, !Forall_lookup. intros Hl i g Hi. pose proof (ticks_free l k j i) as E. rewrite Hi in E.
  destruct (l !! i) as [h|] eqn:Eh; [|done]. injection E as E. pose proof (Hl i h Eh) as Hh. unfold unused in *. by rewrite E.
Qed.

Lemma alter_alter (f g : page -> page) k (l : list page) : alter f k (alter g k l) = alter (fun x => f (g x)) k l.
Proof.
  apply list_eq. intros i. destruct (decide (i = k)) as [->|].
  - rewrite !list_lookup_alter_eq. by destruct (l !! k).
  - by rewrite !list_lookup_alter_ne.
Qed.

Section EvictPage.
Context (C : config) (junk : bytes) (s : vm) (N : nat).
Context (L : layout C s N) (Hfit : swap_fits C (swap_move C)).
Context (Hap : apart (memp s) (PHYSICAL_SIZE C) (swap_move C) (SWAP_SIZE C)).
Context (fuel : nat) (HN : (N < fuel)%nat) (Hf : (Z.to_nat (page_size C) < fuel)%nat) (HM : (swap_count C < fuel)%nat).

(** The victim goes to the swap and its page to [pid]. *)
Lemma getFreePage_evicts rec size pid m m1 b k j :
  table C s N m -> index unused (pages C s N m) = None ->
  getVictimPage C fuel pid (set_ram m s) = Ret (node s k, set_ram m1 s) ->
  shows C s N m (ticks k (pred N) (pages C s N m)) m1 -> (k < N)%nat ->
  swapfile s = Some (SWAP_SIZE C, b) -> swap_wok s = true -> swap_ok C b -> index unused (swapped C 0 b) = Some j ->
  page_size C < 2 ^ 32 -> 0 <= pid < 2 ^ 32 ->
  exists m' b' bd, let s' := set_swapfile (Some (SWAP_SIZE C, b')) s in
    getFreePage C junk (S (S rec)) fuel size pid (set_ram m s) = Ret (node s 0, set_ram m' s') /\
    swap_ok C b' /\ swapped C 0 b' = alter (stored (page_at C s m1 k)) j (swapped C 0 b) /\
    table C s N m' /\
    pages C s N m' = swap_list 0 k (alter (fun g => set_body bd (set_owner pid (freed g))) k
      (ticks k (pred N) (pages C s N m))) /\
    fresh m' (frame_at C s 0) (g_size (page_at C s m1 k)).
Proof using L Hfit Hap HN Hf HM.
  intros Ht Hnone Ev [Ht1 Hl1 _ _] Hk Hfile Hwok Hok Hj HPS Hpid.
  pose proof (ticks_used _ k (pred N) Hnone) as Hnone1. rewrite <- Hl1 in Hnone1.
  destruct (movePageToSwap_run C s N L Hfit Hap fuel pid m m1 b k j Ev Ht1 Hk) as (m2 & b' & E2 & Ht2 & Hp2 & Hok2 & Hsw2); try done.
  { apply index_None in Hnone1. rewrite Forall_lookup in Hnone1.
    specialize (Hnone1 k _ (pages_lookup C s N m1 k Hk)). apply negb_false_iff, Z.eqb_eq in Hnone1. done. }
  set (s' := set_swapfile (Some (SWAP_SIZE C, b')) s) in *.
  pose proof (layout_memp C s s' N eq_refl L) as L'. pose proof (table_memp C s s' N m2 eq_refl Ht2) as Ht2'.
  assert (index unused (pages C s' N m2) = Some k) as Hik.
  { rewrite (pages_memp C s s'), Hp2 by done. apply index_freed; [done|]. by rewrite pages_length. }
  destruct (getFreePage_run C junk s' N L' fuel HN Hf rec m2 size pid k Ht2' Hik HPS Hpid) as (m3 & bd & E3 & [Ht3 Hl3 _ _] & Hfr).
  exists m3, b', bd. cbn zeta. split_and!; [|done|done|by apply (table_memp C s')| |].
  - cbn [getFreePage]. rewrite (bind_Ret _ _ _ _ _ (findFreePage_run C s N L fuel HN Hf m Ht)), Hnone. cbn [from_option].
    change (NULL =? NULL) with true. change (USE_SWAP_F =? 0) with false. cbn match.
    rewrite (bind_Ret _ _ _ _ _ E2). change (negb (0 =? 0)) with false. cbn match. exact E3.
  - rewrite (pages_memp C s s') in Hl3 by done. rewrite Hl3, (pages_memp C s s'), Hp2, Hl1 by done.
    by rewrite alter_alter.
  - change (node s' k) with (node s k) in Hfr. assert (ld 4 m2 (node s k + o_size) = g_size (page_at C s m1 k)) as <-; [|done].
    change (ld 4 m2 (node s k + o_size)) with (g_size (page_at C s m2 k)).
    apply (f_equal (lookup k)) in Hp2. rewrite list_lookup_alter_eq, !pages_lookup in Hp2 by done.
    cbn [fmap option_fmap option_map] in Hp2. apply (inj Some) in Hp2. by rewrite Hp2.
Qed.

End EvictPage.
