(* ===== verification/VmPaging.v ===== *)
(** * The memory manager: page faults and eviction, theorems *)

From S2P Require Import Prelude LinkedList ByteMem Vm VmSpec VmElems VmSwap VmPages VmPageOps VmLoad VmPlaces VmFree VmInit VmVictim VmProtect VmSwapFile VmEvict VmThms.
Import Vm.

(** ** The handler of SIGSEGV *)

(** [memoryAllowAll] gives back the access to every frame. *)
Lemma memoryAllowAll_frames C s N :
  NODE < page_size C -> (memp s + MEMORY_START C) `mod` page_size C = 0 ->
  page_size C * Z.of_nat (pred N) < PHYSICAL_SIZE C - MEMORY_START C - page_size C * 4 ->
  exists P, memoryAllowAll C s = Ret (0, set_prot P s) /\ forall k, (k < N)%nat -> frame_at C s k ∉ P.
Proof.
  intros HPS Hal Hcov. unfold memoryAllowAll. rewrite (bind_Ret _ _ _ (memp s) s) by done. unfold mprotect.
  rewrite Hal. change (0 =? 0) with true. cbn match. erewrite bind_Ret by done. eexists. split; [done|].
  intros k Hk. rewrite elem_of_difference. intros [_ Hno]. apply Hno. apply elem_of_list_to_set, list_elem_of_fmap.
  exists (Z.of_nat k). split; [unfold frame_at; lia|]. apply elem_of_seqZ.
  set (len := PHYSICAL_SIZE C - MEMORY_START C - page_size C * 4) in *.
  assert (Z.of_nat k < (len + page_size C - 1) / page_size C); [|lia]. apply ceil_spec; [vlia|].
  assert (page_size C * Z.of_nat k <= page_size C * Z.of_nat (pred N)) by (apply Z.mul_le_mono_nonneg_l; vlia). lia.
Qed.

(** A page fault of the running thread, by the operation on the list of pages. *)
Lemma handler_loads C junk s N fuel rec pid addr l' :
  layout C s N -> null_unmapped C s -> table C s N (ram s) -> (N < fuel)%nat -> (Z.to_nat (page_size C) < fuel)%nat ->
  (memp s + MEMORY_START C) `mod` page_size C = 0 ->
  page_size C * Z.of_nat (pred N) < PHYSICAL_SIZE C - MEMORY_START C - page_size C * 4 ->
  running s = Some pid -> inHandler s = 0 -> memp s + MEMORY_START C <= addr < shared s ->
  load_list fuel pid (pages C s N (ram s)) = Ret l' ->
  exists P m', handler C junk rec fuel addr s = Ret (false, set_inHandler 0 (set_ram m' (set_prot P s))) /\
    (forall k, (k < N)%nat -> frame_at C s k ∉ P) /\ shows C s N (ram s) l' m'.
Proof.
  intros L Hnull Ht HN Hf Hal Hcov Hrun Hin Haddr E. unfold handler.
  rewrite (bind_Ret _ _ _ s s) by done. rewrite Hin. change (0 =? 1) with false. cbn match.
  set (s1 := set_inHandler 1 s). rewrite (bind_Ret _ _ s tt s1) by done.
  destruct (Z.leb_spec (memp s + MEMORY_START C) addr); [|lia]. destruct (Z.ltb_spec addr (shared s)); [|lia]. cbn [andb].
  rewrite Hrun. destruct (memoryAllowAll_frames C s1 N (l_ps _ _ _ L) Hal Hcov) as (P & EP & HP).
  set (s2 := set_prot P s1) in *.
  pose proof (loadProcessPages_refines C junk s2 N (layout_memp C s s2 N eq_refl L) Hnull fuel HN Hf rec (ram s) pid
    (table_memp C s s2 N (ram s) eq_refl Ht)) as Hr.
  rewrite (pages_memp C s s2), E in Hr by done. destruct Hr as (m' & E' & Hs).
  rewrite (set_ram_id s2 : set_ram (ram s) s2 = s2) in E'. exists P, m'. split_and!; [|done|].
  - rewrite (bind_Ret _ _ s1 false (set_ram m' s2)); [done|].
    rewrite (bind_Ret _ _ _ _ _ EP). by rewrite (bind_Ret _ _ _ _ _ E').
  - destruct Hs as [Ht' Hl' Hout Hlk]. split; [by apply (table_memp C s2)|by rewrite <- (pages_memp C s s2)|done|done].
Qed.

(** C19: a page fault in the area of the pages is served: the handler gives back
    the access to every frame, brings the pages of the running thread to the
    first frames in their order, when all but the first and the last are there
    already, and leaves itself; the faulting instruction can be repeated.  The
    pages keep their descriptions and the bytes of their frames outside the link
    fields of the elements that the relinking of a moved page finds there (in a
    page that starts with data of the page before, those are data). *)
Theorem handler_serves C junk s N fuel rec pid pos addr :
  layout C s N -> null_unmapped C s -> table C s N (ram s) -> (N < fuel)%nat -> (Z.to_nat (page_size C) < fuel)%nat ->
  (memp s + MEMORY_START C) `mod` page_size C = 0 ->
  page_size C * Z.of_nat (pred N) < PHYSICAL_SIZE C - MEMORY_START C - page_size C * 4 ->
  running s = Some pid -> inHandler s = 0 -> memp s + MEMORY_START C <= addr < shared s ->
  process pid (pages C s N (ram s)) pos -> (0 < length pos)%nat -> Z.of_nat (length pos) + 2 < 2 ^ 31 ->
  (forall j, (0 < j)%nat -> (S j < length pos)%nat -> pos !! j = Some j) ->
  exists s', handler C junk rec fuel addr s = Ret (false, s') /\ memp s' = memp s /\ inHandler s' = 0 /\
    (forall k, (k < N)%nat -> frame_at C s k ∉ prot s') /\ table C s N (ram s') /\
    process pid (pages C s N (ram s')) (seq 0 (length pos)) /\
    (forall j k, pos !! j = Some k -> erase (pages C s N (ram s')) !! j = erase (pages C s N (ram s)) !! k /\
       carried (ram s) (ram s') (frame_at C s k) (frame_at C s j) (ld 4 (ram s) (node s k + o_size)) (page_size C)).
Proof.
  intros L Hnull Ht HN Hf Hal Hcov Hrun Hin Haddr Hp Hlen Hmax Hmid.
  pose proof (process_length _ _ _ Hp) as Hle. rewrite pages_length in Hle.
  destruct (load_list_places pid fuel _ pos Hp ltac:(lia) Hmax Hmid) as (l' & E & Hp' & Hcont).
  destruct (handler_loads C junk s N fuel rec pid addr l') as (P & m' & E' & HP & [Ht' Hl' _ _]); [done..|].
  eexists. split; [exact E'|]. rewrite <- Hl' in *.
  split_and!; cbn [ram set_inHandler set_ram]; [done..|]. intros j k Hj. split; [by apply Hcont|].
  pose proof (lookup_lt_Some _ _ _ Hj). pose proof (process_lt _ _ _ _ _ Hp Hj) as Hk. rewrite pages_length in Hk.
  apply (erase_carried C s N); [lia|done|by apply Hcont].
Qed.

(** A fault elsewhere restores the default action and touches nothing; a fault
    inside the handler ends the process. *)
Theorem handler_refuses C junk s fuel rec addr :
  (inHandler s <> 1 -> ~ (memp s + MEMORY_START C <= addr < shared s) ->
     handler C junk rec fuel addr s = Ret (true, set_inHandler 0 s)) /\
  (inHandler s = 1 -> handler C junk rec fuel addr s = Halt 1).
Proof.
  unfold handler. rewrite (bind_Ret _ _ _ s s) by done. split.
  - intros Hin Ha. destruct (Z.eqb_spec (inHandler s) 1); [done|].
    rewrite (bind_Ret _ _ s tt (set_inHandler 1 s)) by done.
    assert ((memp s + MEMORY_START C <=? addr) && (addr <? shared s) = false) as ->.
    { apply andb_false_iff. destruct (Z.leb_spec (memp s + MEMORY_START C) addr); [right|by left]. apply Z.ltb_ge. lia. }
    done.
  - intros ->. done.
Qed.

(** ** Eviction *)

Lemma erase_ticks k j l : erase (ticks k j l) = erase l.
Proof.
  unfold ticks. induction (seq k (j - k)) as [|x xs IH]; cbn [foldr]; [done|]. rewrite <- IH.
  apply list_eq. intros i. rewrite !erase_lookup. unfold tick. destruct (decide (i = x)) as [->|].
  - rewrite list_lookup_alter_eq. by destruct (foldr _ _ _ !! x).
  - by rewrite list_lookup_alter_ne.
Qed.

(** C18: when no page is free, [getFreePage] evicts the last page of another
    process: the page is written to the first free place of the swap file, with
    its owner, order, size and contents, and nothing else in the file changes;
    its frame becomes one free element and the first page of the table, given
    to the process, while the other pages keep their descriptions and contents.
    The page evicted is the last one that is not of the process; the pages of the
    process behind it must have clocks below 2, else the code takes one of them.
    Contents are the bytes of a frame outside the link fields of the elements
    found there. *)
Theorem get_page_evicts C junk s N fuel rec size pid k b j :
  layout C s N -> table C s N (ram s) -> (N < fuel)%nat -> (Z.to_nat (page_size C) < fuel)%nat ->
  (swap_count C < fuel)%nat -> page_size C < 2 ^ 32 -> 0 <= pid < 2 ^ 32 ->
  swap_fits C (swap_move C) -> apart (memp s) (PHYSICAL_SIZE C) (swap_move C) (SWAP_SIZE C) ->
  index unused (pages C s N (ram s)) = None -> (k < N)%nat ->
  g_pid (page_at C s (ram s) k) <> pid -> g_clock (page_at C s (ram s) k) < 2 ^ 7 - 1 ->
  (forall i, (k < i < N)%nat -> held pid 2 (pages C s N (ram s)) i) ->
  swapfile s = Some (SWAP_SIZE C, b) -> swap_wok s = true -> swap_ok C b -> index unused (swapped C 0 b) = Some j ->
  exists m' b' bd, let s' := set_swapfile (Some (SWAP_SIZE C, b')) s in
    getFreePage C junk (S (S rec)) fuel size pid s = Ret (node s 0, set_ram m' s') /\
    swap_ok C b' /\ swapped C 0 b' = alter (stored (page_at C s (ram s) k)) j (swapped C 0 b) /\ table C s N m' /\
    pages C s N m' = swap_list 0 k (alter (fun g => set_body bd (set_owner pid (freed g))) k
      (ticks k (pred N) (pages C s N (ram s)))) /\
    fresh m' (frame_at C s 0) (g_size (page_at C s (ram s) k)).
Proof.
  intros L Ht HN Hf HM HPS Hpid Hfit Hap Hnone Hk Hp Hc Hh Hfile Hwok Hok Hj.
  destruct (victim_found C s N L pid (pred N) k fuel (ram s)) as (m1 & E1 & Hs1); [done|lia|lia|done|done|..].
  { intros i Hi. apply Hh. lia. }
  { intros ?. destruct (Hh (pred N)) as (g & ? & ? & ?); [lia|]. exists g. split_and!; [done|done|lia|lia]. }
  assert (getVictimPage C fuel pid (set_ram (ram s) s) = Ret (node s k, set_ram m1 s)) as Ev.
  { unfold getVictimPage. rewrite (bind_Ret _ _ _ _ _ (getLastPage_run C s N L fuel (ram s) Ht HN)). exact E1. }
  destruct (getFreePage_evicts C junk s N L Hfit Hap fuel HN Hf HM rec size pid (ram s) m1 b k j)
    as (m' & b' & bd & Hrun & Hok' & Hsw & Ht' & Hpg & Hfr); try done.
  rewrite set_ram_id in Hrun.
  assert (set_clock 0 (page_at C s m1 k) = set_clock 0 (page_at C s (ram s) k)) as Ec.
  { destruct Hs1 as [_ Hl1 _ _]. apply (f_equal (fun l => erase l !! k)) in Hl1.
    rewrite erase_ticks, !erase_lookup, !pages_lookup in Hl1 by done. exact (inj Some _ _ Hl1). }
  assert (stored (page_at C s m1 k) = stored (page_at C s (ram s) k)) as Est by exact (f_equal stored Ec).
  assert (g_size (page_at C s m1 k) = g_size (page_at C s (ram s) k)) as Esz by exact (f_equal g_size Ec).
  rewrite Est in Hsw. rewrite Esz in Hfr. exists m', b', bd. done.
Qed.

(** ** The theorems at work *)

Lemma two_running : running two_state = Some 5 /\ inHandler two_state = 0 /\ shared two_state = 4864.
Proof. vm_compute. done. Qed.

Lemma handler_serves_witness :
  exists s', handler small ∅ 1 100 4700 two_state = Ret (false, s') /\ memp s' = memp two_state /\ inHandler s' = 0 /\
    (forall k, (k < 4)%nat -> frame_at small two_state k ∉ prot s') /\ table small two_state 4 (ram s') /\
    process 5 (pages small two_state 4 (ram s')) (seq 0 2) /\
    (forall j k, [0; 2]%nat !! j = Some k ->
       erase (pages small two_state 4 (ram s')) !! j = erase (pages small two_state 4 (ram two_state)) !! k /\
       carried (ram two_state) (ram s') (frame_at small two_state k) (frame_at small two_state j)
         (ld 4 (ram two_state) (node two_state k + o_size)) 64).
Proof.
  apply (handler_serves small ∅ two_state 4 100 1 5 [0; 2]%nat 4700).
  - apply small_layout. exact two_memp.
  - apply small_null. exact two_memp.
  - exact two_table.
  - lia.
  - simpl. lia.
  - rewrite two_memp. reflexivity.
  - simpl. lia.
  - apply two_running.
  - apply two_running.
  - rewrite two_memp, (proj2 (proj2 two_running)). simpl. lia.
  - exact two_process.
  - simpl. lia.
  - simpl. lia.
  - simpl. intros. lia.
Defined.

(** All pages in use: process 6 has page 1. *)
Definition full_state : vm := give_to 6 1 1 three_state.

Lemma full_memp : memp full_state = 4096.
Proof. unfold full_state. rewrite give_memp. exact three_memp. Qed.

Lemma full_table : table small full_state 4 (ram full_state).
Proof. unfold full_state. apply give_table; [exact three_memp|lia|exact three_table]. Qed.

(** The file [init] wrote. *)
Definition small_swap : bytes := from_option snd ∅ (swapfile full_state).

Lemma full_file : swapfile full_state = Some (SWAP_SIZE small, small_swap) /\ swap_wok full_state = true.
Proof. vm_compute. done. Qed.

Lemma small_swap_ok : swap_ok small small_swap.
Proof.
  split.
  - intros k Hk. change (swap_count small) with 1%nat in Hk. assert (k = 0%nat) as -> by lia. vm_compute. done.
  - vm_compute. reflexivity.
Qed.

Lemma get_page_evicts_witness :
  exists m' b' bd, let s' := set_swapfile (Some (SWAP_SIZE small, b')) full_state in
    getFreePage small ∅ 2 100 64 5 full_state = Ret (node full_state 0, set_ram m' s') /\
    swap_ok small b' /\
    swapped small 0 b' = alter (stored (page_at small full_state (ram full_state) 1)) 0%nat (swapped small 0 small_swap) /\
    table small full_state 4 m' /\
    pages small full_state 4 m' = swap_list 0 1 (alter (fun g => set_body bd (set_owner 5 (freed g))) 1%nat
      (ticks 1 3 (pages small full_state 4 (ram full_state)))) /\
    fresh m' (frame_at small full_state 0) (g_size (page_at small full_state (ram full_state) 1)).
Proof.
  apply (get_page_evicts small ∅ full_state 4 100 0 64 5 1 small_swap 0).
  - apply small_layout. exact full_memp.
  - exact full_table.
  - lia.
  - simpl. lia.
  - vm_compute. lia.
  - simpl. lia.
  - lia.
  - split; simpl; vlia.
  - rewrite full_memp. simpl. unfold apart. lia.
  - vm_compute. reflexivity.
  - lia.
  - vm_compute. congruence.
  - vm_compute. reflexivity.
  - intros i Hi. assert (i = 2 \/ i = 3)%nat as [->| ->] by lia; eexists; split_and!;
      [vm_compute; reflexivity|vm_compute; reflexivity|vm_compute; congruence|vm_compute; reflexivity
      |vm_compute; reflexivity|vm_compute; reflexivity|vm_compute; congruence|vm_compute; reflexivity].
  - apply full_file.
  - apply full_file.
  - exact small_swap_ok.
  - vm_compute. reflexivity.
Defined.
