(* ===== verification/VmThreads.v ===== *)
(** * Threads and memory together

    What my_pthread.c asks of vm.c at a context switch, the accesses of threads
    to their memory with the page faults they cause, and the abstract machine
    these implement: every thread has a memory of its own at the same
    addresses. *)

From S2P Require Import Prelude LinkedList ByteMem Vm VmSpec VmElems VmSwap VmPages VmPageOps VmLoad VmPlaces VmFree VmInit VmMalloc VmProtect VmThms VmGrow VmPaging.
Import Vm.

Module Threads.

Section Code.
Context (C : config) (junk : bytes) (rec fuel : nat).

Abbreviation M := (prog vm).

Definition virtualMemory : M unit :=
  updateReference C fuel;;
  if VIRTUAL_MEMORY then
    r ← p_gets running;
    match r with
    | None => p_fault
    | Some pid => memoryProtect C fuel pid;; mret tt
    end
  else mret tt.

(** What a context switch to the thread [next] does to memory. *)
Definition switch (next : Z) : M unit :=
  virtualMemory;; p_modify (set_running (Some next)).

(** The page of the machine an address is in. *)
Definition page_of (a : Z) : Z := a - a `mod` page_size C.

(** An access of a thread to the address [a]: without access to the page the
    handler of SIGSEGV runs, and the instruction is tried again unless the
    default action was restored, which ends the process. *)
Fixpoint user {A} (tries : nat) (a : Z) (op : M A) : M A :=
  match tries with
  | O => p_timeout
  | S t =>
      P ← p_gets prot;
      if bool_decide (page_of a ∈ P) then
        fatal ← handler C junk rec fuel a;
        if fatal : bool then p_halt 139 else user t a op
      else op
  end.

(** ** Programs of threads *)

(** Offsets count from the start of the memory of threads. *)
Inductive action := Switch (t : Z) | Load (o : Z) | Store (o v : Z).

Definition perform (x : action) : M (option Z) :=
  match x with
  | Switch t => switch t;; mret None
  | Load o => m ← p_gets memp; let a := m + MEMORY_START C + o in v ← user 2 a (load C 1 a); mret (Some v)
  | Store o v => m ← p_gets memp; let a := m + MEMORY_START C + o in user 2 a (store C 1 a v);; mret None
  end.

Fixpoint perform_all (xs : list action) : M (list (option Z)) :=
  match xs with
  | [] => mret []
  | x :: xs' => r ← perform x; rs ← perform_all xs'; mret (r :: rs)
  end.

End Code.

(** ** The abstract machine *)

(** The thread that runs, and the memory of every thread. *)
Record machine := mkMachine { current : Z; memory : Z -> Z -> Z }.

Definition ideal (x : action) (M : machine) : option Z * machine :=
  match x with
  | Switch t => (None, mkMachine t (memory M))
  | Load o => (Some (memory M (current M) o), M)
  | Store o v =>
      (None, mkMachine (current M) (fun t o' =>
         if decide (t = current M /\ o' = o) then v `mod` 256 else memory M t o'))
  end.

Fixpoint ideal_all (xs : list action) (M : machine) : list (option Z) * machine :=
  match xs with
  | [] => ([], M)
  | x :: xs' => let '(r, M1) := ideal x M in let '(rs, M2) := ideal_all xs' M1 in (r :: rs, M2)
  end.

End Threads.

Import Threads.

Lemma ld_1 m a : ld 1 m a = rd8 m a.
Proof. change (rd8 m a + 256 * 0 = rd8 m a). lia. Qed.

(** ** Elements do not depend on data *)

Lemma elems_from_sizes f m m' n off size :
  (forall e, e ∈ elems_from f m n off size -> ld 4 m' (n + e + o_size) = ld 4 m (n + e + o_size)) ->
  elems_from f m' n off size = elems_from f m n off size.
Proof.
  revert off. induction f as [|f IH]; intros off Hm; cbn [elems_from] in *; [done|].
  destruct ((off <? size) && (NODE <? size - off)); [|done]. rewrite Hm by left. f_equal. apply IH.
  intros e He. apply Hm. by right.
Qed.

(** ** updateReference *)

Lemma updateReference_loop_run C s N n : layout C s N -> forall m j f,
  table C s N m -> (j + n = N)%nat -> (n < f)%nat ->
  exists m', updateReference_loop C f (if decide (j = N) then NULL else node s j) (set_ram m s) =
      Ret (tt, set_ram m' s) /\ table C s N m' /\
    (forall a, (forall k, (k < N)%nat -> ~ (node s k + o_reference <= a < node s k + o_reference + 4)) -> rd8 m' a = rd8 m a).
Proof.
  intros L. induction n as [|n IH]; intros m j [|f] Ht Hj Hfu; try lia; cbn [updateReference_loop].
  { rewrite decide_True by lia. change (NULL =? NULL) with true. by exists m. }
  rewrite decide_False by lia. rewrite (node_not_null C s N L). assert (j < N)%nat as HjN by lia.
  pose proof (node_safe C s N L j HjN) as Hs. rewrite (store_bind C s m 4 _ _ _ _ _ Hs) by vlia.
  set (m1 := st 4 m (node s j + o_reference) 0).
  assert (table C s N m1) as Ht1.
  { apply (local_table C s N L m m1 j); [done| |done]. apply (local_store C s N); auto with os. left. vlia. }
  rewrite (bind_Ret _ _ _ _ _ (getNextSpace_at C s m1 _ (proj1 (Z.eqb_neq _ _) (node_not_null C s N L j)) Hs)).
  rewrite (e_next _ _ _ _ _ (Ht1 j HjN)). destruct (IH m1 (S j) f Ht1) as (m' & E & Ht' & Hout); [lia..|].
  exists m'. split_and!; [done|done|]. intros a Ha. rewrite Hout by done. unfold m1. rewrite rd8_st, decide_False; [done|].
  specialize (Ha j HjN). vlia.
Qed.

(** Two memories in which every page has the same owner, order and contents. *)
Definition same_pages C s N (m m' : bytes) : Prop :=
  forall i, (i < N)%nat ->
    g_pid (page_at C s m' i) = g_pid (page_at C s m i) /\ g_order (page_at C s m' i) = g_order (page_at C s m i) /\
    g_body (page_at C s m' i) = g_body (page_at C s m i).

Lemma same_pages_process C s N m m' t pos :
  same_pages C s N m m' -> process t (pages C s N m) pos -> process t (pages C s N m') pos.
Proof.
  intros Hs. apply process_owner. intros o i. destruct (decide (i < N)%nat) as [Hi|Hi].
  - rewrite !pages_lookup by done. simpl. unfold owner. destruct (Hs i Hi) as (-> & -> & _). done.
  - rewrite !lookup_ge_None_2; [done|rewrite pages_length; lia..].
Qed.

Lemma same_pages_erase C s N m m' : erase (pages C s N m') = erase (pages C s N m) -> same_pages C s N m m'.
Proof.
  intros E i Hi. apply (f_equal (lookup i)) in E. rewrite !erase_lookup, !pages_lookup in E by done.
  apply (inj Some) in E. split_and!; [exact (f_equal g_pid E)|exact (f_equal g_order E)|exact (f_equal g_body E)].
Qed.

Lemma updateReference_run C s N fuel m :
  layout C s N -> table C s N m -> (N < fuel)%nat ->
  exists m', updateReference C fuel (set_ram m s) = Ret (tt, set_ram m' s) /\ table C s N m' /\ same_pages C s N m m'.
Proof.
  intros L Ht HN. unfold updateReference. rewrite (bind_Ret _ _ _ _ _ (first_page s (set_ram m s) eq_refl)).
  destruct (updateReference_loop_run C s N N L m 0 fuel Ht eq_refl HN) as (m' & E & Ht' & Hout).
  pose proof (l_N _ _ _ L). rewrite decide_False in E by lia. exists m'. split_and!; [done|done|].
  intros i Hi. destruct (Ht i Hi) as [_ _ _ Hz].
  assert (forall n o, 0 <= o -> o_free <= o \/ o + Z.of_nat n <= o_reference -> o + Z.of_nat n <= NODE ->
    ld n m' (node s i + o) = ld n m (node s i + o)) as Hn.
  { intros n o ???. apply ld_ext. intros x Hx. apply Hout. intros k Hk. unfold node. vlia. }
  cbn [page_at g_pid g_order g_body]. rewrite !Hn by vlia. split_and!; [done|done|].
  apply body_ext; [lia|]. intros o Ho _. apply Hout. intros k Hk.
  pose proof (node_frame_apart C s N L k i Hk). unfold apart in *. vlia.
Qed.

Lemma same_pages_trans C s N m1 m2 m3 : same_pages C s N m1 m2 -> same_pages C s N m2 m3 -> same_pages C s N m1 m3.
Proof. intros H1 H2 i Hi. destruct (H1 i Hi) as (<- & <- & <-). by apply H2. Qed.

(** A context switch takes the access to the frames of the thread that leaves,
    and changes the reference fields and clocks only. *)
Lemma switch_run C N fuel s pid pos next :
  layout C s N -> (memp s + MEMORY_START C) `mod` page_size C = 0 -> table C s N (ram s) -> (N < fuel)%nat ->
  running s = Some pid -> process pid (pages C s N (ram s)) pos -> Z.of_nat (length pos) + 3 < 2 ^ 31 ->
  exists m', switch C fuel next s =
      Ret (tt, set_running (Some next) (set_ram m' (set_prot (protect false (frames C s pos) (prot s)) s))) /\
    table C s N m' /\ same_pages C s N (ram s) m'.
Proof.
  intros L Hal Ht HfN Hrun Hp Hmax. unfold switch, virtualMemory.
  destruct (updateReference_run C s N fuel (ram s) L Ht HfN) as (m1 & E1 & Ht1 & Hs1). rewrite set_ram_id in E1.
  pose proof (same_pages_process _ _ _ _ _ _ _ Hs1 Hp) as Hp1.
  destruct (protect_run C N pid fuel false s m1 pos L Hal Ht1 Hp1 HfN Hmax) as (m2 & E2 & Ht2 & Ee2).
  exists m2. split_and!; [|done|eapply same_pages_trans, same_pages_erase; done].
  rewrite (bind_Ret _ _ _ tt (set_ram m2 (set_prot (protect false (frames C s pos) (prot s)) s))); [done|].
  rewrite (bind_Ret _ _ _ _ _ E1). cbn [VIRTUAL_MEMORY]. rewrite (bind_Ret _ _ _ (running s) (set_ram m1 s)) by done.
  rewrite Hrun. unfold memoryProtect. by rewrite (bind_Ret _ _ _ _ _ E2).
Qed.

(** The page of the machine of an address of a thread. *)
Lemma page_of_frame C s j x :
  0 < page_size C -> (memp s + MEMORY_START C) `mod` page_size C = 0 -> 0 <= x < page_size C -> page_of C (frame_at C s j + x) = frame_at C s j.
Proof.
  intros HPS Hal Hx. unfold page_of. replace ((frame_at C s j + x) `mod` page_size C) with x; [lia|].
  unfold frame_at. replace (memp s + MEMORY_START C + page_size C * Z.of_nat j + x) with (x + (memp s + MEMORY_START C) + Z.of_nat j * page_size C) by lia.
  rewrite Z_mod_plus_full, Zplus_mod, Hal, Z.add_0_r, Z.mod_mod, Z.mod_small; lia.
Qed.

(** Pages of different threads are at different places. *)
Lemma places_apart l t t' pos pos' j j' k :
  process t l pos -> process t' l pos' -> pos !! j = Some k -> pos' !! j' = Some k -> t = t'.
Proof.
  intros Hp Hp' Hj Hj'. destruct (pr_at _ _ _ Hp _ _ Hj) as [H1 _], (pr_at _ _ _ Hp' _ _ Hj') as [H2 _].
  destruct (l !! k) as [g|]; [|done]. injection H1 as H1%owner_spec. injection H2 as H2%owner_spec. destruct H1, H2. congruence.
Qed.

(** An access that faults is tried again when the handler served the fault. *)
Lemma user_fault {A} C junk rec fuel tries a (op : prog vm A) s s' :
  page_of C a ∈ prot s -> handler C junk rec fuel a s = Ret (false, s') ->
  user C junk rec fuel (S tries) a op s = user C junk rec fuel tries a op s'.
Proof.
  intros Hp E. cbn [user]. rewrite (bind_Ret _ _ _ (prot s) s) by done. rewrite bool_decide_true by done.
  by rewrite (bind_Ret _ _ _ _ _ E).
Qed.

(** The contents of a page that moved. *)
Lemma moved_body C s N m m' f k :
  moved (pages C s N m) (pages C s N m') f -> (k < N)%nat -> g_body (page_at C s m' (f k)) = g_body (page_at C s m k).
Proof.
  intros Hmv Hk. destruct (mv_lookup _ _ _ Hmv k) as [Hfk Hb]; [by rewrite pages_length|]. rewrite pages_length in Hfk.
  rewrite !erase_lookup, !pages_lookup in Hb by done. apply (inj Some) in Hb. exact (f_equal g_body Hb).
Qed.

(** ** The simulation *)

Section Simulation.
Context (C : config) (junk : bytes) (N : nat) (rec fuel : nat).
Context (HfN : (N < fuel)%nat) (Hf : (Z.to_nat (page_size C) < fuel)%nat).
Context (Hcov : page_size C * Z.of_nat (pred N) < PHYSICAL_SIZE C - MEMORY_START C - page_size C * 4).
(** The threads, how many pages each has, and where in each of its pages its
    elements are. *)
Context (T : list Z) (P : nat) (es : Z -> nat -> list Z) (HP : (0 < P <= 2)%nat).
Implicit Types (m : bytes) (s : vm) (M : machine).
Abbreviation PS := (page_size C).

(** The bytes of page [j] of a thread outside the link and size fields of the
    elements that a walk of the frame finds, and the offsets the thread may use.
    The walk starts at the first byte whatever the page holds: in a page that
    starts with data the fields of the first element are bytes of that data. *)
Definition data_at (t : Z) (j : nat) (x : Z) : Prop :=
  0 <= x < PS /\ link_byte (es t j) x = false /\ Forall (fun e => ~ (e + o_size <= x < e + o_size + 4)) (es t j).
Definition data (t o : Z) : Prop :=
  0 <= o < PS * Z.of_nat P /\ data_at t (Z.to_nat (o / PS)) (o `mod` PS).

(** The pages of thread [t] are at the places [pos], with the contents [mem]. *)
Record lives s m (t : Z) (pos : list nat) (mem : Z -> Z) : Prop := {
  lv_process : process t (pages C s N m) pos;
  lv_length : length pos = P;
  lv_elems j k : pos !! j = Some k -> elems m (frame_at C s k) (ld 4 m (node s k + o_size)) = es t j;
  lv_data j k x : pos !! j = Some k -> data_at t j x ->
    rd8 m (frame_at C s k + x) = mem (PS * Z.of_nat j + x)
}.

Record simulates s M : Prop := {
  sm_layout : layout C s N;
  sm_null : null_unmapped C s;
  sm_align : (memp s + MEMORY_START C) `mod` PS = 0;
  sm_shared : memp s + MEMORY_START C + PS * Z.of_nat P <= shared s;
  sm_handler : inHandler s = 0;
  sm_running : running s = Some (current M);
  sm_current : current M ∈ T;
  sm_table : table C s N (ram s);
  sm_lives : forall t, t ∈ T -> exists pos, lives s (ram s) t pos (memory M t);
  sm_front : (forall j, (j < P)%nat -> frame_at C s j ∈ prot s) \/
             process (current M) (pages C s N (ram s)) (seq 0 P)
}.

Lemma data_split t o : 0 < PS -> data t o ->
  exists j x, (j < P)%nat /\ data_at t j x /\ o = PS * Z.of_nat j + x.
Proof.
  intros HPS [Ho Hd]. exists (Z.to_nat (o / PS)), (o `mod` PS).
  pose proof (Z.div_pos o PS ltac:(lia) ltac:(lia)). pose proof (Z.div_lt_upper_bound o PS (Z.of_nat P) ltac:(lia) ltac:(lia)).
  split_and!; [lia|done|]. rewrite Z2Nat.id by lia. apply Z.div_mod. lia.
Qed.

(** Pages of a thread that moved by [f], contents included. *)
Lemma lives_moved s m m' t pos f mem :
  (forall j k, pos !! j = Some k -> g_body (page_at C s m' (f k)) = g_body (page_at C s m k)) ->
  process t (pages C s N m') (f <$> pos) -> lives s m t pos mem -> lives s m' t (f <$> pos) mem.
Proof.
  intros Hb Hp [_ Hl He Hd].
  assert (forall j k', (f <$> pos) !! j = Some k' -> exists k, pos !! j = Some k /\
    elems m' (frame_at C s k') (ld 4 m' (node s k' + o_size)) = es t j /\
    forall x, data_at t j x -> rd8 m' (frame_at C s k' + x) = rd8 m (frame_at C s k + x)) as Hk.
  { intros j k' (k & -> & Hj)%list_lookup_fmap_Some. exists k. split; [done|].
    specialize (Hb j k Hj). cbn [page_at g_body] in Hb. apply body_inv in Hb as [Ee Hb].
    rewrite (He j k Hj) in *. split; [done|]. intros x Hx. apply Hb; apply Hx. }
  split; [done|by rewrite length_fmap|..].
  - intros j k' Hj. by destruct (Hk j k' Hj) as (k & _ & E & _).
  - intros j k' x Hj Hx. destruct (Hk j k' Hj) as (k & Hjk & _ & Eb). rewrite (Eb x Hx). by apply Hd.
Qed.

Lemma lives_lt s m t pos mem j k : lives s m t pos mem -> pos !! j = Some k -> (k < N)%nat.
Proof. intros Hl Hj. pose proof (process_lt _ _ _ _ _ (lv_process _ _ _ _ _ Hl) Hj) as Hk. by rewrite pages_length in Hk. Qed.

Lemma lives_same s m m' t pos mem : same_pages C s N m m' -> lives s m t pos mem -> lives s m' t pos mem.
Proof.
  intros Hs Hl. rewrite <- (list_fmap_id pos). apply (lives_moved s m); [|rewrite list_fmap_id|done].
  - intros j k Hj. apply (Hs k). by eapply lives_lt.
  - eapply same_pages_process; [done|apply Hl].
Qed.

Lemma lives_memp s s' m t pos mem : memp s' = memp s -> lives s m t pos mem -> lives s' m t pos mem.
Proof.
  intros E [Hp Hl He Hd]. split; [by rewrite (pages_memp C s s')|done|..]; unfold frame_at, node in *; rewrite ?E; done.
Qed.

(** A context switch. *)
Lemma switch_step s M t :
  simulates s M -> t ∈ T ->
  exists s', switch C fuel t s = Ret (tt, s') /\ simulates s' (mkMachine t (memory M)).
Proof.
  intros [L Hnull Hal Hsh Hin Hrun Hcur Ht Hlv Hfr] HtT. destruct (Hlv _ Hcur) as [pos Hk].
  pose proof (lv_length _ _ _ _ _ Hk) as Hl.
  destruct (switch_run C N fuel s (current M) pos t L Hal Ht HfN Hrun (lv_process _ _ _ _ _ Hk)) as (m2 & E2 & Ht2 & Hs2); [lia|].
  eexists. split; [exact E2|]. split; try done.
  - by apply (layout_memp C s).
  - by apply (table_memp C s).
  - intros t' Ht'. destruct (Hlv t' Ht') as [k' Hk']. exists k'. apply (lives_memp s); [done|]. by eapply lives_same.
  - left. intros j Hj. cbn [prot set_running set_ram set_prot protect]. destruct Hfr as [Hfr|Hfr].
    + apply elem_of_union_l. by apply Hfr.
    + apply elem_of_union_r. rewrite (process_unique _ _ _ _ (lv_process _ _ _ _ _ Hk) Hfr).
      unfold frames. apply elem_of_list_to_set, list_elem_of_fmap. exists j. split; [done|]. apply elem_of_seq. lia.
Qed.

(** The pages of the running thread are in front after a page fault. *)
Lemma fault_step s M a :
  simulates s M -> memp s + MEMORY_START C <= a < memp s + MEMORY_START C + PS * Z.of_nat P ->
  exists s', handler C junk rec fuel a s = Ret (false, s') /\ memp s' = memp s /\ simulates s' M /\
    (forall j, (j < P)%nat -> frame_at C s j ∉ prot s') /\ process (current M) (pages C s N (ram s')) (seq 0 P).
Proof.
  intros [L Hnull Hal Hsh Hin Hrun Hcur Ht Hlv Hfr] Ha.
  destruct (Hlv _ Hcur) as [pos Hk]. pose proof (lv_process _ _ _ _ _ Hk) as Hp. pose proof (lv_length _ _ _ _ _ Hk) as Hl.
  pose proof (process_length _ _ _ Hp) as HPN. rewrite pages_length, Hl in HPN.
  destruct (load_list_places (current M) fuel _ pos Hp) as (l' & El & Hp' & _); [lia|lia|intros; lia|]. rewrite Hl in Hp'.
  destruct (load_list_moved _ _ _ _ El) as [f Hmv].
  destruct (handler_loads C junk s N fuel rec (current M) a _ L Hnull Ht HfN Hf Hal Hcov Hrun Hin ltac:(lia) El)
    as (Q & m' & E & HQ & [Ht' Hl' _ _]). rewrite <- Hl' in *.
  eexists. split_and!; [exact E|done| |intros j Hj; apply HQ; lia|done]. split; try done.
  - by apply (layout_memp C s).
  - by apply (table_memp C s).
  - intros t HtT. destruct (Hlv t HtT) as [q Hq]. exists (f <$> q). apply (lives_memp s); [done|].
    apply (lives_moved s (ram s)); [|apply (mv_process _ _ _ Hmv), Hq|done].
    intros j k Hj. apply (moved_body C s N); [done|by eapply lives_lt].
  - right. exact Hp'.
Qed.

(** An access of the running thread to its memory. *)
Lemma user_step {A} s M j x (op : prog vm A) :
  simulates s M -> (j < P)%nat -> 0 <= x < PS ->
  exists s', user C junk rec fuel 2 (frame_at C s j + x) op s = op s' /\ memp s' = memp s /\ simulates s' M /\
    process (current M) (pages C s N (ram s')) (seq 0 P).
Proof.
  intros Hsim Hj Hx. pose proof (sm_layout _ _ Hsim) as L. pose proof (l_ps _ _ _ L) as HPS.
  pose proof (page_of_frame C s j x ltac:(vlia) (sm_align _ _ Hsim) Hx) as Epg.
  cbn [user]. rewrite (bind_Ret _ _ _ (prot s) s) by done. rewrite Epg. case_bool_decide as Hpr.
  - destruct (fault_step s M (frame_at C s j + x) Hsim) as (s' & E & Em & Hsim' & Hno & Hp); [unfold frame_at; nia|].
    rewrite (bind_Ret _ _ _ _ _ E). exists s'. rewrite (bind_Ret _ _ _ (prot s') s') by done.
    rewrite bool_decide_false by (by apply Hno). done.
  - exists s. split_and!; try done. destruct (sm_front _ _ Hsim) as [Hin|]; [|done]. by destruct Hpr; apply Hin.
Qed.

Lemma lives_front s M :
  simulates s M -> process (current M) (pages C s N (ram s)) (seq 0 P) ->
  lives s (ram s) (current M) (seq 0 P) (memory M (current M)).
Proof.
  intros Hsim Hp. destruct (sm_lives _ _ Hsim _ (sm_current _ _ Hsim)) as [pos Hk].
  by rewrite (process_unique _ _ _ _ Hp (lv_process _ _ _ _ _ Hk)).
Qed.

Lemma front_lookup j : (j < P)%nat -> seq 0 P !! j = Some j.
Proof. intros Hj. by rewrite lookup_seq_lt. Qed.

Lemma front_lt s M j : simulates s M -> (j < P)%nat -> (j < N)%nat.
Proof.
  intros Hsim Hj. destruct (sm_lives _ _ Hsim _ (sm_current _ _ Hsim)) as [pos [Hp Hl _ _]].
  pose proof (process_length _ _ _ Hp) as HPN. rewrite pages_length in HPN. lia.
Qed.

Lemma load_step s M o :
  simulates s M -> data (current M) o -> let a := memp s + MEMORY_START C + o in
  exists s', user C junk rec fuel 2 a (load C 1 a) s = Ret (memory M (current M) o, s') /\ simulates s' M.
Proof.
  intros Hsim Ho a. pose proof (l_ps _ _ _ (sm_layout _ _ Hsim)) as HPS.
  destruct (data_split _ _ ltac:(vlia) Ho) as (j & x & Hj & Hx & ->). pose proof (proj1 Hx) as Hxr.
  assert (a = frame_at C s j + x) as -> by (unfold a, frame_at; lia).
  destruct (user_step s M j x (load C 1 (frame_at C s j + x)) Hsim Hj Hxr) as (s' & -> & Em & Hsim' & Hp).
  pose proof (sm_layout _ _ Hsim') as L'. rewrite <- (pages_memp C s s') in Hp by done.
  pose proof (lv_data _ _ _ _ _ (lives_front s' M Hsim' Hp) j j x (front_lookup j Hj) Hx) as Hd.
  assert (frame_at C s j = frame_at C s' j) as -> by (unfold frame_at; by rewrite Em).
  pose proof (load_at C s' (ram s') 1 (frame_at C s' j + x) _ _ (frame_safe C s' N L' j (front_lt _ _ _ Hsim' Hj))) as El.
  rewrite set_ram_id in El. exists s'. split; [|done]. rewrite El by lia. by rewrite ld_1, Hd.
Qed.

(** A store in the frame of place [i] changes nothing but the byte. *)
Lemma store_place s m i o v :
  layout C s N -> table C s N m -> (i < N)%nat -> 0 <= o < PS -> let m' := st 1 m (frame_at C s i + o) v in
  local_change C s m m' i /\ table C s N m' /\
  (forall n x, 0 <= x -> x + Z.of_nat n <= NODE -> ld n m' (node s i + x) = ld n m (node s i + x)) /\
  forall t pos, process t (pages C s N m) pos -> process t (pages C s N m') pos.
Proof.
  intros L Ht Hi Ho m'. pose proof (node_frame_apart C s N L i i Hi) as Hap. unfold apart in Hap.
  assert (forall n x, 0 <= x -> x + Z.of_nat n <= NODE -> ld n m' (node s i + x) = ld n m (node s i + x)) as Hn.
  { intros n x ??. unfold m'. apply ld_st_disj. vlia. }
  assert (local_change C s m m' i) as Hc.
  { split.
    - intros a _ Ha. unfold m', apart in *. rewrite rd8_st, decide_False by lia. done.
    - intros x Hx. unfold link_field in Hx. apply Hn; vlia.
    - rewrite Hn by vlia. apply (Ht i Hi). }
  split_and!; [done|by apply (local_table C s N L m m' i)|done|]. intros t pos. apply process_owner. intros q k.
  rewrite (local_pages C s N L m m' i Hi Hc Ht). destruct (decide (k = i)) as [->|Hk].
  - rewrite list_lookup_insert_eq by (by rewrite pages_length). rewrite pages_lookup by done. simpl.
    unfold owner, page_at. cbn [g_pid g_order]. by rewrite !Hn by vlia.
  - by rewrite list_lookup_insert_ne by done.
Qed.

(** The store, for the thread whose page it is and for the others. *)
Lemma store_lives s m i o v t pos mem :
  layout C s N -> table C s N m -> (i < N)%nat -> 0 <= o < PS -> lives s m t pos mem -> i ∉ pos ->
  lives s (st 1 m (frame_at C s i + o) v) t pos mem.
Proof.
  intros L Ht Hi Ho Hl Hnot. destruct (store_place s m i o v L Ht Hi Ho) as (Hc & Ht' & Hn & Hpr). set (m' := st 1 _ _ v) in *.
  rewrite <- (list_fmap_id pos). apply (lives_moved s m); [|rewrite list_fmap_id; by apply Hpr, Hl|done].
  intros j k Hj. assert (k <> i) as Hki by (intros ->; apply Hnot; by eapply list_elem_of_lookup_2).
  pose proof (lives_lt _ _ _ _ _ _ _ Hl Hj) as HkN. unfold id. by rewrite (local_page C s N L m m' i k Hi HkN Hc Ht Hki).
Qed.

Lemma store_lives_own s m i x v t mem :
  layout C s N -> table C s N m -> (i < P)%nat -> (P <= N)%nat -> data_at t i x -> lives s m t (seq 0 P) mem ->
  lives s (st 1 m (frame_at C s i + x) v) t (seq 0 P)
    (fun o => if decide (o = PS * Z.of_nat i + x) then v `mod` 256 else mem o).
Proof.
  intros L Ht Hi HPN Hx [Hp Hl He Hd]. pose proof (proj1 Hx) as Hxr.
  destruct (store_place s m i x v L Ht ltac:(lia) Hxr) as (Hc & Ht' & Hn & Hpr). set (m' := st 1 _ _ v) in *.
  assert (forall j, (j < N)%nat -> j <> i -> g_body (page_at C s m' j) = g_body (page_at C s m j)) as Hother.
  { intros j Hj Hji. by rewrite (local_page C s N L m m' i j ltac:(lia) Hj Hc Ht Hji). }
  split; [by apply Hpr|done|..]; intros j k; [|intros y]; intros [-> Hj]%lookup_seq; cbn [Nat.add].
  - assert (seq 0 P !! j = Some j) as Ej by (by apply front_lookup). specialize (He j j Ej).
    destruct (decide (j = i)) as [->|Hji].
    + rewrite Hn by vlia. rewrite <- He. apply elems_from_sizes. intros e Hin'.
      unfold m'. apply ld_st_disj. destruct Hx as (_ & _ & Hes). fold (elems m (frame_at C s i) (ld 4 m (node s i + o_size))) in Hin'.
      rewrite He in Hin'. rewrite Forall_forall in Hes. specialize (Hes e Hin'). vlia.
    + pose proof (Hother j ltac:(lia) Hji) as Hb. cbn [page_at g_body] in Hb. by apply body_inv in Hb as [-> _].
  - intros Hy. pose proof (proj1 Hy) as Hyr. rewrite <- (Hd j j y (front_lookup j Hj) Hy). unfold m'. rewrite rd8_st.
    destruct (decide (j = i)) as [->|Hji].
    + destruct (decide (y = x)) as [->|Hxy].
      * rewrite !decide_True by lia. replace (frame_at C s i + x - (frame_at C s i + x)) with 0 by lia. by rewrite Z.pow_0_r, Z.div_1_r.
      * by rewrite !decide_False by lia.
    + rewrite !decide_False; [done|..]; unfold frame_at; nia.
Qed.

Lemma store_step s M o v :
  simulates s M -> data (current M) o -> let a := memp s + MEMORY_START C + o in
  exists s', user C junk rec fuel 2 a (store C 1 a v) s = Ret (tt, s') /\ simulates s' (snd (ideal (Store o v) M)).
Proof.
  intros Hsim Ho a. pose proof (l_ps _ _ _ (sm_layout _ _ Hsim)) as HPS.
  destruct (data_split _ _ ltac:(vlia) Ho) as (j & x & Hj & Hx & ->). pose proof (proj1 Hx) as Hxr.
  assert (a = frame_at C s j + x) as -> by (unfold a, frame_at; lia).
  destruct (user_step s M j x (store C 1 (frame_at C s j + x) v) Hsim Hj Hxr) as (s' & -> & Em & Hsim' & Hp).
  assert (frame_at C s j = frame_at C s' j) as -> by (unfold frame_at; by rewrite Em).
  rewrite <- (pages_memp C s s') in Hp by done. pose proof (lives_front s' M Hsim' Hp) as Hlf.
  pose proof (front_lt _ _ _ Hsim' Hj) as HjN. pose proof (front_lt _ _ (pred P) Hsim' ltac:(lia)) as HPN.
  destruct Hsim' as [L Hnull Hal Hsh Hin Hrun Hcur Ht Hlv _].
  pose proof (store_at C s' (ram s') 1 (frame_at C s' j + x) v _ _ (frame_safe C s' N L j HjN)) as Es.
  rewrite set_ram_id in Es. rewrite Es by lia.
  destruct (store_place s' (ram s') j x v L Ht HjN Hxr) as (Hc & Ht' & Hn & Hpr).
  set (m' := st 1 _ _ v) in *. exists (set_ram m' s'). split; [done|]. split; try done.
  - by apply (layout_memp C s').
  - by apply (table_memp C s').
  - intros t HtT. destruct (decide (t = current M)) as [->|Hne].
    + exists (seq 0 P). apply (lives_memp s'); [done|].
      destruct (store_lives_own s' (ram s') j x v (current M) _ L Ht Hj ltac:(lia) Hx Hlf) as [Hp2 Hl2 He2 Hd2].
      fold m' in Hd2. split; [done|done|done|]. intros i k y Hi Hy. cbn [ideal snd memory]. change (ram (set_ram m' s')) with m'. rewrite (Hd2 i k y Hi Hy).
      destruct (decide (PS * Z.of_nat i + y = PS * Z.of_nat j + x)); [by rewrite decide_True|].
      rewrite decide_False; [done|]. by intros [_ ?].
    + destruct (Hlv t HtT) as [pos Hk]. exists pos. apply (lives_memp s'); [done|]. cbn [ideal snd memory].
      destruct (store_lives s' (ram s') j x v t pos (memory M t) L Ht HjN Hxr Hk) as [Hp2 Hl2 He2 Hd2].
      { intros (i & Hi)%list_elem_of_lookup. apply Hne.
        by eapply (places_apart _ _ _ _ _ i j j); [apply Hk|exact Hp| |apply front_lookup]. }
      fold m' in Hd2. split; [done|done|done|]. intros i k y Hi Hy. change (ram (set_ram m' s')) with m'.
      rewrite (Hd2 i k y Hi Hy), decide_False; [done|]. by intros [? _].
  - right. by apply Hpr.
Qed.

(** What the threads may do: switch among themselves, and access their memory
    outside the fields that relinking uses. *)
Fixpoint allowed (t : Z) (xs : list action) : Prop :=
  match xs with
  | [] => True
  | Switch t' :: xs' => t' ∈ T /\ allowed t' xs'
  | Load o :: xs' | Store o _ :: xs' => data t o /\ allowed t xs'
  end.

Lemma perform_step s M x xs :
  simulates s M -> allowed (current M) (x :: xs) ->
  exists s', perform C junk rec fuel x s = Ret (fst (ideal x M), s') /\ simulates s' (snd (ideal x M)) /\
    allowed (current (snd (ideal x M))) xs.
Proof.
  intros Hsim. destruct x as [t|o|o v]; cbn [allowed perform ideal fst snd current]; intros [Hx Hxs].
  - destruct (switch_step s M t Hsim Hx) as (s' & E & Hs'). rewrite (bind_Ret _ _ _ _ _ E). by exists s'.
  - destruct (load_step s M o Hsim Hx) as (s' & E & Hs'). rewrite (bind_Ret _ _ _ (memp s) s) by done. cbn zeta.
    rewrite (bind_Ret _ _ _ _ _ E). by exists s'.
  - destruct (store_step s M o v Hsim Hx) as (s' & E & Hs'). rewrite (bind_Ret _ _ _ (memp s) s) by done. cbn zeta.
    rewrite (bind_Ret _ _ _ _ _ E). by exists s'.
Qed.

Lemma perform_all_run s M xs :
  simulates s M -> allowed (current M) xs ->
  exists s', perform_all C junk rec fuel xs s = Ret (fst (ideal_all xs M), s') /\ simulates s' (snd (ideal_all xs M)).
Proof.
  revert s M. induction xs as [|x xs IH]; intros s M Hsim Hal; [by exists s|]. cbn [perform_all ideal_all].
  destruct (perform_step s M x xs Hsim Hal) as (s1 & E1 & Hs1 & Hal1). rewrite (bind_Ret _ _ _ _ _ E1).
  destruct (ideal x M) as [r M1]. cbn [fst snd] in *. destruct (IH s1 M1 Hs1 Hal1) as (s2 & E2 & Hs2).
  rewrite (bind_Ret _ _ _ _ _ E2). destruct (ideal_all xs M1) as [rs M2]. by exists s2.
Qed.

End Simulation.


(** Two threads with two pages each, at the places 0 and 1, and 2 and 3. *)
Definition pair_state : vm :=
  give_to 6 2 3 (give_to 6 1 2 (give_to 5 2 1 (give_to 5 1 0 boot_state))).
Definition pair_places (t : Z) : list nat := if t =? 5 then [0; 1]%nat else [2; 3]%nat.
Definition pair_machine : machine :=
  mkMachine 5 (fun t o => rd8 (ram pair_state) (frame_at small pair_state (hd 0%nat (pair_places t)) + o)).

Lemma pair_memp : memp pair_state = 4096.
Proof. unfold pair_state. rewrite !give_memp. exact boot_memp. Qed.

Lemma pair_owners : owners (pages small pair_state 4 (ram pair_state)) = [(5, 1); (5, 2); (6, 1); (6, 2)].
Proof. vm_compute. reflexivity. Qed.

Lemma pair_process t : t ∈ [5; 6] -> process t (pages small pair_state 4 (ram pair_state)) (pair_places t).
Proof.
  intros [->| ->%list_elem_of_singleton]%elem_of_cons; (split;
    [intros [|[|j]] k [= <-]; (split; [by rewrite owners_lookup, pair_owners|]); intros [|[|[|[|k']]]]; rewrite owners_lookup, pair_owners; done
    |intros [|[|[|[|k']]]]; rewrite owners_lookup, pair_owners; done]).
Qed.

Lemma pair_elems k : (k < 4)%nat ->
  elems (ram pair_state) (frame_at small pair_state k) (ld 4 (ram pair_state) (node pair_state k + o_size)) = [0].
Proof. intros Hk. do 4 (destruct k as [|k]; [vm_compute; reflexivity|]). lia. Qed.

Lemma pair_fields : running pair_state = Some 5 /\ inHandler pair_state = 0 /\ shared pair_state = 4864.
Proof. vm_compute. done. Qed.

Lemma pair_simulates : simulates small 4 [5; 6] 2 (fun _ _ => [0]) pair_state pair_machine.
Proof.
  destruct pair_fields as (Hr & Hh & Hs). split.
  - apply small_layout. exact pair_memp.
  - apply small_null. exact pair_memp.
  - rewrite pair_memp. reflexivity.
  - rewrite pair_memp, Hs. simpl. lia.
  - exact Hh.
  - exact Hr.
  - left.
  - unfold pair_state. do 4 (apply give_table; [by rewrite ?give_memp, boot_memp|lia|]). exact boot_table.
  - intros t Ht. exists (pair_places t). pose proof (pair_process t Ht) as Hp.
    assert (forall j k, pair_places t !! j = Some k -> (k < 4)%nat) as Hk.
    { intros j k Hj. pose proof (process_lt _ _ _ _ _ Hp Hj) as Hk. by rewrite pages_length in Hk. }
    split; [done|by unfold pair_places; case_match| |].
    + intros j k Hj. by eapply pair_elems, Hk.
    + intros j k x Hj _. unfold pair_machine. cbn [memory]. f_equal. unfold frame_at, pair_places in *. rewrite !pair_memp.
      case_match; destruct j as [|[|j]]; simplify_eq/=; lia.
  - right. apply (pair_process 5). left.
Qed.

(** Thread 5 stores 7 and 8, thread 6 stores 9 and 10 at the same addresses of
    two pages, and both read. *)
Definition pair_program : list action :=
  [Store 60 7; Store 124 8; Switch 6; Store 60 9; Store 124 10; Load 124; Switch 5; Load 60; Load 124;
   Switch 6; Load 60].


(** ** Threads with different numbers of pages *)

(** Loading the only page of a process exchanges it with the first page. *)
Lemma load_list_single_moved rounds pid l k :
  process pid l [k] -> (0 < rounds)%nat ->
  exists l', load_list rounds pid l = Ret l' /\ moved l l' (tr 0 k).
Proof.
  intros Hp Hr. pose proof (process_lt _ _ _ 0 _ Hp eq_refl) as Hk. eexists. split; [by apply load_list_single|].
  apply (moved_trans _ (touch k l) _ id (tr 0 k)); [apply moved_erase; by rewrite erase_touch|].
  apply moved_swap; rewrite touch_length; lia.
Qed.

Section Uneven.
Context (C : config) (junk : bytes) (N : nat) (rec fuel : nat).
Implicit Types (s : vm).

Lemma perform_all_cons x xs r rs s s1 s2 :
  perform C junk rec fuel x s = Ret (r, s1) -> perform_all C junk rec fuel xs s1 = Ret (rs, s2) ->
  perform_all C junk rec fuel (x :: xs) s = Ret (r :: rs, s2).
Proof. intros E1 E2. cbn [perform_all]. by rewrite (bind_Ret _ _ _ _ _ E1), (bind_Ret _ _ _ _ _ E2). Qed.

Lemma perform_all_app xs ys rs qs s s1 s2 :
  perform_all C junk rec fuel xs s = Ret (rs, s1) -> perform_all C junk rec fuel ys s1 = Ret (qs, s2) ->
  perform_all C junk rec fuel (xs ++ ys) s = Ret (rs ++ qs, s2).
Proof.
  revert rs s. induction xs as [|x xs IH]; intros rs s; cbn [perform_all app]; [by intros [= <- <-]|].
  intros E E2. unfold mbind, prog_bind, p_bind in *. destruct (perform _ _ _ _ _ _) as [[r s3]| | |]; try done.
  destruct (perform_all _ _ _ _ xs s3) as [[rs' s4]| | |] eqn:E3; try done. injection E as <- <-.
  by rewrite (IH _ _ E3 E2).
Qed.

Lemma perform_switch t s s' : switch C fuel t s = Ret (tt, s') -> perform C junk rec fuel (Switch t) s = Ret (None, s').
Proof. intros E. cbn [perform]. by rewrite (bind_Ret _ _ _ _ _ E). Qed.

Lemma perform_load s s' j x v :
  user C junk rec fuel 2 (frame_at C s j + x) (load C 1 (frame_at C s j + x)) s = Ret (v, s') ->
  perform C junk rec fuel (Load (page_size C * Z.of_nat j + x)) s = Ret (Some v, s').
Proof.
  intros E. cbn [perform]. rewrite (bind_Ret _ _ _ (memp s) s) by done. cbn zeta.
  replace (memp s + MEMORY_START C + (page_size C * Z.of_nat j + x)) with (frame_at C s j + x) by (unfold frame_at; lia).
  by rewrite (bind_Ret _ _ _ _ _ E).
Qed.

(** A byte of the frame at place [k] that a move of the page keeps. *)
Definition kept_byte s (k : nat) (x : Z) : Prop :=
  0 <= x < page_size C /\ link_byte (elems (ram s) (frame_at C s k) (ld 4 (ram s) (node s k + o_size))) x = false.

Lemma kept_byte_moved s m' k k' x :
  kept_byte s k x -> g_body (page_at C s m' k') = g_body (page_at C s (ram s) k) ->
  rd8 m' (frame_at C s k' + x) = rd8 (ram s) (frame_at C s k + x).
Proof. intros [Hx Hl] Hb. cbn [page_at g_body] in Hb. apply body_inv in Hb as [_ Hb]. by apply Hb. Qed.

Lemma kept_byte_keeps s s' k k' x :
  memp s' = memp s -> kept_byte s k x -> g_body (page_at C s (ram s') k') = g_body (page_at C s (ram s) k) ->
  kept_byte s' k' x.
Proof.
  intros Em [Hx Hl] Hb. cbn [page_at g_body] in Hb. apply body_inv in Hb as [He _]. split; [done|].
  unfold frame_at, node in *. by rewrite Em, He.
Qed.

(** A load from a frame with access. *)
Lemma load_open tries s k x :
  layout C s N -> (memp s + MEMORY_START C) `mod` page_size C = 0 -> (k < N)%nat -> 0 <= x < page_size C ->
  frame_at C s k ∉ prot s ->
  user C junk rec fuel (S tries) (frame_at C s k + x) (load C 1 (frame_at C s k + x)) s =
    Ret (rd8 (ram s) (frame_at C s k + x), s).
Proof.
  intros L Hal Hk Hx Hno. cbn [user]. rewrite (bind_Ret _ _ _ (prot s) s) by done. rewrite (page_of_frame C s k x) by (done || lia).
  rewrite bool_decide_false by done.
  pose proof (load_at C s (ram s) 1 (frame_at C s k + x) _ _ (frame_safe C s N L k Hk)) as El.
  rewrite set_ram_id in El. rewrite El by lia. by rewrite ld_1.
Qed.

Context (HfN : (N < fuel)%nat) (Hf : (Z.to_nat (page_size C) < fuel)%nat).
Context (Hcov : page_size C * Z.of_nat (pred N) < PHYSICAL_SIZE C - MEMORY_START C - page_size C * 4).

(** The first access of a thread with one page, when the first frame is closed:
    the page comes to the first frame, and all frames are open. *)
Lemma load_faulting s pid k o :
  layout C s N -> null_unmapped C s -> table C s N (ram s) -> (memp s + MEMORY_START C) `mod` page_size C = 0 ->
  memp s + MEMORY_START C + page_size C <= shared s -> running s = Some pid -> inHandler s = 0 ->
  process pid (pages C s N (ram s)) [k] -> kept_byte s k o -> frame_at C s 0 ∈ prot s ->
  exists Q m', user C junk rec fuel 2 (frame_at C s 0 + o) (load C 1 (frame_at C s 0 + o)) s =
      Ret (rd8 (ram s) (frame_at C s k + o), set_inHandler 0 (set_ram m' (set_prot Q s))) /\
    (forall i, (i < N)%nat -> frame_at C s i ∉ Q) /\ table C s N m' /\
    moved (pages C s N (ram s)) (pages C s N m') (tr 0 k).
Proof.
  intros L Hnull Ht Hal Hsh Hrun Hin Hp Ho Hpr. pose proof (l_ps _ _ _ L) as HPS. pose proof (proj1 Ho) as Hor.
  pose proof (process_lt _ _ _ 0 _ Hp eq_refl) as Hk. rewrite pages_length in Hk. assert (0 < N)%nat as HN by lia.
  destruct (load_list_single_moved fuel pid _ k Hp ltac:(lia)) as (l' & El & Hmv).
  destruct (handler_loads C junk s N fuel rec pid (frame_at C s 0 + o) l' L Hnull Ht HfN Hf Hal Hcov Hrun Hin)
    as (Q & m' & E & HQ & [Ht' Hl' _ _]); [unfold frame_at; lia|done|]. rewrite <- Hl' in Hmv.
  exists Q, m'. split_and!; [|done..]. rewrite <- (page_of_frame C s 0 o) in Hpr by (done || vlia).
  rewrite (user_fault _ _ _ _ _ _ _ _ _ Hpr E).
  set (s' := set_inHandler 0 (set_ram m' (set_prot Q s))).
  rewrite <- (kept_byte_moved s m' k 0 o Ho).
  - apply (load_open 0 s' 0 o); [by apply (layout_memp C s)|done|done|done|by apply HQ].
  - pose proof (moved_body C s N (ram s) m' _ k Hmv Hk) as Hb. by rewrite tr_second in Hb.
Qed.

(** The turn of a thread [c] with one page between [b], whose pages are in the
    first two frames, and [a]: the page of [c] changes places with the first page
    of [b], and only the first frame is closed for [a]. *)
Lemma one_page_turn s a b c k o :
  layout C s N -> null_unmapped C s -> table C s N (ram s) -> (memp s + MEMORY_START C) `mod` page_size C = 0 ->
  memp s + MEMORY_START C + page_size C <= shared s -> inHandler s = 0 -> running s = Some b ->
  process b (pages C s N (ram s)) [0; 1]%nat -> process c (pages C s N (ram s)) [k] -> kept_byte s k o ->
  exists s', perform_all C junk rec fuel [Switch c; Load o; Switch a] s =
      Ret ([None; Some (rd8 (ram s) (frame_at C s k + o)); None], s') /\ memp s' = memp s /\
    (forall n, (0 < n < N)%nat -> frame_at C s n ∉ prot s') /\
    (forall t pos, process t (pages C s N (ram s)) pos -> process t (pages C s N (ram s')) (tr 0 k <$> pos)) /\
    (forall n, (n < N)%nat -> g_body (page_at C s (ram s') (tr 0 k n)) = g_body (page_at C s (ram s) n)).
Proof.
  intros L Hnull Ht Hal Hsh Hin Hrun Hb Hc Ho.
  pose proof (process_lt _ _ _ 0 _ Hc eq_refl) as HkN. rewrite pages_length in HkN.
  destruct (switch_run C N fuel s b _ c L Hal Ht HfN Hrun Hb) as (m1 & E1 & Ht1 & Hs1); [simpl; lia|].
  set (s1 := set_running _ _) in E1.
  destruct (load_faulting s1 c k o) as (Q & m2 & E2 & HQ & Ht2 & Hmv);
    [by apply (layout_memp C s)|done|by apply (table_memp C s)|done|done|done|done
    |by apply (same_pages_process C s N (ram s))|by apply (kept_byte_keeps s s1 k k); [| |apply (Hs1 k)]| |].
  { apply elem_of_union_r, elem_of_list_to_set. left. }
  set (s2 := set_inHandler _ _) in E2.
  assert (forall t pos, process t (pages C s N (ram s)) pos -> process t (pages C s2 N (ram s2)) (tr 0 k <$> pos)) as Hpr.
  { intros t pos Hp. apply (mv_process _ _ _ Hmv), (same_pages_process C s N (ram s)); done. }
  destruct (switch_run C N fuel s2 c [0%nat] a) as (m3 & E3 & Ht3 & Hs3);
    [by apply (layout_memp C s)|exact Hal|by apply (table_memp C s1)|done|done| |simpl; lia|].
  { replace [0%nat] with (tr 0 k <$> [k]) by (simpl; by rewrite tr_second). by apply Hpr. }
  set (s3 := set_running (Some a) _) in E3. exists s3. split_and!; [|done|..].
  - replace (Load o) with (Load (page_size C * Z.of_nat 0 + o)) by (f_equal; lia).
    apply (perform_all_cons _ _ _ _ _ s1); [by apply perform_switch|].
    apply (perform_all_cons _ _ _ _ _ s2).
    { apply perform_load. rewrite <- (kept_byte_moved s m1 k k o Ho) by apply (Hs1 k HkN). exact E2. }
    eapply perform_all_cons; [by apply perform_switch|reflexivity].
  - intros n Hn. change (prot s3) with (Q ∪ frames C s2 [0%nat]). intros [Hq|Hq]%elem_of_union; [by apply (HQ n); [lia|]|].
    apply elem_of_list_to_set, list_elem_of_singleton in Hq.
    pose proof (l_ps _ _ _ L). unfold frame_at, NODE in *. cbn in Hq. nia.
  - intros t pos Hp. apply (same_pages_process C s2 N (ram s2)); [exact Hs3|by apply Hpr].
  - intros n Hn. destruct (Hs1 n Hn) as (_ & _ & <-). etrans; [|exact (moved_body C s1 N m1 m2 _ n Hmv Hn)].
    apply (Hs3 (tr 0 k n)). unfold tr. repeat case_decide; lia.
Qed.

End Uneven.

(** C36: with threads that have different numbers of pages this fails.  Thread
    [b], with two pages, runs; then [c], with one page, reads its memory, and then
    [a], with two pages, reads a byte of its second page.  The page fault of [c]
    opens all frames and the switch to [a] closes only the frame of the one page
    of [c], so that [a] reads, without a fault, the second page of [b], which is
    still in the second frame, and not its own, which is at place [j]. *)
Theorem uneven_threads_share C junk N rec fuel s a b c i j k o x :
  (N < fuel)%nat -> (Z.to_nat (page_size C) < fuel)%nat ->
  page_size C * Z.of_nat (pred N) < PHYSICAL_SIZE C - MEMORY_START C - page_size C * 4 ->
  layout C s N -> null_unmapped C s -> table C s N (ram s) -> (memp s + MEMORY_START C) `mod` page_size C = 0 ->
  memp s + MEMORY_START C + page_size C <= shared s -> inHandler s = 0 ->
  running s = Some b -> a <> b -> b <> c -> a <> c ->
  process b (pages C s N (ram s)) [0; 1]%nat -> process c (pages C s N (ram s)) [k] ->
  process a (pages C s N (ram s)) [i; j] -> kept_byte C s k o -> kept_byte C s 1 x ->
  exists s', perform_all C junk rec fuel [Switch c; Load o; Switch a; Load (page_size C + x)] s =
      Ret ([None; Some (rd8 (ram s) (frame_at C s k + o)); None; Some (rd8 (ram s) (frame_at C s 1 + x))], s') /\
    process b (pages C s N (ram s')) [k; 1]%nat /\ process a (pages C s N (ram s')) [i; j].
Proof.
  intros HfN Hf Hcov L Hnull Ht Hal Hsh Hin Hrun Hab Hbc Hac Hb Hc Ha Ho Hx.
  pose proof (process_lt _ _ _ 1 _ Hb eq_refl) as HN. rewrite pages_length in HN.
  assert (k <> 0 /\ k <> 1)%nat as [Hk0 Hk1].
  { split; intros ->; apply Hbc;
      [exact (places_apart _ _ _ _ _ 0 0 _ Hb Hc eq_refl eq_refl)|exact (places_apart _ _ _ _ _ 1 0 _ Hb Hc eq_refl eq_refl)]. }
  assert (forall u v, [i; j] !! u = Some v -> tr 0 k v = v) as Hkeep.
  { intros u v Hu. apply tr_other; intros ->; [apply Hab|apply Hac]; symmetry;
      [exact (places_apart _ _ _ _ _ 0 u _ Hb Ha eq_refl Hu)|exact (places_apart _ _ _ _ _ 0 u _ Hc Ha eq_refl Hu)]. }
  destruct (one_page_turn C junk N rec fuel HfN Hf Hcov s a b c k o) as (s' & E & Em & Hopen & Hpr & Hbd); [done..|].
  exists s'. split_and!.
  - apply (perform_all_app C junk rec fuel [Switch c; Load o; Switch a] [Load (page_size C + x)] _ _ s s' s' E).
    eapply perform_all_cons; [|done]. replace (page_size C + x) with (page_size C * Z.of_nat 1 + x) by lia.
    apply perform_load. pose proof (Hbd 1%nat HN) as Hb1. rewrite tr_other in Hb1 by done.
    rewrite <- (kept_byte_moved C s (ram s') 1 1 x Hx Hb1). unfold frame_at in *. rewrite <- Em in *.
    apply (load_open C junk N rec fuel 1 s' 1 x); [by apply (layout_memp C s)|done|done|apply Hx|apply Hopen; lia].
  - replace [k; 1%nat] with (tr 0 k <$> [0; 1]%nat) by (cbn; by rewrite (tr_other 0 k 1)). by apply Hpr.
  - replace [i; j] with (tr 0 k <$> [i; j]) by (cbn; by rewrite (Hkeep 0%nat), (Hkeep 1%nat)). by apply Hpr.
Qed.

(** Five frames: thread 6 has the pages at the places 0 and 1, thread 5 one
    page at place 2, thread 7 those at the places 3 and 4. *)
Definition five : config := mkConfig 1152 256 384 128 576 64 16384 12288 8192 20480.
Definition five_state : vm := end_state (init five ∅ 10 4096 off_state).
Definition uneven_pages : vm :=
  give_to 7 2 4 (give_to 7 1 3 (give_to 5 1 2 (give_to 6 2 1 (give_to 6 1 0 five_state)))).
Definition uneven_state : vm := set_running (Some 6) uneven_pages.

Lemma five_ok : config_ok five 4096.
Proof. split; try (simpl; vlia). by left. Qed.

Lemma five_initialised : initialised five 4096 five_state.
Proof.
  destruct (init_run five ∅ 4096 five_ok 10 off_state) as (s' & E & Hi & _); [vm_compute; lia..|].
  unfold five_state. by rewrite E.
Qed.

Lemma five_memp : memp five_state = 4096.
Proof. apply five_initialised. Qed.

Lemma running_memp r s : memp (set_running r s) = memp s.
Proof. done. Qed.

Lemma running_table C N r s : table C s N (ram s) -> table C (set_running r s) N (ram (set_running r s)).
Proof. by apply table_memp. Qed.

Lemma uneven_memp : memp uneven_state = 4096.
Proof. unfold uneven_state, uneven_pages. rewrite running_memp, !give_memp. exact five_memp. Qed.

Lemma five_layout s : memp s = 4096 -> layout five s 5.
Proof. apply (init_layout five 4096 five_ok). Qed.

Lemma uneven_table : table five uneven_state 5 (ram uneven_state).
Proof.
  unfold uneven_state. apply running_table. unfold uneven_pages. do 5 (apply give_table_at; [apply five_layout; by rewrite ?give_memp, five_memp|lia|]).
  apply five_initialised.
Qed.

Lemma uneven_owners :
  owners (pages five uneven_state 5 (ram uneven_state)) = [(6, 1); (6, 2); (5, 1); (7, 1); (7, 2)].
Proof. vm_compute. reflexivity. Qed.

Lemma uneven_fields : inHandler uneven_state = 0 /\ shared uneven_state = 4992.
Proof. vm_compute. done. Qed.

Lemma uneven_process t pos :
  (t, pos) ∈ [(6, [0; 1]%nat); (5, [2]%nat); (7, [3; 4]%nat)] -> process t (pages five uneven_state 5 (ram uneven_state)) pos.
Proof.
  intros H. repeat (apply elem_of_cons in H as [[= -> ->]|H]); [..|by apply elem_of_nil in H]; (split;
    [intros [|[|j]] k [= <-]; (split; [by rewrite owners_lookup, uneven_owners|]); intros [|[|[|[|[|k']]]]]; rewrite owners_lookup, uneven_owners; done
    |intros [|[|[|[|[|k']]]]]; rewrite owners_lookup, uneven_owners; done]).
Qed.

Lemma uneven_kept k : (k < 5)%nat -> kept_byte five uneven_state k 60.
Proof. intros Hk. split; [simpl; lia|]. do 5 (destruct k as [|k]; [vm_compute; reflexivity|]). lia. Qed.

(** Thread 5 reads the last bytes of its page, and thread 7 then reads a byte of
    the second page of thread 6. *)
Lemma uneven_threads_share_witness :
  let m := ram uneven_state in let f := frame_at five uneven_state in
  exists s', perform_all five ∅ 1 100 [Switch 5; Load 60; Switch 7; Load (64 + 60)] uneven_state =
      Ret ([None; Some (rd8 m (f 2%nat + 60)); None; Some (rd8 m (f 1%nat + 60))], s') /\
    process 6 (pages five uneven_state 5 (ram s')) [2; 1]%nat /\
    process 7 (pages five uneven_state 5 (ram s')) [3; 4]%nat.
Proof.
  apply (uneven_threads_share five ∅ 5 1 100 uneven_state 7 6 5 3 4 2 60 60).
  - lia.
  - simpl. lia.
  - simpl. lia.
  - apply five_layout, uneven_memp.
  - apply null_unmapped_low; rewrite ?uneven_memp; simpl; lia.
  - exact uneven_table.
  - rewrite uneven_memp. reflexivity.
  - rewrite uneven_memp, (proj2 uneven_fields). simpl. lia.
  - apply uneven_fields.
  - reflexivity.
  - done.
  - done.
  - done.
  - apply uneven_process. left.
  - apply uneven_process. right. left.
  - apply uneven_process. right. right. left.
  - apply uneven_kept. lia.
  - apply uneven_kept. lia.
Defined.
