(* ===== verification/VmPrint.v ===== *)
(** * The memory manager: its diagnostic output

    The functions of vm.c that print the memory, over the state of the memory
    manager and the text written to stdout, and what they print: a text that
    is a function of the pages and elements, without any change to memory. *)

From Stdlib Require Import Ascii.
From stdpp Require Import strings.
From S2P Require Import Prelude LinkedList ByteMem Printf Log Vm VmSpec VmElems VmSwap VmPages VmPageOps VmArena VmInit VmSwapFile.
Import Vm Printf.

Module VmPrint.
Section Code.
Context (C : config).

Abbreviation P := (prog (vm * string)).

(** A function of vm.c; output to stdout. *)
Definition vmdo {A} (m : prog vm A) : P A := fun t =>
  match m (fst t) with
  | Ret (a, s') => Ret (a, (s', snd t))
  | Fault => Fault
  | Halt c => Halt c
  | Timeout => Timeout
  end.

Definition printf (format : string) (ap : list arg) : P unit := fun t =>
  match sprintf format ap with
  | Some s => Ret (tt, (fst t, snd t +:+ s))
  | None => Fault
  end.

Definition NL : string := Log.NL.
Definition RULE : string := "----------------------------------" +:+ NL.

(** The elements from [n] on, which is the same loop in [printMemory] and
    [printOSMemory] with other texts; [j] numbers the used ones. *)
Fixpoint elements_loop (fuel : nat) (indent title : string) (n j : Z) : P unit :=
  match fuel with
  | O => p_timeout
  | S f =>
      if n =? NULL then mret tt
      else
        fr ← vmdo (n_free C n);
        j' ← (if negb (fr =? 0) then printf (indent +:+ "----- Free Space -----" +:+ NL) [];; mret j
              else printf (indent +:+ "----- " +:+ title +:+ "%i -----" +:+ NL) [Slot j];;
                   mret (wraps 32 (j + 1)));
        sz ← vmdo (n_size C n);
        printf (indent +:+ "Size: %i" +:+ NL) [Slot sz];;
        n' ← vmdo (getNextSpace C n);
        elements_loop f indent title n' j'
  end.

Definition print_page (fuel : nat) (n : Z) : P unit :=
  p ← vmdo (n_pid C n);
  printf ("----- Page thread %i -----" +:+ NL) [Slot p];;
  st ← vmdo (n_start C n);
  printf ("Page start address %p     " +:+ NL) [Slot st];;
  o ← vmdo (n_order C n);
  printf ("Order %i     " +:+ NL) [Slot o];;
  sz ← vmdo (n_size C n);
  printf ("Size: %i" +:+ NL) [Slot sz];;
  dt ← vmdo (n_data C n);
  (if negb (dt =? 1) then
     printf ("      Contents:" +:+ NL) [];;
     s ← vmdo (n_start C n);
     elements_loop fuel "      " "Element " s 1
   else printf ("***This page's content starts on previous process page***" +:+ NL) []);;
  printf RULE [].

Fixpoint pages_loop (fuel rounds : nat) (n : Z) : P unit :=
  match rounds with
  | O => p_timeout
  | S r =>
      if n =? NULL then mret tt
      else
        fr ← vmdo (n_free C n);
        (if fr =? 0 then print_page fuel n else mret tt);;
        n' ← vmdo (getNextSpace C n);
        pages_loop fuel r n'
  end.

Definition printMemory (fuel : nat) : P unit :=
  n ← vmdo getFirstPage;
  printf (NL +:+ NL +:+ NL +:+ "Memory: " +:+ NL +:+ RULE) [];;
  pages_loop fuel fuel n;;
  printf (RULE +:+ NL +:+ NL) [].

Definition printOSMemory (fuel : nat) : P unit :=
  printf (NL +:+ NL +:+ "OS Memory: " +:+ NL +:+ RULE) [];;
  m ← vmdo (p_gets memp);
  elements_loop fuel "" "OS Element " (m + OSRESERVED_START C) 1;;
  printf RULE [].

(** The [k] first pages of the swap file, [i] printed so far. *)
Fixpoint swap_loop (rounds : nat) (k n i : Z) : P unit :=
  match rounds with
  | O => mret tt
  | S r =>
      if i <? k then
        if n =? NULL then printf ("printSwapF finished early: node was null." +:+ NL) []
        else
          st ← vmdo (n_start C n);
          x ← vmdo (load C 4 (st + NODE));
          p ← vmdo (n_pid C n);
          o ← vmdo (n_order C n);
          nx ← vmdo (n_next C n);
          printf ("%dth Node. n is at %d. Pid is %d. Order is %d. Next is at %d, val was %d." +:+ NL)
            [Slot i; Slot n; Slot p; Slot o; Slot nx; Slot (wraps 32 x)];;
          n' ← vmdo (n_next C n);
          swap_loop r k n' (i + 1)
      else mret tt
  end.

Definition printSwapF (fuel : nat) (k : Z) : P unit :=
  g ← vmdo (getSwap C fuel (swap_print C));
  if g =? 1 then printf ("Error opening swap." +:+ NL) []
  else
    printf ("Printing first %d pages of swapfile." +:+ NL) [Slot k; Slot (swap_print C)];;
    swap_loop (Z.to_nat k) k (swap_print C) 0.

(** What [setSIGSEGV] asks for: a handler that gets the signal's information,
    with no signal blocked meanwhile. *)
Inductive signal_handler := Handler.

Record sigact := mkSigact { sa_flags : Z; sa_mask : list Z; sa_sigaction : signal_handler }.

Definition SA_SIGINFO : Z := 4.
Definition SIGSEGV : Z := 11.

(** [sigaction] is the system call. *)
Definition setSIGSEGV (sigaction : Z -> sigact -> P Z) : P unit :=
  r ← sigaction SIGSEGV (mkSigact SA_SIGINFO [] Handler);
  if r =? -1 then
    printf ("Fatal error setting up signal handler" +:+ NL) [];; p_halt 1
  else mret tt.

End Code.
End VmPrint.

Import VmPrint.

(** ** What is printed *)

(** A number as [%i] prints it, an address as [%p] does. *)
Definition dec (v : Z) : string :=
  let n := wraps 32 v in
  pad start (if n <? 0 then "-" else EmptyString) (number 10 (Z.abs n)).

Definition ptr (v : Z) : string := default EmptyString (convert Ptr start (Slot v)).

(** A list of elements, the used ones numbered from [j]. *)
Fixpoint elements_text (indent title : string) (m : bytes) (ns : list Z) (j : Z) : string :=
  match ns with
  | [] => EmptyString
  | x :: ns' =>
      let size := indent +:+ "Size: " +:+ dec (ld 4 m (x + o_size)) +:+ NL in
      if is_free m x then
        indent +:+ "----- Free Space -----" +:+ NL +:+ size +:+ elements_text indent title m ns' j
      else
        indent +:+ "----- " +:+ title +:+ dec j +:+ " -----" +:+ NL +:+ size +:+
          elements_text indent title m ns' (wraps 32 (j + 1))
  end.

(** Text without conversions. *)
Fixpoint plain (s : string) : bool :=
  match s with EmptyString => true | String c s' => bool_decide (c <> "%"%char) && plain s' end.

Lemma plain_app s t fmt ap :
  plain s = true -> sprintf fmt ap = Some t -> sprintf (s +:+ fmt) ap = Some (s +:+ t).
Proof.
  intros Hs Ht. apply (vfprintf_app s fmt None [] ap s t); [| |done].
  - clear -Hs. induction s as [|c s IH]; [done|]. cbn in Hs. apply andb_prop in Hs as [Hc%bool_decide_eq_true Hs].
    cbn. rewrite decide_False by done. by rewrite IH.
  - clear -Hs. induction s as [|c s IH]; [done|]. cbn in Hs. apply andb_prop in Hs as [Hc%bool_decide_eq_true Hs].
    cbn. rewrite decide_False by done. by apply IH.
Qed.

Lemma plain_text s : plain s = true -> sprintf s [] = Some s.
Proof.
  intros Hs. induction s as [|c s IH]; [done|]. cbn in Hs. apply andb_prop in Hs as [Hc%bool_decide_eq_true Hs].
  unfold sprintf in *. cbn. rewrite decide_False by done. by rewrite IH.
Qed.

Lemma app_nil_string (s : string) : s +:+ EmptyString = s.
Proof. induction s as [|c s IH]; [done|]. change (String c (s +:+ EmptyString) = String c s). by rewrite IH. Qed.

Lemma vmdo_bind {A B} (m : prog vm A) (k : A -> prog (vm * string) B) s out a s' :
  m s = Ret (a, s') -> (vmdo m ≫= k) (s, out) = k a (s', out).
Proof. intros E. apply bind_Ret. unfold vmdo. simpl. by rewrite E. Qed.

Lemma printf_bind {B} fmt ap (k : unit -> prog (vm * string) B) s out text :
  sprintf fmt ap = Some text -> (printf fmt ap ≫= k) (s, out) = k tt (s, out +:+ text).
Proof. intros E. apply bind_Ret. unfold printf. by rewrite E. Qed.

Section Texts.
Context (C : config).

Lemma elements_loop_text indent title ns fuel s m n j out :
  plain indent = true -> plain title = true -> chain m n ns -> nodes_ok C s ns -> (length ns < fuel)%nat ->
  elements_loop C fuel indent title n j (set_ram m s, out) =
    Ret (tt, (set_ram m s, out +:+ elements_text indent title m ns j)).
Proof.
  intros Hi Hti. revert fuel n j out. induction ns as [|x ns IH]; intros [|f] n j out Hc Hok Hf; try (simpl in Hf; lia);
    cbn [elements_loop chain elements_text] in *.
  { subst n. change (NULL =? NULL) with true. cbn match. by rewrite app_nil_string. }
  destruct Hc as (-> & Hx & Hc). apply Forall_cons in Hok as [Hs Hok]. rewrite (proj2 (Z.eqb_neq _ _) Hx).
  unfold n_free, n_size. rewrite (vmdo_bind _ _ _ _ _ _ (load_at C s m 4 (x + o_free) _ _ Hs ltac:(vlia) ltac:(vlia))).
  set (line := if is_free m x then indent +:+ "----- Free Space -----" +:+ NL
               else indent +:+ "----- " +:+ title +:+ dec j +:+ " -----" +:+ NL).
  set (j' := if is_free m x then j else wraps 32 (j + 1)).
  rewrite (bind_Ret _ _ _ j' (set_ram m s, out +:+ line)).
  2:{ unfold line, j', is_free. destruct (ld 4 m (x + o_free) =? 0); cbn [negb].
      - by rewrite (printf_bind _ _ _ _ _ (indent +:+ "----- " +:+ title +:+ dec j +:+ " -----" +:+ NL))
          by (apply plain_app; [done|]; apply (plain_app "----- "); [done|]; by apply plain_app).
      - by rewrite (printf_bind _ _ _ _ _ (indent +:+ "----- Free Space -----" +:+ NL)) by (by apply plain_app). }
  rewrite (vmdo_bind _ _ _ _ _ _ (load_at C s m 4 (x + o_size) _ _ Hs ltac:(vlia) ltac:(vlia))).
  rewrite (printf_bind _ _ _ _ _ (indent +:+ "Size: " +:+ dec (ld 4 m (x + o_size)) +:+ NL)) by (by apply plain_app).
  rewrite (vmdo_bind _ _ _ _ _ _ (getNextSpace_at C s m x Hx Hs)).
  rewrite (IH f) by (done || (simpl in Hf; lia)). do 3 f_equal. unfold line, j'.
  destruct (is_free m x); by rewrite !string_app_assoc.
Qed.

(** ** The OS area *)

(** Used blocks of the sizes [zs], numbered from [i], and a free one. *)
Fixpoint blocks_text (zs : list Z) (r i : Z) : string :=
  match zs with
  | [] => "----- Free Space -----" +:+ NL +:+ "Size: " +:+ dec r +:+ NL
  | z :: zs' =>
      "----- OS Element " +:+ dec i +:+ " -----" +:+ NL +:+ "Size: " +:+ dec z +:+ NL +:+
        blocks_text zs' r (wraps 32 (i + 1))
  end.

Lemma arena_text m prev n zs r i :
  arena m prev n zs r -> elements_text "" "OS Element " m (arena_nodes n zs) i = blocks_text zs r i.
Proof.
  revert prev n i. induction zs as [|z zs IH]; intros prev n i; cbn [arena arena_nodes elements_text blocks_text].
  - intros (Ef & Ez & _). unfold is_free. rewrite Ef, Ez. cbn [negb Z.eqb]. cbv beta iota zeta.
    rewrite app_nil_string. done.
  - intros (Ef & Ez & _ & _ & _ & _ & Ha). unfold is_free at 1. rewrite Ef, Ez. cbn [negb Z.eqb]. cbv beta iota zeta.
    rewrite (IH _ _ _ Ha), !string_app_assoc. done.
Qed.

(** [printOSMemory] lists the blocks of the OS area in order with their sizes,
    returns, and changes nothing. *)
Theorem printOSMemory_text fuel s zs r out :
  os_area C s zs r -> 0 < memp s -> 0 <= OSRESERVED_START C ->
  arena_last (OSRESERVED_START C) zs + NODE <= PHYSICAL_SIZE C -> (length zs + 1 < fuel)%nat ->
  printOSMemory C fuel (s, out) =
    Ret (tt, (s, out +:+ NL +:+ NL +:+ "OS Memory: " +:+ NL +:+ RULE +:+ blocks_text zs r 1 +:+ RULE)).
Proof.
  intros Ha Hm Hos Hend Hf. unfold printOSMemory.
  rewrite (printf_bind _ _ _ _ _ (NL +:+ NL +:+ "OS Memory: " +:+ NL +:+ RULE)) by (by apply plain_text).
  rewrite (vmdo_bind _ _ _ _ (memp s) s) by done. unfold os_area in Ha.
  pose proof (fun out H1 H2 H3 => elements_loop_text "" "OS Element " (arena_nodes (memp s + OSRESERVED_START C) zs)
    fuel s (ram s) (memp s + OSRESERVED_START C) 1 out eq_refl eq_refl H1 H2 H3) as El. rewrite set_ram_id in El.
  erewrite bind_Ret.
  2:{ apply El.
      - eapply arena_chain; [|exact Ha]. lia.
      - apply Forall_forall. intros x Hx. apply (arena_nodes_in _ _ _ _ _ _ Ha) in Hx.
        eapply safe_sub; [by apply mem_safe|lia|].
        rewrite arena_last_total in *. lia.
      - rewrite arena_nodes_length. lia. }
  rewrite (arena_text _ _ _ _ _ _ Ha). unfold printf.
  rewrite (plain_text RULE) by done. cbn [fst snd]. by rewrite !string_app_assoc.
Qed.

(** ** The pages *)

Definition page_text (m : bytes) (n : Z) (ns : list Z) : string :=
  "----- Page thread " +:+ dec (ld 4 m (n + o_pid)) +:+ " -----" +:+ NL +:+
  "Page start address " +:+ ptr (ld 8 m (n + o_start)) +:+ "     " +:+ NL +:+
  "Order " +:+ dec (wraps 32 (ld 4 m (n + o_order))) +:+ "     " +:+ NL +:+
  "Size: " +:+ dec (ld 4 m (n + o_size)) +:+ NL +:+
  (if negb (ld 4 m (n + o_data) =? 1)
   then "      Contents:" +:+ NL +:+ elements_text "      " "Element " m ns 1
   else "***This page's content starts on previous process page***" +:+ NL) +:+ RULE.

(** The elements [ns] of the page of node [n], if it is in use and has some. *)
Definition page_elements s m n ns fuel : Prop :=
  is_free m n = false -> ld 4 m (n + o_data) <> 1 ->
  chain m (ld 8 m (n + o_start)) ns /\ nodes_ok C s ns /\ (length ns < fuel)%nat.

Lemma print_page_text fuel s m n ns out :
  safe C s n (n + NODE) -> is_free m n = false -> page_elements s m n ns fuel ->
  print_page C fuel n (set_ram m s, out) = Ret (tt, (set_ram m s, out +:+ page_text m n ns)).
Proof.
  intros Hs Hfr Hel. unfold print_page, n_pid, n_start, n_size, n_data, page_text.
  rewrite (vmdo_bind _ _ _ _ _ _ (load_at C s m 4 (n + o_pid) _ _ Hs ltac:(vlia) ltac:(vlia))).
  rewrite (printf_bind _ _ _ _ _ ("----- Page thread " +:+ dec (ld 4 m (n + o_pid)) +:+ " -----" +:+ NL)) by done.
  rewrite (vmdo_bind _ _ _ _ _ _ (load_at C s m 8 (n + o_start) _ _ Hs ltac:(vlia) ltac:(vlia))).
  rewrite (printf_bind _ _ _ _ _ ("Page start address " +:+ ptr (ld 8 m (n + o_start)) +:+ "     " +:+ NL)) by done.
  rewrite (vmdo_bind _ _ _ _ (wraps 32 (ld 4 m (n + o_order))) (set_ram m s)).
  2:{ unfold n_order. by rewrite (load_bind C s m 4 _ _ _ _ Hs) by vlia. }
  rewrite (printf_bind _ _ _ _ _ ("Order " +:+ dec (wraps 32 (ld 4 m (n + o_order))) +:+ "     " +:+ NL)) by done.
  rewrite (vmdo_bind _ _ _ _ _ _ (load_at C s m 4 (n + o_size) _ _ Hs ltac:(vlia) ltac:(vlia))).
  rewrite (printf_bind _ _ _ _ _ ("Size: " +:+ dec (ld 4 m (n + o_size)) +:+ NL)) by done.
  rewrite (vmdo_bind _ _ _ _ _ _ (load_at C s m 4 (n + o_data) _ _ Hs ltac:(vlia) ltac:(vlia))).
  destruct (Z.eqb_spec (ld 4 m (n + o_data)) 1) as [E|E]; cbn [negb].
  - rewrite (printf_bind _ _ _ _ _ ("***This page's content starts on previous process page***" +:+ NL)) by done.
    unfold printf. rewrite (plain_text RULE) by done. cbn [fst snd]. by rewrite !string_app_assoc.
  - destruct (Hel Hfr E) as (Hc & Hok & Hf).
    erewrite bind_Ret.
    2:{ rewrite (printf_bind _ _ _ _ _ ("      Contents:" +:+ NL)) by done.
        rewrite (vmdo_bind _ _ _ _ _ _ (load_at C s m 8 (n + o_start) _ _ Hs ltac:(vlia) ltac:(vlia))).
        by apply (elements_loop_text "      " "Element " ns). }
    unfold printf. rewrite (plain_text RULE) by done. cbn [fst snd]. by rewrite !string_app_assoc.
Qed.

(** The pages in use, in the order of the table. *)
Fixpoint pages_text (m : bytes) (ns : list Z) (els : Z -> list Z) : string :=
  match ns with
  | [] => EmptyString
  | n :: ns' => (if is_free m n then EmptyString else page_text m n (els n)) +:+ pages_text m ns' els
  end.

Lemma pages_loop_text ns fuel rounds s m n els out :
  chain m n ns -> nodes_ok C s ns -> (length ns < rounds)%nat ->
  (forall x, x ∈ ns -> page_elements s m x (els x) fuel) ->
  pages_loop C fuel rounds n (set_ram m s, out) = Ret (tt, (set_ram m s, out +:+ pages_text m ns els)).
Proof.
  revert rounds n out. induction ns as [|x ns IH]; intros [|r] n out Hc Hok Hf Hel; try (simpl in Hf; lia);
    cbn [pages_loop chain pages_text] in *.
  { subst n. change (NULL =? NULL) with true. cbn match. by rewrite app_nil_string. }
  destruct Hc as (-> & Hx & Hc). apply Forall_cons in Hok as [Hs Hok]. rewrite (proj2 (Z.eqb_neq _ _) Hx).
  unfold n_free. rewrite (vmdo_bind _ _ _ _ _ _ (load_at C s m 4 (x + o_free) _ _ Hs ltac:(vlia) ltac:(vlia))).
  set (text := if is_free m x then EmptyString else page_text m x (els x)).
  rewrite (bind_Ret _ _ _ tt (set_ram m s, out +:+ text)).
  2:{ unfold text. destruct (is_free m x) eqn:Efr; unfold is_free in Efr.
      - destruct (ld 4 m (x + o_free) =? 0); [done|]. by rewrite app_nil_string.
      - destruct (ld 4 m (x + o_free) =? 0) eqn:E0; [|done].
        apply print_page_text; [done|by unfold is_free; rewrite E0|apply Hel; by left]. }
  rewrite (vmdo_bind _ _ _ _ _ _ (getNextSpace_at C s m x Hx Hs)).
  rewrite (IH r); [by rewrite string_app_assoc|done|done|simpl in Hf; lia|].
  intros y Hy. apply Hel. by right.
Qed.

(** [printMemory] terminates on a well-formed table whose pages have finite
    lists of elements, prints a section for every page in use, in the order of
    the table, and changes nothing. *)
Theorem printMemory_text s N fuel els out :
  layout C s N -> table C s N (ram s) -> (N < fuel)%nat ->
  (forall x, x ∈ nodes s N -> page_elements s (ram s) x (els x) fuel) ->
  printMemory C fuel (s, out) =
    Ret (tt, (s, out +:+ NL +:+ NL +:+ NL +:+ "Memory: " +:+ NL +:+ RULE +:+
      pages_text (ram s) (nodes s N) els +:+ RULE +:+ NL +:+ NL)).
Proof.
  intros L Ht Hf Hel. unfold printMemory. rewrite (vmdo_bind _ _ _ _ (memp s) s) by done.
  rewrite (printf_bind _ _ _ _ _ (NL +:+ NL +:+ NL +:+ "Memory: " +:+ NL +:+ RULE)) by (by apply plain_text).
  pose proof (fun out H1 => pages_loop_text (nodes s N) fuel fuel s (ram s) (memp s) els out
    (table_chain C s N L (ram s) Ht) (nodes_ok_table C s N L) H1 Hel) as El. rewrite set_ram_id in El.
  erewrite bind_Ret by (apply El; by rewrite nodes_length). unfold printf. rewrite (plain_text (RULE +:+ NL +:+ NL)) by done. cbn [fst snd].
  by rewrite !string_app_assoc.
Qed.

End Texts.

(** Without a swap file [printSwapF] says so and reads nothing. *)
Lemma printSwapF_missing C fuel k s out :
  swapfile s = None -> printSwapF C fuel k (s, out) = Ret (tt, (s, out +:+ "Error opening swap." +:+ NL)).
Proof.
  intros E. unfold printSwapF. rewrite (vmdo_bind _ _ _ _ 1 s); [done|].
  unfold getSwap. rewrite (bind_Ret _ _ _ s s) by done. by rewrite E.
Qed.
